(* ===== verification/_CoqProject ===== *)
-Q . S2P
Prelude.v
GoBytes.v
GoStrings.v
GoEncoding.v
GoTime.v
GoSort.v
Sha256.v
GoEnv.v
Lines.v
Identity.v
Record.v
RecordProps.v
GoNumbers.v
StrictJson.v
Envelope.v
DemoJson.v
Hidden.v
HiddenProps.v
Catalog.v
Proto.v
NodeInfo.v
Value.v
RateLimit.v
ValueProps.v
Collector.v
CollectorProps.v
Governor.v
Session.v
SessionProps.v
Cell.v
Circuit.v
CircuitProps.v
Peer.v
Routing.v
Store.v
StoreProps.v
Lookup.v
RoutingIndex.v
RoutingInv.v
RoutingOps.v
RoutingProps.v
RoutingQuery.v
RoutingLimit.v
RoutingDemo.v
LookupProps.v
ServerProps.v
Discovery.v
DiscoveryProps.v
PeerStore.v
PeerStoreProps.v
