(* ===== verification/Prelude.v ===== *)
(** * VX6: a verified model of the overlay network's core

    VX6 is an IPv6 overlay network.  Nodes have an ed25519 identity and publish
    signed endpoint and service records; records are found through a Kademlia-like
    DHT and a shared discovery registry; connections are authenticated and
    encrypted sessions, optionally through onion circuits of relays.  This library
    models that core from the Go sources under src/internal and proves what makes
    it correct.

    ** Conventions

    - A Go function with an error result is a function to [res]: [Ok], [Err] with
      the constant part of the message, or [Panic] for a run-time panic.
    - Mutable state is passed explicitly: a [Record] per struct, a definition per
      method, the new state in the result.  Where the code shares pointers (the
      entries of the routing table) the state has a heap of entries.
    - Integers are [Z]; where a width matters the wrap-around is written out
      ([u8], [u32], [u64]) or the range is a hypothesis.  Instants and durations
      are nanoseconds; the zero time is 0.
    - The clock is an argument of each operation; where an operation reads it more
      than once the readings are separate ([now1], [now2], or [clock n]).
    - The order in which Go iterates a map, and the order of ties of sort.Slice
      (class [GoSort]), are arguments: the theorems hold for every order.
    - Libraries are classes with their documented behaviour as laws, and concrete
      instances for the examples (GoEnv): ed25519, AES-GCM, X25519 and HKDF, JSON,
      RFC 3339, IP addresses, Unicode case tables.  SHA-256 is defined (Sha256).
      Theorems that need collision resistance say which digests must differ.
    - Goroutines are modelled where their interleaving matters: the steps are
      separate definitions and a theorem speaks of a sequence of steps; the answers
      of the network are an oracle.

    ** Files

    Language and libraries: Prelude (results, tactics), GoBytes, GoStrings,
    GoEncoding, GoNumbers, GoTime, GoSort, GoEnv, Sha256, Lines (payloads of
    lines), DemoJson (example encodings).

    Identity and records: Identity (identity/store.go), Record and RecordProps
    (record/name.go, endpoint.go, service.go): a record verifies exactly if it is
    well formed, signed and current; constructors and verifiers are inverse;
    signatures bind every field.

    Wire: Proto (proto/proto.go), StrictJson (strictjson/decode.go): framing
    round-trips, request validation is exact, duplicate keys are rejected exactly.

    Secure sessions: Session, SessionProps (secure/session.go): honest ends agree
    on a key, the peer is authentic, the stream refines a FIFO of bytes; a hello
    with a short key panics.

    Onion circuits: Cell (onion/cell.go), Circuit, CircuitProps (onion/circuit.go,
    onion.go): cells round-trip at constant size, commands and responses cross a
    circuit in step layer by layer, set-up is authenticated, plans use distinct
    relays; the theorems on races and sizes show where circuits break.

    Relay governor: Governor (node/relay_governor.go): a counting semaphore.

    DHT values: Envelope, Hidden and HiddenProps, Catalog, Value and ValueProps,
    Collector and CollectorProps (dht/envelope.go, hidden_descriptor.go,
    private_catalog.go, value.go): what validates is authentic (hidden descriptors,
    which are unsigned, excepted), replacement is an order, a lookup result is
    confirmed and independent of iteration orders.

    DHT store: RateLimit, Store, StoreProps (dht/dht.go): the store refines a
    newest-value register while every disk write succeeds, replicas of records
    that stay valid converge, and peers change values only by authentic updates.
    ServerProps: over every run of a server (requests, restarts, replication, own
    records, failed writes) histories are bounded and memory and disk agree outside
    the keys of its own records whose write failed.

    Routing: NodeInfo, Peer, Routing, RoutingIndex, RoutingInv, RoutingOps,
    RoutingProps, RoutingQuery, RoutingLimit, RoutingDemo (dht/table.go,
    nodeinfo.go): the invariant over the shared heap for every table reachable by
    restores of unknown rows and unpinning of answered offline peers (the guard),
    exactness of the closest-node queries, the rules of liveness and activation.

    Lookups and replication: Lookup, LookupProps (dht/dht.go): lookups terminate
    within their limits and never ask a peer twice, their outcome is what they saw,
    replication tries candidates once and reports what is stored, and a refused
    store is still acknowledged.

    Discovery: Discovery, DiscoveryProps (discovery/discovery.go): the registry is
    well formed in every reachable state, never rolls back, restarts from its file,
    resolves a name only while it has one owner, and answers over the wire.

    ** Fuel and bounds

    Loops that the code bounds by a counter recurse on it (rounds of a lookup,
    retries, candidates left).  [write_loop] and [circuit_write] have the number
    of bytes as fuel, and each step sends at least one; [replicate] has the number
    of candidates; the JSON scan has one step per token.  The theorems state the
    results with this fuel, not "if it returns".

    ** Interfaces between components

    [ValuePersistence] is what the store needs of a disk; [JSON] and [StrictJSON]
    of an encoding; [GoSort] of a sort.  The store's theorems are proved against
    them and hold for every instance with the laws.

    ** Not modelled

    Sockets, dialing, TLS/QUIC transport and deadlines (a dial is an argument or
    an oracle); the bbolt transactions of the peer store beyond the value rows; the
    floating-point averages behind the adaptive parameters (the comparisons with
    their thresholds are arguments); the hidden-service runtime and cover traffic,
    the node's goroutines, configuration, liveness probes and file transfer (in
    the plan); command line, SDK, applications, GUI, IPsec and eBPF control, which
    drive the components or external programs. *)

From Stdlib Require Export ZArith Lia Ascii String.
From Stdlib Require Export Strings.Byte.
From stdpp Require Export sorting.
From stdpp Require Export base tactics option gmap strings numbers pretty list.

#[global] Set Default Goal Selector "!".
#[global] Open Scope string_scope.
#[global] Open Scope list_scope.
#[global] Open Scope Z_scope.

(** ** Results of Go functions

    A Go function returning [(T, error)] is modelled by [res T]; a run-time
    panic (nil dereference, index out of range, a documented panic of a
    library call) is the third outcome.  Error values carry the constant part
    of their message. *)
Inductive res (A : Type) : Type :=
| Ok (a : A)
| Err (msg : string)
| Panic.
Arguments Ok {A} a.
Arguments Err {A} msg.
Arguments Panic {A}.

#[export] Instance res_ret : MRet res := fun A a => Ok a.
#[export] Instance res_bind : MBind res := fun A B f m =>
  match m with Ok a => f a | Err e => Err e | Panic => Panic end.

Definition is_ok {A} (r : res A) : bool :=
  match r with Ok _ => true | _ => false end.

Declare Scope vx6_scope.
Delimit Scope vx6_scope with vx6.
(** [err_if c e ;; k]: the early return [if c { return err }]. *)
Definition err_if (c : bool) (e : string) : res unit :=
  if c then Err e else Ok tt.
Definition of_option {A} (o : option A) (e : string) : res A :=
  match o with Some a => Ok a | None => Err e end.
Infix "=?s" := String.eqb (at level 70, no associativity) : vx6_scope.
Notation "a <>?s b" := (negb (String.eqb a b)) (at level 70, no associativity) : vx6_scope.
#[global] Open Scope vx6_scope.

(** ** Automation *)
Create HintDb vx6.
Create Rewrite HintDb vx6.

Lemma res_bind_ok {A B} (m : res A) (f : A → res B) b :
  m ≫= f = Ok b ↔ ∃ a, m = Ok a ∧ f a = Ok b.
Proof. destruct m; naive_solver. Qed.

Lemma err_if_ok c e u : err_if c e = Ok u ↔ c = false.
Proof. destruct c, u; naive_solver. Qed.

Lemma of_option_ok {A} (o : option A) e a : of_option o e = Ok a ↔ o = Some a.
Proof. destruct o; naive_solver. Qed.

(** Split a successful chain of binds into its steps. *)
Ltac res_inv :=
  repeat match goal with
  | H : mbind _ _ = Ok _ |- _ =>
      apply res_bind_ok in H; destruct H as (? & ? & H)
  | H : err_if _ _ = Ok _ |- _ => apply err_if_ok in H
  | H : of_option _ _ = Ok _ |- _ => apply of_option_ok in H
  | H : (let '(_, _) := ?p in _) = Ok _ |- _ => destruct p
  | H : Ok _ = Ok _ |- _ => injection H as H
  | H : mret _ = Ok _ |- _ => injection H as H
  | H : Err _ = Ok _ |- _ => discriminate H
  | H : Panic = Ok _ |- _ => discriminate H
  end; subst.

(** Absence of panics, step by step. *)
Lemma no_panic_bind {A B} (m : res A) (f : A → res B) :
  m ≠ Panic → (∀ a, m = Ok a → f a ≠ Panic) → m ≫= f ≠ Panic.
Proof. destruct m; cbn; naive_solver. Qed.
Lemma no_panic_err_if c e : err_if c e ≠ Panic.
Proof. by destruct c. Qed.
Lemma no_panic_of_option {A} (o : option A) e : of_option o e ≠ Panic.
Proof. by destruct o. Qed.
Lemma no_panic_ok {A} (a : A) : Ok a ≠ Panic.
Proof. done. Qed.
Lemma no_panic_err {A} e : @Err A e ≠ Panic.
Proof. done. Qed.
Lemma no_panic_if {A} (c : bool) (x y : res A) : x ≠ Panic → y ≠ Panic → (if c then x else y) ≠ Panic.
Proof. by destruct c. Qed.
#[export] Hint Resolve no_panic_err_if no_panic_of_option no_panic_ok no_panic_err : vx6.
Ltac no_panic :=
  repeat first
    [ solve [auto with vx6]
    | match goal with |- mbind _ _ ≠ _ => apply no_panic_bind; [|intros ? ?] end
    | match goal with |- (if _ then _ else _) ≠ _ => apply no_panic_if end
    | match goal with |- (let '(_, _) := ?p in _) ≠ _ => destruct p end
    | match goal with |- match ?o with Some _ => _ | None => _ end ≠ _ => destruct o end ].

(** Turn boolean tests of the code into propositions. *)
Ltac bool_prop :=
  repeat match goal with
  | H : context [String.eqb _ _ = true] |- _ => rewrite String.eqb_eq in H
  | H : context [String.eqb _ _ = false] |- _ => rewrite String.eqb_neq in H
  | H : (_ && _)%bool = true |- _ => apply andb_true_iff in H; destruct H
  | H : (_ || _)%bool = false |- _ => apply orb_false_iff in H; destruct H
  | H : negb _ = true |- _ => apply negb_true_iff in H
  | H : negb _ = false |- _ => apply negb_false_iff in H
  | H : bool_decide _ = true |- _ => apply bool_decide_eq_true in H
  | H : bool_decide _ = false |- _ => apply bool_decide_eq_false in H
  | H : (_ <? _) = true |- _ => apply Z.ltb_lt in H
  | H : (_ <? _) = false |- _ => apply Z.ltb_ge in H
  | H : (_ <=? _) = true |- _ => apply Z.leb_le in H
  | H : (_ <=? _) = false |- _ => apply Z.leb_gt in H
  | H : (_ =? _) = true |- _ => apply Z.eqb_eq in H
  | H : (_ =? _) = false |- _ => apply Z.eqb_neq in H
  end.
