(* ===== verification/GoBytes.v ===== *)
(** * Go bytes and machine integers

    [[]byte] is [list byte]; the unsigned integer types are integers with
    their wrap-around written out; [encoding/binary]'s big-endian writers and
    readers are [be_bytes] and [be_Z]. *)
From S2P Require Import Prelude.

#[export] Instance byte_eq_decision : EqDecision byte := Byte.byte_eq_dec.

Abbreviation bytes := (list byte).

Definition byte_Z (b : byte) : Z := Z.of_N (Byte.to_N b).
Definition Z_byte (z : Z) : byte :=
  default x00 (Byte.of_N (Z.to_N (z mod 256))).

Definition u8 (z : Z) : Z := z mod 2 ^ 8.
Definition u16 (z : Z) : Z := z mod 2 ^ 16.
Definition u32 (z : Z) : Z := z mod 2 ^ 32.
Definition u64 (z : Z) : Z := z mod 2 ^ 64.
Definition max_u8 : Z := 2 ^ 8 - 1.
Definition max_u32 : Z := 2 ^ 32 - 1.
Definition max_u64 : Z := 2 ^ 64 - 1.
Definition min_i64 : Z := - 2 ^ 63.
Definition max_i64 : Z := 2 ^ 63 - 1.

(** Go's [len]. *)
Definition len {A} (l : list A) : Z := Z.of_nat (List.length l).
Definition slen (s : string) : Z := Z.of_nat (String.length s).

Definition str_bytes (s : string) : bytes := list_byte_of_string s.
Definition bytes_str (b : bytes) : string := string_of_list_byte b.

(** [binary.BigEndian.PutUintN]: [n] bytes, most significant first. *)
Fixpoint be_bytes (n : nat) (z : Z) : bytes :=
  match n with
  | O => []
  | S n' => be_bytes n' (z / 256) ++ [Z_byte z]
  end.

(** [binary.BigEndian.UintN]. *)
Definition be_Z (l : bytes) : Z := foldl (fun acc b => acc * 256 + byte_Z b) 0 l.

Lemma byte_Z_range b : 0 <= byte_Z b < 256.
Proof. unfold byte_Z. pose proof (Byte.to_N_bounded b). lia. Qed.

Lemma byte_Z_byte z : byte_Z (Z_byte z) = z mod 256.
Proof.
  unfold byte_Z, Z_byte.
  pose proof (Z.mod_pos_bound z 256 ltac:(lia)) as Hb.
  destruct (Byte.of_N (Z.to_N (z mod 256))) as [b|] eqn:E; simpl.
  - apply Byte.to_of_N in E. rewrite E. lia.
  - apply Byte.of_N_None_iff in E. lia.
Qed.

Lemma Z_byte_Z b : Z_byte (byte_Z b) = b.
Proof.
  unfold Z_byte. rewrite Z.mod_small by apply byte_Z_range.
  unfold byte_Z. by rewrite N2Z.id, Byte.of_to_N.
Qed.

Lemma byte_Z_inj b1 b2 : byte_Z b1 = byte_Z b2 → b1 = b2.
Proof. intros H. by rewrite <- (Z_byte_Z b1), <- (Z_byte_Z b2), H. Qed.

Lemma length_be_bytes n z : List.length (be_bytes n z) = n.
Proof. revert z; induction n; intros; simpl; [done|]. rewrite length_app, IHn; simpl; lia. Qed.

Lemma be_Z_snoc l b : be_Z (l ++ [b]) = be_Z l * 256 + byte_Z b.
Proof. unfold be_Z. by rewrite foldl_app. Qed.

Lemma be_Z_be_bytes n z : be_Z (be_bytes n z) = z mod 256 ^ Z.of_nat n.
Proof.
  revert z; induction n as [|n IH]; intros z.
  - by rewrite Z.mod_1_r.
  - cbn [be_bytes]. rewrite be_Z_snoc, IH, byte_Z_byte.
    rewrite Nat2Z.inj_succ, Z.pow_succ_r by lia.
    rewrite (Z.rem_mul_r z 256 (256 ^ Z.of_nat n)) by lia. lia.
Qed.

Lemma be_Z_range l : 0 <= be_Z l < 256 ^ len l.
Proof.
  induction l as [|b l IH] using rev_ind; [done|].
  rewrite be_Z_snoc. unfold len in *. rewrite length_app. simpl.
  replace (Z.of_nat (List.length l + 1)) with (Z.succ (Z.of_nat (List.length l))) by lia.
  rewrite Z.pow_succ_r by lia. pose proof (byte_Z_range b). lia.
Qed.

Lemma be_Z_inj l1 l2 :
  List.length l1 = List.length l2 → be_Z l1 = be_Z l2 → l1 = l2.
Proof.
  revert l2; induction l1 as [|b1 l1 IH] using rev_ind; intros l2 Hl HZ.
  - symmetry; by apply length_zero_iff_nil.
  - destruct l2 as [|b2 l2 _] using rev_ind; [by rewrite length_app in Hl; simpl in *; lia|].
    rewrite !length_app in Hl. simpl in Hl.
    rewrite !be_Z_snoc in HZ.
    pose proof (byte_Z_range b1). pose proof (byte_Z_range b2).
    assert (be_Z l1 = be_Z l2 ∧ byte_Z b1 = byte_Z b2) as [H1 H2] by lia.
    rewrite (IH l2) by (done || lia). by rewrite (byte_Z_inj _ _ H2).
Qed.

Lemma be_bytes_inj n z1 z2 :
  0 <= z1 < 256 ^ Z.of_nat n → 0 <= z2 < 256 ^ Z.of_nat n →
  be_bytes n z1 = be_bytes n z2 → z1 = z2.
Proof.
  intros H1 H2 E%(f_equal be_Z). rewrite !be_Z_be_bytes in E.
  by rewrite !Z.mod_small in E.
Qed.

Lemma str_bytes_str b : str_bytes (bytes_str b) = b.
Proof. apply list_byte_of_string_of_list_byte. Qed.
Lemma bytes_str_bytes s : bytes_str (str_bytes s) = s.
Proof. apply string_of_list_byte_of_string. Qed.
Lemma str_bytes_inj s1 s2 : str_bytes s1 = str_bytes s2 → s1 = s2.
Proof. intros H. by rewrite <- (bytes_str_bytes s1), H, bytes_str_bytes. Qed.
Lemma str_bytes_app s1 s2 : str_bytes (s1 +:+ s2) = str_bytes s1 ++ str_bytes s2.
Proof.
  unfold str_bytes, list_byte_of_string.
  induction s1; simpl; [done|]. by rewrite <- IHs1.
Qed.
Lemma length_str_bytes s : List.length (str_bytes s) = String.length s.
Proof.
  unfold str_bytes, list_byte_of_string.
  induction s; simpl; [done|]. by rewrite <- IHs.
Qed.

Lemma len_app {A} (l1 l2 : list A) : len (l1 ++ l2) = len l1 + len l2.
Proof. unfold len. rewrite length_app. lia. Qed.
Lemma len_nonneg {A} (l : list A) : 0 <= len l.
Proof. unfold len. lia. Qed.
Lemma len_nil_inv {A} (l : list A) : len l = 0 → l = [].
Proof. destruct l; [done|]. unfold len. simpl. lia. Qed.

#[export] Hint Rewrite @length_app @len_app length_be_bytes length_str_bytes : vx6.
#[export] Hint Resolve byte_Z_range len_nonneg : vx6.
