(* ===== verification/GoStrings.v ===== *)
(** * Go strings

    Go strings are byte strings, as are [String.string]s.  This file models the
    functions of the [strings] package the sources call.  Mapping a string with
    non-ASCII bytes to upper or lower case consults the Unicode tables; those
    are the operations of [UnicodeTables]. *)
From S2P Require Import Prelude GoBytes.

(** [strings.ToUpper]/[ToLower] on a string with a non-ASCII byte. *)
Class UnicodeTables := {
  unicode_ToUpper : string → string;
  unicode_ToLower : string → string;
}.

Fixpoint str_map (f : ascii → ascii) (s : string) : string :=
  match s with
  | EmptyString => EmptyString
  | String c s' => String (f c) (str_map f s')
  end.
Fixpoint str_forallb (f : ascii → bool) (s : string) : bool :=
  match s with
  | EmptyString => true
  | String c s' => f c && str_forallb f s'
  end.
Definition str_existsb (f : ascii → bool) (s : string) : bool :=
  negb (str_forallb (fun c => negb (f c)) s).

Definition chr (c : ascii) : Z := Z.of_N (N_of_ascii c).
Definition in_range (lo hi : ascii) (c : ascii) : bool :=
  (chr lo <=? chr c) && (chr c <=? chr hi).
Definition is_ascii (c : ascii) : bool := chr c <? 128.
Definition ascii_of_Z (z : Z) : ascii := ascii_of_N (Z.to_N z).
Definition ascii_upper (c : ascii) : ascii :=
  if in_range "a" "z" c then ascii_of_Z (chr c - 32) else c.
Definition ascii_lower (c : ascii) : ascii :=
  if in_range "A" "Z" c then ascii_of_Z (chr c + 32) else c.

Definition ToUpper `{UnicodeTables} (s : string) : string :=
  if str_forallb is_ascii s then str_map ascii_upper s else unicode_ToUpper s.
Definition ToLower `{UnicodeTables} (s : string) : string :=
  if str_forallb is_ascii s then str_map ascii_lower s else unicode_ToLower s.

Definition HasPrefix (s p : string) : bool := String.prefix p s.
Fixpoint sdrop (n : nat) (s : string) : string :=
  match n, s with
  | O, _ => s
  | S n', String _ s' => sdrop n' s'
  | S _, EmptyString => EmptyString
  end.
Definition TrimPrefix (s p : string) : string :=
  if HasPrefix s p then sdrop (String.length p) s else s.

(** [strings.ContainsAny] for a set of ASCII characters. *)
Definition ascii_mem (set : string) (c : ascii) : bool :=
  negb (str_forallb (fun d => negb (Ascii.eqb c d)) set).
Definition ContainsAny (s set : string) : bool := str_existsb (ascii_mem set) s.
Definition contains_char (c : ascii) (s : string) : bool := str_existsb (Ascii.eqb c) s.

(** [strings.Cut] at a one-byte separator. *)
Fixpoint Cut (s : string) (sep : ascii) : string * string * bool :=
  match s with
  | EmptyString => ("", "", false)
  | String c s' =>
      if Ascii.eqb c sep then ("", s', true)
      else let '(a, b, ok) := Cut s' sep in (String c a, b, ok)
  end.

(** [strings.Split] at a one-byte separator. *)
Fixpoint Split (s : string) (sep : ascii) : list string :=
  match s with
  | EmptyString => [""]
  | String c s' =>
      if Ascii.eqb c sep then "" :: Split s' sep
      else match Split s' sep with
           | [] => [String c ""]
           | x :: xs => String c x :: xs
           end
  end.

Fixpoint Join (l : list string) (sep : string) : string :=
  match l with
  | [] => ""
  | [x] => x
  | x :: xs => x +:+ sep +:+ Join xs sep
  end.

(** [strings.TrimSpace].  The code points of [unicode.IsSpace], by their UTF-8
    encodings. *)
Definition space_runes : list string :=
  let b := fun l => bytes_str (map Z_byte l) in
  map (fun z => b [z]) [9; 10; 11; 12; 13; 32] ++
  [b [194; 133]; b [194; 160]; b [225; 154; 128]] ++
  map (fun z => b [226; 128; z])
    [128; 129; 130; 131; 132; 133; 134; 135; 136; 137; 138; 168; 169; 175] ++
  [b [226; 129; 159]; b [227; 128; 128]].

Definition trim_one (runes : list string) (s : string) : option string :=
  match List.find (fun r => HasPrefix s r) runes with
  | Some r => Some (sdrop (String.length r) s)
  | None => None
  end.
Fixpoint trim_left_fuel (fuel : nat) (runes : list string) (s : string) : string :=
  match fuel with
  | O => s
  | S n => match trim_one runes s with
           | Some s' => trim_left_fuel n runes s'
           | None => s
           end
  end.
Definition str_rev (s : string) : string :=
  string_of_list_ascii (rev (list_ascii_of_string s)).
Definition TrimSpace (s : string) : string :=
  let l := trim_left_fuel (String.length s) space_runes s in
  str_rev (trim_left_fuel (String.length l) (map str_rev space_runes) (str_rev l)).

(** [strings.Trim] with a set of ASCII characters. *)
Fixpoint TrimLeft (set : string) (s : string) : string :=
  match s with
  | String c s' => if ascii_mem set c then TrimLeft set s' else s
  | EmptyString => EmptyString
  end.
Definition Trim (s set : string) : string :=
  str_rev (TrimLeft set (str_rev (TrimLeft set s))).

(** Bytewise comparison [a < b] of Go strings. *)
Definition str_lt (a b : string) : bool := String.ltb a b.
Definition str_gt (a b : string) : bool := String.ltb b a.

(** ** Lemmas *)
Lemma str_app_cons c s t : String c s +:+ t = String c (s +:+ t).
Proof. done. Qed.
Lemma str_app_nil_l t : "" +:+ t = t.
Proof. done. Qed.
#[export] Hint Rewrite str_app_cons str_app_nil_l : vx6.

Lemma prefix_app p s : HasPrefix (p +:+ s) p = true.
Proof.
  unfold HasPrefix. induction p; simpl; [by destruct s|].
  destruct (ascii_dec a a); [done|congruence].
Qed.

Lemma sdrop_app p s : sdrop (String.length p) (p +:+ s) = s.
Proof. by induction p. Qed.

Lemma TrimPrefix_app p s : TrimPrefix (p +:+ s) p = s.
Proof. unfold TrimPrefix. by rewrite prefix_app, sdrop_app. Qed.

Lemma HasPrefix_inv s p : HasPrefix s p = true → s = p +:+ TrimPrefix s p.
Proof.
  intros H. unfold TrimPrefix. rewrite H. revert s H.
  unfold HasPrefix. induction p as [|a p IH]; intros s H; [by destruct s|].
  destruct s as [|b s]; simpl in *; [done|].
  destruct (ascii_dec a b); [|done]. subst. rewrite str_app_cons. f_equal. by apply IH.
Qed.

Lemma TrimPrefix_inj s1 s2 p :
  HasPrefix s1 p = true → HasPrefix s2 p = true →
  TrimPrefix s1 p = TrimPrefix s2 p → s1 = s2.
Proof.
  intros H1 H2 E. rewrite (HasPrefix_inv _ _ H1), (HasPrefix_inv _ _ H2). by rewrite E.
Qed.

Lemma str_app_nil_r s : s +:+ "" = s.
Proof. induction s; [done|]. rewrite str_app_cons. by f_equal. Qed.
Lemma str_app_assoc a b c : (a +:+ b) +:+ c = a +:+ (b +:+ c).
Proof. induction a; [done|]. rewrite !str_app_cons. simpl. by f_equal. Qed.
Lemma str_length_app a b : String.length (a +:+ b) = (String.length a + String.length b)%nat.
Proof. induction a; [done|]. rewrite !str_app_cons. simpl. by f_equal. Qed.
Lemma str_app_inj_l p a b : p +:+ a = p +:+ b → a = b.
Proof. induction p; [done|]. rewrite !str_app_cons. intros [=]. auto. Qed.

Lemma str_forallb_app f a b :
  str_forallb f (a +:+ b) = str_forallb f a && str_forallb f b.
Proof. induction a; [done|]. rewrite str_app_cons. simpl. by rewrite IHa, andb_assoc. Qed.

Lemma str_forallb_impl (f g : ascii → bool) s :
  (∀ c, f c = true → g c = true) → str_forallb f s = true → str_forallb g s = true.
Proof.
  intros Hfg. induction s; simpl; [done|]. intros [? ?]%andb_true_iff.
  apply andb_true_iff; auto.
Qed.

Lemma str_forallb_map f g s :
  str_forallb f (str_map g s) = str_forallb (fun c => f (g c)) s.
Proof. induction s; simpl; [done|]. by rewrite IHs. Qed.

Lemma str_map_id f s : str_forallb (fun c => Ascii.eqb (f c) c) s = true → str_map f s = s.
Proof.
  induction s; simpl; [done|]. intros [Ha Hs]%andb_true_iff.
  apply Ascii.eqb_eq in Ha. rewrite Ha. f_equal. auto.
Qed.

Lemma str_map_length f s : String.length (str_map f s) = String.length s.
Proof. induction s; simpl; congruence. Qed.

(** An exhaustive check of a decidable property of all 256 characters. *)
Definition all_ascii : list ascii := map (fun n => ascii_of_nat n) (seq 0 256).
Lemma ascii_exhaust (P : ascii → bool) :
  forallb P all_ascii = true → ∀ c, P c = true.
Proof.
  intros H c. rewrite forallb_forall in H. apply H.
  unfold all_ascii. apply in_map_iff. exists (nat_of_ascii c).
  split; [apply ascii_nat_embedding|]. apply in_seq.
  pose proof (nat_ascii_bounded c). lia.
Qed.

(** ** The string order is a strict total order *)
Lemma ascii_compare_lt a b : Ascii.compare a b = Lt ↔ (N_of_ascii a < N_of_ascii b)%N.
Proof. unfold Ascii.compare. apply N.compare_lt_iff. Qed.
Lemma ascii_compare_refl a : Ascii.compare a a = Eq.
Proof. unfold Ascii.compare. apply N.compare_refl. Qed.

Lemma string_compare_refl s : String.compare s s = Eq.
Proof. induction s; simpl; [done|]. by rewrite ascii_compare_refl. Qed.

Lemma string_compare_trans s1 s2 s3 :
  String.compare s1 s2 = Lt → String.compare s2 s3 = Lt → String.compare s1 s3 = Lt.
Proof.
  revert s2 s3; induction s1 as [|a s1 IH]; intros [|b s2] [|c s3]; simpl; try done.
  destruct (Ascii.compare a b) eqn:Eab; try done;
  destruct (Ascii.compare b c) eqn:Ebc; try done; intros H1 H2.
  - apply Ascii.compare_eq_iff in Eab, Ebc. subst. rewrite ascii_compare_refl. eauto.
  - apply Ascii.compare_eq_iff in Eab. subst. by rewrite Ebc.
  - apply Ascii.compare_eq_iff in Ebc. subst. by rewrite Eab.
  - apply ascii_compare_lt in Eab, Ebc.
    assert (Ascii.compare a c = Lt) as ->; [|done].
    apply ascii_compare_lt. eapply N.lt_trans; eassumption.
Qed.

Lemma str_lt_spec a b : str_lt a b = true ↔ String.compare a b = Lt.
Proof. unfold str_lt, String.ltb. destruct (String.compare a b); naive_solver. Qed.
Lemma str_lt_irrefl a : str_lt a a = false.
Proof. unfold str_lt, String.ltb. by rewrite string_compare_refl. Qed.
Lemma str_lt_trans a b c : str_lt a b = true → str_lt b c = true → str_lt a c = true.
Proof. rewrite !str_lt_spec. apply string_compare_trans. Qed.
Lemma str_lt_total a b : str_lt a b = true ∨ a = b ∨ str_lt b a = true.
Proof.
  rewrite !str_lt_spec, (String.compare_antisym b a).
  destruct (String.compare a b) eqn:E; simpl; auto.
  apply String.compare_eq_iff in E. auto.
Qed.
Lemma str_lt_antisym a b : str_lt a b = true → str_lt b a = false.
Proof.
  intros H. destruct (str_lt b a) eqn:E; [|done].
  pose proof (str_lt_trans _ _ _ H E). by rewrite str_lt_irrefl in *.
Qed.
