(* ===== verification/GoEncoding.v ===== *)
(** * encoding/hex, encoding/base64 and strconv

    Executable models of the codecs the records and wire messages use, with
    their round trips. *)
From S2P Require Import Prelude GoBytes GoStrings.

(** ** encoding/hex *)
Definition hex_digit (z : Z) : ascii :=
  if z <? 10 then ascii_of_Z (48 + z) else ascii_of_Z (87 + z).
Definition hex_val (c : ascii) : option Z :=
  if in_range "0" "9" c then Some (chr c - 48)
  else if in_range "a" "f" c then Some (chr c - 87)
  else if in_range "A" "F" c then Some (chr c - 55)
  else None.

(** [hex.EncodeToString], also [fmt.Sprintf("%x", b)]. *)
Fixpoint hex_encode (b : bytes) : string :=
  match b with
  | [] => ""
  | x :: xs =>
      String (hex_digit (byte_Z x / 16)) (String (hex_digit (byte_Z x mod 16)) (hex_encode xs))
  end.

(** [hex.DecodeString]: odd length and non-hex characters are errors. *)
Fixpoint hex_decode (s : string) : option bytes :=
  match s with
  | EmptyString => Some []
  | String _ EmptyString => None
  | String a (String b s') =>
      h ← hex_val a; l ← hex_val b; r ← hex_decode s';
      Some (Z_byte (h * 16 + l) :: r)
  end.

(** A decidable fact about the first [n] integers, by evaluation. *)
Lemma small_Z_forallb (n : nat) (P : Z → bool) :
  forallb P (map Z.of_nat (seq 0 n)) = true → ∀ z, 0 <= z < Z.of_nat n → P z = true.
Proof.
  intros F z Hz. rewrite forallb_forall in F. apply F, in_map_iff.
  exists (Z.to_nat z). split; [lia|]. apply in_seq. lia.
Qed.

Lemma hex_val_digit z : 0 <= z < 16 → hex_val (hex_digit z) = Some z.
Proof.
  intros H. eapply bool_decide_eq_true. revert z H.
  apply (small_Z_forallb 16 (fun z => bool_decide (hex_val (hex_digit z) = Some z))).
  by vm_compute.
Qed.

Lemma hex_decode_encode b : hex_decode (hex_encode b) = Some b.
Proof.
  induction b as [|x xs IH]; [done|].
  pose proof (byte_Z_range x) as Hx.
  cbn [hex_encode hex_decode].
  rewrite !hex_val_digit by (Z.to_euclidean_division_equations; lia).
  cbn. rewrite IH. cbn. do 2 f_equal.
  rewrite <- (Z_byte_Z x) at 3. f_equal. Z.to_euclidean_division_equations; lia.
Qed.

Lemma hex_encode_length b : String.length (hex_encode b) = (2 * List.length b)%nat.
Proof. induction b; cbn [hex_encode String.length List.length]; lia. Qed.

Lemma hex_encode_inj b1 b2 : hex_encode b1 = hex_encode b2 → b1 = b2.
Proof. intros E%(f_equal hex_decode). rewrite !hex_decode_encode in E. congruence. Qed.

Lemma hex_encode_app b1 b2 : hex_encode (b1 ++ b2) = hex_encode b1 +:+ hex_encode b2.
Proof. induction b1; [done|]. cbn [hex_encode app]. rewrite IHb1. by rewrite !str_app_cons. Qed.

Lemma hex_decode_length s b : hex_decode s = Some b → String.length s = (2 * List.length b)%nat.
Proof.
  revert s; induction b as [|x b IH]; intros [|c1 [|c2 s]]; cbn [hex_decode String.length];
    try done; destruct (hex_val c1); try done; destruct (hex_val c2); try done;
    cbn; destruct (hex_decode s) eqn:E; cbn; try done; intros [=]; subst.
  cbn. rewrite (IH _ E). lia.
Qed.

Definition is_hex_lower (c : ascii) : bool := in_range "0" "9" c || in_range "a" "f" c.

Lemma hex_encode_lower b : str_forallb is_hex_lower (hex_encode b) = true.
Proof.
  assert (∀ z, 0 <= z < 16 → is_hex_lower (hex_digit z) = true) as Hd.
  { apply (small_Z_forallb 16 (fun z => is_hex_lower (hex_digit z))). by vm_compute. }
  induction b as [|x b IH]; [done|]. pose proof (byte_Z_range x).
  cbn [hex_encode str_forallb]. rewrite !Hd, IH by (Z.to_euclidean_division_equations; lia). done.
Qed.

(** ** encoding/base64 *)
Definition b64_std : string :=
  "ABCDEFGHIJKLMNOPQRSTUVWXYZabcdefghijklmnopqrstuvwxyz0123456789+/".
Definition b64_url : string :=
  "ABCDEFGHIJKLMNOPQRSTUVWXYZabcdefghijklmnopqrstuvwxyz0123456789-_".

Definition b64_char (alphabet : string) (z : Z) : ascii :=
  default "A"%char (String.get (Z.to_nat z) alphabet).
Fixpoint str_index (c : ascii) (s : string) : option Z :=
  match s with
  | EmptyString => None
  | String d s' => if Ascii.eqb c d then Some 0 else Z.succ <$> str_index c s'
  end.

(** [EncodeToString] with or without padding. *)
Fixpoint b64_encode (alphabet : string) (pad : bool) (b : bytes) : string :=
  let ch := b64_char alphabet in
  match b with
  | [] => ""
  | [x] =>
      let x := byte_Z x in
      String (ch (x / 4)) (String (ch (x mod 4 * 16)) (if pad then "==" else ""))
  | [x; y] =>
      let x := byte_Z x in let y := byte_Z y in
      String (ch (x / 4)) (String (ch (x mod 4 * 16 + y / 16))
        (String (ch (y mod 16 * 4)) (if pad then "=" else "")))
  | x :: y :: z :: b' =>
      let x := byte_Z x in let y := byte_Z y in let z := byte_Z z in
      String (ch (x / 4)) (String (ch (x mod 4 * 16 + y / 16))
        (String (ch (y mod 16 * 4 + z / 64)) (String (ch (z mod 64))
          (b64_encode alphabet pad b'))))
  end.

Definition StdEncoding_EncodeToString (b : bytes) : string := b64_encode b64_std true b.
Definition RawURLEncoding_EncodeToString (b : bytes) : string := b64_encode b64_url false b.

(** Quanta of [StdEncoding] without the ignored newlines: four characters give
    three bytes, padding is only allowed at the very end. *)
Fixpoint b64_quanta (s : string) : option bytes :=
  match s with
  | EmptyString => Some []
  | String c1 (String c2 (String c3 (String c4 s'))) =>
      v1 ← str_index c1 b64_std; v2 ← str_index c2 b64_std;
      if Ascii.eqb c3 "=" then
        if Ascii.eqb c4 "=" && (s' =?s "") then Some [Z_byte (v1 * 4 + v2 / 16)] else None
      else
        v3 ← str_index c3 b64_std;
        if Ascii.eqb c4 "=" then
          if s' =?s "" then Some [Z_byte (v1 * 4 + v2 / 16); Z_byte (v2 * 16 + v3 / 4)] else None
        else
          v4 ← str_index c4 b64_std; r ← b64_quanta s';
          Some (Z_byte (v1 * 4 + v2 / 16) :: Z_byte (v2 * 16 + v3 / 4) :: Z_byte (v3 * 64 + v4) :: r)
  | _ => None
  end.

Definition b64_newline (c : ascii) : bool := (chr c =? 10) || (chr c =? 13).
(** [StdEncoding.DecodeString]: carriage returns and newlines are skipped. *)
Fixpoint str_filter (f : ascii → bool) (s : string) : string :=
  match s with
  | EmptyString => EmptyString
  | String c s' => if f c then String c (str_filter f s') else str_filter f s'
  end.
Definition StdEncoding_DecodeString (s : string) : option bytes :=
  b64_quanta (str_filter (fun c => negb (b64_newline c)) s).

Definition b64_safe (c : ascii) : bool :=
  negb (Ascii.eqb c "=") && negb (b64_newline c).

Lemma b64_std_char z : 0 <= z < 64 →
  str_index (b64_char b64_std z) b64_std = Some z ∧ b64_safe (b64_char b64_std z) = true.
Proof.
  intros H.
  assert (bool_decide (str_index (b64_char b64_std z) b64_std = Some z) &&
          b64_safe (b64_char b64_std z) = true) as [E ?]%andb_true_iff.
  { revert z H. apply (small_Z_forallb 64). by vm_compute. }
  split; [by apply bool_decide_eq_true in E|done].
Qed.

(** The sextets of a quantum and the bytes they recombine to. *)
Lemma sextet_range x y : 0 <= x < 256 → 0 <= y < 256 →
  0 <= x / 4 < 64 ∧ 0 <= x mod 4 * 16 < 64 ∧ 0 <= x mod 4 * 16 + y / 16 < 64 ∧
  0 <= x mod 16 * 4 < 64 ∧ 0 <= x mod 16 * 4 + y / 64 < 64 ∧ 0 <= x mod 64 < 64.
Proof. intros. Z.to_euclidean_division_equations. lia. Qed.

Lemma sextet_bytes x y z : 
  Z_byte (byte_Z x / 4 * 4 + byte_Z x mod 4 * 16 / 16) = x ∧
  Z_byte (byte_Z x / 4 * 4 + (byte_Z x mod 4 * 16 + byte_Z y / 16) / 16) = x ∧
  Z_byte ((byte_Z x mod 4 * 16 + byte_Z y / 16) * 16 + byte_Z y mod 16 * 4 / 4) = y ∧
  Z_byte ((byte_Z x mod 4 * 16 + byte_Z y / 16) * 16 + (byte_Z y mod 16 * 4 + byte_Z z / 64) / 4) = y ∧
  Z_byte ((byte_Z y mod 16 * 4 + byte_Z z / 64) * 64 + byte_Z z mod 64) = z.
Proof.
  pose proof (byte_Z_range x). pose proof (byte_Z_range y). pose proof (byte_Z_range z).
  repeat split; apply byte_Z_inj; rewrite byte_Z_byte; Z.to_euclidean_division_equations; lia.
Qed.

Lemma bytes3_ind (P : bytes → Prop) :
  P [] → (∀ x, P [x]) → (∀ x y, P [x; y]) →
  (∀ x y z b, P b → P (x :: y :: z :: b)) → ∀ b, P b.
Proof.
  intros H0 H1 H2 H3. fix IH 1. intros [|x [|y [|z b]]]; [done..|]. apply H3, IH.
Qed.

Lemma b64_encode_filter b :
  str_filter (fun c => negb (b64_newline c)) (b64_encode b64_std true b)
  = b64_encode b64_std true b.
Proof.
  assert (∀ z, 0 <= z < 64 → negb (b64_newline (b64_char b64_std z)) = true) as Hc.
  { intros z Hz. destruct (b64_std_char z Hz) as [_ H]. by apply andb_true_iff in H as [_ ?]. }
  induction b as [|x|x y|x y z b IH] using bytes3_ind; [done|..];
    cbn [b64_encode str_filter];
    [ destruct (sextet_range _ _ (byte_Z_range x) (byte_Z_range x)) as (? & ? & ? & ? & ? & ?)
    | destruct (sextet_range _ _ (byte_Z_range x) (byte_Z_range y)) as (? & ? & ? & ? & ? & ?); destruct (sextet_range _ _ (byte_Z_range y) (byte_Z_range y)) as (? & ? & ? & ? & ? & ?)
    | destruct (sextet_range _ _ (byte_Z_range x) (byte_Z_range y)) as (? & ? & ? & ? & ? & ?); destruct (sextet_range _ _ (byte_Z_range y) (byte_Z_range z)) as (? & ? & ? & ? & ? & ?);
      destruct (sextet_range _ _ (byte_Z_range z) (byte_Z_range z)) as (? & ? & ? & ? & ? & ?) ];
    rewrite !Hc by assumption; [done..|]. by rewrite IH.
Qed.

Lemma b64_quanta_encode b : b64_quanta (b64_encode b64_std true b) = Some b.
Proof.
  assert (∀ z, 0 <= z < 64 → Ascii.eqb (b64_char b64_std z) "=" = false) as Hs.
  { intros z Hz. destruct (b64_std_char z Hz) as [_ H].
    apply andb_true_iff in H as [H _]. by apply negb_true_iff in H. }
  assert (∀ z, 0 <= z < 64 → str_index (b64_char b64_std z) b64_std = Some z) as Hi
    by (intros z Hz; by destruct (b64_std_char z Hz)).
  induction b as [|x|x y|x y z b IH] using bytes3_ind; [done|..];
    cbn [b64_encode b64_quanta];
    [ destruct (sextet_range _ _ (byte_Z_range x) (byte_Z_range x)) as (? & ? & ? & ? & ? & ?);
      pose proof (sextet_bytes x x x) as Hb
    | destruct (sextet_range _ _ (byte_Z_range x) (byte_Z_range y)) as (? & ? & ? & ? & ? & ?); destruct (sextet_range _ _ (byte_Z_range y) (byte_Z_range y)) as (? & ? & ? & ? & ? & ?);
      pose proof (sextet_bytes x y y) as Hb
    | destruct (sextet_range _ _ (byte_Z_range x) (byte_Z_range y)) as (? & ? & ? & ? & ? & ?); destruct (sextet_range _ _ (byte_Z_range y) (byte_Z_range z)) as (? & ? & ? & ? & ? & ?);
      destruct (sextet_range _ _ (byte_Z_range z) (byte_Z_range z)) as (? & ? & ? & ? & ? & ?); pose proof (sextet_bytes x y z) as Hb ];
    rewrite !Hi by assumption; cbn -[Z_byte b64_char b64_std str_index];
    rewrite ?Hs, ?Hi by assumption; cbn -[Z_byte b64_char b64_std str_index];
    destruct Hb as (Hb0 & Hb1 & Hb2 & Hb3 & Hb4); [by rewrite Hb0|by rewrite Hb1, Hb2|].
  rewrite IH. cbn -[Z_byte b64_char b64_std str_index]. by rewrite Hb1, Hb3, Hb4.
Qed.

Lemma b64_decode_encode b :
  StdEncoding_DecodeString (StdEncoding_EncodeToString b) = Some b.
Proof.
  unfold StdEncoding_DecodeString, StdEncoding_EncodeToString.
  by rewrite b64_encode_filter, b64_quanta_encode.
Qed.
