(* ===== verification/GoTime.v ===== *)
(** * Go's time package

    A [time.Time] is the number of nanoseconds since Go's zero time (January 1,
    year 1, 00:00:00 UTC), so [time.Time{}] is [0].  Monotonic clock readings
    and locations are not modelled: the sources compare instants and normalise
    to UTC before formatting.  [time.Duration] is a signed 64-bit count of
    nanoseconds and [Time.Sub] saturates.

    [time.Parse] and [Time.Format] with [time.RFC3339] are the operations of
    [RFC3339], with the documented round trip for whole seconds. *)
From S2P Require Import Prelude GoBytes GoStrings.

Definition zero_time : Z := 0.
Definition IsZero (t : Z) : bool := t =? 0.
Definition After (a b : Z) : bool := b <? a.
Definition Before (a b : Z) : bool := a <? b.

Definition Nanosecond : Z := 1.
Definition Second : Z := 10 ^ 9.
Definition Minute : Z := 60 * Second.
Definition Hour : Z := 60 * Minute.

(** [t.Sub(u)]: the difference, saturated to the range of [Duration]. *)
Definition Sub (t u : Z) : Z := Z.max min_i64 (Z.min max_i64 (t - u)).
Definition Add (t d : Z) : Z := t + d.

(** Seconds between the zero time and the Unix epoch. *)
Definition unix_offset : Z := 62135596800.
Definition Unix (t : Z) : Z := t / Second - unix_offset.

Lemma Sub_spec t u : - 2 ^ 63 <= t - u < 2 ^ 63 → Sub t u = t - u.
Proof. unfold Sub, min_i64, max_i64. lia. Qed.
Lemma Sub_lt t u d : 0 <= d < 2 ^ 63 → (Sub t u <? d) = (t - u <? d).
Proof. unfold Sub, min_i64, max_i64. lia. Qed.
Lemma Sub_gt t u d : 0 <= d < 2 ^ 63 - 1 → (d <? Sub t u) = (d <? t - u).
Proof. unfold Sub, min_i64, max_i64. lia. Qed.

(** An instant with no fraction of a second, which RFC 3339 text preserves;
    the format has four-digit years. *)
Definition whole_second (t : Z) : Z := t - t mod Second.
Definition rfc3339_range (t : Z) : Prop := 0 <= t < 315537897600 * Second.

Class RFC3339 := {
  time_Parse : string → option Z;
  time_Format : Z → string;
  time_Parse_Format t : rfc3339_range t → time_Parse (time_Format t) = Some (whole_second t);
  (** The empty text is no instant. *)
  time_Parse_empty : time_Parse "" = None;
  (** The text of an instant has no newline. *)
  time_Format_line t : contains_char "010" (time_Format t) = false;
}.

Lemma time_Format_not_empty `{RFC3339} t : rfc3339_range t → time_Format t ≠ "".
Proof. intros Hr E. pose proof (time_Parse_Format t Hr) as P. by rewrite E, time_Parse_empty in P. Qed.

Lemma whole_second_le t : whole_second t <= t.
Proof. unfold whole_second, Second. pose proof (Z.mod_pos_bound t (10^9)). lia. Qed.
Lemma whole_second_idemp t : whole_second (whole_second t) = whole_second t.
Proof. unfold whole_second, Second. Z.to_euclidean_division_equations. lia. Qed.
Lemma whole_second_mono t u : t <= u → whole_second t <= whole_second u.
Proof. unfold whole_second, Second. Z.to_euclidean_division_equations. lia. Qed.
