(* ===== verification/GoSort.v ===== *)
(** * Go's sort.Slice

    [sort.Slice] is not stable: on ties its order is unspecified.  [GoSort]
    states the documented contract (a permutation, ordered when [less] is a
    strict weak ordering); the components are verified against it, so their
    theorems hold for every order [sort.Slice] may produce. *)
From S2P Require Import Prelude GoBytes GoStrings.

(** What the documentation requires of [less]. *)
Record StrictWeakOrder {A} (less : A → A → bool) : Prop := {
  swo_asym x y : less x y = true → less y x = false;
  swo_neg_trans x y z : less x y = true → less x z = true ∨ less z y = true;
}.

Definition not_after {A} (less : A → A → bool) (x y : A) : Prop := less y x = false.

Class GoSort := {
  sort_Slice : ∀ {A : Type}, (A → A → bool) → list A → list A;
  sort_Slice_perm {A} (less : A → A → bool) l : sort_Slice less l ≡ₚ l;
  sort_Slice_sorted {A} (less : A → A → bool) l :
    StrictWeakOrder less → StronglySorted (not_after less) (sort_Slice less l);
}.

(** ** An instance: insertion sort, what [sort.Slice] runs on short slices *)
Fixpoint insert_by {A} (less : A → A → bool) (x : A) (l : list A) : list A :=
  match l with
  | [] => [x]
  | y :: l' => if less y x then y :: insert_by less x l' else x :: y :: l'
  end.
Fixpoint insertion_sort {A} (less : A → A → bool) (l : list A) : list A :=
  match l with
  | [] => []
  | x :: l' => insert_by less x (insertion_sort less l')
  end.

Lemma insert_by_perm {A} (less : A → A → bool) x l : insert_by less x l ≡ₚ x :: l.
Proof.
  induction l as [|y l IH]; simpl; [done|]. destruct (less y x); [|done].
  rewrite IH. by constructor.
Qed.

Lemma insertion_sort_perm {A} (less : A → A → bool) l : insertion_sort less l ≡ₚ l.
Proof. induction l; simpl; [done|]. by rewrite insert_by_perm, IHl. Qed.

Lemma not_after_trans {A} (less : A → A → bool) x y z :
  StrictWeakOrder less → not_after less x y → not_after less y z → not_after less x z.
Proof.
  unfold not_after. intros Hs H1 H2. destruct (less z x) eqn:E; [|done].
  destruct (swo_neg_trans _ Hs _ _ y E); congruence.
Qed.

Lemma insert_by_sorted {A} (less : A → A → bool) x l :
  StrictWeakOrder less →
  StronglySorted (not_after less) l → StronglySorted (not_after less) (insert_by less x l).
Proof.
  intros Hs. induction 1 as [|y l Hl IH Hy]; simpl; [repeat constructor|].
  destruct (less y x) eqn:E.
  - constructor; [done|]. rewrite insert_by_perm. constructor; [|done].
    by apply (swo_asym _ Hs).
  - constructor; [by constructor|]. constructor; [done|].
    eapply Forall_impl; [exact Hy|]. intros z Hz. by eapply not_after_trans.
Qed.

Lemma insertion_sort_sorted {A} (less : A → A → bool) l :
  StrictWeakOrder less → StronglySorted (not_after less) (insertion_sort less l).
Proof. intros Hs. induction l; simpl; [constructor|]. by apply insert_by_sorted. Qed.

#[export] Program Instance insertion_GoSort : GoSort := {|
  sort_Slice := @insertion_sort;
|}.
Next Obligation. intros. apply insertion_sort_perm. Qed.
Next Obligation. intros. by apply insertion_sort_sorted. Qed.

(** ** Facts about any sorted permutation *)
(** When no two different elements tie, the sorted order is unique, hence the
    result does not depend on the (unspecified) order of the input. *)
Lemma sorted_unique {A} (less : A → A → bool) l1 l2 :
  StrictWeakOrder less →
  (∀ x y, x ∈ l1 → y ∈ l1 → x = y ∨ less x y = true ∨ less y x = true) →
  l1 ≡ₚ l2 → StronglySorted (not_after less) l1 → StronglySorted (not_after less) l2 → l1 = l2.
Proof.
  intros Hs Ht Hp H1. revert l2 Hp. induction H1 as [|x l1 Hl1 IH Hx]; intros l2 Hp H2.
  - by apply Permutation_nil_l in Hp.
  - destruct l2 as [|y l2]; [by apply Permutation_nil_r in Hp|].
    inversion H2 as [|? ? Hl2 Hy]; subst.
    assert (x = y) as <-.
    { assert (x ∈ y :: l2) as Hin1 by (rewrite <- Hp; set_solver).
      assert (y ∈ x :: l1) as Hin2 by (rewrite Hp; set_solver).
      apply elem_of_cons in Hin1 as [|Hin1]; [done|].
      pose proof Hin2 as Hin2'. apply elem_of_cons in Hin2 as [|Hin2]; [done|].
      rewrite Forall_forall in Hx, Hy.
      specialize (Hx _ Hin2). specialize (Hy _ Hin1). unfold not_after in *.
      destruct (less x y) eqn:E1; [congruence|].
      destruct (less y x) eqn:E2; [congruence|].
      destruct (Ht x y) as [?|[?|?]]; [set_solver..|done|congruence|congruence]. }
    f_equal. apply IH; [|by apply Permutation_cons_inv in Hp|done].
    intros. apply Ht; set_solver.
Qed.

(** Go's string comparison satisfies the contract, also on a key. *)
Lemma str_lt_swo : StrictWeakOrder str_lt.
Proof.
  split; [apply str_lt_antisym|]. intros x y z Hxy.
  destruct (str_lt_total x z) as [?|[->|Hzx]]; [by left|by right|].
  right. by eapply str_lt_trans.
Qed.

Lemma on_swo {A B} (f : A → B) (less : B → B → bool) : StrictWeakOrder less →
  StrictWeakOrder (fun a b => less (f a) (f b)).
Proof. intros [Ha Hn]. split; eauto. Qed.
