(* ===== verification/Sha256.v ===== *)
(** * crypto/sha256

    An executable SHA-256 (FIPS 180-4), so that the DHT coordinates derived
    from names and keys are concrete values. *)
From S2P Require Import Prelude GoBytes GoEncoding.

Definition add32 (a b : Z) : Z := (a + b) mod 2 ^ 32.
Definition rotr (n x : Z) : Z := Z.lor (Z.shiftr x n) (Z.shiftl x (32 - n) mod 2 ^ 32).
Definition Ch (x y z : Z) : Z := Z.lxor (Z.land x y) (Z.land (Z.lxor x (2 ^ 32 - 1)) z).
Definition Maj (x y z : Z) : Z := Z.lxor (Z.lxor (Z.land x y) (Z.land x z)) (Z.land y z).
Definition Sigma0 (x : Z) : Z := Z.lxor (Z.lxor (rotr 2 x) (rotr 13 x)) (rotr 22 x).
Definition Sigma1 (x : Z) : Z := Z.lxor (Z.lxor (rotr 6 x) (rotr 11 x)) (rotr 25 x).
Definition sigma0 (x : Z) : Z := Z.lxor (Z.lxor (rotr 7 x) (rotr 18 x)) (Z.shiftr x 3).
Definition sigma1 (x : Z) : Z := Z.lxor (Z.lxor (rotr 17 x) (rotr 19 x)) (Z.shiftr x 10).

(** The constants are the first 32 fractional bits of the cube roots of the
    first 64 primes, and those of the square roots of the first 8. *)
Definition primes (n : Z) : list Z :=
  filter (fun p => forallb (fun d => negb (p mod d =? 0)) (seqZ 2 (Z.sqrt p - 1))) (seqZ 2 n).

(** The integer cube root, one bit at a time from bit [n - 1] down. *)
Fixpoint cbrt_bits (n : nat) (acc x : Z) : Z :=
  match n with
  | O => acc
  | S n' => let a := acc + 2 ^ Z.of_nat n' in cbrt_bits n' (if a ^ 3 <=? x then a else acc) x
  end.
Definition cbrt (x : Z) : Z := cbrt_bits 40 0 x.

Definition sha_K : list Z :=
  Eval vm_compute in map (fun p => cbrt (Z.shiftl p 96) mod 2 ^ 32) (take 64 (primes 320)).

Record hstate := HState { ha : Z; hb : Z; hc : Z; hd : Z; he : Z; hf : Z; hg : Z; hh : Z }.
Definition sha_init : hstate :=
  Eval vm_compute in
  let h := fun p => Z.sqrt (Z.shiftl p 64) mod 2 ^ 32 in
  HState (h 2) (h 3) (h 5) (h 7) (h 11) (h 13) (h 17) (h 19).

(** The padded message: a 1 bit, zeros, and the bit length as a [uint64]. *)
Definition sha_pad (m : bytes) : bytes :=
  let n := len m in
  let k := Z.to_nat ((55 - n) mod 64) in
  m ++ [x80] ++ repeat x00 k ++ be_bytes 8 (8 * n).

Fixpoint words (n : nat) (b : bytes) : list Z :=
  match n with
  | O => []
  | S n' => be_Z (take 4 b) :: words n' (drop 4 b)
  end.

(** The message schedule, most recent word first. *)
Fixpoint schedule (n : nat) (w : list Z) : list Z :=
  match n with
  | O => w
  | S n' =>
      let g := fun i => nth i w 0 in
      schedule n'
        (add32 (add32 (sigma1 (g 1%nat)) (g 6%nat)) (add32 (sigma0 (g 14%nat)) (g 15%nat)) :: w)
  end.

Definition round (s : hstate) (kw : Z * Z) : hstate :=
  let t1 := add32 (hh s) (add32 (Sigma1 (he s)) (add32 (Ch (he s) (hf s) (hg s)) (add32 kw.1 kw.2))) in
  let t2 := add32 (Sigma0 (ha s)) (Maj (ha s) (hb s) (hc s)) in
  HState (add32 t1 t2) (ha s) (hb s) (hc s) (add32 (hd s) t1) (he s) (hf s) (hg s).

Definition block (s : hstate) (b : bytes) : hstate :=
  let w := rev (schedule 48 (rev (words 16 b))) in
  let r := foldl round s (combine sha_K w) in
  HState (add32 (ha s) (ha r)) (add32 (hb s) (hb r)) (add32 (hc s) (hc r)) (add32 (hd s) (hd r))
         (add32 (he s) (he r)) (add32 (hf s) (hf r)) (add32 (hg s) (hg r)) (add32 (hh s) (hh r)).

Fixpoint blocks (n : nat) (s : hstate) (b : bytes) : hstate :=
  match n with
  | O => s
  | S n' => blocks n' (block s (take 64 b)) (drop 64 b)
  end.

(** [sha256.Sum256]. *)
Definition Sum256 (m : bytes) : bytes :=
  let p := sha_pad m in
  let s := blocks (Z.to_nat (len p / 64)) sha_init p in
  be_bytes 4 (ha s) ++ be_bytes 4 (hb s) ++ be_bytes 4 (hc s) ++ be_bytes 4 (hd s) ++
  be_bytes 4 (he s) ++ be_bytes 4 (hf s) ++ be_bytes 4 (hg s) ++ be_bytes 4 (hh s).

Lemma length_Sum256 m : List.length (Sum256 m) = 32%nat.
Proof. unfold Sum256. by rewrite !length_app, !length_be_bytes. Qed.

Lemma len_Sum256 m : len (Sum256 m) = 32.
Proof. unfold len. by rewrite length_Sum256. Qed.

(** The padding fills whole blocks. *)
Lemma sha_pad_blocks m : len (sha_pad m) mod 64 = 0.
Proof.
  unfold sha_pad, len. rewrite !length_app, repeat_length, length_be_bytes. simpl.
  Z.to_euclidean_division_equations. lia.
Qed.

Example sha256_empty :
  hex_encode (Sum256 []) = "e3b0c44298fc1c149afbf4c8996fb92427ae41e4649b934ca495991b7852b855".
Proof. vm_compute. reflexivity. Qed.
Example sha256_abc :
  hex_encode (Sum256 (str_bytes "abc")) = "ba7816bf8f01cfea414140de5dae2223b00361a396177a9cb410ff61f20015ad".
Proof. vm_compute. reflexivity. Qed.
Example sha256_two_blocks :
  hex_encode (Sum256 (str_bytes "abcdbcdecdefdefgefghfghighijhijkijkljklmklmnlmnomnopnopq"))
  = "248d6a61d20638b8e5c026930c3e6039a33ce45964ff2167f6ecedd419db06c1".
Proof. vm_compute. reflexivity. Qed.
