(* ===== verification/GoEnv.v ===== *)
(** * Library interfaces of the model

    What the sources rely on from [crypto/ed25519], AES-GCM, X25519 and HKDF,
    [encoding/json] and [net], as classes with the documented behaviour as
    laws, and an instance of each that satisfies the laws (used by the concrete
    examples; it makes no claim of cryptographic strength). *)
From S2P Require Import Prelude GoBytes GoStrings GoEncoding GoTime Sha256.

(** ** crypto/ed25519 *)
Definition PublicKeySize : Z := 32.
Definition PrivateKeySize : Z := 64.
Definition SignatureSize : Z := 64.

Class Ed25519 := {
  (** A private key produced by [GenerateKey] (seed followed by public key). *)
  ed_keypair : bytes → Prop;
  ed_sign : bytes → bytes → bytes;
  ed_verify : bytes → bytes → bytes → bool;
  ed_sign_length k m : len (ed_sign k m) = 64;
  ed_keypair_length k : ed_keypair k → len k = 64;
  ed_verify_sign k m : ed_keypair k → ed_verify (drop 32 k) m (ed_sign k m) = true;
}.

(** [PrivateKey.Public]. *)
Definition ed_Public (priv : bytes) : bytes := drop 32 priv.

(** [ed25519.Sign] and [Verify] panic on keys of the wrong size. *)
Definition ed25519_Sign `{Ed25519} (priv msg : bytes) : res bytes :=
  if len priv =? PrivateKeySize then Ok (ed_sign priv msg) else Panic.
Definition ed25519_Verify `{Ed25519} (pub msg sig : bytes) : res bool :=
  if len pub =? PublicKeySize
  then Ok ((len sig =? SignatureSize) && ed_verify pub msg sig) else Panic.

Lemma ed25519_Verify_ok `{Ed25519} pub msg sig :
  ed25519_Verify pub msg sig = Ok true →
  len pub = 32 ∧ len sig = 64 ∧ ed_verify pub msg sig = true.
Proof.
  unfold ed25519_Verify, PublicKeySize, SignatureSize.
  destruct (len pub =? 32) eqn:E; [|done]. intros [= Hb]. bool_prop. done.
Qed.

(** A checksum of key and message in place of a signature. *)
Definition checksum (b : bytes) : byte := Z_byte (foldr (fun x acc => byte_Z x + acc) 0 b).
Definition demo_mac (pub m : bytes) : bytes := repeat (checksum (pub ++ m)) 64.
#[export] Program Instance demo_Ed25519 : Ed25519 := {|
  ed_keypair k := List.length k = 64%nat;
  ed_sign k m := demo_mac (drop 32 k) m;
  ed_verify p m s := bool_decide (s = demo_mac p m);
|}.
Next Obligation. intros. unfold demo_mac, len. by rewrite repeat_length. Qed.
Next Obligation. intros k Hk. cbn in Hk. unfold len. by rewrite Hk. Qed.
Next Obligation. intros. by apply bool_decide_eq_true. Qed.

(** ** AES-GCM, X25519, HKDF *)
Class AEAD := {
  aead_Seal : bytes → bytes → bytes → bytes → bytes;         (* key, nonce, plaintext, data *)
  aead_Open : bytes → bytes → bytes → bytes → option bytes;  (* key, nonce, ciphertext, data *)
  aead_Open_Seal k n p d : aead_Open k n (aead_Seal k n p d) d = Some p;
  aead_Seal_length k n p d : len (aead_Seal k n p d) = len p + 16;
}.
(** [cipher.NewGCM]: nonces have twelve bytes, others make [Seal] and [Open] panic. *)
Definition gcm_NonceSize : Z := 12.
Definition gcm_Seal `{AEAD} (key nonce plaintext data : bytes) : res bytes :=
  if len nonce =? gcm_NonceSize then Ok (aead_Seal key nonce plaintext data) else Panic.
Definition gcm_Open `{AEAD} (key nonce ciphertext data : bytes) : res bytes :=
  if len nonce =? gcm_NonceSize
  then of_option (aead_Open key nonce ciphertext data) "cipher: message authentication failed"
  else Panic.

(** The tag comes first and shows the nonce, so that opening under another one fails. *)
Definition demo_tag (k n p d : bytes) : bytes :=
  take 12 (n ++ repeat x00 12) ++ repeat (checksum (k ++ p ++ d)) 4.
Definition demo_open (k n c d : bytes) : option bytes :=
  let p := drop 16 c in
  if bool_decide (take 16 c = demo_tag k n p d) then Some p else None.
Lemma demo_tag_length k n p d : List.length (demo_tag k n p d) = 16%nat.
Proof. unfold demo_tag. rewrite length_app, length_take, length_app, !repeat_length. lia. Qed.
#[export] Program Instance demo_AEAD : AEAD := {|
  aead_Seal k n p d := demo_tag k n p d ++ p;
  aead_Open := demo_open;
|}.
Next Obligation.
  intros k n p d. unfold demo_open. rewrite drop_app_length', take_app_length' by by rewrite demo_tag_length.
  by rewrite bool_decide_eq_true_2.
Qed.
Next Obligation.
  intros k n p d. unfold len. rewrite length_app, demo_tag_length. lia.
Qed.

Class KeyExchange := {
  x_public : bytes → bytes;
  x_shared : bytes → bytes → option bytes;  (* private key, peer public key *)
  hkdf_Key : bytes → bytes → string → bytes;  (* secret, salt, info *)
  x_public_length a : len (x_public a) = 32;
  x_shared_comm a b : x_shared a (x_public b) = x_shared b (x_public a);
}.
(** Public keys carry the private key's digest; the shared secret is their sum. *)
Definition demo_shared (a p : bytes) : option bytes :=
  Some (be_bytes 33 (be_Z (Sum256 a) + be_Z p)).
#[export] Program Instance demo_KeyExchange : KeyExchange := {|
  x_public := Sum256;
  x_shared := demo_shared;
  hkdf_Key s salt info := Sum256 (s ++ salt ++ str_bytes info);
|}.
Next Obligation. intros. apply len_Sum256. Qed.
Next Obligation. intros a b. unfold demo_shared. by rewrite Z.add_comm. Qed.

(** ** encoding/json

    [json_safe] holds of the values JSON preserves (integers in the range of
    their Go type, strings that are valid UTF-8; the encoder replaces other
    bytes).  Decoding skips white space around the value. *)
Class JSON (T : Type) := {
  json_Marshal : T → string;
  json_MarshalIndent : T → string;
  json_Unmarshal : string → option T;
  json_safe : T → Prop;
  json_Unmarshal_Marshal x : json_safe x → json_Unmarshal (json_Marshal x) = Some x;
  json_Unmarshal_Indent x :
    json_safe x → json_Unmarshal (json_MarshalIndent x +:+ String "010" "") = Some x;
}.
Arguments JSON : clear implicits.

(** An instance for any record given by its string fields: hexadecimal fields,
    each closed by a comma. *)
Fixpoint enc_fields (l : list string) : string :=
  match l with
  | [] => ""
  | x :: l' => hex_encode (str_bytes x) +:+ "," +:+ enc_fields l'
  end.
Fixpoint dec_fields (n : nat) (parts : list string) : option (list string) :=
  match n, parts with
  | O, _ => Some []
  | S n', p :: parts' => b ← hex_decode p; r ← dec_fields n' parts'; Some (bytes_str b :: r)
  | S _, [] => None
  end.

Lemma Split_cons_sep a s c :
  contains_char c a = false → Split (a +:+ String c s) c = a :: Split s c.
Proof.
  unfold contains_char, str_existsb. induction a as [|d a IH]; cbn [str_forallb negb].
  - intros _. rewrite str_app_nil_l. cbn. by rewrite Ascii.eqb_refl.
  - intros H%negb_false_iff. apply andb_true_iff in H as [Hd Ha].
    rewrite str_app_cons. cbn [Split]. apply negb_true_iff in Hd.
    rewrite Ascii.eqb_sym in Hd. rewrite Hd.
    rewrite IH by (by rewrite Ha). done.
Qed.

Lemma hex_encode_no_char c b : is_hex_lower c = false → contains_char c (hex_encode b) = false.
Proof.
  intros Hc. unfold contains_char, str_existsb. apply negb_false_iff.
  eapply str_forallb_impl; [|apply hex_encode_lower].
  intros d Hd. apply negb_true_iff. destruct (Ascii.eqb_spec c d); congruence.
Qed.

Lemma dec_enc_fields l t : dec_fields (List.length l) (Split (enc_fields l +:+ t) ",") = Some l.
Proof.
  induction l as [|x l IH]; [done|]. cbn [enc_fields List.length].
  rewrite str_app_assoc, str_app_cons, str_app_nil_l, str_app_cons.
  rewrite Split_cons_sep by by apply hex_encode_no_char. cbn [dec_fields].
  rewrite hex_decode_encode. cbn. rewrite IH. cbn. by rewrite bytes_str_bytes.
Qed.

Definition demo_JSON {T} (n : nat) (to : T → list string) (ofs : list string → option T)
    (safe : T → Prop) (Hn : ∀ x, List.length (to x) = n) (Hof : ∀ x, safe x → ofs (to x) = Some x)
  : JSON T.
Proof.
  refine {| json_Marshal := fun x => enc_fields (to x);
            json_MarshalIndent := fun x => enc_fields (to x);
            json_Unmarshal := fun s => dec_fields n (Split s ",") ≫= ofs;
            json_safe := safe |}; intros x Hx.
  - rewrite <- (str_app_nil_r (enc_fields _)), <- (Hn x), dec_enc_fields. by apply Hof.
  - rewrite <- (Hn x), dec_enc_fields. by apply Hof.
Defined.

(** Integer fields of the instance. *)
Definition int_field (z : Z) : string := bytes_str (be_bytes 8 z).
Definition field_int (s : string) : Z := be_Z (str_bytes s).
Lemma field_int_field z : 0 <= z < 2 ^ 64 → field_int (int_field z) = z.
Proof. intros. unfold field_int, int_field. rewrite str_bytes_str, be_Z_be_bytes. apply Z.mod_small. lia. Qed.

(** ** An instance of the RFC 3339 interface: seconds, in hexadecimal *)
Definition demo_Format (t : Z) : string := hex_encode (be_bytes 8 (t / Second)).
Definition demo_Parse (s : string) : option Z :=
  b ← hex_decode s;
  if (List.length b =? 8)%nat then Some (be_Z b * Second) else None.
#[export] Program Instance demo_RFC3339 : RFC3339 := {|
  time_Format := demo_Format;
  time_Parse := demo_Parse;
|}.
Next Obligation.
  intros t Ht. unfold demo_Parse, demo_Format. rewrite hex_decode_encode. cbn -[be_bytes].
  rewrite length_be_bytes. cbn -[be_bytes]. rewrite be_Z_be_bytes. f_equal.
  unfold rfc3339_range, whole_second, Second in *.
  rewrite Z.mod_small; Z.to_euclidean_division_equations; lia.
Qed.
Next Obligation. done. Qed.
Next Obligation. intros t. by apply hex_encode_no_char. Qed.

(** ** net *)
(** [net.SplitHostPort]. *)
Fixpoint index_char (c : ascii) (s : string) : option nat :=
  match s with
  | EmptyString => None
  | String d s' => if Ascii.eqb c d then Some O else S <$> index_char c s'
  end.
Fixpoint last_index_char (c : ascii) (s : string) : option nat :=
  match s with
  | EmptyString => None
  | String d s' =>
      match last_index_char c s' with
      | Some n => Some (S n)
      | None => if Ascii.eqb c d then Some O else None
      end
  end.
Fixpoint stake (n : nat) (s : string) : string :=
  match n, s with
  | S n', String c s' => String c (stake n' s')
  | _, _ => EmptyString
  end.
Definition SplitHostPort (hostport : string) : option (string * string) :=
  i ← last_index_char ":" hostport;
  '(host, j, k) ←
    (if HasPrefix hostport "[" then
       end_ ← index_char "]" hostport;
       if (S end_ =? String.length hostport)%nat then None
       else if (S end_ =? i)%nat then Some (stake (end_ - 1) (sdrop 1 hostport), 1%nat, S end_)
       else None
     else
       let host := stake i hostport in
       if contains_char ":" host then None else Some (host, 0%nat, 0%nat));
  if contains_char "[" (sdrop j hostport) then None
  else if contains_char "]" (sdrop k hostport) then None
  else Some (host, sdrop (S i) hostport).

(** A [net.IP] is its 16-byte form; text conversions are operations of [NetIP]. *)
Class NetIP := {
  net_ParseIP : string → option bytes;
  ip_String : bytes → string;
}.

Definition v4_prefix : bytes := repeat x00 10 ++ [xff; xff].
Definition To4 (ip : bytes) : option bytes :=
  if bool_decide (take 12 ip = v4_prefix) then Some (drop 12 ip) else None.
Definition IsLoopback (ip : bytes) : bool :=
  match To4 ip with
  | Some v4 => bool_decide (take 1 v4 = [x7f])
  | None => bool_decide (ip = repeat x00 15 ++ [x01])
  end.
(** [ip.Mask(net.CIDRMask(8*keep, 8*len ip))]: keep the first bytes. *)
Definition mask_bytes (keep : nat) (ip : bytes) : bytes :=
  take keep ip ++ repeat x00 (List.length ip - keep).

(** An instance with a few addresses. *)
Definition demo_ParseIP (s : string) : option bytes :=
  if s =?s "::1" then Some (repeat x00 15 ++ [x01])
  else if s =?s "2001:db8::1" then Some ([x20; x01; x0d; xb8] ++ repeat x00 11 ++ [x01])
  else if s =?s "2001:db8::2" then Some ([x20; x01; x0d; xb8] ++ repeat x00 11 ++ [x02])
  else if s =?s "127.0.0.1" then Some (v4_prefix ++ [x7f; x00; x00; x01])
  else None.
#[export] Instance demo_NetIP : NetIP := {|
  net_ParseIP := demo_ParseIP;
  ip_String := hex_encode;
|}.

Example SplitHostPort_v6 : SplitHostPort "[2001:db8::1]:4242" = Some ("2001:db8::1", "4242").
Proof. reflexivity. Qed.
Example SplitHostPort_bare_v6 : SplitHostPort "2001:db8::1" = None.
Proof. reflexivity. Qed.
Example SplitHostPort_v4 : SplitHostPort "127.0.0.1:80" = Some ("127.0.0.1", "80").
Proof. reflexivity. Qed.
