(* ===== verification/Lines.v ===== *)
(** * Newline-separated payloads

    Every signature of VX6 is made over fields that are each closed by a
    newline.  [lines] is that layout; a payload whose fields have no newline
    inside determines them, whatever the other reading's fields contain. *)
From S2P Require Import Prelude GoBytes GoStrings GoEncoding.

Definition nl : ascii := "010".
Definition newline : string := String nl "".

(** [strconv.FormatUint(z, 10)] and [%d]. *)
Definition dec (z : Z) : string := pretty (Z.to_N z).

Fixpoint lines (l : list string) : string :=
  match l with
  | [] => ""
  | x :: l' => x +:+ newline +:+ lines l'
  end.

Definition one_line (s : string) : bool := negb (contains_char nl s).

Fixpoint count_char (c : ascii) (s : string) : nat :=
  match s with
  | EmptyString => 0
  | String d s' => (if Ascii.eqb c d then 1 else 0) + count_char c s'
  end.

Lemma count_char_app c a b : count_char c (a +:+ b) = (count_char c a + count_char c b)%nat.
Proof. induction a; [done|]. rewrite str_app_cons. cbn. lia. Qed.

Lemma one_line_count s : one_line s = true ↔ count_char nl s = 0%nat.
Proof.
  unfold one_line, contains_char, str_existsb. rewrite negb_involutive.
  induction s as [|c s IH]; [done|]. cbn [str_forallb count_char].
  destruct (Ascii.eqb nl c); cbn; [split; [done|lia]|]. apply IH.
Qed.

Lemma count_lines l :
  count_char nl (lines l) = (List.length l + sum_list (map (count_char nl) l))%nat.
Proof.
  induction l as [|x l IH]; [done|]. cbn [lines map]. unfold newline.
  rewrite !count_char_app, IH. cbn. lia.
Qed.

Lemma sum_list_zero l : sum_list l = 0%nat → Forall (fun n => n = 0%nat) l.
Proof. induction l; cbn; [constructor|]. intros. constructor; [lia|]. apply IHl. lia. Qed.

(** Two one-line fields followed by a newline split in the same place. *)
Lemma line_inj a b s t :
  one_line a = true → one_line b = true →
  a +:+ String nl s = b +:+ String nl t → a = b ∧ s = t.
Proof.
  rewrite !one_line_count. revert b; induction a as [|c a IH]; intros b Ha Hb E.
  - destruct b as [|d b]; rewrite ?str_app_cons, ?str_app_nil_l in E; [by injection E|].
    injection E as <- _. cbn in Hb. lia.
  - destruct b as [|d b]; rewrite ?str_app_cons, ?str_app_nil_l in E.
    + injection E as -> _. cbn in Ha. lia.
    + injection E as -> E. cbn in Ha, Hb.
      destruct (IH b) as [-> ->]; [lia|lia|done|done].
Qed.

(** A payload of one-line fields determines them. *)
Lemma lines_inj l1 l2 :
  List.length l1 = List.length l2 → Forall (fun s => one_line s = true) l1 →
  lines l1 = lines l2 → l1 = l2.
Proof.
  intros Hlen H1 E.
  assert (Forall (fun s => one_line s = true) l2) as H2.
  { pose proof (f_equal (count_char nl) E) as C. rewrite !count_lines in C.
    assert (sum_list (map (count_char nl) l1) = 0%nat) as C1.
    { clear -H1. induction H1 as [|x l Hx Hl IH]; [done|]. cbn.
      apply one_line_count in Hx. lia. }
    rewrite C1 in C. assert (sum_list (map (count_char nl) l2) = 0%nat) as C2 by lia.
    apply sum_list_zero in C2. rewrite Forall_fmap in C2.
    eapply Forall_impl; [exact C2|]. intros s Hs. by apply one_line_count. }
  clear -Hlen H1 H2 E. revert l2 Hlen H2 E.
  induction H1 as [|x l1 Hx H1 IH]; intros [|y l2] Hlen H2 E; try done.
  inversion H2; subst. cbn [lines] in E. unfold newline in E.
  rewrite !str_app_cons, !str_app_nil_l in E.
  apply line_inj in E as [-> E]; [|done..]. f_equal. apply IH; [|done..]. cbn in Hlen. lia.
Qed.

(** Decimal numbers are digits. *)
Lemma pretty_N_go_count c x s :
  (∀ d, pretty_N_char d ≠ c) → count_char c (pretty_N_go x s) = count_char c s.
Proof.
  intros Hc. revert s. induction (N.lt_wf_0 x) as [x _ IH]. intros s.
  destruct (decide (x = 0)%N) as [->|Hx]; [done|].
  rewrite pretty_N_go_step by lia. rewrite IH by (apply N.div_lt; lia). cbn.
  destruct (Ascii.eqb_spec c (pretty_N_char (x mod 10))) as [->|]; [|done].
  by destruct (Hc (x mod 10)%N).
Qed.

Lemma one_line_dec z : one_line (dec z) = true.
Proof.
  apply one_line_count. unfold dec, pretty, pretty_N. case_decide; [done|].
  rewrite pretty_N_go_count; [done|]. intros d. unfold pretty_N_char. by repeat case_match.
Qed.

Lemma dec_inj x y : 0 <= x → 0 <= y → dec x = dec y → x = y.
Proof. intros Hx Hy E. unfold dec in E. apply (inj pretty) in E. lia. Qed.

Lemma one_line_app a b : one_line (a +:+ b) = one_line a && one_line b.
Proof.
  unfold one_line, contains_char, str_existsb. by rewrite !negb_involutive, str_forallb_app.
Qed.

Lemma one_line_impl (f : ascii → bool) s :
  f nl = false → str_forallb f s = true → one_line s = true.
Proof.
  intros Hf Hs. unfold one_line, contains_char, str_existsb. rewrite negb_involutive.
  eapply str_forallb_impl; [|exact Hs]. intros c Hc.
  apply negb_true_iff. destruct (Ascii.eqb_spec nl c); congruence.
Qed.

Lemma one_line_hex b : one_line (hex_encode b) = true.
Proof. eapply one_line_impl; [|apply hex_encode_lower]. done. Qed.

#[export] Hint Resolve one_line_dec one_line_hex : vx6.
