(* ===== verification/Identity.v ===== *)
(** * Node identities (internal/identity/store.go)

    The Ed25519 identity, its NodeID (the SHA-256 of the whole public key) and
    the identity file.  The file is modelled by its contents and mode checks;
    directory creation and the atomic rename of [writeIdentityAtomic] are one
    replacement of the contents. *)
From S2P Require Import Prelude GoBytes GoStrings GoEncoding GoTime Sha256 GoEnv Lines.

Record Identity := mkIdentity {
  id_NodeID : string;
  id_PublicKey : bytes;
  id_PrivateKey : bytes;
}.

Record fileFormat := mkFileFormat {
  ff_NodeID : string;
  ff_PublicKey : string;
  ff_PrivateKey : string;
}.

Definition NodeIDFromPublicKey (publicKey : bytes) : string :=
  "vx6_" +:+ hex_encode (Sum256 publicKey).

Definition LegacyNodeIDFromPublicKey (publicKey : bytes) : string :=
  "vx6_" +:+ hex_encode (take 8 (Sum256 publicKey)).

Definition Identity_Validate (id : Identity) : res unit :=
  err_if (id_NodeID id =?s "") "identity missing node id";;
  err_if (negb (len (id_PublicKey id) =? PublicKeySize)) "identity contains invalid public key";;
  err_if (negb (len (id_PrivateKey id) =? PrivateKeySize)) "identity contains invalid private key";;
  err_if (NodeIDFromPublicKey (id_PublicKey id) <>?s id_NodeID id)
    "identity node id does not match public key";;
  err_if (negb (bool_decide (id_PublicKey id = ed_Public (id_PrivateKey id))))
    "identity public and private keys do not match".

(** The identity file: its contents and what [Lstat] says of it. *)
Record idfile := mkIdFile {
  f_content : string;
  f_regular : bool;
  f_mode : Z;
}.

(** [mode.Perm()&0o077 != 0]. *)
Definition validateIdentityFileMode (mode : Z) : res unit :=
  err_if (negb (Z.land (Z.land mode 511) 63 =? 0)) "identity file permissions are too broad".

(** The value [Save] encodes. *)
Definition identity_file (id : Identity) : fileFormat :=
  {| ff_NodeID := id_NodeID id;
     ff_PublicKey := StdEncoding_EncodeToString (id_PublicKey id);
     ff_PrivateKey := StdEncoding_EncodeToString (id_PrivateKey id) |}.

Section Store.
Context `{JSON fileFormat}.

(** [Save] writes through a fresh temporary file of mode 0600 (octal; 384). *)
Definition Save (id : Identity) (disk : option idfile) : res (option idfile) :=
  Identity_Validate id;;
  Ok (Some {| f_content := json_MarshalIndent (identity_file id) +:+ newline;
              f_regular := true; f_mode := 384 |}).

Definition Load (disk : option idfile) : res (Identity * option idfile) :=
  info ← of_option disk "stat identity file";
  err_if (negb (f_regular info)) "identity path is not a regular file";;
  validateIdentityFileMode (f_mode info);;
  raw ← of_option (json_Unmarshal (f_content info)) "decode identity";
  publicKey ← of_option (StdEncoding_DecodeString (ff_PublicKey raw)) "decode public key";
  privateKey ← of_option (StdEncoding_DecodeString (ff_PrivateKey raw)) "decode private key";
  let id := mkIdentity (ff_NodeID raw) publicKey privateKey in
  if ff_NodeID raw =?s LegacyNodeIDFromPublicKey publicKey then
    let id := mkIdentity (NodeIDFromPublicKey publicKey) publicKey privateKey in
    Identity_Validate id;;
    disk' ← Save id disk;
    Ok (id, disk')
  else
    Identity_Validate id;;
    Ok (id, disk).

(** [Ensure]: a missing file is replaced by the generated identity; every
    other failure of [Load] is reported. *)
Definition Ensure (generated : Identity) (disk : option idfile)
  : res (Identity * bool * option idfile) :=
  match disk with
  | None => disk' ← Save generated disk; Ok (generated, true, disk')
  | Some _ => '(id, disk') ← Load disk; Ok (id, false, disk')
  end.
End Store.

(** [Generate] from the key pair drawn by [ed25519.GenerateKey]. *)
Definition Generate (privateKey : bytes) : Identity :=
  mkIdentity (NodeIDFromPublicKey (ed_Public privateKey)) (ed_Public privateKey) privateKey.

(** ** Lemmas *)
Lemma NodeID_prefix k : HasPrefix (NodeIDFromPublicKey k) "vx6_" = true.
Proof. apply prefix_app. Qed.

Lemma NodeID_length k : slen (NodeIDFromPublicKey k) = 68.
Proof.
  unfold slen, NodeIDFromPublicKey. rewrite str_length_app, hex_encode_length, length_Sum256. done.
Qed.

Lemma NodeID_not_empty k : NodeIDFromPublicKey k ≠ "".
Proof. intros E. pose proof (NodeID_length k) as H. by rewrite E in H. Qed.

Lemma LegacyNodeID_length k : slen (LegacyNodeIDFromPublicKey k) = 20.
Proof.
  unfold slen, LegacyNodeIDFromPublicKey.
  rewrite str_length_app, hex_encode_length, length_take, length_Sum256. done.
Qed.

Lemma NodeID_not_legacy k k' : NodeIDFromPublicKey k ≠ LegacyNodeIDFromPublicKey k'.
Proof.
  intros E%(f_equal slen). by rewrite NodeID_length, LegacyNodeID_length in E.
Qed.

(** The NodeID determines the digest of the key. *)
Lemma NodeID_digest k k' : NodeIDFromPublicKey k = NodeIDFromPublicKey k' → Sum256 k = Sum256 k'.
Proof. intros E%str_app_inj_l. by apply hex_encode_inj in E. Qed.

Lemma Identity_Validate_ok id :
  Identity_Validate id = Ok tt ↔
  len (id_PublicKey id) = 32 ∧ len (id_PrivateKey id) = 64 ∧
  id_NodeID id = NodeIDFromPublicKey (id_PublicKey id) ∧
  id_PublicKey id = ed_Public (id_PrivateKey id).
Proof.
  unfold Identity_Validate, PublicKeySize, PrivateKeySize. split.
  - intros H. res_inv. bool_prop. done.
  - destruct id as [n p k]; cbn [id_NodeID id_PublicKey id_PrivateKey]. intros (H1 & H2 & -> & ->).
    pose proof (proj2 (String.eqb_neq _ _) (NodeID_not_empty (ed_Public k))) as ->.
    rewrite H1, H2, String.eqb_refl. cbn. by rewrite bool_decide_eq_true_2.
Qed.

Lemma Generate_valid `{Ed25519} k : ed_keypair k → Identity_Validate (Generate k) = Ok tt.
Proof.
  intros Hk%ed_keypair_length. apply Identity_Validate_ok. unfold Generate, ed_Public. cbn.
  repeat split; [|done]. revert Hk. unfold len. rewrite length_drop. lia.
Qed.

(** ** The identity file *)
Section StoreProps.
Context `{JSON fileFormat}.

Lemma Save_Load id disk :
  Identity_Validate id = Ok tt → json_safe (identity_file id) →
  ∃ d, Save id disk = Ok d ∧ Load d = Ok (id, d).
Proof.
  intros Hid Hs. unfold Save. rewrite Hid. eexists. split; [reflexivity|].
  unfold Load. cbn [of_option mbind res_bind f_regular f_mode f_content negb err_if].
  rewrite (json_Unmarshal_Indent _ Hs : json_Unmarshal (_ +:+ newline) = _).
  cbn -[StdEncoding_DecodeString LegacyNodeIDFromPublicKey Identity_Validate].
  rewrite !b64_decode_encode. cbn -[LegacyNodeIDFromPublicKey Identity_Validate].
  pose proof Hid as (_ & _ & Hn & _)%Identity_Validate_ok.
  rewrite (proj2 (String.eqb_neq _ _)) by (rewrite Hn; apply NodeID_not_legacy).
  destruct id. cbn -[Identity_Validate]. by rewrite Hid.
Qed.

Lemma Load_valid disk id d : Load disk = Ok (id, d) →
  Identity_Validate id = Ok tt ∧ (d = disk ∨ Save id disk = Ok d).
Proof.
  unfold Load. intros Hl. res_inv.
  match goal with u : unit |- _ => destruct u | _ => idtac end.
  destruct (_ =?s _); res_inv; repeat match goal with u : unit |- _ => destruct u end; auto.
Qed.

(** The identity file round-trips and loading settles it.  Saving a valid
    identity produces a file that loads as that identity and is left as it
    is; and whatever file [Load] accepts (a legacy short NodeID included,
    which it migrates in place), the identity is valid and loading the
    resulting file again returns it without another rewrite. *)
Theorem identity_file_stable disk id d :
  json_safe (identity_file id) →
  (Identity_Validate id = Ok tt → ∃ f, Save id disk = Ok f ∧ Load f = Ok (id, f)) ∧
  (Load disk = Ok (id, d) → Identity_Validate id = Ok tt ∧ Load d = Ok (id, d)).
Proof.
  intros Hs. split; [intros Hid; by apply Save_Load|]. intros Hl.
  pose proof (Load_valid _ _ _ Hl) as [Hid [->|Hsv]]; [done|]. split; [done|].
  destruct (Save_Load id disk Hid Hs) as (f & Hf & Hlf). congruence.
Qed.
End StoreProps.

#[export] Instance demo_JSON_identity : JSON fileFormat.
Proof.
  refine (demo_JSON 3 (fun f => [ff_NodeID f; ff_PublicKey f; ff_PrivateKey f])
    (fun l => match l with [a; b; c] => Some (mkFileFormat a b c) | _ => None end) (fun _ => True) _ _).
  - done.
  - by intros [].
Defined.

Definition demo_identity : Identity := Generate (map (fun n => Z_byte (Z.of_nat n)) (seq 0 64)).
(** A file written by an older release, with the 8-byte NodeID. *)
Definition demo_legacy_file : option idfile :=
  Some (mkIdFile
    (json_Marshal (mkFileFormat (LegacyNodeIDFromPublicKey (id_PublicKey demo_identity))
       (StdEncoding_EncodeToString (id_PublicKey demo_identity))
       (StdEncoding_EncodeToString (id_PrivateKey demo_identity)))) true 384).

Lemma identity_file_stable_witness :
  ∃ d, Load demo_legacy_file = Ok (demo_identity, d) ∧ Load d = Ok (demo_identity, d).
Proof.
  pose (d := match Load demo_legacy_file with Ok (_, d) => d | _ => None end).
  exists d. assert (Load demo_legacy_file = Ok (demo_identity, d)) as Hl by (vm_compute; reflexivity).
  split; [exact Hl|].
  apply (proj2 (@identity_file_stable demo_JSON_identity demo_legacy_file demo_identity d I) Hl).
Defined.
