(* ===== verification/Record.v ===== *)
(** * Signed records (internal/record)

    Canonical node names ([name.go]), endpoint records ([endpoint.go]) and
    service records ([service.go]): construction, signing payloads and
    verification on every branch. *)
From S2P Require Import Prelude GoBytes GoStrings GoEncoding GoTime Sha256 GoEnv Lines Identity.

(** ** name.go *)
Definition MinNodeNameLength : Z := 3.
Definition MaxNodeNameLength : Z := 16.

Definition name_char (r : ascii) : bool :=
  in_range "A" "Z" r || in_range "0" "9" r || Ascii.eqb r "-".

Fixpoint last_char (s : string) : option ascii :=
  match s with
  | EmptyString => None
  | String c EmptyString => Some c
  | String _ s' => last_char s'
  end.

(** The loop over runes rejects any rune outside the ASCII set, so it is the
    same test on bytes: a byte above 127 starts a rune above 127. *)
Definition validateCanonicalNodeName (name : string) : res unit :=
  err_if (slen name <? MinNodeNameLength) "node name must contain at least 3 characters";;
  err_if (MaxNodeNameLength <? slen name) "node name exceeds 16 characters";;
  err_if (bool_decide (String.get 0 name = Some "-"%char) || bool_decide (last_char name = Some "-"%char))
    "node name cannot start or end with a hyphen";;
  err_if (negb (str_forallb name_char name)) "node name contains unsupported characters".

Section Names.
Context `{UnicodeTables}.

Definition NormalizeNodeName (name : string) : res string :=
  let canonical := ToUpper name in
  validateCanonicalNodeName canonical;;
  Ok canonical.

Definition ValidateNodeName (name : string) : res unit :=
  NormalizeNodeName name;; Ok tt.

Definition ValidateCanonicalNodeName (name : string) : res unit :=
  err_if (name <>?s ToUpper name) "node name must be uppercase";;
  validateCanonicalNodeName name.
End Names.

(** ** transfer.ValidateIPv6Address *)
Definition ValidateIPv6Address `{NetIP} (address : string) : res unit :=
  '(host, _) ← of_option (SplitHostPort address) "invalid address";
  match net_ParseIP host with
  | None => Err "address is not an IPv6 endpoint"
  | Some ip => err_if (bool_decide (To4 ip ≠ None)) "address is not an IPv6 endpoint"
  end.

(** ** endpoint.go *)
Record EndpointRecord := mkEndpointRecord {
  er_Version : Z;   (* uint8 *)
  er_Sequence : Z;  (* uint64 *)
  er_NodeID : string;
  er_NodeName : string;
  er_Address : string;
  er_PublicKey : string;
  er_IssuedAt : string;
  er_ExpiresAt : string;
  er_Signature : string;
}.

Record VerifiedEndpointRecord := mkVerified {
  v_record : EndpointRecord;
  v_publicKey : bytes;
}.

Definition signingPayload (r : EndpointRecord) : bytes :=
  str_bytes
    (if 2 <=? er_Version r then
       "vx6/endpoint-record/v2" +:+ newline +:+ dec (er_Version r) +:+ newline +:+
       dec (er_Sequence r) +:+ newline +:+ er_NodeID r +:+ newline +:+
       er_NodeName r +:+ newline +:+ er_Address r +:+ newline +:+
       er_PublicKey r +:+ newline +:+ er_IssuedAt r +:+ newline +:+
       er_ExpiresAt r +:+ newline
     else
       er_NodeID r +:+ newline +:+ er_NodeName r +:+ newline +:+
       er_Address r +:+ newline +:+ er_PublicKey r +:+ newline +:+
       er_IssuedAt r +:+ newline +:+ er_ExpiresAt r +:+ newline).

Definition Fingerprint (r : EndpointRecord) : string :=
  RawURLEncoding_EncodeToString (take 12 (Sum256 (signingPayload r))).

Section Endpoint.
Context `{UnicodeTables, NetIP, RFC3339, Ed25519}.

Definition newEndpointRecord (id : Identity) (nodeName address : string)
    (ttl now sequence : Z) : res EndpointRecord :=
  canonicalName ← NormalizeNodeName nodeName;
  ValidateIPv6Address address;;
  err_if (ttl <=? 0) "ttl must be greater than zero";;
  Identity_Validate id;;
  let record := {|
    er_Version := if 0 <? sequence then 2 else 1;
    er_Sequence := if 0 <? sequence then sequence else 0;
    er_NodeID := id_NodeID id;
    er_NodeName := canonicalName;
    er_Address := address;
    er_PublicKey := StdEncoding_EncodeToString (id_PublicKey id);
    er_IssuedAt := time_Format now;
    er_ExpiresAt := time_Format (Add now ttl);
    er_Signature := "";
  |} in
  signature ← ed25519_Sign (id_PrivateKey id) (signingPayload record);
  Ok {|
    er_Version := er_Version record; er_Sequence := er_Sequence record;
    er_NodeID := er_NodeID record; er_NodeName := er_NodeName record;
    er_Address := er_Address record; er_PublicKey := er_PublicKey record;
    er_IssuedAt := er_IssuedAt record; er_ExpiresAt := er_ExpiresAt record;
    er_Signature := StdEncoding_EncodeToString signature;
  |}.

Definition NewEndpointRecord (id : Identity) (nodeName address : string) (ttl now : Z) :=
  newEndpointRecord id nodeName address ttl now 0.

Definition NewEndpointRecordV2 (id : Identity) (nodeName address : string) (sequence ttl now : Z) :=
  err_if (sequence =? 0) "record sequence must be greater than zero";;
  newEndpointRecord id nodeName address ttl now sequence.

Definition VerifyEndpoint (r : EndpointRecord) (now : Z) : res VerifiedEndpointRecord :=
  err_if ((er_NodeID r =?s "") || (er_NodeName r =?s "") || (er_Address r =?s ""))
    "record missing required fields";;
  ValidateCanonicalNodeName (er_NodeName r);;
  ValidateIPv6Address (er_Address r);;
  publicKey ← of_option (StdEncoding_DecodeString (er_PublicKey r)) "decode public key";
  signature ← of_option (StdEncoding_DecodeString (er_Signature r)) "decode signature";
  err_if (negb (len publicKey =? PublicKeySize)) "record contains invalid public key";;
  err_if (negb (len signature =? SignatureSize)) "record contains invalid signature";;
  expiresAt ← of_option (time_Parse (er_ExpiresAt r)) "parse expires_at";
  err_if (2 <? er_Version r) "unsupported endpoint record version";;
  err_if ((er_Version r =? 2) && (er_Sequence r =? 0)) "version 2 endpoint record has no sequence";;
  err_if ((er_Version r <? 2) && negb (er_Sequence r =? 0))
    "legacy endpoint record unexpectedly contains a sequence";;
  (if er_Version r <? 2 then
     issuedAt ← of_option (time_Parse (er_IssuedAt r)) "parse issued_at";
     err_if (negb (After expiresAt issuedAt)) "record expiry must be after issue time"
   else Ok tt);;
  err_if (After now expiresAt) "record has expired";;
  err_if (NodeIDFromPublicKey publicKey <>?s er_NodeID r) "record node id does not match public key";;
  ok ← ed25519_Verify publicKey (signingPayload r) signature;
  err_if (negb ok) "record signature verification failed";;
  Ok (mkVerified r publicKey).

Definition VerifyEndpointRecord (r : EndpointRecord) (now : Z) : res unit :=
  VerifyEndpoint r now;; Ok tt.

Definition EndpointRecordNewer (candidate current : EndpointRecord) : bool :=
  if negb (er_Version candidate =? er_Version current)
  then er_Version current <? er_Version candidate
  else if 2 <=? er_Version candidate
  then er_Sequence current <? er_Sequence candidate
  else match time_Parse (er_IssuedAt candidate), time_Parse (er_IssuedAt current) with
       | Some candidateTime, Some currentTime => After candidateTime currentTime
       | _, _ => false
       end.

(** [uint64(issuedAt.UTC().Unix())]: negative Unix times wrap around. *)
Definition EndpointRecordSequenceVersion (r : EndpointRecord) : Z :=
  if 2 <=? er_Version r then er_Sequence r
  else match time_Parse (er_IssuedAt r) with
       | Some issuedAt => u64 (Unix issuedAt)
       | None => 0
       end.
End Endpoint.

(** ** service.go *)
Record ServiceRecord := mkServiceRecord {
  sr_NodeID : string;
  sr_NodeName : string;
  sr_ServiceName : string;
  sr_Alias : string;
  sr_Address : string;
  sr_IsHidden : bool;
  sr_IsPrivate : bool;
  sr_HiddenProfile : string;
  sr_IntroPoints : list string;
  sr_StandbyIntroPoints : list string;
  sr_PublicKey : string;
  sr_IssuedAt : string;
  sr_ExpiresAt : string;
  sr_Signature : string;
}.

Definition bool_str (b : bool) : string := if b then "true" else "false".

Definition serviceSigningPayload (rec : ServiceRecord) : bytes :=
  let intros_ := Join (sr_IntroPoints rec) "," in
  let standbys := Join (sr_StandbyIntroPoints rec) "," in
  str_bytes
    (sr_NodeID rec +:+ newline +:+ sr_NodeName rec +:+ newline +:+
     sr_ServiceName rec +:+ newline +:+ sr_Alias rec +:+ newline +:+
     sr_Address rec +:+ newline +:+ bool_str (sr_IsHidden rec) +:+ newline +:+
     bool_str (sr_IsPrivate rec) +:+ newline +:+ sr_HiddenProfile rec +:+ newline +:+
     intros_ +:+ newline +:+ standbys +:+ newline +:+
     sr_PublicKey rec +:+ newline +:+ sr_IssuedAt rec +:+ newline +:+
     sr_ExpiresAt rec +:+ newline).

Definition ValidateServiceName (name : string) : res unit :=
  err_if (name =?s "") "service name cannot be empty";;
  err_if (contains_char "." name) "service name cannot contain dots".

Definition alias_reserved : string :=
  String " " (String "009" (String "013" (String "010" "/#"))).

Definition ValidateHiddenAlias (alias : string) : res unit :=
  err_if (alias =?s "") "hidden alias cannot be empty";;
  err_if (ContainsAny alias alias_reserved) "hidden alias contains unsupported characters".

Section Service.
Context `{UnicodeTables, NetIP, RFC3339, Ed25519}.

Definition NormalizeHiddenProfile (profile : string) : string :=
  let p := ToLower (TrimSpace profile) in
  if (p =?s "") || (p =?s "fast") then "fast"
  else if p =?s "balanced" then "balanced"
  else "".

Definition with_signature (rec : ServiceRecord) (sig : string) : ServiceRecord :=
  {| sr_NodeID := sr_NodeID rec; sr_NodeName := sr_NodeName rec;
     sr_ServiceName := sr_ServiceName rec; sr_Alias := sr_Alias rec;
     sr_Address := sr_Address rec; sr_IsHidden := sr_IsHidden rec;
     sr_IsPrivate := sr_IsPrivate rec; sr_HiddenProfile := sr_HiddenProfile rec;
     sr_IntroPoints := sr_IntroPoints rec; sr_StandbyIntroPoints := sr_StandbyIntroPoints rec;
     sr_PublicKey := sr_PublicKey rec; sr_IssuedAt := sr_IssuedAt rec;
     sr_ExpiresAt := sr_ExpiresAt rec; sr_Signature := sig |}.

Definition SignServiceRecord (id : Identity) (rec : ServiceRecord) : res ServiceRecord :=
  sig ← ed25519_Sign (id_PrivateKey id) (serviceSigningPayload rec);
  Ok (with_signature rec (StdEncoding_EncodeToString sig)).

Definition NewServiceRecord (id : Identity) (nodeName serviceName address : string)
    (ttl now : Z) : res ServiceRecord :=
  canonicalName ← NormalizeNodeName nodeName;
  ValidateServiceName serviceName;;
  (if address <>?s "" then ValidateIPv6Address address else Ok tt);;
  err_if (ttl <=? 0) "ttl must be greater than zero";;
  Identity_Validate id;;
  let rec := {|
    sr_NodeID := id_NodeID id; sr_NodeName := canonicalName; sr_ServiceName := serviceName;
    sr_Alias := ""; sr_Address := address; sr_IsHidden := false; sr_IsPrivate := false;
    sr_HiddenProfile := ""; sr_IntroPoints := []; sr_StandbyIntroPoints := [];
    sr_PublicKey := StdEncoding_EncodeToString (id_PublicKey id);
    sr_IssuedAt := time_Format now; sr_ExpiresAt := time_Format (Add now ttl);
    sr_Signature := "" |} in
  sig ← ed25519_Sign (id_PrivateKey id) (serviceSigningPayload rec);
  Ok (with_signature rec (StdEncoding_EncodeToString sig)).

Definition VerifyServiceRecord (rec : ServiceRecord) (now : Z) : res unit :=
  err_if ((sr_NodeID rec =?s "") || (sr_NodeName rec =?s "") || (sr_ServiceName rec =?s ""))
    "service record missing required fields";;
  ValidateCanonicalNodeName (sr_NodeName rec);;
  (if sr_Alias rec <>?s "" then ValidateHiddenAlias (sr_Alias rec) else Ok tt);;
  err_if (negb (sr_IsHidden rec) && (sr_Address rec =?s "")) "non-hidden service requires an address";;
  (if negb (sr_IsHidden rec) then ValidateIPv6Address (sr_Address rec) else Ok tt);;
  err_if (sr_IsHidden rec && sr_IsPrivate rec) "service cannot be both hidden and private";;
  (if sr_IsHidden rec then
     err_if (sr_Alias rec =?s "") "hidden service requires an alias";;
     err_if (NormalizeHiddenProfile (sr_HiddenProfile rec) =?s "") "hidden service contains invalid profile"
   else Ok tt);;
  publicKey ← of_option (StdEncoding_DecodeString (sr_PublicKey rec)) "decode public key";
  signature ← of_option (StdEncoding_DecodeString (sr_Signature rec)) "decode signature";
  err_if (negb (len publicKey =? PublicKeySize)) "service record contains invalid public key";;
  err_if (negb (len signature =? SignatureSize)) "service record contains invalid signature";;
  issuedAt ← of_option (time_Parse (sr_IssuedAt rec)) "parse issued_at";
  expiresAt ← of_option (time_Parse (sr_ExpiresAt rec)) "parse expires_at";
  err_if (negb (After expiresAt issuedAt)) "service record expiry must be after issue time";;
  err_if (After now expiresAt) "service record has expired";;
  err_if (NodeIDFromPublicKey publicKey <>?s sr_NodeID rec)
    "service record node id does not match public key";;
  ok ← ed25519_Verify publicKey (serviceSigningPayload rec) signature;
  err_if (negb ok) "service record signature verification failed".

Definition FullServiceName (nodeName serviceName : string) : string :=
  let nodeName := match NormalizeNodeName nodeName with Ok c => c | _ => nodeName end in
  nodeName +:+ "." +:+ serviceName.

Definition CanonicalServiceLookupKey (key : string) : string :=
  let '(nodeName, serviceName, ok) := Cut key "." in
  if negb ok then key
  else match NormalizeNodeName nodeName with
       | Ok canonical => canonical +:+ "." +:+ serviceName
       | _ => key
       end.

Definition ServiceLookupKey (rec : ServiceRecord) : string :=
  if sr_IsHidden rec && (sr_Alias rec <>?s "") then sr_Alias rec
  else FullServiceName (sr_NodeName rec) (sr_ServiceName rec).
End Service.
