(* ===== verification/RecordProps.v ===== *)
(** * Properties of names and signed records

    Canonical names are fixed points of normalisation; verification accepts
    exactly what its checks say; a record built by the constructors verifies
    until it expires; the signed payload binds every signed field; the
    freshness order is a strict order. *)
From S2P Require Import Prelude GoBytes GoStrings GoEncoding GoTime Sha256 GoEnv Lines Identity Record.

(** ** Names *)
Lemma validateCanonical_ok name :
  validateCanonicalNodeName name = Ok tt ↔
  3 <= slen name <= 16 ∧ String.get 0 name ≠ Some "-"%char ∧
  last_char name ≠ Some "-"%char ∧ str_forallb name_char name = true.
Proof.
  unfold validateCanonicalNodeName, MinNodeNameLength, MaxNodeNameLength. split.
  - intros H. res_inv. bool_prop. done.
  - intros ([? ?] & ? & ? & ->).
    rewrite (proj2 (Z.ltb_ge _ _)), (proj2 (Z.ltb_ge _ _)) by lia. cbn.
    by rewrite !bool_decide_eq_false_2.
Qed.

Lemma name_char_upper c : name_char c = true → is_ascii c && Ascii.eqb (ascii_upper c) c = true.
Proof.
  intros H.
  assert (implb (name_char c) (is_ascii c && Ascii.eqb (ascii_upper c) c) = true) as E.
  { apply (ascii_exhaust (fun c => implb (name_char c) (is_ascii c && Ascii.eqb (ascii_upper c) c))).
    by vm_compute. }
  by rewrite H in E.
Qed.

Section Names.
Context `{UnicodeTables}.

Lemma ToUpper_canonical s : str_forallb name_char s = true → ToUpper s = s.
Proof.
  intros Hs. unfold ToUpper.
  assert (str_forallb is_ascii s = true) as ->.
  { eapply str_forallb_impl; [|exact Hs]. intros c Hc.
    by apply name_char_upper, andb_true_iff in Hc as [? _]. }
  apply str_map_id. eapply str_forallb_impl; [|exact Hs]. intros c Hc.
  by apply name_char_upper, andb_true_iff in Hc as [_ ?].
Qed.

Lemma ValidateCanonical_ok name :
  ValidateCanonicalNodeName name = Ok tt ↔ validateCanonicalNodeName name = Ok tt.
Proof.
  unfold ValidateCanonicalNodeName. split; [intros H'; res_inv; by destruct x|].
  intros Hv. pose proof Hv as (_ & _ & _ & Hs)%validateCanonical_ok.
  by rewrite (ToUpper_canonical _ Hs), String.eqb_refl.
Qed.

Lemma Normalize_ok name c :
  NormalizeNodeName name = Ok c ↔ c = ToUpper name ∧ validateCanonicalNodeName (ToUpper name) = Ok tt.
Proof.
  unfold NormalizeNodeName. split.
  - intros H'. res_inv. by destruct x.
  - by intros [-> ->].
Qed.

Lemma Normalize_canonical name c :
  NormalizeNodeName name = Ok c → ValidateCanonicalNodeName c = Ok tt.
Proof. intros [-> Hv]%Normalize_ok. by apply ValidateCanonical_ok. Qed.

Lemma Normalize_fixpoint c : ValidateCanonicalNodeName c = Ok tt → NormalizeNodeName c = Ok c.
Proof.
  intros Hv%ValidateCanonical_ok. pose proof Hv as (_ & _ & _ & Hs)%validateCanonical_ok.
  apply Normalize_ok. by rewrite (ToUpper_canonical _ Hs).
Qed.

Lemma canonical_one_line c : ValidateCanonicalNodeName c = Ok tt → one_line c = true.
Proof.
  intros Hv%ValidateCanonical_ok%validateCanonical_ok. destruct Hv as (_ & _ & _ & Hs).
  by apply (one_line_impl name_char).
Qed.

Lemma canonical_not_empty c : ValidateCanonicalNodeName c = Ok tt → c ≠ "".
Proof. intros Hv%ValidateCanonical_ok%validateCanonical_ok ->. destruct Hv as [Hv _]. unfold slen in Hv. simpl in Hv. lia. Qed.
End Names.

(** Node names have one canonical form.  Normalising a name succeeds exactly
    with a 3 to 16 character string of A-Z, 0-9 and inner hyphens, which the
    validator of wire records accepts; and a name is accepted on the wire exactly
    when normalisation leaves it unchanged (so normalisation is idempotent). *)
Theorem node_name_canonical_form `{UnicodeTables} (name c : string) :
  (NormalizeNodeName name = Ok c →
     ValidateCanonicalNodeName c = Ok tt ∧ NormalizeNodeName c = Ok c ∧
     3 <= slen c <= 16 ∧ str_forallb name_char c = true ∧
     String.get 0 c ≠ Some "-"%char ∧ last_char c ≠ Some "-"%char) ∧
  (ValidateCanonicalNodeName c = Ok tt ↔ NormalizeNodeName c = Ok c).
Proof.
  split.
  - intros Hn. pose proof (Normalize_canonical _ _ Hn) as Hc.
    pose proof Hc as Hv%ValidateCanonical_ok%validateCanonical_ok.
    split; [done|]. split; [by apply Normalize_fixpoint|]. naive_solver.
  - split; [apply Normalize_fixpoint|]. apply Normalize_canonical.
Qed.

#[export] Instance demo_Unicode : UnicodeTables := {| unicode_ToUpper s := s; unicode_ToLower s := s |}.

Lemma node_name_canonical_form_witness :
  NormalizeNodeName "Alice-2" = Ok "ALICE-2" ∧ ValidateCanonicalNodeName "ALICE-2" = Ok tt.
Proof.
  assert (NormalizeNodeName "Alice-2" = Ok "ALICE-2") as E by (vm_compute; reflexivity).
  split; [exact E|].
  apply (proj1 (node_name_canonical_form "Alice-2" "ALICE-2") E).
Defined.

Lemma ValidateCanonical_no_panic `{UnicodeTables} n : ValidateCanonicalNodeName n ≠ Panic.
Proof. unfold ValidateCanonicalNodeName, validateCanonicalNodeName. no_panic. Qed.
Lemma ValidateIPv6_no_panic `{NetIP} a : ValidateIPv6Address a ≠ Panic.
Proof. unfold ValidateIPv6Address. no_panic. Qed.
#[export] Hint Resolve ValidateCanonical_no_panic ValidateIPv6_no_panic : vx6.

(** ** Endpoint records *)
Definition signed_lines (r : EndpointRecord) : list string :=
  (if 2 <=? er_Version r
   then ["vx6/endpoint-record/v2"; dec (er_Version r); dec (er_Sequence r)] else []) ++
  [er_NodeID r; er_NodeName r; er_Address r; er_PublicKey r; er_IssuedAt r; er_ExpiresAt r].

Lemma signingPayload_lines r : signingPayload r = str_bytes (lines (signed_lines r)).
Proof.
  unfold signingPayload, signed_lines. f_equal. destruct (2 <=? er_Version r);
  cbn [app lines]; by rewrite str_app_nil_r.
Qed.

Section EndpointProps.
Context `{UnicodeTables, NetIP, RFC3339, Ed25519}.

(** Everything a successful verification has established. *)
Record endpoint_valid (r : EndpointRecord) (now : Z) (pub : bytes) : Prop := {
  ev_name : ValidateCanonicalNodeName (er_NodeName r) = Ok tt;
  ev_addr : ValidateIPv6Address (er_Address r) = Ok tt;
  ev_addr_ne : er_Address r ≠ "";
  ev_pub : StdEncoding_DecodeString (er_PublicKey r) = Some pub;
  ev_pub_len : len pub = 32;
  ev_sig : ∃ sig, StdEncoding_DecodeString (er_Signature r) = Some sig ∧ len sig = 64 ∧
                  ed_verify pub (signingPayload r) sig = true;
  ev_expiry : ∃ e, time_Parse (er_ExpiresAt r) = Some e ∧ now <= e ∧
               (er_Version r < 2 → ∃ i, time_Parse (er_IssuedAt r) = Some i ∧ i < e);
  ev_version : er_Version r <= 2;
  ev_seq2 : er_Version r = 2 → er_Sequence r ≠ 0;
  ev_seq1 : er_Version r < 2 → er_Sequence r = 0;
  ev_id : er_NodeID r = NodeIDFromPublicKey pub;
}.

Lemma VerifyEndpoint_inv r now v :
  VerifyEndpoint r now = Ok v → v_record v = r ∧ endpoint_valid r now (v_publicKey v).
Proof.
  unfold VerifyEndpoint. intros Hv. res_inv. cbn. split; [done|].
  match goal with H : ed25519_Verify _ _ _ = Ok ?b, H' : negb ?b = false |- _ =>
    apply negb_false_iff in H'; subst b; apply ed25519_Verify_ok in H as (? & ? & ?) end.
  repeat match goal with x : unit |- _ => destruct x end.
  bool_prop. unfold PublicKeySize, SignatureSize in *.
  constructor; try done; eauto.
  - eexists. split; [eassumption|]. unfold After in *. bool_prop. split; [done|].
    intros Hver. destruct (er_Version r <? 2) eqn:E; bool_prop; [|lia].
    res_inv. bool_prop. eauto.
  - intros E1 E2. rewrite E1, E2 in *. done.
  - intros E1. destruct (er_Version r <? 2) eqn:E; bool_prop; [|lia].
    destruct (er_Sequence r =? 0) eqn:E2; bool_prop; done.
Qed.

Lemma VerifyEndpoint_complete r now pub :
  endpoint_valid r now pub → VerifyEndpoint r now = Ok (mkVerified r pub).
Proof.
  intros [Hn Ha Hane Hp Hpl (sig & Hs & Hsl & Hver) (e & He & Hnow & Hi) Hv Hseq2 Hseq1 Hid].
  unfold VerifyEndpoint, PublicKeySize, SignatureSize. rewrite Hn, Ha, Hp, Hs, He.
  rewrite (proj2 (String.eqb_neq _ _)) by (rewrite Hid; apply NodeID_not_empty).
  rewrite (proj2 (String.eqb_neq _ _)) by (by eapply canonical_not_empty).
  rewrite (proj2 (String.eqb_neq _ _) Hane). cbn -[Z.ltb Z.eqb len].
  rewrite Hpl, Hsl. cbn -[Z.ltb Z.eqb].
  replace (2 <? er_Version r) with false by lia. cbn -[Z.ltb Z.eqb].
  replace ((er_Version r =? 2) && (er_Sequence r =? 0)) with false by lia.
  replace ((er_Version r <? 2) && negb (er_Sequence r =? 0)) with false by lia.
  cbn -[Z.ltb Z.eqb].
  assert ((if er_Version r <? 2 then
     issuedAt ← of_option (time_Parse (er_IssuedAt r)) "parse issued_at";
     err_if (negb (After e issuedAt)) "record expiry must be after issue time"
     else Ok tt) = Ok tt) as ->.
  { destruct (er_Version r <? 2) eqn:E; [|done]. bool_prop.
    destruct (Hi E) as (i & -> & Hie). cbn. unfold After.
    by rewrite (proj2 (Z.ltb_lt _ _) Hie). }
  cbn. unfold After. rewrite (proj2 (Z.ltb_ge _ _) Hnow). cbn.
  rewrite Hid, String.eqb_refl. cbn. unfold ed25519_Verify, PublicKeySize, SignatureSize.
  rewrite Hpl, Hsl, Hver. done.
Qed.
End EndpointProps.

(** C14: Endpoint verification is exact: it succeeds, returning the decoded public
    key, precisely when the name is canonical, the address is a non-empty IPv6
    endpoint, the key is 32 bytes whose SHA-256 is the NodeID, the signature over
    the payload verifies, the version and sequence agree, and the record has not
    expired; in every other case it returns an error and never panics. *)
Theorem VerifyEndpoint_exact `{UnicodeTables, NetIP, RFC3339, Ed25519}
    (r : EndpointRecord) (now : Z) :
  (∀ v, VerifyEndpoint r now = Ok v ↔ v_record v = r ∧ endpoint_valid r now (v_publicKey v)) ∧
  VerifyEndpoint r now ≠ Panic.
Proof.
  split.
  - intros v. split; [apply VerifyEndpoint_inv|].
    intros [<- Hv]. destruct v as [r' pub]. by apply VerifyEndpoint_complete.
  - unfold VerifyEndpoint. no_panic. unfold ed25519_Verify. res_inv. bool_prop.
    match goal with H : len _ = PublicKeySize |- _ => by rewrite H end.
Qed.

Section EndpointNew.
Context `{UnicodeTables, NetIP, RFC3339, Ed25519}.

Lemma ValidateIPv6_not_empty a : ValidateIPv6Address a = Ok tt → a ≠ "".
Proof. by intros ? ->. Qed.

(** The record the constructor builds, when its inputs are valid. *)
Lemma newEndpointRecord_ok id name address ttl now sequence c :
  NormalizeNodeName name = Ok c → ValidateIPv6Address address = Ok tt → 0 < ttl →
  Identity_Validate id = Ok tt →
  ∃ r, newEndpointRecord id name address ttl now sequence = Ok r ∧
    er_Version r = (if 0 <? sequence then 2 else 1) ∧
    er_Sequence r = (if 0 <? sequence then sequence else 0) ∧
    er_NodeID r = id_NodeID id ∧ er_NodeName r = c ∧ er_Address r = address ∧
    er_PublicKey r = StdEncoding_EncodeToString (id_PublicKey id) ∧
    er_IssuedAt r = time_Format now ∧ er_ExpiresAt r = time_Format (now + ttl) ∧
    er_Signature r = StdEncoding_EncodeToString (ed_sign (id_PrivateKey id) (signingPayload r)).
Proof.
  intros Hn Ha Ht Hid. unfold newEndpointRecord. rewrite Hn, Ha. cbn.
  rewrite (proj2 (Z.leb_gt _ _)) by lia. cbn. rewrite Hid. cbn.
  apply Identity_Validate_ok in Hid as (_ & Hpl & _).
  unfold ed25519_Sign, PrivateKeySize. rewrite Hpl. cbn. eexists. split; [reflexivity|].
  cbn. repeat split; by destruct (0 <? sequence).
Qed.
End EndpointNew.

(** C37: Creating an endpoint record and verifying it is a round trip.  With a
    valid identity, a name that normalises, an IPv6 address and a positive
    lifetime (of at least one second for a record without sequence number), the
    constructor succeeds and its record verifies, yielding the identity's own
    key, at every time up to the (whole-second) expiry. *)
Theorem endpoint_record_roundtrip `{UnicodeTables, NetIP, RFC3339, Ed25519}
    (id : Identity) (name c address : string) (ttl now sequence later : Z) :
  NormalizeNodeName name = Ok c → ValidateIPv6Address address = Ok tt →
  Identity_Validate id = Ok tt → ed_keypair (id_PrivateKey id) →
  0 < ttl → 0 <= sequence → (sequence = 0 → Second <= ttl) →
  rfc3339_range now → rfc3339_range (now + ttl) → later <= whole_second (now + ttl) →
  ∃ r, newEndpointRecord id name address ttl now sequence = Ok r ∧
    VerifyEndpoint r later = Ok (mkVerified r (id_PublicKey id)).
Proof.
  intros Hn Ha Hid Hkp Httl Hseq Hmin Hr1 Hr2 Hlater.
  destruct (newEndpointRecord_ok id name address ttl now sequence c)
    as (r & Hr & Ev & Es & Ei & En & Ea & Ep & Eis & Eex & Esig); try done.
  exists r. split; [done|]. apply VerifyEndpoint_complete.
  pose proof Hid as (Hpub & Hpriv & Hnode & Hpp)%Identity_Validate_ok.
  constructor; try congruence.
  - rewrite En. by eapply Normalize_canonical.
  - rewrite Ea. by apply ValidateIPv6_not_empty.
  - rewrite Ep. apply b64_decode_encode.
  - eexists. rewrite Esig, b64_decode_encode. split; [reflexivity|].
    split; [apply ed_sign_length|]. rewrite Hpp. by apply ed_verify_sign.
  - rewrite Eex, Eis, !time_Parse_Format by done. eexists. split; [reflexivity|]. split; [done|].
    rewrite Ev. intros Hlt. eexists. split; [reflexivity|].
    assert (sequence = 0) as Hz by (destruct (Z.ltb_spec 0 sequence); lia).
    specialize (Hmin Hz). revert Hmin. unfold whole_second, Second.
    Z.to_euclidean_division_equations. lia.
  - rewrite Ev. destruct (0 <? sequence); lia.
  - rewrite Ev, Es. destruct (Z.ltb_spec 0 sequence); lia.
  - rewrite Ev, Es. destruct (Z.ltb_spec 0 sequence); lia.
Qed.

Definition demo_key : bytes := repeat x07 64.
Definition demo_id : Identity := Generate demo_key.
Definition demo_now : Z := 1000 * Second.

Lemma endpoint_record_roundtrip_witness :
  ∃ r, newEndpointRecord demo_id "alice" "[2001:db8::1]:4242" Hour demo_now 7 = Ok r ∧
    VerifyEndpoint r (demo_now + Minute) = Ok (mkVerified r (id_PublicKey demo_id)).
Proof.
  apply (endpoint_record_roundtrip demo_id "alice" "ALICE" "[2001:db8::1]:4242" Hour demo_now 7
           (demo_now + Minute)).
  all: try (vm_compute; reflexivity).
  all: try (unfold rfc3339_range, demo_now, Hour, Minute, Second; lia).
  vm_compute; discriminate.
Defined.

(** The signature binds the whole record.  If two verified records have the
    same signed payload and the fields of the first contain no newline, then the
    records agree on every signed field, and both are sequence-numbered or both
    are legacy records: no signature can be replayed on other field values or
    across record versions. *)
Theorem endpoint_signature_binds `{UnicodeTables, NetIP, RFC3339, Ed25519}
    (r1 r2 : EndpointRecord) (now1 now2 : Z) v1 v2 :
  VerifyEndpoint r1 now1 = Ok v1 → VerifyEndpoint r2 now2 = Ok v2 →
  0 <= er_Version r1 → 0 <= er_Version r2 → 0 <= er_Sequence r1 → 0 <= er_Sequence r2 →
  one_line (er_Address r1) = true → one_line (er_PublicKey r1) = true →
  one_line (er_IssuedAt r1) = true → one_line (er_ExpiresAt r1) = true →
  signingPayload r1 = signingPayload r2 →
  (2 <= er_Version r1 ↔ 2 <= er_Version r2) ∧ er_Sequence r1 = er_Sequence r2 ∧
  er_NodeID r1 = er_NodeID r2 ∧ er_NodeName r1 = er_NodeName r2 ∧
  er_Address r1 = er_Address r2 ∧ er_PublicKey r1 = er_PublicKey r2 ∧
  er_IssuedAt r1 = er_IssuedAt r2 ∧ er_ExpiresAt r1 = er_ExpiresAt r2.
Proof.
  intros [_ V1]%VerifyEndpoint_inv [_ V2]%VerifyEndpoint_inv P1 P2 P3 P4 L1 L2 L3 L4 E.
  rewrite !signingPayload_lines in E. apply str_bytes_inj in E.
  assert (one_line (er_NodeID r1) = true) as L5.
  { rewrite (ev_id _ _ _ V1). unfold NodeIDFromPublicKey. rewrite one_line_app, one_line_hex. done. }
  assert (one_line (er_NodeName r1) = true) as L6 by apply canonical_one_line, (ev_name _ _ _ V1).
  unfold signed_lines in E.
  pose proof (ev_seq1 _ _ _ V1) as S1. pose proof (ev_seq1 _ _ _ V2) as S2.
  destruct (Z.leb_spec 2 (er_Version r1)), (Z.leb_spec 2 (er_Version r2)).
  - apply lines_inj in E; [|done|repeat constructor; auto with vx6].
    injection E as Ev Es. apply dec_inj in Ev, Es; [|done..]. split; [lia|]. split; [done|]. naive_solver.
  - exfalso. rewrite (ev_id _ _ _ V2) in E. unfold NodeIDFromPublicKey in E. discriminate E.
  - exfalso. rewrite (ev_id _ _ _ V1) in E. unfold NodeIDFromPublicKey in E. discriminate E.
  - apply lines_inj in E; [|done|repeat constructor; auto with vx6].
    injection E as ? ? ? ? ? ?. split; [lia|]. rewrite S1, S2 by lia. naive_solver.
Qed.

Definition demo_record : EndpointRecord :=
  match newEndpointRecord demo_id "alice" "[2001:db8::1]:4242" Hour demo_now 7 with
  | Ok r => r
  | _ => mkEndpointRecord 0 0 "" "" "" "" "" "" ""
  end.

Lemma endpoint_signature_binds_witness :
  is_ok (VerifyEndpoint demo_record demo_now) = true ∧
  er_NodeName demo_record = er_NodeName demo_record.
Proof.
  assert (∃ v, VerifyEndpoint demo_record demo_now = Ok v) as [v Hv].
  { eexists. vm_compute. reflexivity. }
  split; [by rewrite Hv|].
  apply (endpoint_signature_binds demo_record demo_record demo_now demo_now v v Hv Hv).
  all: first [reflexivity | vm_compute; reflexivity | vm_compute; discriminate].
Defined.

Section Freshness.
Context `{RFC3339}.

Lemma EndpointRecordNewer_trans (a b c : EndpointRecord) :
  EndpointRecordNewer a b = true → EndpointRecordNewer b c = true → EndpointRecordNewer a c = true.
Proof.
  unfold EndpointRecordNewer, After.
  destruct (time_Parse (er_IssuedAt a)), (time_Parse (er_IssuedAt b)), (time_Parse (er_IssuedAt c));
  repeat case_match; lia.
Qed.

(** "Newer" is a strict order on endpoint records: no record is newer than
    itself, the relation is transitive, and two records cannot each be newer than
    the other; so replacing a record only by a newer one never cycles. *)
Theorem EndpointRecordNewer_strict_order (a b c : EndpointRecord) :
  EndpointRecordNewer a a = false ∧
  (EndpointRecordNewer a b = true → EndpointRecordNewer b c = true → EndpointRecordNewer a c = true) ∧
  (EndpointRecordNewer a b = true → EndpointRecordNewer b a = false).
Proof.
  split; [|split; [apply EndpointRecordNewer_trans|]]; unfold EndpointRecordNewer, After;
  destruct (time_Parse (er_IssuedAt a)), (time_Parse (er_IssuedAt b)); repeat case_match; lia.
Qed.
End Freshness.

(** ** Service records *)
Definition service_lines (r : ServiceRecord) : list string :=
  [sr_NodeID r; sr_NodeName r; sr_ServiceName r; sr_Alias r; sr_Address r;
   bool_str (sr_IsHidden r); bool_str (sr_IsPrivate r); sr_HiddenProfile r;
   Join (sr_IntroPoints r) ","; Join (sr_StandbyIntroPoints r) ",";
   sr_PublicKey r; sr_IssuedAt r; sr_ExpiresAt r].

Lemma servicePayload_lines r : serviceSigningPayload r = str_bytes (lines (service_lines r)).
Proof. unfold serviceSigningPayload, service_lines. cbn [lines]. by rewrite str_app_nil_r. Qed.

Lemma bool_str_inj a b : bool_str a = bool_str b → a = b.
Proof. by destruct a, b. Qed.

(** Address lists whose elements are non-empty and have no comma are determined
    by their joined form. *)
Definition plain_addr (s : string) : bool := negb (contains_char "," s) && (s <>?s "").

Lemma Split_no_sep a c : contains_char c a = false → Split a c = [a].
Proof.
  unfold contains_char, str_existsb. induction a as [|d a IH]; [done|]. cbn [str_forallb Split].
  intros [Hd Ha]%negb_false_iff%andb_true_iff. apply negb_true_iff in Hd.
  rewrite Ascii.eqb_sym, Hd, IH by by rewrite Ha. done.
Qed.

Lemma Split_Join l :
  l ≠ [] → Forall (fun s => plain_addr s = true) l → Split (Join l ",") "," = l.
Proof.
  intros Hne Hl. induction Hl as [|x l Hx Hl IH]; [done|].
  unfold plain_addr in Hx. bool_prop.
  destruct l as [|y l]; [cbn [Join]; by apply Split_no_sep|].
  change (Split (x +:+ String "," (Join (y :: l) ",")) "," = x :: y :: l).
  rewrite Split_cons_sep by done. by rewrite IH.
Qed.

Lemma Join_inj l1 l2 :
  Forall (fun s => plain_addr s = true) l1 → Forall (fun s => plain_addr s = true) l2 →
  Join l1 "," = Join l2 "," → l1 = l2.
Proof.
  intros H1 H2 E. destruct l1 as [|x1 l1], l2 as [|x2 l2]; [done|..].
  - pose proof (Split_Join (x2 :: l2) ltac:(done) H2) as S. rewrite <- E in S. cbn in S.
    injection S as <- <-. inversion H2; subst. done.
  - pose proof (Split_Join (x1 :: l1) ltac:(done) H1) as S. rewrite E in S. cbn in S.
    injection S as <- <-. inversion H1; subst. done.
  - rewrite <- (Split_Join (x1 :: l1)), <- (Split_Join (x2 :: l2)) by done. by rewrite E.
Qed.

(** A service record's signature binds its routing metadata: if two records
    have the same signed payload, the fields of the first contain no newline and
    all introduction points are non-empty and comma-free, then the records differ
    at most in the signature itself. *)
Theorem service_signature_binds (r1 r2 : ServiceRecord) :
  Forall (fun s => one_line s = true) (service_lines r1) →
  Forall (fun s => plain_addr s = true)
    (sr_IntroPoints r1 ++ sr_StandbyIntroPoints r1 ++ sr_IntroPoints r2 ++ sr_StandbyIntroPoints r2) →
  serviceSigningPayload r1 = serviceSigningPayload r2 →
  with_signature r1 "" = with_signature r2 "".
Proof.
  intros Hl Hp E. rewrite !servicePayload_lines in E. apply str_bytes_inj in E.
  apply lines_inj in E; [|done|done]. rewrite !Forall_app in Hp. destruct Hp as (P1 & P2 & P3 & P4).
  destruct r1, r2. cbn in *. unfold service_lines in E. cbn in E. injection E as -> -> -> -> -> Hh Hpv -> Ji Js -> -> ->.
  apply bool_str_inj in Hh, Hpv. apply Join_inj in Ji, Js; [|done..]. by subst.
Qed.

Definition demo_service : ServiceRecord :=
  mkServiceRecord "vx6_a" "ALICE" "web" "ghost" "" true false "fast"
    ["[2001:db8::1]:1"; "[2001:db8::2]:1"] ["[2001:db8::2]:2"] "pk" "t0" "t1" "sig".

Lemma service_signature_binds_witness :
  with_signature demo_service "" = with_signature (with_signature demo_service "other") "".
Proof.
  apply (service_signature_binds demo_service (with_signature demo_service "other"));
    [vm_compute; repeat constructor..|reflexivity].
Defined.

#[local] Arguments StdEncoding_DecodeString : simpl never.
#[local] Arguments NodeIDFromPublicKey : simpl never.
#[local] Arguments len : simpl never.
#[local] Arguments Add : simpl never.

(** A freshly created public service record verifies until it expires:
    with a valid identity, a name that normalises, a dot-free service name, an
    IPv6 address and a lifetime of at least one second, [NewServiceRecord]
    succeeds and [VerifyServiceRecord] accepts its result. *)
Theorem service_record_roundtrip `{UnicodeTables, NetIP, RFC3339, Ed25519}
    (id : Identity) (name c serviceName address : string) (ttl now later : Z) :
  NormalizeNodeName name = Ok c → ValidateServiceName serviceName = Ok tt →
  ValidateIPv6Address address = Ok tt → Identity_Validate id = Ok tt →
  ed_keypair (id_PrivateKey id) → Second <= ttl →
  rfc3339_range now → rfc3339_range (now + ttl) → later <= whole_second (now + ttl) →
  ∃ r, NewServiceRecord id name serviceName address ttl now = Ok r ∧
    VerifyServiceRecord r later = Ok tt.
Proof.
  intros Hn Hs Ha Hid Hkp Httl Hr1 Hr2 Hlater.
  assert (0 < ttl) by (unfold Second in *; lia).
  unfold NewServiceRecord. rewrite Hn, Hs. cbn.
  rewrite (proj2 (String.eqb_neq _ _) (ValidateIPv6_not_empty _ Ha)). cbn. rewrite Ha. cbn.
  rewrite (proj2 (Z.leb_gt _ _)) by lia. cbn. rewrite Hid. cbn.
  pose proof Hid as (Hpub & Hpriv & Hnode & Hpp)%Identity_Validate_ok.
  unfold ed25519_Sign, PrivateKeySize. rewrite Hpriv. cbn. eexists. split; [reflexivity|].
  unfold VerifyServiceRecord. cbn.
  rewrite (proj2 (String.eqb_neq (id_NodeID id) "")) by (rewrite Hnode; apply NodeID_not_empty).
  rewrite (proj2 (String.eqb_neq c "")) by (eapply canonical_not_empty, Normalize_canonical, Hn).
  assert (serviceName ≠ "") as Hsn by (intros ->; done).
  rewrite (proj2 (String.eqb_neq _ _) Hsn), (Normalize_canonical _ _ Hn). cbn.
  rewrite (proj2 (String.eqb_neq _ _) (ValidateIPv6_not_empty _ Ha)). cbn. rewrite Ha. cbn.
  rewrite !b64_decode_encode. cbn. unfold PublicKeySize, SignatureSize.
  rewrite Hpub, ed_sign_length. cbn. unfold Add. rewrite !time_Parse_Format by done. cbn.
  unfold After. rewrite (proj2 (Z.ltb_ge _ _) Hlater), (proj2 (Z.ltb_lt (whole_second now) _));
    [|unfold whole_second, Second in *; Z.to_euclidean_division_equations; lia].
  cbn. rewrite Hnode, String.eqb_refl. cbn.
  unfold ed25519_Verify, PublicKeySize, SignatureSize. rewrite Hpub, ed_sign_length. cbn.
  rewrite <- Hnode. rewrite Hpp at 1. unfold ed_Public. by rewrite ed_verify_sign.
Qed.

Lemma service_record_roundtrip_witness :
  ∃ r, NewServiceRecord demo_id "alice" "web" "[2001:db8::1]:4242" Hour demo_now = Ok r ∧
    VerifyServiceRecord r (demo_now + Minute) = Ok tt.
Proof.
  apply (service_record_roundtrip demo_id "alice" "ALICE" "web" "[2001:db8::1]:4242" Hour demo_now
           (demo_now + Minute)).
  all: try (vm_compute; reflexivity).
  all: try (unfold rfc3339_range, demo_now, Hour, Minute, Second; lia).
  all: vm_compute; discriminate.
Defined.
