(* ===== verification/GoNumbers.v ===== *)
(** * strconv integers and unpadded base64

    [strconv.FormatInt], [strconv.ParseInt] in base ten and 64 bits, and
    [base64.RawURLEncoding], with their round trips. *)
From S2P Require Import Prelude GoBytes GoStrings GoEncoding Lines.

(** ** strconv *)
Definition FormatInt (z : Z) : string := if z <? 0 then String "-" (dec (- z)) else dec z.

Definition digit_val (c : ascii) : option Z :=
  if in_range "0" "9" c then Some (chr c - 48) else None.
Fixpoint digits_val (acc : Z) (s : string) : option Z :=
  match s with
  | EmptyString => Some acc
  | String c s' => d ← digit_val c; digits_val (acc * 10 + d) s'
  end.
(** [ParseInt(s, 10, 64)]: an optional sign, at least one digit, 64 bits. *)
Definition ParseInt (s : string) : option Z :=
  let '(neg, ds) := match s with
                    | String "+" s' => (false, s')
                    | String "-" s' => (true, s')
                    | _ => (false, s)
                    end in
  if ds =?s "" then None
  else
    v ← digits_val 0 ds;
    let z := if neg : bool then - v else v in
    if (min_i64 <=? z) && (z <=? max_i64) then Some z else None.

Lemma digit_val_pretty d : (d < 10)%N → digit_val (pretty_N_char d) = Some (Z.of_N d).
Proof.
  intros H.
  assert (∀ n, (n < 10)%nat → digit_val (pretty_N_char (N.of_nat n)) = Some (Z.of_nat n)) as Hn.
  { intros n Hn. do 10 (destruct n as [|n]; [by vm_compute|]). lia. }
  rewrite <- (N2Nat.id d). rewrite Hn by lia. f_equal. lia.
Qed.

Lemma pretty_N_go_length n : ∀ t u,
  String.length (pretty_N_go n (t +:+ u)) = (String.length (pretty_N_go n t) + String.length u)%nat.
Proof.
  induction (N.lt_wf_0 n) as [n _ IH]. intros t u.
  destruct (decide (n = 0)%N) as [->|Hn]; [rewrite !pretty_N_go_0; apply str_length_app|].
  rewrite (pretty_N_go_step n t), (pretty_N_go_step n (t +:+ u)) by lia.
  rewrite <- str_app_cons. apply IH, N.div_lt; lia.
Qed.

Lemma digits_val_go n : ∀ s acc,
  digits_val acc (pretty_N_go n s) =
  digits_val (acc * 10 ^ Z.of_nat (String.length (pretty_N_go n "")) + Z.of_N n) s.
Proof.
  induction (N.lt_wf_0 n) as [n _ IH]. intros s acc.
  destruct (decide (n = 0)%N) as [->|Hn].
  - rewrite !pretty_N_go_0. f_equal. cbn. lia.
  - rewrite (pretty_N_go_step n s), (pretty_N_go_step n "") by lia.
    rewrite IH by (apply N.div_lt; lia).
    pose proof (pretty_N_go_length (n / 10) "" (String (pretty_N_char (n mod 10)) "")) as Hl.
    rewrite str_app_nil_l in Hl. rewrite Hl. clear Hl.
    cbn [digits_val]. rewrite digit_val_pretty by (apply N.mod_lt; lia). cbn [mbind option_bind].
    f_equal. change (String.length (String _ "")) with 1%nat.
    rewrite Nat2Z.inj_add, Z.pow_add_r by lia. change (10 ^ Z.of_nat 1) with 10.
    pose proof (N.div_mod n 10 ltac:(lia)). lia.
Qed.

Lemma digits_val_dec z : 0 <= z → digits_val 0 (dec z) = Some z.
Proof.
  intros Hz. unfold dec, pretty, pretty_N. case_decide as H0; [change (Some 0 = Some z); f_equal; lia|].
  rewrite digits_val_go. cbn [digits_val]. f_equal. lia.
Qed.

Lemma dec_head z : ∃ c s, dec z = String c s ∧ digit_val c ≠ None.
Proof.
  unfold dec, pretty, pretty_N. case_decide as H0; [by eexists _, _|].
  assert (∀ n s, (n ≠ 0)%N → ∃ c t, pretty_N_go n s = String c t ∧ digit_val c ≠ None) as Hh; [|by apply Hh].
  clear. intros n. induction (N.lt_wf_0 n) as [n _ IH]. intros s Hn.
  rewrite pretty_N_go_step by lia. destruct (decide (n / 10 = 0)%N) as [->|Hd].
  - rewrite pretty_N_go_0. eexists _, _. split; [done|].
    by rewrite digit_val_pretty by (apply N.mod_lt; lia).
  - apply IH; [apply N.div_lt; lia|done].
Qed.

Lemma ParseInt_FormatInt z : 0 <= z <= max_i64 → ParseInt (FormatInt z) = Some z.
Proof.
  intros Hz. unfold ParseInt, FormatInt. rewrite (proj2 (Z.ltb_ge z 0)) by lia.
  pose proof (digits_val_dec z ltac:(lia)) as Hd. destruct (dec_head z) as (c & s & E & Hc).
  rewrite E in *.
  assert (c ≠ "+"%char ∧ c ≠ "-"%char) as [? ?] by (split; intros ->; by vm_compute in Hc).
  assert ((match c with "+" => (false, s) | "-" => (true, s) | _ => (false, String c s) end)%char
          = (false, String c s)) as ->.
  { destruct c as [[] [] [] [] [] [] [] []]; done. }
  cbn [String.eqb]. rewrite Hd. cbn. unfold min_i64 in *.
  rewrite (proj2 (Z.leb_le (- 2 ^ 63) z)), (proj2 (Z.leb_le z max_i64)) by lia. done.
Qed.

(** ** base64.RawURLEncoding *)
Fixpoint b64_raw_quanta (s : string) : option bytes :=
  let ix := fun c => str_index c b64_url in
  match s with
  | EmptyString => Some []
  | String c1 EmptyString => None
  | String c1 (String c2 EmptyString) =>
      a ← ix c1; b ← ix c2; Some [Z_byte (a * 4 + b / 16)]
  | String c1 (String c2 (String c3 EmptyString)) =>
      a ← ix c1; b ← ix c2; c ← ix c3;
      Some [Z_byte (a * 4 + b / 16); Z_byte (b * 16 + c / 4)]
  | String c1 (String c2 (String c3 (String c4 s'))) =>
      a ← ix c1; b ← ix c2; c ← ix c3; d ← ix c4; r ← b64_raw_quanta s';
      Some (Z_byte (a * 4 + b / 16) :: Z_byte (b * 16 + c / 4) :: Z_byte (c * 64 + d) :: r)
  end.
(** Carriage returns and newlines are skipped; [=] is not in the alphabet. *)
Definition RawURLEncoding_DecodeString (s : string) : option bytes :=
  b64_raw_quanta (str_filter (fun c => negb (b64_newline c)) s).

Lemma b64_url_char z : 0 <= z < 64 →
  str_index (b64_char b64_url z) b64_url = Some z ∧ negb (b64_newline (b64_char b64_url z)) = true.
Proof.
  intros H.
  assert (bool_decide (str_index (b64_char b64_url z) b64_url = Some z) &&
          negb (b64_newline (b64_char b64_url z)) = true) as [E ?]%andb_true_iff.
  { revert z H. apply (small_Z_forallb 64). by vm_compute. }
  split; [by apply bool_decide_eq_true in E|done].
Qed.

Lemma b64_url_filter b :
  str_filter (fun c => negb (b64_newline c)) (b64_encode b64_url false b) = b64_encode b64_url false b.
Proof.
  assert (∀ z, 0 <= z < 64 → negb (b64_newline (b64_char b64_url z)) = true) as Hc
    by (intros z Hz; by destruct (b64_url_char z Hz)).
  induction b as [|x|x y|x y z b IH] using bytes3_ind; [done|..];
    cbn [b64_encode str_filter];
    try pose proof (byte_Z_range x); try pose proof (byte_Z_range y); try pose proof (byte_Z_range z);
    rewrite !Hc by (Z.to_euclidean_division_equations; lia); [done..|]. by rewrite IH.
Qed.

Lemma b64_raw_encode b : b64_raw_quanta (b64_encode b64_url false b) = Some b.
Proof.
  assert (∀ z, 0 <= z < 64 → str_index (b64_char b64_url z) b64_url = Some z) as Hi
    by (intros z Hz; by destruct (b64_url_char z Hz)).
  induction b as [|x|x y|x y z b IH] using bytes3_ind; [done|..];
    cbn [b64_encode b64_raw_quanta];
    try pose proof (byte_Z_range x); try pose proof (byte_Z_range y); try pose proof (byte_Z_range z);
    rewrite !Hi by (Z.to_euclidean_division_equations; lia); cbn -[Z_byte];
    [ destruct (sextet_bytes x x x) as (Hb & _); by rewrite Hb
    | destruct (sextet_bytes x y y) as (_ & Hb1 & Hb2 & _); by rewrite Hb1, Hb2 |].
  rewrite IH. cbn -[Z_byte]. destruct (sextet_bytes x y z) as (_ & Hb1 & _ & Hb3 & Hb4). by rewrite Hb1, Hb3, Hb4.
Qed.

Lemma RawURL_decode_encode b :
  RawURLEncoding_DecodeString (RawURLEncoding_EncodeToString b) = Some b.
Proof.
  unfold RawURLEncoding_DecodeString, RawURLEncoding_EncodeToString.
  by rewrite b64_url_filter, b64_raw_encode.
Qed.

Lemma RawURL_not_empty b : b ≠ [] → RawURLEncoding_EncodeToString b ≠ "".
Proof. unfold RawURLEncoding_EncodeToString. destruct b as [|x [|y [|z b]]]; by cbn. Qed.
Lemma b64_not_empty b : b ≠ [] → StdEncoding_EncodeToString b ≠ "".
Proof. unfold StdEncoding_EncodeToString. destruct b as [|x [|y [|z b]]]; by cbn. Qed.
Lemma len_not_nil {A} (l : list A) n : len l = Zpos n → l ≠ [].
Proof. by destruct l. Qed.

Example ParseInt_signs : ParseInt "+17" = Some 17 ∧ ParseInt "-3" = Some (-3) ∧ ParseInt "1x" = None.
Proof. done. Qed.
Example RawURL_two : RawURLEncoding_DecodeString "AQI" = Some [x01; x02].
Proof. done. Qed.
