(* ===== verification/StrictJson.v ===== *)
(** * Strict JSON (internal/strictjson/decode.go)

    [Decode] accepts one JSON value without duplicate object keys, without
    unknown fields and without trailing data.  The first pass,
    [rejectDuplicateKeys], walks the token stream of [json.Decoder]: [Token]
    and [More] are modelled by the decoder's token states over the lexical
    tokens of the input, and the pass is shown to accept exactly the token
    sequences of JSON values in which no object repeats a key. *)
From S2P Require Import Prelude GoBytes GoStrings.

(** ** encoding/json's token stream *)
Inductive lexeme :=
| LBrace | RBrace | LBrack | RBrack | Colon | Comma
| Str (s : string)
| Atom            (* a number, true, false or null *)
| Garbage.        (* a lexical error *)

Inductive token_state :=
| TopValue | ArrayStart | ArrayValue | ArrayComma
| ObjectStart | ObjectKey | ObjectColon | ObjectValue | ObjectComma.
#[export] Instance token_state_eq_dec : EqDecision token_state.
Proof. solve_decision. Defined.

Record decoder := Decoder {
  d_rest : list lexeme;
  d_state : token_state;
  d_stack : list token_state;
}.
Definition NewDecoder (l : list lexeme) : decoder := Decoder l TopValue [].

(** [json.Token]: a delimiter, a string or another scalar. *)
Inductive token := Delim (l : lexeme) | TString (s : string) | TAtom.

Definition tokenValueAllowed (st : token_state) : bool :=
  match st with TopValue | ArrayStart | ArrayValue | ObjectValue => true | _ => false end.
Definition tokenValueEnd (st : token_state) : token_state :=
  match st with
  | ArrayStart | ArrayValue => ArrayComma
  | ObjectValue => ObjectComma
  | _ => st
  end.

Definition EOF : string := "EOF".
Definition token_error : string := "invalid character".

Definition close_delim (l : lexeme) (rest : list lexeme) (stk : list token_state)
  : res (token * decoder) :=
  match stk with
  | st :: stk' => Ok (Delim l, Decoder rest (tokenValueEnd st) stk')
  | [] => Panic
  end.

Fixpoint next_token (l : list lexeme) (st : token_state) (stk : list token_state)
  : res (token * decoder) :=
  match l with
  | [] => Err EOF
  | LBrack :: l' =>
      if tokenValueAllowed st then Ok (Delim LBrack, Decoder l' ArrayStart (st :: stk)) else Err token_error
  | RBrack :: l' =>
      match st with
      | ArrayStart | ArrayComma => close_delim RBrack l' stk
      | _ => Err token_error
      end
  | LBrace :: l' =>
      if tokenValueAllowed st then Ok (Delim LBrace, Decoder l' ObjectStart (st :: stk)) else Err token_error
  | RBrace :: l' =>
      match st with
      | ObjectStart | ObjectComma => close_delim RBrace l' stk
      | _ => Err token_error
      end
  | Colon :: l' =>
      match st with ObjectColon => next_token l' ObjectValue stk | _ => Err token_error end
  | Comma :: l' =>
      match st with
      | ArrayComma => next_token l' ArrayValue stk
      | ObjectComma => next_token l' ObjectKey stk
      | _ => Err token_error
      end
  | Str s :: l' =>
      match st with
      | ObjectStart | ObjectKey => Ok (TString s, Decoder l' ObjectColon stk)
      | _ => if tokenValueAllowed st then Ok (TString s, Decoder l' (tokenValueEnd st) stk) else Err token_error
      end
  | Atom :: l' =>
      if tokenValueAllowed st then Ok (TAtom, Decoder l' (tokenValueEnd st) stk) else Err token_error
  | Garbage :: _ => Err token_error
  end.
Definition Token (d : decoder) : res (token * decoder) := next_token (d_rest d) (d_state d) (d_stack d).

(** [More]: another element before the closing delimiter. *)
Definition More (d : decoder) : bool :=
  match d_rest d with
  | [] | RBrack :: _ | RBrace :: _ => false
  | _ => true
  end.

(** ** decode.go *)
(** The loops of [scanValue] are [scan_object] and [scan_array]; each call of
    [Token] consumes a lexeme, so the length of the input bounds the calls. *)
Fixpoint scanValue (n : nat) (d : decoder) (tok : token) : res decoder :=
  match n with
  | O => Err "out of fuel"
  | S n' =>
      match tok with
      | Delim LBrace => scan_object n' d ∅
      | Delim LBrack => scan_array n' d
      | Delim _ => Err "unexpected JSON delimiter"
      | _ => Ok d
      end
  end
with scan_object (n : nat) (d : decoder) (seen : gset string) : res decoder :=
  match n with
  | O => Err "out of fuel"
  | S n' =>
      if More d then
        '(keyToken, d) ← Token d;
        match keyToken with
        | TString key =>
            if bool_decide (key ∈ seen) then Err "duplicate JSON field"
            else
              '(value, d) ← Token d;
              d ← scanValue n' d value;
              scan_object n' d ({[key]} ∪ seen)
        | _ => Err "JSON object key is not a string"
        end
      else
        match Token d with
        | Ok (Delim RBrace, d) => Ok d
        | Panic => Panic
        | _ => Err "invalid JSON object termination"
        end
  end
with scan_array (n : nat) (d : decoder) : res decoder :=
  match n with
  | O => Err "out of fuel"
  | S n' =>
      if More d then
        '(value, d) ← Token d;
        d ← scanValue n' d value;
        scan_array n' d
      else
        match Token d with
        | Ok (Delim RBrack, d) => Ok d
        | Panic => Panic
        | _ => Err "invalid JSON array termination"
        end
  end.

Definition rejectDuplicateKeys (data : list lexeme) : res unit :=
  '(first, d) ← Token (NewDecoder data);
  d ← scanValue (2 * List.length data + 2) d first;
  match Token d with
  | Err e => if e =?s EOF then Ok tt else Err "trailing JSON data"
  | Ok _ => Err "multiple JSON values"
  | Panic => Panic
  end.

(** The lexical tokens of a text, and the struct decoder with
    [DisallowUnknownFields], which returns the value and the unread text. *)
Class StrictJSON (T : Type) := {
  json_lex : string → list lexeme;
  json_DecodeKnown : string → option (T * string);
}.
Arguments StrictJSON : clear implicits.

(** The second [Decode] of the remaining text must report [io.EOF]. *)
Definition Decode `{StrictJSON T} (data : string) : res T :=
  rejectDuplicateKeys (json_lex data);;
  '(dst, rest) ← of_option (json_DecodeKnown data) "decode";
  match json_lex rest with
  | [] => Ok dst
  | _ => Err "trailing JSON data"
  end.

(** ** Specification: JSON values and their tokens *)
Inductive jvalue :=
| JAtom
| JStr (s : string)
| JArr (vs : list jvalue)
| JObj (kvs : list (string * jvalue)).

Fixpoint unparse (v : jvalue) : list lexeme :=
  let fix elems (first : bool) (vs : list jvalue) : list lexeme :=
    match vs with
    | [] => []
    | v :: vs' => (if first then [] else [Comma]) ++ unparse v ++ elems false vs'
    end in
  let fix fields (first : bool) (kvs : list (string * jvalue)) : list lexeme :=
    match kvs with
    | [] => []
    | (k, v) :: kvs' => (if first then [] else [Comma]) ++ Str k :: Colon :: unparse v ++ fields false kvs'
    end in
  match v with
  | JAtom => [Atom]
  | JStr s => [Str s]
  | JArr vs => LBrack :: elems true vs ++ [RBrack]
  | JObj kvs => LBrace :: fields true kvs ++ [RBrace]
  end.

Fixpoint elems (first : bool) (vs : list jvalue) : list lexeme :=
  match vs with
  | [] => []
  | v :: vs' => (if first then [] else [Comma]) ++ unparse v ++ elems false vs'
  end.
Fixpoint fields (first : bool) (kvs : list (string * jvalue)) : list lexeme :=
  match kvs with
  | [] => []
  | (k, v) :: kvs' => (if first then [] else [Comma]) ++ Str k :: Colon :: unparse v ++ fields false kvs'
  end.

(** No object of the value, at any depth, repeats a key. *)
Inductive unique_keys : jvalue → Prop :=
| uk_atom : unique_keys JAtom
| uk_str s : unique_keys (JStr s)
| uk_arr vs : Forall unique_keys vs → unique_keys (JArr vs)
| uk_obj kvs : NoDup kvs.*1 → Forall (fun kv => unique_keys kv.2) kvs → unique_keys (JObj kvs).

Lemma unparse_arr vs : unparse (JArr vs) = LBrack :: elems true vs ++ [RBrack].
Proof. done. Qed.
Lemma unparse_obj kvs : unparse (JObj kvs) = LBrace :: fields true kvs ++ [RBrace].
Proof. done. Qed.

(** ** The scan accepts only values with unique keys *)
Definition sep (b : bool) : list lexeme := if b then [] else [Comma].

(** From state [st] a value was scanned: [d'] is the decoder after it. *)
Definition scanned (l : list lexeme) (st : token_state) (stk : list token_state) (d' : decoder) : Prop :=
  ∃ v, unique_keys v ∧ l = unparse v ++ d_rest d' ∧ d_state d' = tokenValueEnd st ∧ d_stack d' = stk.

Definition value_sound (n : nat) : Prop := ∀ l st stk tok d d',
  tokenValueAllowed st = true → next_token l st stk = Ok (tok, d) →
  scanValue n d tok = Ok d' → scanned l st stk d'.
Definition array_sound (n : nat) : Prop := ∀ (b : bool) l st stk d',
  scan_array n (Decoder l (if b then ArrayStart else ArrayComma) (st :: stk)) = Ok d' →
  ∃ vs, Forall unique_keys vs ∧ l = elems b vs ++ RBrack :: d_rest d' ∧
    d_state d' = tokenValueEnd st ∧ d_stack d' = stk.
Definition object_sound (n : nat) : Prop := ∀ (b : bool) l st stk seen d',
  scan_object n (Decoder l (if b then ObjectStart else ObjectComma) (st :: stk)) seen = Ok d' →
  ∃ kvs, NoDup kvs.*1 ∧ (∀ k, k ∈ kvs.*1 → k ∉ seen) ∧ Forall (fun kv => unique_keys kv.2) kvs ∧
    l = fields b kvs ++ RBrace :: d_rest d' ∧ d_state d' = tokenValueEnd st ∧ d_stack d' = stk.

(** A decoder is its three fields. *)
Lemma decoder_eta d : d = Decoder (d_rest d) (d_state d) (d_stack d).
Proof. by destruct d. Qed.

Lemma value_sound_step n : array_sound n → object_sound n → value_sound (S n).
Proof.
  intros HA HO l st stk tok d d' Hst Ht Hs.
  destruct l as [|x l]; [done|].
  destruct x; cbn [next_token] in Ht; rewrite ?Hst in Ht; try done;
    try solve [destruct st; try done; destruct stk; try done; injection Ht as <- <-; done].
  - injection Ht as <- <-. cbn [scanValue] in Hs.
    destruct (HO true l st stk ∅ d' Hs) as (kvs & Hnd & _ & Hall & -> & ? & ?).
    exists (JObj kvs). split_and!; [by constructor| |done|done].
    rewrite unparse_obj. cbn. by rewrite <- app_assoc.
  - injection Ht as <- <-. cbn [scanValue] in Hs.
    destruct (HA true l st stk d' Hs) as (vs & Hall & -> & ? & ?).
    exists (JArr vs). split_and!; [by constructor| |done|done].
    rewrite unparse_arr. cbn. by rewrite <- app_assoc.
  - assert (tok = TString s ∧ d = Decoder l (tokenValueEnd st) stk) as [-> ->]
      by (destruct st; try done; cbn in Ht; injection Ht as <- <-; done).
    injection Hs as <-. exists (JStr s). split_and!; [constructor|done..].
  - injection Ht as <- <-. injection Hs as <-. exists JAtom. split_and!; [constructor|done..].
Qed.

(** In an array, the next element is read in a state that allows a value,
    after the comma if there is one. *)
Lemma array_next (b : bool) l stk tok d :
  next_token l (if b then ArrayStart else ArrayComma) stk = Ok (tok, d) →
  More (Decoder l TopValue []) = true →
  ∃ l', l = sep b ++ l' ∧ next_token l' (if b then ArrayStart else ArrayValue) stk = Ok (tok, d).
Proof. intros Ht Hm. destruct b; [by exists l|]. destruct l as [|[] l]; try done. by exists l. Qed.

Lemma array_sound_step n : value_sound n → array_sound n → array_sound (S n).
Proof.
  intros HV HA b l st stk d' Hs. cbn [scan_array] in Hs.
  destruct (More _) eqn:Hm.
  - apply res_bind_ok in Hs as ([tok d] & Ht & Hs). apply res_bind_ok in Hs as (d1 & Hv & Hs).
    destruct (array_next b l (st :: stk) tok d Ht Hm) as (l' & -> & Ht').
    assert (tokenValueAllowed (if b then ArrayStart else ArrayValue) = true) as Hal by by destruct b.
    destruct (HV _ _ _ _ _ _ Hal Ht' Hv) as (v & Hu & -> & Hst & Hstk).
    rewrite (decoder_eta d1), Hst, Hstk in Hs.
    replace (tokenValueEnd _) with ArrayComma in Hs by by destruct b.
    destruct (HA false _ _ _ _ Hs) as (vs & Hall & -> & ? & ?).
    exists (v :: vs). split_and!; [by constructor| |done|done].
    cbn [elems]. unfold sep. by rewrite <- !app_assoc.
  - unfold Token in Hs. cbn [d_rest d_state d_stack] in Hs.
    destruct l as [|[] l]; try done; destruct b; cbn in Hs; try done;
      injection Hs as <-; exists []; cbn; auto.
Qed.

Lemma object_next (b : bool) l stk key d :
  next_token l (if b then ObjectStart else ObjectComma) stk = Ok (TString key, d) →
  ∃ l', l = sep b ++ Str key :: l' ∧ d = Decoder l' ObjectColon stk.
Proof.
  intros Ht. destruct b.
  - destruct l as [|[] l]; try done; cbn in Ht; [by destruct stk|]. injection Ht as -> <-. by exists l.
  - destruct l as [|[] l]; try done; cbn in Ht; [by destruct stk|].
    destruct l as [|[] l]; try done; cbn in Ht. injection Ht as -> <-. by exists l.
Qed.

Lemma object_sound_step n : value_sound n → object_sound n → object_sound (S n).
Proof.
  intros HV HO b l st stk seen d' Hs. cbn [scan_object] in Hs.
  destruct (More _) eqn:Hm.
  - apply res_bind_ok in Hs as ([tok d] & Ht & Hs). destruct tok as [| key |]; try done.
    destruct (bool_decide (key ∈ seen)) eqn:Hk; [done|]. bool_prop.
    apply res_bind_ok in Hs as ([vt d1] & Ht1 & Hs). apply res_bind_ok in Hs as (d2 & Hv & Hs).
    unfold Token in Ht. cbn [d_rest d_state d_stack] in Ht.
    apply object_next in Ht as (l' & -> & ->). unfold Token in Ht1. cbn [d_rest d_state d_stack] in Ht1.
    destruct l' as [|[] l']; try done. cbn [next_token] in Ht1.
    destruct (HV _ ObjectValue _ _ _ _ eq_refl Ht1 Hv) as (v & Hu & -> & Hst & Hstk).
    rewrite (decoder_eta d2), Hst, Hstk in Hs.
    destruct (HO false _ _ _ _ _ Hs) as (kvs & Hnd & Hseen & Hall & -> & ? & ?).
    exists ((key, v) :: kvs). split_and!; [| | | |done|done].
    + cbn. constructor; [|done]. intros Hin. apply (Hseen key Hin). set_solver.
    + intros k [->|Hin]%elem_of_cons; [done|]. intros ?. apply (Hseen k Hin). set_solver.
    + by constructor.
    + destruct b; cbn; by rewrite <- !app_assoc.
  - unfold Token in Hs. cbn [d_rest d_state d_stack] in Hs.
    destruct l as [|[] l]; try done; destruct b; cbn in Hs; try done;
      injection Hs as <-; exists []; cbn; (split_and!; [constructor|set_solver|constructor|done..]).
Qed.

Lemma scan_sound n : value_sound n ∧ array_sound n ∧ object_sound n.
Proof.
  induction n as [|n (HV & HA & HO)]; [split_and!; repeat intro; done|].
  split_and!; [by apply value_sound_step|by apply array_sound_step|by apply object_sound_step].
Qed.

(** ** Every value with unique keys is accepted *)
Lemma jvalue_rect' (P : jvalue → Prop) :
  P JAtom → (∀ s, P (JStr s)) → (∀ vs, Forall P vs → P (JArr vs)) →
  (∀ kvs, Forall (fun kv => P kv.2) kvs → P (JObj kvs)) → ∀ v, P v.
Proof.
  intros H1 H2 H3 H4. fix IH 1. intros [|s|vs|kvs]; [done|done|apply H3|apply H4].
  - induction vs; constructor; auto.
  - induction kvs as [|[k v] kvs]; constructor; auto.
Qed.

Definition accepted (v : jvalue) : Prop := ∀ n st stk r,
  tokenValueAllowed st = true → (2 * List.length (unparse v) <= n)%nat →
  ∃ tok d, next_token (unparse v ++ r) st stk = Ok (tok, d) ∧
    scanValue n d tok = Ok (Decoder r (tokenValueEnd st) stk).

(** A value starts with none of the closing or separating tokens. *)
Lemma unparse_head v : ∃ x l, unparse v = x :: l ∧
  match x with LBrace | LBrack | Str _ | Atom => True | _ => False end.
Proof. destruct v; cbn; by eexists _, _. Qed.

Lemma More_sep_value (b : bool) v l st stk : More (Decoder (sep b ++ unparse v ++ l) st stk) = true.
Proof. destruct (unparse_head v) as (x & l' & E & Hx). destruct b; cbn; [|done]. rewrite E. by destruct x. Qed.

Lemma elems_accepted vs : Forall accepted vs → ∀ n (b : bool) st stk r,
  (2 * List.length (elems b vs) + 1 <= n)%nat →
  scan_array n (Decoder (elems b vs ++ RBrack :: r) (if b then ArrayStart else ArrayComma) (st :: stk))
  = Ok (Decoder r (tokenValueEnd st) stk).
Proof.
  induction 1 as [|v vs Hv _ IH]; intros [|n] b st stk r Hn; try (cbn in Hn; lia).
  - by destruct b.
  - cbn [elems] in *. rewrite !length_app in Hn. cbn [scan_array].
    change (if b then [] else [Comma]) with (sep b).
    rewrite <- !app_assoc, (More_sep_value b).
    destruct (Hv n (if b then ArrayStart else ArrayValue) (st :: stk) (elems false vs ++ RBrack :: r))
      as (tok & d & Ht & Hs); [by destruct b|lia|].
    assert (Token (Decoder (sep b ++ unparse v ++ elems false vs ++ RBrack :: r)
      (if b then ArrayStart else ArrayComma) (st :: stk)) = Ok (tok, d)) as -> by (destruct b; done).
    cbn -[scanValue scan_array]. rewrite Hs. cbn -[scanValue scan_array elems].
    replace (tokenValueEnd _) with ArrayComma by by destruct b.
    apply (IH n false). destruct (unparse_head v) as (? & ? & E & _). rewrite E in Hn. cbn in Hn. lia.
Qed.

Lemma fields_accepted kvs : Forall (fun kv => accepted kv.2) kvs → ∀ n (b : bool) st stk r seen,
  NoDup kvs.*1 → (∀ k, k ∈ kvs.*1 → k ∉ seen) →
  (2 * List.length (fields b kvs) + 1 <= n)%nat →
  scan_object n (Decoder (fields b kvs ++ RBrace :: r) (if b then ObjectStart else ObjectComma) (st :: stk)) seen
  = Ok (Decoder r (tokenValueEnd st) stk).
Proof.
  induction 1 as [|[k v] kvs Hv _ IH]; intros [|n] b st stk r seen Hnd Hseen Hn; try (cbn in Hn; lia).
  - by destruct b.
  - cbn [fields] in *. rewrite length_app in Hn. cbn [List.length] in Hn. rewrite length_app in Hn.
    cbn [snd fmap list_fmap fst] in *. apply NoDup_cons in Hnd as [Hk Hnd].
    cbn [scan_object]. rewrite <- !app_assoc. cbn [app]. rewrite <- !app_assoc.
    replace (More _) with true by by destruct b.
    assert (∀ l, Token (Decoder ((if b then [] else [Comma]) ++ Str k :: l)
      (if b then ObjectStart else ObjectComma) (st :: stk)) = Ok (TString k, Decoder l ObjectColon (st :: stk)))
      as -> by (by destruct b).
    cbn -[scanValue scan_object]. rewrite bool_decide_eq_false_2 by (apply Hseen; set_solver).
    destruct (Hv n ObjectValue (st :: stk) (fields false kvs ++ RBrace :: r)) as (tok & d & Ht & Hs); [done|lia|].
    unfold Token. cbn [d_rest d_state d_stack next_token]. rewrite Ht. cbn -[scanValue scan_object].
    rewrite Hs. cbn -[scanValue scan_object fields]. apply (IH n false); [done| |lia].
    intros k' Hk' [->%elem_of_singleton|]%elem_of_union; [done|]. apply (Hseen k'); set_solver.
Qed.

Lemma value_accepted v : unique_keys v → accepted v.
Proof.
  induction v as [|s|vs IH|kvs IH] using jvalue_rect'; intros Hu [|n] st stk r Hst Hn; try (cbn in Hn; lia).
  - cbn [unparse app next_token]. rewrite Hst. by eexists _, _.
  - exists (TString s), (Decoder r (tokenValueEnd st) stk). by destruct st.
  - rewrite unparse_arr in *. cbn [app next_token]. rewrite Hst. eexists _, _. split; [done|].
    cbn [scanValue]. inversion Hu; subst. rewrite <- app_assoc. cbn in Hn. rewrite length_app in Hn.
    apply (elems_accepted vs); [|cbn in Hn; lia].
    rewrite Forall_forall in *. auto.
  - rewrite unparse_obj in *. cbn [app next_token]. rewrite Hst. eexists _, _. split; [done|].
    cbn [scanValue]. inversion Hu; subst. rewrite <- app_assoc. cbn in Hn. rewrite length_app in Hn.
    apply (fields_accepted kvs); [|done|set_solver|cbn in Hn; lia].
    rewrite Forall_forall in *. auto.
Qed.

Lemma Token_EOF_top l : next_token l TopValue [] = Err EOF ↔ l = [].
Proof. split; [|by intros ->]. by destruct l as [|[] l]. Qed.

(** C30: [rejectDuplicateKeys] accepts a text exactly when its tokens are those of
    one JSON value in which no object, at any depth, has two fields of the same
    name: duplicate keys, trailing data and malformed nesting are all refused,
    and no well-formed value without duplicates is (the bound on the recursion
    is never reached). *)
Theorem strict_json_exact (data : list lexeme) :
  rejectDuplicateKeys data = Ok tt ↔ ∃ v, unique_keys v ∧ data = unparse v.
Proof.
  unfold rejectDuplicateKeys, Token, NewDecoder. cbn [d_rest d_state d_stack]. split.
  - intros H. apply res_bind_ok in H as ([tok d] & Ht & H). apply res_bind_ok in H as (d1 & Hs & H).
    destruct (proj1 (scan_sound _) _ TopValue _ _ _ _ eq_refl Ht Hs) as (v & Hu & -> & Hst & Hstk).
    exists v. split; [done|]. rewrite Hst, Hstk in H. cbn [tokenValueEnd] in H.
    destruct (next_token (d_rest d1) TopValue []) as [|e|] eqn:E; try done.
    destruct (String.eqb_spec e EOF) as [->|]; [|done].
    apply Token_EOF_top in E. rewrite E. by rewrite app_nil_r.
  - intros (v & Hu & ->).
    destruct (value_accepted v Hu (2 * List.length (unparse v) + 2)%nat TopValue [] []) as (tok & d & Ht & Hs);
      [done|lia|].
    rewrite app_nil_r in Ht. rewrite Ht. cbn -[scanValue Nat.mul]. by rewrite Hs.
Qed.

(** [Decode] never succeeds on a text whose objects repeat a key. *)
Lemma Decode_unique_keys `{StrictJSON T} s x :
  Decode s = Ok x → ∃ v, unique_keys v ∧ json_lex s = unparse v.
Proof.
  unfold Decode. intros E. apply res_bind_ok in E as ([] & E & _). by apply strict_json_exact.
Qed.

Example nested_duplicate_rejected :
  rejectDuplicateKeys (unparse (JArr [JAtom; JObj [("a", JAtom); ("b", JObj []); ("a", JAtom)]]))
  = Err "duplicate JSON field".
Proof. vm_compute. reflexivity. Qed.
