(* ===== verification/Envelope.v ===== *)
(** * Publisher envelopes (internal/dht/envelope.go)

    A verified value is republished inside a [SignedEnvelope] that names its
    key, origin, version and lifetime.  [maybeDecodeEnvelope] distinguishes a
    value that is not an envelope ([Ok None]) from an incomplete one (an
    error). *)
From S2P Require Import Prelude GoBytes GoStrings GoEncoding GoTime Sha256 GoEnv Lines GoNumbers Identity.

Record SignedEnvelope := mkEnvelope {
  env_Key : string;
  env_Value : string;
  env_OriginNodeID : string;
  env_PublisherNodeID : string;
  env_PublisherPublicKey : string;
  env_Version : Z;  (* uint64 *)
  env_IssuedAt : string;
  env_ExpiresAt : string;
  env_ObservedAt : string;
  env_Signature : string;
}.

(** What validation learns about a stored value ([value.go]). *)
Record validatedValue := mkValidated {
  vv_storedRaw : string;
  vv_raw : string;
  vv_verified : bool;
  vv_family : string;
  vv_fingerprint : string;
  vv_issuedAt : Z;
  vv_expiresAt : Z;
  vv_version : Z;  (* uint64 *)
  vv_sequenceBased : bool;
  vv_originNodeID : string;
  vv_publisherNodeID : string;
  vv_enveloped : bool;
  vv_authoritativePublisher : bool;
}.

Definition envelopeSigningPayload (env : SignedEnvelope) : bytes :=
  str_bytes
    (env_Key env +:+ newline +:+ env_Value env +:+ newline +:+
     env_OriginNodeID env +:+ newline +:+ env_PublisherNodeID env +:+ newline +:+
     env_PublisherPublicKey env +:+ newline +:+ dec (env_Version env) +:+ newline +:+
     env_IssuedAt env +:+ newline +:+ env_ExpiresAt env +:+ newline +:+
     env_ObservedAt env +:+ newline).

Section Envelope.
Context `{RFC3339, Ed25519, JSON SignedEnvelope}.

Definition maybeDecodeEnvelope (raw : string) : res (option SignedEnvelope) :=
  match json_Unmarshal raw with
  | None => Ok None
  | Some env =>
      if (env_Key env =?s "") && (env_Value env =?s "") &&
         (env_PublisherNodeID env =?s "") && (env_Signature env =?s "")
      then Ok None
      else
        err_if ((env_Key env =?s "") || (env_Value env =?s "") || (env_PublisherNodeID env =?s "") ||
                (env_PublisherPublicKey env =?s "") || (env_Signature env =?s "") ||
                (env_IssuedAt env =?s "") || (env_ExpiresAt env =?s "") ||
                (env_ObservedAt env =?s "") || (env_Version env =? 0)) "incomplete dht envelope";;
        Ok (Some env)
  end.

Definition signEnvelope (id : Identity) (env : SignedEnvelope) : res string :=
  sig ← ed25519_Sign (id_PrivateKey id) (envelopeSigningPayload env);
  Ok (StdEncoding_EncodeToString sig).

(** The envelope of a value before it is signed. *)
Definition unsigned_envelope (id : Identity) (key value : string) (info : validatedValue) (now : Z)
  : SignedEnvelope :=
  let observedAt := if Before now (vv_issuedAt info) then vv_issuedAt info else now in
  {| env_Key := key; env_Value := value; env_OriginNodeID := vv_originNodeID info;
     env_PublisherNodeID := id_NodeID id;
     env_PublisherPublicKey := StdEncoding_EncodeToString (id_PublicKey id);
     env_Version := vv_version info;
     env_IssuedAt := time_Format (vv_issuedAt info);
     env_ExpiresAt := time_Format (vv_expiresAt info);
     env_ObservedAt := time_Format observedAt;
     env_Signature := "" |}.

Definition env_with_signature (env : SignedEnvelope) (sig : string) : SignedEnvelope :=
  {| env_Key := env_Key env; env_Value := env_Value env; env_OriginNodeID := env_OriginNodeID env;
     env_PublisherNodeID := env_PublisherNodeID env;
     env_PublisherPublicKey := env_PublisherPublicKey env; env_Version := env_Version env;
     env_IssuedAt := env_IssuedAt env; env_ExpiresAt := env_ExpiresAt env;
     env_ObservedAt := env_ObservedAt env; env_Signature := sig |}.

Definition wrapSignedEnvelope (id : Identity) (key value : string) (info : validatedValue) (now : Z)
  : res string :=
  Identity_Validate id;;
  err_if (negb (vv_verified info)) "cannot wrap unverified value";;
  let env := unsigned_envelope id key value info now in
  signature ← signEnvelope id env;
  Ok (json_Marshal (env_with_signature env signature)).

Definition verifyEnvelope (key : string) (env : SignedEnvelope) (now : Z) : res unit :=
  err_if (env_Key env <>?s key) "envelope key does not match lookup key";;
  publicKey ← of_option (StdEncoding_DecodeString (env_PublisherPublicKey env)) "decode envelope public key";
  signature ← of_option (StdEncoding_DecodeString (env_Signature env)) "decode envelope signature";
  err_if (negb (len publicKey =? PublicKeySize)) "envelope contains invalid public key";;
  err_if (negb (len signature =? SignatureSize)) "envelope contains invalid signature";;
  err_if (NodeIDFromPublicKey publicKey <>?s env_PublisherNodeID env)
    "envelope publisher node id does not match public key";;
  issuedAt ← of_option (time_Parse (env_IssuedAt env)) "parse envelope issued_at";
  expiresAt ← of_option (time_Parse (env_ExpiresAt env)) "parse envelope expires_at";
  observedAt ← of_option (time_Parse (env_ObservedAt env)) "parse envelope observed_at";
  err_if (negb (After expiresAt issuedAt)) "envelope expiry must be after issue time";;
  err_if (Before observedAt issuedAt) "envelope observed_at cannot be before issued_at";;
  err_if (After now expiresAt) "envelope has expired";;
  ok ← ed25519_Verify publicKey (envelopeSigningPayload env) signature;
  err_if (negb ok) "envelope signature verification failed".
End Envelope.

(** ** The fields a signature covers *)
Definition envelope_lines (env : SignedEnvelope) : list string :=
  [env_Key env; env_Value env; env_OriginNodeID env; env_PublisherNodeID env;
   env_PublisherPublicKey env; dec (env_Version env); env_IssuedAt env; env_ExpiresAt env;
   env_ObservedAt env].

Lemma envelopePayload_lines env : envelopeSigningPayload env = str_bytes (lines (envelope_lines env)).
Proof. done. Qed.

Section Facts.
Context `{RFC3339, Ed25519, JSON SignedEnvelope}.

(** What an accepted envelope establishes. *)
Definition envelope_good (key : string) (env : SignedEnvelope) (now : Z) : Prop :=
  env_Key env = key ∧
  ∃ pub sig issued expires observed,
    StdEncoding_DecodeString (env_PublisherPublicKey env) = Some pub ∧
    StdEncoding_DecodeString (env_Signature env) = Some sig ∧
    len pub = 32 ∧ len sig = 64 ∧ NodeIDFromPublicKey pub = env_PublisherNodeID env ∧
    time_Parse (env_IssuedAt env) = Some issued ∧ time_Parse (env_ExpiresAt env) = Some expires ∧
    time_Parse (env_ObservedAt env) = Some observed ∧
    issued < expires ∧ issued <= observed ∧ now <= expires ∧
    ed_verify pub (envelopeSigningPayload env) sig = true.

Lemma verifyEnvelope_good key env now : verifyEnvelope key env now = Ok tt ↔ envelope_good key env now.
Proof.
  unfold verifyEnvelope, envelope_good, PublicKeySize, SignatureSize, After, Before. split.
  - intros E. res_inv. bool_prop. subst. split; [done|].
    match goal with V : ed25519_Verify _ _ _ = Ok true |- _ => apply ed25519_Verify_ok in V as (? & ? & ?) end.
    eexists _, _, _, _, _. split_and!; eauto; lia.
  - intros (-> & pub & sig & issued & expires & observed & Ep & Es & Hp & Hs & Hn & Ei & Ee & Eo & ? & ? & ? & Hv).
    rewrite String.eqb_refl, Ep, Es. cbn [negb of_option mbind res_bind err_if].
    rewrite Hp, Hs, Hn, String.eqb_refl, Ei, Ee, Eo. cbn [negb of_option mbind res_bind err_if Z.eqb Pos.eqb].
    rewrite (proj2 (Z.ltb_lt issued expires)), (proj2 (Z.ltb_ge observed issued)),
      (proj2 (Z.ltb_ge expires now)) by lia. cbn [negb mbind res_bind err_if].
    unfold ed25519_Verify, PublicKeySize, SignatureSize. rewrite Hp, Hs. cbn. by rewrite Hv.
Qed.

Lemma verifyEnvelope_no_panic key env now : verifyEnvelope key env now ≠ Panic.
Proof.
  unfold verifyEnvelope. no_panic. unfold ed25519_Verify.
  repeat match goal with E : err_if _ _ = Ok _ |- _ => apply err_if_ok in E end.
  bool_prop. unfold PublicKeySize in *.
  match goal with E : len _ = 32 |- _ => rewrite E end. done.
Qed.

Lemma maybeDecode_ok raw env :
  maybeDecodeEnvelope raw = Ok (Some env) ↔
  json_Unmarshal raw = Some env ∧ env_Key env ≠ "" ∧ env_Value env ≠ "" ∧
  env_PublisherNodeID env ≠ "" ∧ env_PublisherPublicKey env ≠ "" ∧ env_Signature env ≠ "" ∧
  env_IssuedAt env ≠ "" ∧ env_ExpiresAt env ≠ "" ∧ env_ObservedAt env ≠ "" ∧ env_Version env ≠ 0.
Proof.
  unfold maybeDecodeEnvelope. destruct (json_Unmarshal raw) as [e|] eqn:E; [|naive_solver]. split.
  - case_match; [done|]. intros R. res_inv. bool_prop. done.
  - intros ([= ->] & ? & ? & ? & ? & ? & ? & ? & ? & ?).
    repeat match goal with N : _ ≠ "" |- _ => apply String.eqb_neq in N; rewrite !N; clear N end.
    rewrite (proj2 (Z.eqb_neq _ _)) by done. done.
Qed.
Lemma maybeDecode_no_panic raw : maybeDecodeEnvelope raw ≠ Panic.
Proof. unfold maybeDecodeEnvelope. destruct (json_Unmarshal raw); [|done]. no_panic. Qed.
End Facts.

(** ** Wrapping *)
Section Wrap.
Context `{RFC3339, Ed25519, JSON SignedEnvelope}.

Lemma wrap_ok id key value info now :
  Identity_Validate id = Ok tt → vv_verified info = true →
  let env := unsigned_envelope id key value info now in
  wrapSignedEnvelope id key value info now =
  Ok (json_Marshal (env_with_signature env
        (StdEncoding_EncodeToString (ed_sign (id_PrivateKey id) (envelopeSigningPayload env))))).
Proof.
  intros Hid Hv. pose proof Hid as (_ & Hk & _)%Identity_Validate_ok.
  unfold wrapSignedEnvelope, signEnvelope, ed25519_Sign, PrivateKeySize.
  rewrite Hid, Hv, Hk. done.
Qed.

End Wrap.

(** An envelope made by [wrapSignedEnvelope] around a verified value is
    decoded as an envelope and accepted for its key until the wrapped record
    expires, and it carries the value and the origin it was made with. *)
Theorem envelope_roundtrip `{RFC3339, Ed25519, JSON SignedEnvelope}
    (id : Identity) (key value : string) (info : validatedValue) (now later : Z) :
  Identity_Validate id = Ok tt → ed_keypair (id_PrivateKey id) →
  vv_verified info = true → key ≠ "" → value ≠ "" → 0 < vv_version info →
  rfc3339_range (vv_issuedAt info) → rfc3339_range (vv_expiresAt info) → rfc3339_range now →
  whole_second (vv_issuedAt info) < whole_second (vv_expiresAt info) →
  later <= whole_second (vv_expiresAt info) →
  (∀ sig, json_safe (env_with_signature (unsigned_envelope id key value info now)
                       (StdEncoding_EncodeToString sig))) →
  ∃ raw env, wrapSignedEnvelope id key value info now = Ok raw ∧
    maybeDecodeEnvelope raw = Ok (Some env) ∧ verifyEnvelope key env later = Ok tt ∧
    env_Value env = value ∧ env_OriginNodeID env = vv_originNodeID info ∧
    env_PublisherNodeID env = id_NodeID id.
Proof.
  intros Hid Hkp Hv Hk Hval Hver Ri Re Rn Hlt Hlater Hsafe.
  pose proof Hid as (Hpub & Hpriv & Hnode & Hpp)%Identity_Validate_ok.
  eexists _, _. split; [by apply wrap_ok|].
  assert (rfc3339_range (if Before now (vv_issuedAt info) then vv_issuedAt info else now)) as Ro by by case_match.
  split; [apply maybeDecode_ok; split; [by apply json_Unmarshal_Marshal|]|].
  { cbn. split_and!; try done; try (by apply time_Format_not_empty); [|..|lia].
    - rewrite Hnode. apply NodeID_not_empty.
    - by eapply b64_not_empty, len_not_nil.
    - by eapply b64_not_empty, len_not_nil, ed_sign_length. }
  split; [|done]. apply verifyEnvelope_good. split; [done|].
  eexists _, _, _, _, _. cbn [env_with_signature unsigned_envelope env_PublisherPublicKey
    env_Signature env_PublisherNodeID env_IssuedAt env_ExpiresAt env_ObservedAt].
  split_and!; [apply b64_decode_encode|apply b64_decode_encode|done|apply ed_sign_length|done
    |by apply time_Parse_Format|by apply time_Parse_Format|by apply time_Parse_Format|done| |done|].
  - apply whole_second_mono. unfold Before. destruct (Z.ltb_spec now (vv_issuedAt info)); lia.
  - rewrite Hpp. by apply (ed_verify_sign (id_PrivateKey id)).
Qed.

(** The signature of an envelope covers all its fields: an envelope with the
    same signing payload as one whose fields are single lines (as compact JSON,
    identifiers and times are) agrees with it in every field but the signature. *)
Theorem envelope_signature_binds (e1 e2 : SignedEnvelope) :
  Forall (fun s => one_line s = true)
    [env_Key e1; env_Value e1; env_OriginNodeID e1; env_PublisherNodeID e1;
     env_PublisherPublicKey e1; env_IssuedAt e1; env_ExpiresAt e1; env_ObservedAt e1] →
  0 <= env_Version e1 → 0 <= env_Version e2 →
  envelopeSigningPayload e1 = envelopeSigningPayload e2 →
  e1 = env_with_signature e2 (env_Signature e1).
Proof.
  intros Hl H1 H2 E. rewrite !envelopePayload_lines in E. apply str_bytes_inj, lines_inj in E; [|done|].
  - destruct e1, e2. unfold env_with_signature; cbn in *. injection E as -> -> -> -> -> E -> -> ->.
    apply dec_inj in E as ->; done.
  - repeat match goal with F : Forall _ (_ :: _) |- _ => apply Forall_cons in F as [? F] end.
    unfold envelope_lines. repeat constructor; auto with vx6.
Qed.

(** ** Witnesses *)
#[export] Instance demo_JSON_envelope : JSON SignedEnvelope.
Proof.
  refine (demo_JSON 11
    (fun e => ["envelope"; env_Key e; env_Value e; env_OriginNodeID e; env_PublisherNodeID e;
               env_PublisherPublicKey e; int_field (env_Version e); env_IssuedAt e; env_ExpiresAt e;
               env_ObservedAt e; env_Signature e])
    (fun l => match l with
              | [t; a; b; c; d; e; f; g; h; i; j] =>
                  if t =?s "envelope" then Some (mkEnvelope a b c d e (field_int f) g h i j) else None
              | _ => None
              end)
    (fun e => 0 <= env_Version e < 2 ^ 64) _ _).
  - done.
  - intros [] Hs. cbn in Hs. rewrite field_int_field by done. done.
Defined.

Definition demo_info (id : Identity) : validatedValue :=
  {| vv_storedRaw := "r"; vv_raw := "r"; vv_verified := true; vv_family := "f"; vv_fingerprint := "x";
     vv_issuedAt := 1000 * Second; vv_expiresAt := 2000 * Second; vv_version := 7;
     vv_sequenceBased := true; vv_originNodeID := id_NodeID id; vv_publisherNodeID := "";
     vv_enveloped := false; vv_authoritativePublisher := false |}.
Definition demo_publisher : Identity := Generate (repeat x07 64).

Lemma envelope_roundtrip_witness :
  ∃ raw env, wrapSignedEnvelope demo_publisher "node/id/k" "r" (demo_info demo_publisher) (1500 * Second) = Ok raw ∧
    maybeDecodeEnvelope raw = Ok (Some env) ∧ verifyEnvelope "node/id/k" env (1700 * Second) = Ok tt ∧
    env_Value env = "r" ∧ env_OriginNodeID env = id_NodeID demo_publisher ∧
    env_PublisherNodeID env = id_NodeID demo_publisher.
Proof.
  apply (envelope_roundtrip demo_publisher "node/id/k" "r" (demo_info demo_publisher) (1500 * Second) (1700 * Second)); done.
Defined.

Lemma envelope_signature_binds_witness :
  let e := unsigned_envelope demo_publisher "k" "v" (demo_info demo_publisher) (1500 * Second) in
  e = env_with_signature (env_with_signature e "sig") (env_Signature e).
Proof.
  apply envelope_signature_binds; [|done..].
  repeat constructor; vm_compute; done.
Defined.
