(* ===== verification/DemoJson.v ===== *)
(** * Instances of the JSON interface for records and lists

    The examples need texts that decode to the value they were made from; any
    injective encoding has the laws of [JSON].  Records are written as their
    fields in hexadecimal ([demo_JSON]), lists as the texts of their elements. *)
From S2P Require Import Prelude GoBytes GoStrings GoEncoding GoTime Sha256 GoEnv Lines Identity Record.

Lemma length_Split_fields l t :
  contains_char "," t = false → List.length (Split (enc_fields l +:+ t) ",") = S (List.length l).
Proof.
  intros Ht. induction l as [|x l IH]; cbn [enc_fields].
  - rewrite str_app_nil_l. revert Ht. unfold contains_char, str_existsb.
    induction t as [|c t IH]; [done|]. cbn [str_forallb Split]. intros E%negb_false_iff.
    apply andb_true_iff in E as [Ec Et]. apply negb_true_iff in Ec. rewrite Ascii.eqb_sym, Ec.
    rewrite Et in IH. specialize (IH eq_refl). by destruct (Split t ",").
  - rewrite str_app_assoc, str_app_cons, str_app_nil_l, str_app_cons.
    rewrite Split_cons_sep by by apply hex_encode_no_char. cbn. by rewrite IH.
Qed.

Definition dec_all (s : string) : option (list string) :=
  let parts := Split s "," in dec_fields (pred (List.length parts)) parts.
Lemma dec_all_enc l t : contains_char "," t = false → dec_all (enc_fields l +:+ t) = Some l.
Proof. intros Ht. unfold dec_all. rewrite length_Split_fields by done. apply dec_enc_fields. Qed.
Lemma dec_all_fields l : dec_all (enc_fields l) = Some l.
Proof. rewrite <- (str_app_nil_r (enc_fields l)). by apply dec_all_enc. Qed.

Definition list_JSON {T} `{JSON T} : JSON (list T).
Proof.
  assert (∀ l : list T, Forall json_safe l → mapM json_Unmarshal (json_Marshal <$> l) = Some l) as Hl.
  { induction 1 as [|x l Hx _ IH]; [done|]. cbn. rewrite json_Unmarshal_Marshal by done. cbn. by rewrite IH. }
  refine {| json_Marshal := fun l => enc_fields (json_Marshal <$> l);
            json_MarshalIndent := fun l => enc_fields (json_Marshal <$> l);
            json_Unmarshal := fun s => dec_all s ≫= mapM json_Unmarshal;
            json_safe := Forall json_safe |}; intros l Hs.
  - rewrite dec_all_fields. cbn. by apply Hl.
  - rewrite dec_all_enc by done. cbn. by apply Hl.
Defined.

Definition demo_flag (s : string) : bool := s =?s "true".
#[export] Instance demo_JSON_service : JSON ServiceRecord.
Proof.
  refine (demo_JSON 14
    (fun r => [sr_NodeID r; sr_NodeName r; sr_ServiceName r; sr_Alias r; sr_Address r;
               bool_str (sr_IsHidden r); bool_str (sr_IsPrivate r); sr_HiddenProfile r;
               enc_fields (sr_IntroPoints r); enc_fields (sr_StandbyIntroPoints r);
               sr_PublicKey r; sr_IssuedAt r; sr_ExpiresAt r; sr_Signature r])
    (fun l => match l with
              | [a; b; c; d; e; f; g; h; i; j; k; l; m; n] =>
                  i ← dec_all i; j ← dec_all j;
                  Some (mkServiceRecord a b c d e (demo_flag f) (demo_flag g) h i j k l m n)
              | _ => None
              end)
    (fun _ => True) _ _); [done|].
  intros [] _. cbn. rewrite !dec_all_fields. cbn. by repeat match goal with b : bool |- _ => destruct b end.
Defined.
#[export] Instance demo_JSON_services : JSON (list ServiceRecord) := list_JSON.

#[export] Instance demo_JSON_endpoint : JSON EndpointRecord.
Proof.
  refine (demo_JSON 9
    (fun r => [int_field (er_Version r); int_field (er_Sequence r); er_NodeID r; er_NodeName r;
               er_Address r; er_PublicKey r; er_IssuedAt r; er_ExpiresAt r; er_Signature r])
    (fun l => match l with
              | [a; b; c; d; e; f; g; h; i] =>
                  Some (mkEndpointRecord (field_int a) (field_int b) c d e f g h i)
              | _ => None
              end)
    (fun r => 0 <= er_Version r < 2 ^ 64 ∧ 0 <= er_Sequence r < 2 ^ 64) _ _); [done|].
  intros [] [? ?]. cbn -[int_field field_int Z.pow] in *. by rewrite !field_int_field by done.
Defined.

(** Field texts have hexadecimal digits and commas only. *)
Lemma enc_fields_chars c l : is_hex_lower c = false → Ascii.eqb c "," = false → contains_char c (enc_fields l) = false.
Proof.
  intros Hc1 Hc2. induction l as [|x l IH]; [done|]. cbn [enc_fields].
  unfold contains_char, str_existsb in *. rewrite !str_forallb_app.
  pose proof (hex_encode_no_char c (str_bytes x) Hc1) as Hh. unfold contains_char, str_existsb in Hh.
  apply negb_false_iff in Hh, IH. rewrite Hh, IH. cbn. by rewrite Hc2.
Qed.

(** The value of a successful computation. *)
Definition res_get {A} (d : A) (r : res A) : A := match r with Ok a => a | _ => d end.
Lemma res_get_ok {A} (d : A) (r : res A) : is_ok r = true → r = Ok (res_get d r).
Proof. by destruct r. Qed.
