(* ===== verification/Hidden.v ===== *)
(** * Hidden services in the DHT (internal/dht/hidden_descriptor.go, dht.go)

    Lookup references ("alias#secret"), the blinded keys that rotate every
    hour, and the encrypted descriptor stored under them.  The functions that
    draw random bytes take them as arguments. *)
From S2P Require Import Prelude GoBytes GoStrings GoEncoding GoTime Sha256 GoEnv Lines GoNumbers Identity Record RecordProps Envelope.

(** ** References and blinded keys (dht.go) *)
Record HiddenLookupRef := mkRef { ref_Alias : string; ref_Secret : string }.
Definition zero_ref : HiddenLookupRef := mkRef "" "".

Definition hiddenDescriptorRotation : Z := Hour.
Definition hiddenLookupDelimiter : ascii := "#".

Definition ValidateHiddenLookupSecret (secret : string) : res unit :=
  err_if (TrimSpace secret =?s "") "hidden lookup secret cannot be empty";;
  err_if (ContainsAny secret alias_reserved) "hidden lookup secret contains unsupported characters";;
  err_if (slen secret <? 16) "hidden lookup secret must be at least 16 characters".

(** [strings.SplitN(input, "#", 2)] has a second part exactly when [Cut] finds
    the delimiter. *)
Definition ParseHiddenLookupRef (input : string) : res HiddenLookupRef :=
  let input := TrimSpace input in
  err_if (input =?s "") "hidden lookup reference cannot be empty";;
  let '(alias, rest, found) := Cut input hiddenLookupDelimiter in
  ValidateHiddenAlias alias;;
  if found then
    let secret := TrimSpace rest in
    ValidateHiddenLookupSecret secret;;
    Ok (mkRef alias secret)
  else Ok (mkRef alias "").

Definition ComposeHiddenLookupInvite (alias secret : string) : string :=
  if TrimSpace secret =?s "" then alias else alias +:+ String hiddenLookupDelimiter secret.

(** [NewHiddenLookupSecret] from the 18 bytes it draws. *)
Definition NewHiddenLookupSecret (buf : bytes) : string := RawURLEncoding_EncodeToString buf.

(** The zero time stands for the current one; the quotient truncates. *)
Definition hiddenDescriptorEpoch (clock now : Z) : Z :=
  let now := if IsZero now then clock else now in
  Z.quot (Unix now) (hiddenDescriptorRotation / Second).

Definition hiddenServiceKeyForRefEpoch (ref : HiddenLookupRef) (epoch : Z) : string :=
  let lookupSecret := if TrimSpace (ref_Secret ref) <>?s "" then ref_Secret ref else ref_Alias ref in
  let sum := Sum256 (str_bytes ("vx6-hidden-desc-v1" +:+ newline +:+ ref_Alias ref +:+ newline +:+
                                lookupSecret +:+ newline +:+ FormatInt epoch)) in
  "hidden-desc/v1/" +:+ FormatInt epoch +:+ "/" +:+ RawURLEncoding_EncodeToString (take 20 sum).

Definition hiddenServiceLookupKeysForRef (clock : Z) (ref : HiddenLookupRef) (now : Z) : list string :=
  let current := hiddenDescriptorEpoch clock now in
  let previous := current - 1 in
  hiddenServiceKeyForRefEpoch ref current ::
  (if 0 <=? previous then [hiddenServiceKeyForRefEpoch ref previous] else []).

(** The error of [ParseHiddenLookupRef] is dropped: the reference is then zero. *)
Definition ref_or_zero (alias : string) : HiddenLookupRef :=
  match ParseHiddenLookupRef alias with Ok ref => ref | _ => zero_ref end.

Definition HiddenServiceKeyAt (clock : Z) (alias : string) (now : Z) : string :=
  hiddenServiceKeyForRefEpoch (ref_or_zero alias) (hiddenDescriptorEpoch clock now).
Definition HiddenServiceKey (clock : Z) (alias : string) : string := HiddenServiceKeyAt clock alias clock.

Definition HiddenServiceLookupKeys (clock : Z) (alias : string) (now : Z) : list string :=
  let ref := ref_or_zero alias in
  let current := hiddenDescriptorEpoch clock now in
  let previous := current - 1 in
  hiddenServiceKeyForRefEpoch ref current ::
  (if 0 <=? previous then [hiddenServiceKeyForRefEpoch ref previous] else []).

Fixpoint dedup_keys (seen : gset string) (keys : list string) : list string :=
  match keys with
  | [] => []
  | key :: keys' =>
      if bool_decide (key ∈ seen) then dedup_keys seen keys'
      else key :: dedup_keys ({[key]} ∪ seen) keys'
  end.
Definition HiddenServicePublishKeys (clock : Z) (alias secret : string) (now : Z) : list string :=
  dedup_keys ∅ (hiddenServiceLookupKeysForRef clock (mkRef alias secret) now).

(** [parseHiddenDescriptorEpoch] (value.go). *)
Definition parseHiddenDescriptorEpoch (key : string) : res Z :=
  match Split key "/" with
  | [p0; p1; p2; p3] =>
      err_if ((p0 <>?s "hidden-desc") || (p1 <>?s "v1") || (p2 =?s "") || (p3 =?s ""))
        "invalid hidden descriptor key";;
      epoch ← of_option (ParseInt p2) "invalid hidden descriptor epoch in key";
      err_if (epoch <? 0) "invalid hidden descriptor epoch in key";;
      Ok epoch
  | _ => Err "invalid hidden descriptor key"
  end.

Definition stringsHasHiddenDescriptorKey (key : string) : bool := HasPrefix key "hidden-desc/v1/".

(** ** The descriptor (hidden_descriptor.go) *)
Definition hiddenDescriptorPayloadTargetSize : Z := 1024.

Record HiddenDescriptor := mkDescriptor {
  hd_NodeID : string;
  hd_ServiceTag : string;
  hd_IssuedAt : string;
  hd_ExpiresAt : string;
  hd_Nonce : string;
  hd_Ciphertext : string;
}.

Record hiddenDescriptorPayload := mkPayload {
  hp_Record : ServiceRecord;
  hp_Padding : string;
}.

Definition hiddenDescriptorCipherKey (alias secret : string) (epoch : Z) : bytes :=
  let lookupSecret := if secret <>?s "" then secret else alias in
  Sum256 (str_bytes ("vx6-hidden-desc-v1-key" +:+ newline +:+ alias +:+ newline +:+
                     lookupSecret +:+ newline +:+ FormatInt epoch)).

Definition hiddenServiceTag (rec : ServiceRecord) : string :=
  RawURLEncoding_EncodeToString (take 16 (Sum256 (str_bytes
    ("vx6-hidden-service-tag" +:+ newline +:+ sr_NodeID rec +:+ newline +:+
     sr_ServiceName rec +:+ newline +:+ sr_Alias rec)))).

Definition hiddenDescriptorFingerprint (desc : HiddenDescriptor) : string :=
  RawURLEncoding_EncodeToString (take 12 (Sum256 (str_bytes
    (hd_NodeID desc +:+ newline +:+ hd_ServiceTag desc +:+ newline +:+
     hd_IssuedAt desc +:+ newline +:+ hd_ExpiresAt desc +:+ newline +:+
     hd_Nonce desc +:+ newline +:+ hd_Ciphertext desc)))).

Definition hiddenDescriptorAAD (lookupKey serviceTag nodeID : string) : bytes :=
  str_bytes ("vx6-hidden-desc-v1" +:+ newline +:+ lookupKey +:+ newline +:+
             serviceTag +:+ newline +:+ nodeID +:+ newline).

Fixpoint srepeat (c : ascii) (n : nat) : string :=
  match n with O => "" | S n' => String c (srepeat c n') end.

(** [for len(raw) > target { target += 256 }]: the length bounds the rounds. *)
Fixpoint padding_target (fuel : nat) (size target : Z) : Z :=
  match fuel with
  | O => target
  | S n => if target <? size then padding_target n size (target + 256) else target
  end.

Section Descriptor.
Context `{UnicodeTables, NetIP, RFC3339, Ed25519, AEAD}.
Context `{!JSON SignedEnvelope} `{!JSON ServiceRecord} `{!JSON HiddenDescriptor}
  `{!JSON hiddenDescriptorPayload}.

Definition marshalHiddenDescriptorPayload (rec : ServiceRecord) : bytes :=
  let raw := json_Marshal (mkPayload rec "") in
  let target := padding_target (String.length raw) (slen raw) hiddenDescriptorPayloadTargetSize in
  let padding := srepeat "x" (Z.to_nat (target - slen raw)) in
  let raw := json_Marshal (mkPayload rec padding) in
  if slen raw <? target then
    str_bytes (json_Marshal (mkPayload rec (padding +:+ srepeat "x" (Z.to_nat (target - slen raw)))))
  else str_bytes raw.

Definition decodeHiddenDescriptorPayload (plaintext : bytes) : res hiddenDescriptorPayload :=
  payload ← of_option (json_Unmarshal (bytes_str plaintext)) "decode payload";
  err_if ((sr_NodeID (hp_Record payload) =?s "") || (sr_ServiceName (hp_Record payload) =?s ""))
    "hidden descriptor payload missing wrapped record";;
  Ok payload.

(** [EncodeHiddenServiceDescriptor] with the nonce it draws. *)
Definition EncodeHiddenServiceDescriptor (nonce : bytes) (rec : ServiceRecord)
    (lookupKey lookupSecret : string) : res string :=
  err_if (negb (sr_IsHidden rec) || (sr_Alias rec =?s ""))
    "hidden descriptor requires a hidden service record with alias";;
  epoch ← parseHiddenDescriptorEpoch lookupKey;
  let key := hiddenDescriptorCipherKey (sr_Alias rec) lookupSecret epoch in
  let plaintext := marshalHiddenDescriptorPayload rec in
  let serviceTag := hiddenServiceTag rec in
  let aad := hiddenDescriptorAAD lookupKey serviceTag (sr_NodeID rec) in
  ciphertext ← gcm_Seal key nonce plaintext aad;
  Ok (json_Marshal {|
    hd_NodeID := sr_NodeID rec; hd_ServiceTag := serviceTag;
    hd_IssuedAt := sr_IssuedAt rec; hd_ExpiresAt := sr_ExpiresAt rec;
    hd_Nonce := RawURLEncoding_EncodeToString nonce;
    hd_Ciphertext := RawURLEncoding_EncodeToString ciphertext |}).

Definition parseHiddenDescriptor (raw : string) : res HiddenDescriptor :=
  desc ← of_option (json_Unmarshal raw) "decode hidden descriptor";
  err_if ((hd_NodeID desc =?s "") || (hd_ServiceTag desc =?s "") || (hd_IssuedAt desc =?s "") ||
          (hd_ExpiresAt desc =?s "") || (hd_Nonce desc =?s "") || (hd_Ciphertext desc =?s ""))
    "hidden descriptor missing required fields";;
  of_option (time_Parse (hd_IssuedAt desc)) "parse hidden descriptor issued_at";;
  of_option (time_Parse (hd_ExpiresAt desc)) "parse hidden descriptor expires_at";;
  of_option (RawURLEncoding_DecodeString (hd_Nonce desc)) "decode hidden descriptor nonce";;
  of_option (RawURLEncoding_DecodeString (hd_Ciphertext desc)) "decode hidden descriptor ciphertext";;
  Ok desc.

Definition extractLookupPayload (lookupKey storedValue : string) (now : Z) : res string :=
  env ← maybeDecodeEnvelope storedValue;
  match env with
  | Some env => verifyEnvelope lookupKey env now;; Ok (env_Value env)
  | None => Ok storedValue
  end.

Definition extractHiddenDescriptor (lookupKey storedValue : string) (now : Z) : res HiddenDescriptor :=
  payload ← extractLookupPayload lookupKey storedValue now;
  parseHiddenDescriptor payload.

Definition decodeLegacyHiddenServiceRecord (lookupKey storedValue alias : string) (now : Z)
  : res ServiceRecord :=
  payload ← extractLookupPayload lookupKey storedValue now;
  rec ← of_option (json_Unmarshal payload) "decode legacy hidden descriptor";
  VerifyServiceRecord rec now;;
  err_if (negb (sr_IsHidden rec) || (sr_Alias rec <>?s alias))
    "legacy hidden service alias does not match requested alias";;
  (if stringsHasHiddenDescriptorKey lookupKey then
     epoch ← parseHiddenDescriptorEpoch lookupKey;
     err_if (hiddenServiceKeyForRefEpoch (mkRef (sr_Alias rec) "") epoch <>?s lookupKey)
       "legacy hidden descriptor key does not match alias-derived blinded key"
   else Ok tt);;
  Ok rec.

(** The record of a decrypted payload: the padded form, or a bare record. *)
Definition decrypted_record (plaintext : bytes) : res ServiceRecord :=
  match decodeHiddenDescriptorPayload plaintext with
  | Ok payload => Ok (hp_Record payload)
  | _ => of_option (json_Unmarshal (bytes_str plaintext)) "decode decrypted hidden record"
  end.

(** The main path of [DecodeHiddenServiceRecord], once the descriptor is known. *)
Definition open_descriptor (lookupKey : string) (desc : HiddenDescriptor) (alias : string) (now : Z)
  : res ServiceRecord :=
  ref ← ParseHiddenLookupRef alias;
  epoch ← parseHiddenDescriptorEpoch lookupKey;
  let key := hiddenDescriptorCipherKey (ref_Alias ref) (ref_Secret ref) epoch in
  nonce ← of_option (RawURLEncoding_DecodeString (hd_Nonce desc)) "decode hidden descriptor nonce";
  ciphertext ← of_option (RawURLEncoding_DecodeString (hd_Ciphertext desc)) "decode hidden descriptor ciphertext";
  plaintext ← gcm_Open key nonce ciphertext (hiddenDescriptorAAD lookupKey (hd_ServiceTag desc) (hd_NodeID desc));
  rec ← decrypted_record plaintext;
  VerifyServiceRecord rec now;;
  err_if (negb (sr_IsHidden rec) || (sr_Alias rec <>?s ref_Alias ref))
    "decrypted hidden service alias does not match requested alias";;
  err_if (sr_NodeID rec <>?s hd_NodeID desc) "hidden descriptor node id does not match decrypted record";;
  err_if ((sr_IssuedAt rec <>?s hd_IssuedAt desc) || (sr_ExpiresAt rec <>?s hd_ExpiresAt desc))
    "hidden descriptor times do not match decrypted record";;
  err_if (hiddenServiceTag rec <>?s hd_ServiceTag desc)
    "hidden descriptor service tag does not match decrypted record";;
  Ok rec.

Definition DecodeHiddenServiceRecord (lookupKey storedValue alias : string) (now : Z) : res ServiceRecord :=
  match extractHiddenDescriptor lookupKey storedValue now with
  | Ok desc => open_descriptor lookupKey desc alias now
  | Err e =>
      match decodeLegacyHiddenServiceRecord lookupKey storedValue alias now with
      | Ok legacy => Ok legacy
      | Err _ => Err e
      | Panic => Panic
      end
  | Panic => Panic
  end.
End Descriptor.
