(* ===== verification/HiddenProps.v ===== *)
(** * Hidden services: references, rotation and descriptors

    Invitations parse back, publisher and client meet on a common blinded key,
    descriptors decrypt to the published record and never to another service,
    their size reveals only a 256-byte class, and the decoder's panic on a
    nonce of the wrong length. *)
From S2P Require Import Prelude GoBytes GoStrings GoEncoding GoTime Sha256 GoEnv Lines GoNumbers Identity Record RecordProps DemoJson Envelope Hidden.

(** ** References *)
Lemma Cut_at a c s : contains_char c a = false → Cut (a +:+ String c s) c = (a, s, true).
Proof.
  unfold contains_char, str_existsb. induction a as [|d a IH]; cbn [str_forallb negb].
  - intros _. rewrite str_app_nil_l. cbn. by rewrite Ascii.eqb_refl.
  - intros Hn%negb_false_iff. apply andb_true_iff in Hn as [Hd Ha]. rewrite str_app_cons.
    cbn [Cut]. apply negb_true_iff in Hd. rewrite Ascii.eqb_sym, Hd, IH by by rewrite Ha. done.
Qed.
Lemma Cut_none a c : contains_char c a = false → Cut a c = (a, "", false).
Proof.
  unfold contains_char, str_existsb. induction a as [|d a IH]; cbn [str_forallb negb]; [done|].
  intros Hn%negb_false_iff. apply andb_true_iff in Hn as [Hd Ha].
  cbn [Cut]. apply negb_true_iff in Hd. rewrite Ascii.eqb_sym, Hd, IH by by rewrite Ha. done.
Qed.

Lemma ContainsAny_char s set c : ContainsAny s set = false → ascii_mem set c = true → contains_char c s = false.
Proof.
  unfold ContainsAny, contains_char, str_existsb. rewrite !negb_false_iff. intros Hs Hc.
  eapply str_forallb_impl; [|exact Hs]. intros d Hd.
  destruct (Ascii.eqb_spec c d) as [<-|]; [|done]. by rewrite Hc in Hd.
Qed.

Lemma alias_no_delimiter alias :
  ValidateHiddenAlias alias = Ok tt → contains_char hiddenLookupDelimiter alias = false ∧ alias ≠ "".
Proof.
  unfold ValidateHiddenAlias. intros E. res_inv. bool_prop. split; [|done].
  by eapply ContainsAny_char.
Qed.

(** An alias with an optional secret, as a service owner configures them. *)
Definition good_invite (alias secret : string) : Prop :=
  ValidateHiddenAlias alias = Ok tt ∧
  (secret = "" ∨ ValidateHiddenLookupSecret secret = Ok tt ∧ TrimSpace secret = secret) ∧
  TrimSpace (ComposeHiddenLookupInvite alias secret) = ComposeHiddenLookupInvite alias secret.

Lemma parse_composed alias secret :
  good_invite alias secret →
  ParseHiddenLookupRef (ComposeHiddenLookupInvite alias secret) = Ok (mkRef alias secret).
Proof.
  intros (Ha & Hs & Ht). destruct (alias_no_delimiter _ Ha) as [Hd Hne].
  unfold ParseHiddenLookupRef. rewrite Ht. clear Ht. unfold ComposeHiddenLookupInvite.
  destruct Hs as [->|[Hs Hts]].
  - change (TrimSpace "" =?s "") with true. cbv iota.
    rewrite (proj2 (String.eqb_neq _ _) Hne). cbn [err_if mbind res_bind].
    rewrite Cut_none by done. by rewrite Ha.
  - assert (TrimSpace secret ≠ "") as Hn.
    { unfold ValidateHiddenLookupSecret in Hs. res_inv. by bool_prop. }
    rewrite (proj2 (String.eqb_neq _ _) Hn).
    assert (alias +:+ String hiddenLookupDelimiter secret ≠ "") as Hc by by destruct alias.
    rewrite (proj2 (String.eqb_neq _ _) Hc). cbn [err_if mbind res_bind].
    rewrite Cut_at by done. rewrite Ha, Hts. cbn [mbind res_bind]. by rewrite Hs.
Qed.

(** ** Rotation *)
Lemma elem_of_dedup k keys : ∀ seen, k ∈ keys → k ∉ seen → k ∈ dedup_keys seen keys.
Proof.
  induction keys as [|x keys IH]; intros seen Hk Hs; [set_solver|]. cbn.
  case_bool_decide as Hx; [apply IH; set_solver|].
  destruct (decide (k = x)) as [->|]; [set_solver|]. apply elem_of_cons. right. apply IH; set_solver.
Qed.

Definition since_epoch (t : Z) : Prop := unix_offset * Second <= t.

Lemma epoch_spec clock t : since_epoch t →
  hiddenDescriptorEpoch clock t = (t / Second - unix_offset) / 3600 ∧ 0 <= hiddenDescriptorEpoch clock t.
Proof.
  unfold since_epoch, hiddenDescriptorEpoch, IsZero, Unix, unix_offset, Second. intros Ht.
  rewrite (proj2 (Z.eqb_neq t 0)) by lia.
  change (hiddenDescriptorRotation / 10 ^ 9) with 3600.
  rewrite Z.quot_div_nonneg by (Z.to_euclidean_division_equations; lia).
  split; [done|]. Z.to_euclidean_division_equations. lia.
Qed.

Lemma lookup_keys_elem clock ref t e : since_epoch t →
  0 <= e → e = hiddenDescriptorEpoch clock t ∨ e = hiddenDescriptorEpoch clock t - 1 →
  hiddenServiceKeyForRefEpoch ref e ∈ hiddenServiceLookupKeysForRef clock ref t.
Proof.
  intros Ht He [->| ->]; unfold hiddenServiceLookupKeysForRef; [set_solver|].
  rewrite (proj2 (Z.leb_le _ _)) by done. set_solver.
Qed.

Lemma HiddenServiceLookupKeys_ref clock invite ref t :
  ParseHiddenLookupRef invite = Ok ref →
  HiddenServiceLookupKeys clock invite t = hiddenServiceLookupKeysForRef clock ref t.
Proof. intros E. unfold HiddenServiceLookupKeys, ref_or_zero. by rewrite E. Qed.

(** C32: The invitation of a hidden service parses back to its alias and secret,
    and a client that looks the service up finds, among the keys it tries, one
    the publisher stores under, whenever their clocks differ by at most the
    rotation period of one hour. *)
Theorem hidden_keys_meet (alias secret : string) (clock1 clock2 published looked : Z) :
  good_invite alias secret → since_epoch published → since_epoch looked →
  Z.abs (published - looked) <= hiddenDescriptorRotation →
  ParseHiddenLookupRef (ComposeHiddenLookupInvite alias secret) = Ok (mkRef alias secret) ∧
  ∃ key, key ∈ HiddenServicePublishKeys clock1 alias secret published ∧
         key ∈ HiddenServiceLookupKeys clock2 (ComposeHiddenLookupInvite alias secret) looked.
Proof.
  intros Hg Hp Hl Hd. pose proof (parse_composed _ _ Hg) as Hparse. split; [done|].
  rewrite (HiddenServiceLookupKeys_ref _ _ _ _ Hparse). unfold HiddenServicePublishKeys.
  destruct (epoch_spec clock1 _ Hp) as [E1 P1]. destruct (epoch_spec clock2 _ Hl) as [E2 P2].
  set (e1 := hiddenDescriptorEpoch clock1 published) in *.
  set (e2 := hiddenDescriptorEpoch clock2 looked) in *.
  assert (Z.abs (e1 - e2) <= 1) as Hclose.
  { rewrite E1, E2. unfold hiddenDescriptorRotation, Hour, Minute, Second in *.
    Z.to_euclidean_division_equations. lia. }
  exists (hiddenServiceKeyForRefEpoch (mkRef alias secret) (Z.min e1 e2)).
  split; [apply elem_of_dedup; [|set_solver]|]; apply lookup_keys_elem; try done; lia.
Qed.

Lemma hidden_keys_meet_witness :
  ∃ key, key ∈ HiddenServicePublishKeys 0 "ghost" "0123456789abcdef" ((unix_offset + 7199) * Second) ∧
         key ∈ HiddenServiceLookupKeys 0 "ghost#0123456789abcdef" ((unix_offset + 7200) * Second).
Proof.
  apply (hidden_keys_meet "ghost" "0123456789abcdef" 0 0 ((unix_offset + 7199) * Second)
           ((unix_offset + 7200) * Second)); [|by vm_compute..].
  split_and!; [done|right; split; by vm_compute|by vm_compute].
Defined.

(** ** Descriptors *)
Section Descriptors.
Context `{UnicodeTables, NetIP, RFC3339, Ed25519, AEAD}.
Context `{!JSON SignedEnvelope} `{!JSON ServiceRecord} `{!JSON HiddenDescriptor}
  `{!JSON hiddenDescriptorPayload}.

Lemma verified_fields rec now :
  VerifyServiceRecord rec now = Ok tt →
  sr_NodeID rec ≠ "" ∧ sr_ServiceName rec ≠ "" ∧
  time_Parse (sr_IssuedAt rec) ≠ None ∧ time_Parse (sr_ExpiresAt rec) ≠ None.
Proof. unfold VerifyServiceRecord. intros E. res_inv. bool_prop. split_and!; congruence. Qed.

Lemma parsed_not_empty s : time_Parse s ≠ None → s ≠ "".
Proof. intros Hs ->. by rewrite time_Parse_empty in Hs. Qed.

(** [parseHiddenDescriptor] accepts exactly the well-formed descriptors. *)
Definition well_formed (d : HiddenDescriptor) : Prop :=
  hd_NodeID d ≠ "" ∧ hd_ServiceTag d ≠ "" ∧ hd_Nonce d ≠ "" ∧ hd_Ciphertext d ≠ "" ∧
  time_Parse (hd_IssuedAt d) ≠ None ∧ time_Parse (hd_ExpiresAt d) ≠ None ∧
  RawURLEncoding_DecodeString (hd_Nonce d) ≠ None ∧ RawURLEncoding_DecodeString (hd_Ciphertext d) ≠ None.

Lemma parseHiddenDescriptor_ok raw d :
  parseHiddenDescriptor raw = Ok d ↔ json_Unmarshal raw = Some d ∧ well_formed d.
Proof.
  unfold parseHiddenDescriptor, well_formed. split.
  - intros E. res_inv. bool_prop. split; [done|]. split_and!; congruence.
  - intros (-> & N1 & N2 & N3 & N4 & T1 & T2 & R1 & R2). cbn [of_option mbind res_bind].
    pose proof (parsed_not_empty _ T1) as N5. pose proof (parsed_not_empty _ T2) as N6.
    apply String.eqb_neq in N1, N2, N3, N4, N5, N6. rewrite N1, N2, N3, N4, N5, N6.
    cbn [orb err_if mbind res_bind].
    destruct (time_Parse (hd_IssuedAt d)), (time_Parse (hd_ExpiresAt d)),
      (RawURLEncoding_DecodeString (hd_Nonce d)), (RawURLEncoding_DecodeString (hd_Ciphertext d)); done.
Qed.

Lemma srepeat_app c n m : srepeat c n +:+ srepeat c m = srepeat c (n + m).
Proof. induction n; [done|]. cbn [srepeat Nat.add]. rewrite str_app_cons. by f_equal. Qed.

Lemma marshal_payload rec :
  ∃ n, marshalHiddenDescriptorPayload rec = str_bytes (json_Marshal (mkPayload rec (srepeat "x" n))).
Proof. unfold marshalHiddenDescriptorPayload. rewrite srepeat_app. case_match; eauto. Qed.

Lemma decrypted_marshal rec :
  (∀ n, json_safe (mkPayload rec (srepeat "x" n))) → sr_NodeID rec ≠ "" → sr_ServiceName rec ≠ "" →
  decrypted_record (marshalHiddenDescriptorPayload rec) = Ok rec.
Proof.
  intros Hs N1 N2. destruct (marshal_payload rec) as [pad ->].
  unfold decrypted_record, decodeHiddenDescriptorPayload.
  rewrite bytes_str_bytes, json_Unmarshal_Marshal by done. cbn [of_option mbind res_bind hp_Record].
  apply String.eqb_neq in N1, N2. by rewrite N1, N2.
Qed.

Lemma tag_not_empty rec : hiddenServiceTag rec ≠ "".
Proof.
  unfold hiddenServiceTag. apply RawURL_not_empty.
  apply (len_not_nil _ 16). unfold len. by rewrite length_take, length_Sum256.
Qed.

(** The record the descriptor path returns. *)
Lemma open_descriptor_sound key desc alias now rec :
  open_descriptor key desc alias now = Ok rec →
  VerifyServiceRecord rec now = Ok tt ∧ sr_IsHidden rec = true ∧
  ∃ ref, ParseHiddenLookupRef alias = Ok ref ∧ sr_Alias rec = ref_Alias ref ∧
    sr_NodeID rec = hd_NodeID desc ∧ sr_IssuedAt rec = hd_IssuedAt desc ∧
    sr_ExpiresAt rec = hd_ExpiresAt desc ∧ hiddenServiceTag rec = hd_ServiceTag desc.
Proof.
  unfold open_descriptor. intros E. res_inv. bool_prop.
  repeat match goal with u : unit |- _ => destruct u end.
  split; [done|]. split; [done|]. eexists. by split_and!.
Qed.

Lemma legacy_sound key stored alias now rec :
  decodeLegacyHiddenServiceRecord key stored alias now = Ok rec →
  VerifyServiceRecord rec now = Ok tt ∧ sr_IsHidden rec = true ∧ sr_Alias rec = alias.
Proof.
  unfold decodeLegacyHiddenServiceRecord. intros E. res_inv. bool_prop.
  by repeat match goal with u : unit |- _ => destruct u end.
Qed.
End Descriptors.

(** C31: A hidden service record sealed by [EncodeHiddenServiceDescriptor] under a
    descriptor key is what [DecodeHiddenServiceRecord] returns to a client with
    the invitation, as long as the record verifies, whether the descriptor is
    stored bare or inside an envelope. *)
Theorem hidden_descriptor_roundtrip `{UnicodeTables, NetIP, RFC3339, Ed25519, AEAD}
    `{!JSON SignedEnvelope} `{!JSON ServiceRecord} `{!JSON HiddenDescriptor} `{!JSON hiddenDescriptorPayload}
    (nonce : bytes) (rec : ServiceRecord) (key secret invite stored : string) (epoch now : Z) :
  VerifyServiceRecord rec now = Ok tt → sr_IsHidden rec = true → sr_Alias rec ≠ "" →
  parseHiddenDescriptorEpoch key = Ok epoch → len nonce = gcm_NonceSize →
  ParseHiddenLookupRef invite = Ok (mkRef (sr_Alias rec) secret) →
  (∀ n, json_safe (mkPayload rec (srepeat "x" n))) →
  (∀ n c, json_safe (mkDescriptor (sr_NodeID rec) (hiddenServiceTag rec) (sr_IssuedAt rec) (sr_ExpiresAt rec) n c)) →
  ∃ text, EncodeHiddenServiceDescriptor nonce rec key secret = Ok text ∧
    (extractLookupPayload key stored now = Ok text →
     DecodeHiddenServiceRecord key stored invite now = Ok rec).
Proof.
  intros Hv Hh Ha He Hnonce Href Hs1 Hs2. destruct (verified_fields _ _ Hv) as (N1 & N2 & T1 & T2).
  unfold EncodeHiddenServiceDescriptor, gcm_Seal. apply String.eqb_neq in Ha.
  rewrite Hh, Ha, He, Hnonce. cbn [negb orb err_if mbind res_bind Z.eqb Pos.eqb].
  change (gcm_NonceSize =? gcm_NonceSize) with true. cbn [mbind res_bind].
  eexists. split; [reflexivity|]. intros Hx. unfold DecodeHiddenServiceRecord, extractHiddenDescriptor.
  rewrite Hx. cbn [mbind res_bind].
  erewrite (proj2 (parseHiddenDescriptor_ok _ _)).
  2: { split; [by apply json_Unmarshal_Marshal|]. unfold well_formed.
       cbn [hd_NodeID hd_ServiceTag hd_Nonce hd_Ciphertext hd_IssuedAt hd_ExpiresAt].
       rewrite !RawURL_decode_encode. split_and!; [done|apply tag_not_empty| | |done..].
       - by eapply RawURL_not_empty, len_not_nil.
       - apply RawURL_not_empty. intros E. pose proof (aead_Seal_length
           (hiddenDescriptorCipherKey (sr_Alias rec) secret epoch) nonce (marshalHiddenDescriptorPayload rec)
           (hiddenDescriptorAAD key (hiddenServiceTag rec) (sr_NodeID rec))) as L.
         rewrite E in L. change (len []) with 0 in L. pose proof (len_nonneg (marshalHiddenDescriptorPayload rec)). lia. }
  unfold open_descriptor, gcm_Open. rewrite Href, He. cbn [mbind res_bind ref_Alias ref_Secret hd_Nonce hd_Ciphertext hd_NodeID hd_ServiceTag hd_IssuedAt hd_ExpiresAt].
  rewrite !RawURL_decode_encode. cbn [of_option mbind res_bind]. rewrite Hnonce, Z.eqb_refl, aead_Open_Seal.
  cbn [of_option mbind res_bind]. rewrite decrypted_marshal by done. cbn [mbind res_bind].
  rewrite Hv, Hh, !String.eqb_refl. done.
Qed.

(** C33: Whatever a peer returns, a record that [DecodeHiddenServiceRecord]
    delivers is a verified hidden service with the requested alias: the alias of
    the parsed invitation, or, for legacy values, the invitation itself. *)
Theorem hidden_decode_sound `{UnicodeTables, NetIP, RFC3339, Ed25519, AEAD}
    `{!JSON SignedEnvelope} `{!JSON ServiceRecord} `{!JSON HiddenDescriptor} `{!JSON hiddenDescriptorPayload}
    (key stored invite : string) (now : Z) (rec : ServiceRecord) :
  DecodeHiddenServiceRecord key stored invite now = Ok rec →
  VerifyServiceRecord rec now = Ok tt ∧ sr_IsHidden rec = true ∧
  (sr_Alias rec = invite ∨ ∃ secret, ParseHiddenLookupRef invite = Ok (mkRef (sr_Alias rec) secret)).
Proof.
  unfold DecodeHiddenServiceRecord. destruct (extractHiddenDescriptor key stored now) as [d|e|]; [| |done].
  - intros (Hv & Hh & [a s] & Hr & Ha & _)%open_descriptor_sound. cbn in Ha. subst. eauto.
  - destruct (decodeLegacyHiddenServiceRecord key stored invite now) as [r|?|] eqn:E; try done.
    intros [= ->]. apply legacy_sound in E as (? & ? & ?). auto.
Qed.

(** [DecodeHiddenServiceRecord] crashes the client on a descriptor whose
    nonce decodes to any length but twelve bytes: AES-GCM's [Open] panics on it,
    and nothing before the call checks the length. *)
Theorem hidden_nonce_panics `{UnicodeTables, NetIP, RFC3339, Ed25519, AEAD}
    `{!JSON SignedEnvelope} `{!JSON ServiceRecord} `{!JSON HiddenDescriptor} `{!JSON hiddenDescriptorPayload}
    (key stored invite : string) (now epoch : Z) (d : HiddenDescriptor) (nonce : bytes) (ref : HiddenLookupRef) :
  extractHiddenDescriptor key stored now = Ok d →
  parseHiddenDescriptorEpoch key = Ok epoch → ParseHiddenLookupRef invite = Ok ref →
  RawURLEncoding_DecodeString (hd_Nonce d) = Some nonce → len nonce ≠ gcm_NonceSize →
  DecodeHiddenServiceRecord key stored invite now = Panic.
Proof.
  intros Hx He Hr Hn Hl. unfold DecodeHiddenServiceRecord, open_descriptor, gcm_Open. rewrite Hx, Hr, He.
  unfold extractHiddenDescriptor in Hx. res_inv.
  match goal with P : parseHiddenDescriptor _ = Ok _ |- _ =>
    apply parseHiddenDescriptor_ok in P as (_ & _ & _ & _ & _ & _ & _ & _ & Hc) end.
  cbn [mbind res_bind]. rewrite Hn. cbn [of_option mbind res_bind].
  destruct (RawURLEncoding_DecodeString (hd_Ciphertext d)); [|done]. cbn [of_option mbind res_bind].
  by rewrite (proj2 (Z.eqb_neq _ _) Hl).
Qed.

(** ** Padding *)
(** The smallest size of the form [target + 256 k] that is at least [size]. *)
Definition padded_size (size target : Z) : Z := target + 256 * (Z.max 0 (size - target + 255) / 256).

Lemma padding_target_spec fuel : ∀ size target,
  size - target <= Z.of_nat fuel → padding_target fuel size target = padded_size size target.
Proof.
  unfold padded_size. induction fuel as [|n IH]; intros size target Hf; cbn [padding_target].
  - Z.to_euclidean_division_equations. lia.
  - destruct (Z.ltb_spec target size).
    + rewrite IH by lia. Z.to_euclidean_division_equations. lia.
    + Z.to_euclidean_division_equations. lia.
Qed.

Lemma padded_size_ge size target : size <= padded_size size target.
Proof. unfold padded_size. Z.to_euclidean_division_equations. lia. Qed.

(** The plaintext of a descriptor is padded to the next size of the form
    1024 + 256 k, whatever the record: the size of a stored descriptor reveals
    only the class of the record's length.  The JSON encoder is only assumed to
    write each padding character as one byte. *)
Theorem payload_padded `{!JSON hiddenDescriptorPayload} (rec : ServiceRecord) :
  (∀ n, slen (json_Marshal (mkPayload rec (srepeat "x" n))) =
        slen (json_Marshal (mkPayload rec "")) + Z.of_nat n) →
  len (marshalHiddenDescriptorPayload rec) =
  padded_size (slen (json_Marshal (mkPayload rec ""))) hiddenDescriptorPayloadTargetSize.
Proof.
  intros Hpad. unfold marshalHiddenDescriptorPayload.
  rewrite padding_target_spec by (unfold slen, hiddenDescriptorPayloadTargetSize; lia).
  set (size := slen (json_Marshal (mkPayload rec ""))) in *.
  pose proof (padded_size_ge size hiddenDescriptorPayloadTargetSize).
  rewrite Hpad, Z2Nat.id by lia. rewrite (proj2 (Z.ltb_ge _ _)) by lia.
  unfold len. rewrite length_str_bytes. fold (slen (json_Marshal (mkPayload rec (srepeat "x"
    (Z.to_nat (padded_size size hiddenDescriptorPayloadTargetSize - size)))))).
  rewrite Hpad, Z2Nat.id by lia. lia.
Qed.

(** ** Witnesses *)
#[export] Instance demo_JSON_descriptor : JSON HiddenDescriptor.
Proof.
  refine (demo_JSON 6
    (fun d => [hd_NodeID d; hd_ServiceTag d; hd_IssuedAt d; hd_ExpiresAt d; hd_Nonce d; hd_Ciphertext d])
    (fun l => match l with [a; b; c; d; e; f] => Some (mkDescriptor a b c d e f) | _ => None end)
    (fun _ => True) _ _); [done|by intros []].
Defined.

(** Payloads: the record's text, a bar, the padding as it is. *)
Definition demo_payload_text (p : hiddenDescriptorPayload) : string :=
  json_Marshal (hp_Record p) +:+ String "|" (hp_Padding p).
Definition demo_payload_parse (s : string) : option hiddenDescriptorPayload :=
  let '(a, b, _) := Cut s "|" in
  let '(pad, _, _) := Cut b nl in
  rec ← json_Unmarshal a; Some (mkPayload rec pad).

Lemma demo_text_no_bar (r : ServiceRecord) : contains_char "|" (json_Marshal r) = false.
Proof. by apply enc_fields_chars. Qed.

#[export] Instance demo_JSON_payload : JSON hiddenDescriptorPayload.
Proof.
  refine {| json_Marshal := demo_payload_text; json_MarshalIndent := demo_payload_text;
            json_Unmarshal := demo_payload_parse;
            json_safe := fun p => one_line (hp_Padding p) = true |};
    intros [r p] Hp; cbn [hp_Padding] in Hp; apply negb_true_iff in Hp;
    unfold demo_payload_text, demo_payload_parse; cbn [hp_Record hp_Padding].
  - rewrite Cut_at by apply demo_text_no_bar. rewrite Cut_none by done.
    by rewrite json_Unmarshal_Marshal.
  - rewrite str_app_assoc, str_app_cons, Cut_at by apply demo_text_no_bar.
    rewrite Cut_at by done. by rewrite json_Unmarshal_Marshal.
Defined.

Definition demo_hidden : ServiceRecord :=
  Eval vm_compute in res_get demo_service (SignServiceRecord demo_id
    (mkServiceRecord (id_NodeID demo_id) "ALICE" "web" "ghost" "" true false "fast" [] []
      (StdEncoding_EncodeToString (id_PublicKey demo_id)) (time_Format demo_now)
      (time_Format (demo_now + Hour)) "")).
Definition demo_hidden_key : string := "hidden-desc/v1/7/abc".
Definition demo_hidden_secret : string := "0123456789abcdef".
Definition demo_nonce : bytes := repeat x05 12.
Definition demo_text : string :=
  Eval vm_compute in
  res_get "" (EncodeHiddenServiceDescriptor demo_nonce demo_hidden demo_hidden_key demo_hidden_secret).

Lemma hidden_descriptor_roundtrip_witness :
  DecodeHiddenServiceRecord demo_hidden_key demo_text ("ghost#" +:+ demo_hidden_secret) (demo_now + Minute) = Ok demo_hidden.
Proof.
  destruct (hidden_descriptor_roundtrip demo_nonce demo_hidden demo_hidden_key demo_hidden_secret
    ("ghost#" +:+ demo_hidden_secret) demo_text 7 (demo_now + Minute)) as (text & E & D).
  1-6: by vm_compute.
  - intros n. cbn. by induction n.
  - done.
  - apply D. assert (Ok demo_text = Ok text) as [= <-] by (rewrite <- E; vm_compute; reflexivity).
    vm_compute. reflexivity.
Defined.

Lemma hidden_decode_sound_witness :
  VerifyServiceRecord demo_hidden (demo_now + Minute) = Ok tt ∧ sr_IsHidden demo_hidden = true ∧
  (sr_Alias demo_hidden = "ghost#" +:+ demo_hidden_secret ∨
   ∃ secret, ParseHiddenLookupRef ("ghost#" +:+ demo_hidden_secret) = Ok (mkRef (sr_Alias demo_hidden) secret)).
Proof.
  apply (hidden_decode_sound demo_hidden_key demo_text). vm_compute. reflexivity.
Defined.

(** A descriptor anyone can store: it needs no key and no signature. *)
Definition demo_bad_descriptor : HiddenDescriptor :=
  mkDescriptor "vx6_x" "tag" (time_Format demo_now) (time_Format (demo_now + Hour)) "AQI" "AAAA".

Lemma hidden_nonce_panics_witness :
  DecodeHiddenServiceRecord demo_hidden_key (json_Marshal demo_bad_descriptor) "ghost" demo_now = Panic.
Proof.
  apply (hidden_nonce_panics _ _ _ _ 7 demo_bad_descriptor [x01; x02] (mkRef "ghost" "")); by vm_compute.
Defined.

Lemma slen_app a b : slen (a +:+ b) = slen a + slen b.
Proof. unfold slen. rewrite str_length_app. lia. Qed.
Lemma slen_srepeat c n : slen (srepeat c n) = Z.of_nat n.
Proof. unfold slen. f_equal. induction n; cbn; congruence. Qed.

Lemma payload_padded_witness :
  len (marshalHiddenDescriptorPayload demo_hidden) =
  padded_size (slen (json_Marshal (mkPayload demo_hidden ""))) hiddenDescriptorPayloadTargetSize.
Proof.
  apply payload_padded. intros n. cbn [json_Marshal demo_JSON_payload]. unfold demo_payload_text.
  cbn [hp_Record hp_Padding]. rewrite !slen_app.
  change (slen (String "|" (srepeat "x" n))) with (slen (String "|" "" +:+ srepeat "x" n)).
  rewrite slen_app, slen_srepeat. change (slen (String "|" "")) with 1. lia.
Defined.
