(* ===== verification/Catalog.v ===== *)
(** * Private service catalogs (internal/dht/private_catalog.go)

    A node's private services are published together, signed by the node.
    [sort.Slice] is the interface [GoSort]; the signing payload contains the
    JSON text of the services. *)
From S2P Require Import Prelude GoBytes GoStrings GoEncoding GoTime GoSort Sha256 GoEnv Lines Identity Record RecordProps DemoJson.

Record PrivateServiceCatalog := mkCatalog {
  pc_NodeID : string;
  pc_NodeName : string;
  pc_PublicKey : string;
  pc_Services : list ServiceRecord;
  pc_IssuedAt : string;
  pc_ExpiresAt : string;
  pc_Signature : string;
}.

Definition pc_with_signature (c : PrivateServiceCatalog) (sig : string) : PrivateServiceCatalog :=
  {| pc_NodeID := pc_NodeID c; pc_NodeName := pc_NodeName c; pc_PublicKey := pc_PublicKey c;
     pc_Services := pc_Services c; pc_IssuedAt := pc_IssuedAt c; pc_ExpiresAt := pc_ExpiresAt c;
     pc_Signature := sig |}.

Section Catalog.
Context `{UnicodeTables, NetIP, RFC3339, Ed25519, GoSort}.
Context `{!JSON (list ServiceRecord)} `{!JSON PrivateServiceCatalog}.

Definition PrivateCatalogKey (nodeName : string) : string :=
  let canonical := match NormalizeNodeName nodeName with
                   | Ok c => c
                   | _ => ToUpper nodeName
                   end in
  "private-catalog/" +:+ canonical.

Definition service_key (svc : ServiceRecord) : string :=
  FullServiceName (sr_NodeName svc) (sr_ServiceName svc).

(** One iteration of the loop: the checks of a service, then its key. *)
Definition catalog_check (nodeName nodeID : string) (now : Z) (seen : gset string) (svc : ServiceRecord)
  : res string :=
  VerifyServiceRecord svc now;;
  err_if ((sr_NodeName svc <>?s nodeName) || (sr_NodeID svc <>?s nodeID))
    "catalog service does not match owner";;
  err_if (sr_IsHidden svc) "catalog service cannot be hidden";;
  err_if (negb (sr_IsPrivate svc)) "catalog service must be marked private";;
  let key := service_key svc in
  err_if (bool_decide (key ∈ seen)) "duplicate private catalog service";;
  Ok key.

Fixpoint catalog_loop (nodeName nodeID : string) (now : Z) (seen : gset string)
    (services : list ServiceRecord) : res (list ServiceRecord) :=
  match services with
  | [] => Ok []
  | svc :: rest =>
      key ← catalog_check nodeName nodeID now seen svc;
      out ← catalog_loop nodeName nodeID now ({[key]} ∪ seen) rest;
      Ok (svc :: out)
  end.

Definition normalizePrivateCatalogServices (nodeName nodeID : string)
    (services : list ServiceRecord) (now : Z) : res (list ServiceRecord) :=
  out ← catalog_loop nodeName nodeID now ∅ services;
  Ok (sort_Slice (fun a b => str_lt (service_key a) (service_key b)) out).

Definition privateCatalogSigningPayload (catalog : PrivateServiceCatalog) : bytes :=
  str_bytes
    (pc_NodeID catalog +:+ newline +:+ pc_NodeName catalog +:+ newline +:+
     pc_PublicKey catalog +:+ newline +:+ json_Marshal (pc_Services catalog) +:+ newline +:+
     pc_IssuedAt catalog +:+ newline +:+ pc_ExpiresAt catalog +:+ newline).

Definition signPrivateCatalog (id : Identity) (catalog : PrivateServiceCatalog) : res string :=
  signature ← ed25519_Sign (id_PrivateKey id) (privateCatalogSigningPayload catalog);
  Ok (StdEncoding_EncodeToString signature).

Definition NewPrivateServiceCatalog (id : Identity) (nodeName : string)
    (services : list ServiceRecord) (ttl now : Z) : res PrivateServiceCatalog :=
  canonicalName ← NormalizeNodeName nodeName;
  err_if (ttl <=? 0) "ttl must be greater than zero";;
  Identity_Validate id;;
  normalized ← normalizePrivateCatalogServices canonicalName (id_NodeID id) services now;
  let catalog := {|
    pc_NodeID := id_NodeID id; pc_NodeName := canonicalName;
    pc_PublicKey := StdEncoding_EncodeToString (id_PublicKey id);
    pc_Services := normalized;
    pc_IssuedAt := time_Format now; pc_ExpiresAt := time_Format (Add now ttl);
    pc_Signature := "" |} in
  signature ← signPrivateCatalog id catalog;
  Ok (pc_with_signature catalog signature).

Definition VerifyPrivateServiceCatalog (catalog : PrivateServiceCatalog) (now : Z) : res unit :=
  err_if ((pc_NodeID catalog =?s "") || (pc_NodeName catalog =?s "") || (pc_PublicKey catalog =?s "") ||
          (pc_IssuedAt catalog =?s "") || (pc_ExpiresAt catalog =?s "") || (pc_Signature catalog =?s ""))
    "private catalog missing required fields";;
  ValidateCanonicalNodeName (pc_NodeName catalog);;
  publicKey ← of_option (StdEncoding_DecodeString (pc_PublicKey catalog)) "decode catalog public key";
  signature ← of_option (StdEncoding_DecodeString (pc_Signature catalog)) "decode catalog signature";
  err_if (negb (len publicKey =? PublicKeySize)) "catalog contains invalid public key";;
  err_if (negb (len signature =? SignatureSize)) "catalog contains invalid signature";;
  err_if (NodeIDFromPublicKey publicKey <>?s pc_NodeID catalog) "catalog node id does not match public key";;
  issuedAt ← of_option (time_Parse (pc_IssuedAt catalog)) "parse catalog issued_at";
  expiresAt ← of_option (time_Parse (pc_ExpiresAt catalog)) "parse catalog expires_at";
  err_if (negb (After expiresAt issuedAt)) "catalog expiry must be after issue time";;
  err_if (After now expiresAt) "catalog has expired";;
  normalizePrivateCatalogServices (pc_NodeName catalog) (pc_NodeID catalog) (pc_Services catalog) now;;
  ok ← ed25519_Verify publicKey (privateCatalogSigningPayload catalog) signature;
  err_if (negb ok) "catalog signature verification failed".

Definition DecodePrivateServiceCatalog (raw : string) (now : Z) : res PrivateServiceCatalog :=
  catalog ← of_option (json_Unmarshal raw) "decode private catalog";
  VerifyPrivateServiceCatalog catalog now;;
  Ok catalog.

(** ** The services of an accepted catalog *)
Definition owned_private (nodeName nodeID : string) (now : Z) (svc : ServiceRecord) : Prop :=
  VerifyServiceRecord svc now = Ok tt ∧ sr_NodeName svc = nodeName ∧ sr_NodeID svc = nodeID ∧
  sr_IsHidden svc = false ∧ sr_IsPrivate svc = true.

Lemma catalog_check_ok nodeName nodeID now seen svc k :
  catalog_check nodeName nodeID now seen svc = Ok k ↔
  k = service_key svc ∧ k ∉ seen ∧ owned_private nodeName nodeID now svc.
Proof.
  unfold catalog_check, owned_private. split.
  - intros E. res_inv. bool_prop. by repeat match goal with u : unit |- _ => destruct u end.
  - intros (-> & Hk & -> & -> & -> & -> & ->). rewrite !String.eqb_refl. cbn.
    by rewrite bool_decide_eq_false_2.
Qed.

Lemma catalog_loop_ok nodeName nodeID now services : ∀ seen out,
  catalog_loop nodeName nodeID now seen services = Ok out ↔
  out = services ∧ Forall (owned_private nodeName nodeID now) services ∧
  NoDup (service_key <$> services) ∧ (∀ k, k ∈ service_key <$> services → k ∉ seen).
Proof.
  induction services as [|svc rest IH]; intros seen out; cbn [catalog_loop].
  - split; [intros [= <-]|by intros [-> _]]. split_and!; [done|constructor|constructor|set_solver].
  - rewrite res_bind_ok. setoid_rewrite catalog_check_ok. split.
    + intros (k & (-> & Hk & Ho) & E). apply res_bind_ok in E as (out' & E & [= <-]).
      apply IH in E as (-> & Hall & Hnd & Hseen). cbn. split_and!; [done|by constructor| |].
      * constructor; [|done]. intros Hin. apply (Hseen _ Hin). set_solver.
      * intros k [->|Hin]%elem_of_cons; [done|]. intros ?. apply (Hseen k Hin). set_solver.
    + intros (-> & [Ho Hall]%Forall_cons & [Hn Hnd]%NoDup_cons & Hseen).
      exists (service_key svc). split; [split_and!; [done|apply Hseen; set_solver|done]|].
      apply res_bind_ok. exists rest. split; [|done]. apply IH. split_and!; [done..|].
      intros k Hk [->%elem_of_singleton|?]%elem_of_union; [done|]. apply (Hseen k); set_solver.
Qed.

(** Services of one node have different keys exactly when their names differ. *)
Lemma service_key_NoDup nodeName nodeID now services :
  Forall (owned_private nodeName nodeID now) services →
  NoDup (service_key <$> services) ↔ NoDup (sr_ServiceName <$> services).
Proof.
  intros Ho. 
  assert (service_key <$> services = FullServiceName nodeName <$> (sr_ServiceName <$> services)) as ->.
  { rewrite <- list_fmap_compose. apply list_fmap_ext. intros i x Hi. cbn. unfold service_key.
    apply list_elem_of_lookup_2 in Hi. rewrite Forall_forall in Ho. by destruct (Ho x Hi) as (_ & -> & _). }
  apply NoDup_fmap. intros a b E. unfold FullServiceName in E. by apply str_app_inj_l, str_app_inj_l in E.
Qed.

Lemma normalize_ok nodeName nodeID services now :
  is_ok (normalizePrivateCatalogServices nodeName nodeID services now) = true ↔
  Forall (owned_private nodeName nodeID now) services ∧ NoDup (sr_ServiceName <$> services).
Proof.
  unfold normalizePrivateCatalogServices.
  destruct (catalog_loop nodeName nodeID now ∅ services) as [out| |] eqn:E; cbn.
  - apply catalog_loop_ok in E as (_ & Ho & Hnd & _). split; [|done].
    intros _. split; [done|]. by eapply service_key_NoDup.
  - split; [done|]. intros [Ho Hnd].
    assert (catalog_loop nodeName nodeID now ∅ services = Ok services) as E'; [|congruence].
    apply catalog_loop_ok. split_and!; [done..|by eapply service_key_NoDup|set_solver].
  - split; [done|]. intros [Ho Hnd].
    assert (catalog_loop nodeName nodeID now ∅ services = Ok services) as E'; [|congruence].
    apply catalog_loop_ok. split_and!; [done..|by eapply service_key_NoDup|set_solver].
Qed.

Lemma service_key_order : StrictWeakOrder (fun a b => str_lt (service_key a) (service_key b)).
Proof. apply (on_swo service_key), str_lt_swo. Qed.

(** The catalog a successful [normalizePrivateCatalogServices] returns: the
    same services in increasing order of their names. *)
Lemma normalize_result nodeName nodeID services now out :
  normalizePrivateCatalogServices nodeName nodeID services now = Ok out →
  out ≡ₚ services ∧ Forall (owned_private nodeName nodeID now) out ∧
  NoDup (sr_ServiceName <$> out) ∧
  StronglySorted (not_after (fun a b => str_lt (service_key a) (service_key b))) out.
Proof.
  unfold normalizePrivateCatalogServices. intros E. res_inv.
  match goal with L : catalog_loop _ _ _ _ _ = _ |- _ => apply catalog_loop_ok in L as (-> & Ho & Hnd & _) end.
  split_and!; [apply sort_Slice_perm|by rewrite sort_Slice_perm| |apply sort_Slice_sorted, service_key_order].
  rewrite (sort_Slice_perm _ services). by eapply service_key_NoDup.
Qed.

(** What an accepted catalog establishes. *)
Record catalog_good (c : PrivateServiceCatalog) (now : Z) : Prop := {
  cg_name : ValidateCanonicalNodeName (pc_NodeName c) = Ok tt;
  cg_signed : ∃ pub sig,
    StdEncoding_DecodeString (pc_PublicKey c) = Some pub ∧
    StdEncoding_DecodeString (pc_Signature c) = Some sig ∧
    len pub = 32 ∧ len sig = 64 ∧ NodeIDFromPublicKey pub = pc_NodeID c ∧
    ed_verify pub (privateCatalogSigningPayload c) sig = true;
  cg_times : ∃ issued expires,
    time_Parse (pc_IssuedAt c) = Some issued ∧ time_Parse (pc_ExpiresAt c) = Some expires ∧
    issued < expires ∧ now <= expires;
  cg_services : Forall (owned_private (pc_NodeName c) (pc_NodeID c) now) (pc_Services c);
  cg_unique : NoDup (sr_ServiceName <$> pc_Services c);
}.
End Catalog.

Lemma decoded_not_empty s b : StdEncoding_DecodeString s = Some b → len b ≠ 0 → s ≠ "".
Proof. intros E Hb ->. by injection E as <-. Qed.

(** [VerifyPrivateServiceCatalog] accepts exactly the catalogs with a
    canonical owner name, a key that hashes to the owner's NodeID and has signed
    the payload, a current lifetime, and only verified, private, non-hidden
    services of that owner, no two with the same name. *)
Theorem private_catalog_exact `{UnicodeTables, NetIP, RFC3339, Ed25519, GoSort}
    `{!JSON (list ServiceRecord)} (c : PrivateServiceCatalog) (now : Z) :
  VerifyPrivateServiceCatalog c now = Ok tt ↔ catalog_good c now.
Proof.
  unfold VerifyPrivateServiceCatalog, PublicKeySize, SignatureSize, After. split.
  - intros E. res_inv. bool_prop. subst.
    repeat match goal with u : unit |- _ => destruct u end.
    match goal with V : ed25519_Verify _ _ _ = Ok true |- _ => apply ed25519_Verify_ok in V as (? & ? & ?) end.
    match goal with N : normalizePrivateCatalogServices ?a ?b ?l ?t = Ok _ |- _ =>
      assert (is_ok (normalizePrivateCatalogServices a b l t) = true) as [? ?]%normalize_ok by by rewrite N end.
    split; [done| | |done|done]; [by eexists _, _|]. eexists _, _. split_and!; eauto; lia.
  - intros [Hn (pub & sig & Ep & Es & Hp & Hs & Hid & Hv) (issued & expires & Ei & Ee & Hlt & Hnow) Ho Hu].
    assert (is_ok (normalizePrivateCatalogServices (pc_NodeName c) (pc_NodeID c) (pc_Services c) now) = true)
      as Hok by by apply normalize_ok.
    destruct (normalizePrivateCatalogServices _ _ _ _) as [out| |] eqn:E; try done.
    assert (pc_NodeID c ≠ "") as N1 by (rewrite <- Hid; apply NodeID_not_empty).
    assert (pc_NodeName c ≠ "") as N2 by by apply canonical_not_empty.
    assert (pc_PublicKey c ≠ "") as N3 by (eapply decoded_not_empty; [done|]; lia).
    assert (pc_Signature c ≠ "") as N4 by (eapply decoded_not_empty; [done|]; lia).
    assert (pc_IssuedAt c ≠ "") as N5 by (intros F; by rewrite F, time_Parse_empty in Ei).
    assert (pc_ExpiresAt c ≠ "") as N6 by (intros F; by rewrite F, time_Parse_empty in Ee).
    apply String.eqb_neq in N1, N2, N3, N4, N5, N6. rewrite N1, N2, N3, N4, N5, N6, Hn, Ep, Es.
    cbn [orb negb of_option mbind res_bind err_if]. rewrite Hp, Hs, Hid, String.eqb_refl, Ei, Ee.
    cbn [negb of_option mbind res_bind err_if Z.eqb Pos.eqb].
    rewrite (proj2 (Z.ltb_lt issued expires)), (proj2 (Z.ltb_ge expires now)) by lia.
    cbn [negb mbind res_bind err_if].
    unfold ed25519_Verify, PublicKeySize, SignatureSize. rewrite Hp, Hs. cbn. by rewrite Hv.
Qed.

(** A catalog made by [NewPrivateServiceCatalog] lists the given services in
    increasing order of name and verifies as long as neither it nor one of its
    services has expired. *)
Theorem private_catalog_roundtrip `{UnicodeTables, NetIP, RFC3339, Ed25519, GoSort}
    `{!JSON (list ServiceRecord)} (id : Identity) (name c : string)
    (services : list ServiceRecord) (ttl now later : Z) :
  NormalizeNodeName name = Ok c → Identity_Validate id = Ok tt → ed_keypair (id_PrivateKey id) →
  Second <= ttl → rfc3339_range now → rfc3339_range (now + ttl) → later <= whole_second (now + ttl) →
  Forall (owned_private c (id_NodeID id) now) services → NoDup (sr_ServiceName <$> services) →
  Forall (fun svc => VerifyServiceRecord svc later = Ok tt) services →
  ∃ cat, NewPrivateServiceCatalog id name services ttl now = Ok cat ∧
    VerifyPrivateServiceCatalog cat later = Ok tt ∧ pc_Services cat ≡ₚ services ∧
    StronglySorted (not_after (fun a b => str_lt (service_key a) (service_key b))) (pc_Services cat).
Proof.
  intros Hn Hid Hkp Httl Hr1 Hr2 Hl Ho Hu Hlv.
  pose proof Hid as (Hpub & Hpriv & Hnode & Hpp)%Identity_Validate_ok.
  destruct (normalizePrivateCatalogServices c (id_NodeID id) services now) as [out| |] eqn:E.
  2,3: pose proof (proj2 (normalize_ok c (id_NodeID id) services now) (conj Ho Hu)) as F; by rewrite E in F.
  destruct (normalize_result _ _ _ _ _ E) as (Hperm & Ho' & Hu' & Hsort).
  unfold NewPrivateServiceCatalog, signPrivateCatalog, ed25519_Sign, PrivateKeySize.
  rewrite Hn, Hid. cbn [mbind res_bind err_if]. unfold Second in *.
  rewrite (proj2 (Z.leb_gt ttl 0)) by lia. cbn [mbind res_bind err_if]. rewrite E, Hpriv.
  cbn [mbind res_bind err_if Z.eqb Pos.eqb]. eexists. split; [reflexivity|].
  split; [|by split]. apply private_catalog_exact.
  split; cbn [pc_with_signature pc_NodeName pc_PublicKey pc_Signature pc_NodeID pc_IssuedAt pc_ExpiresAt pc_Services].
  - by eapply Normalize_canonical.
  - eexists _, _. split_and!; [apply b64_decode_encode|apply b64_decode_encode|done|apply ed_sign_length|done|].
    rewrite Hpp. by apply (ed_verify_sign (id_PrivateKey id)).
  - eexists _, _. split_and!; [by apply time_Parse_Format|by apply time_Parse_Format| |done].
    unfold Add, whole_second, Second. Z.to_euclidean_division_equations. lia.
  - rewrite Hperm. rewrite Forall_forall in *. intros svc Hs. destruct (Ho svc Hs) as (_ & ?). split; auto.
  - done.
Qed.

(** ** Witness: a node with two private services *)
Definition set_private (r : ServiceRecord) : ServiceRecord :=
  mkServiceRecord (sr_NodeID r) (sr_NodeName r) (sr_ServiceName r) (sr_Alias r) (sr_Address r)
    (sr_IsHidden r) true (sr_HiddenProfile r) (sr_IntroPoints r) (sr_StandbyIntroPoints r)
    (sr_PublicKey r) (sr_IssuedAt r) (sr_ExpiresAt r) (sr_Signature r).
Definition private_service (name : string) : res ServiceRecord :=
  r ← NewServiceRecord demo_id "alice" name "[2001:db8::1]:4242" Hour demo_now;
  SignServiceRecord demo_id (set_private r).
Definition demo_private_web : ServiceRecord :=
  Eval vm_compute in res_get demo_service (private_service "web").
Definition demo_private_ssh : ServiceRecord :=
  Eval vm_compute in res_get demo_service (private_service "ssh").

Lemma private_catalog_roundtrip_witness :
  ∃ cat, NewPrivateServiceCatalog demo_id "alice" [demo_private_web; demo_private_ssh] Hour demo_now = Ok cat ∧
    VerifyPrivateServiceCatalog cat (demo_now + Minute) = Ok tt ∧
    pc_Services cat ≡ₚ [demo_private_web; demo_private_ssh] ∧
    StronglySorted (not_after (fun a b => str_lt (service_key a) (service_key b))) (pc_Services cat).
Proof.
  apply (private_catalog_roundtrip demo_id "alice" "ALICE" [demo_private_web; demo_private_ssh] Hour
           demo_now (demo_now + Minute)).
  1-3: vm_compute; reflexivity.
  1-4: unfold rfc3339_range, demo_now, Hour, Minute, Second, whole_second, Second; try lia.
  - by vm_compute.
  - repeat apply Forall_cons_2; [| |apply Forall_nil_2]; split_and!; vm_compute; reflexivity.
  - apply (bool_decide_unpack _). by vm_compute.
  - repeat apply Forall_cons_2; [| |apply Forall_nil_2]; vm_compute; reflexivity.
Defined.
