(* ===== verification/Proto.v ===== *)
(** * Wire protocol (internal/proto/proto.go)

    The protocol header and the length-prefixed frames over byte streams, the
    DHT request type and its validation.  A writer is the bytes written, a
    reader the bytes still to come: [io.ReadFull] fails when fewer remain. *)
From S2P Require Import Prelude GoBytes GoStrings GoEncoding GoTime Sha256.

(** ** Framing *)
Definition magic : bytes := str_bytes "VX61".

Definition KindFileTransfer : Z := 1.
Definition KindDiscoveryReq : Z := 2.
Definition KindDiscoveryRes : Z := 3.
Definition KindServiceConn : Z := 4.
Definition KindOnion : Z := 5.
Definition KindExtend : Z := 6.
Definition KindRendezvous : Z := 7.
Definition KindDHT : Z := 8.
Definition KindLiveness : Z := 9.

(** [io.ReadFull(r, buf)] with a buffer of [n] bytes. *)
Definition ReadFull (r : bytes) (n : Z) : option (bytes * bytes) :=
  if n <=? len r then Some (take (Z.to_nat n) r, drop (Z.to_nat n) r) else None.

Definition WriteHeader (w : bytes) (kind : Z) : bytes := w ++ magic ++ [Z_byte kind].

Definition ReadHeader (r : bytes) : res (Z * bytes) :=
  '(header, r) ← of_option (ReadFull r 5) "read protocol header";
  err_if (negb (bool_decide (take 4 header = magic))) "invalid protocol magic";;
  Ok (be_Z (drop 4 header), r).

(** [uint32(len(payload))] wraps. *)
Definition WriteLengthPrefixed (w payload : bytes) : bytes :=
  w ++ be_bytes 4 (u32 (len payload)) ++ payload.

Definition ReadLengthPrefixed (r : bytes) (maxSize : Z) : res (bytes * bytes) :=
  '(size, r) ← of_option (ReadFull r 4) "read payload size";
  let length := be_Z size in
  err_if ((length =? 0) || (maxSize <? length)) "invalid payload size";;
  '(payload, r) ← of_option (ReadFull r length) "read payload";
  Ok (payload, r).

(** ** DHT requests *)
Definition DHTWireVersion : Z := 1.

Record DHTRequest := mkDHTRequest {
  rq_Version : Z;
  rq_Type : string;
  rq_Action : string;
  rq_Target : string;
  rq_Data : string;
}.

Definition DHTTypeBootstrap := "bootstrap".
Definition DHTTypeUpdate := "update".
Definition DHTTypeUpdateIP := "update_ip".
Definition DHTTypeLookupName := "lookup_name".
Definition DHTTypeLookupKey := "lookup_key".
Definition DHTTypeLookupSvc := "lookup_service".
Definition DHTTypeLookupPriv := "lookup_private".
Definition DHTTypeLookupHid := "lookup_hidden".
Definition DHTTypeLookupOther := "lookup_other".

Definition DHTTypeFor (action target : string) : string :=
  if action =?s "update_ip" then DHTTypeUpdateIP
  else if action =?s "store" then DHTTypeUpdate
  else if HasPrefix target "node/name/" then DHTTypeLookupName
  else if HasPrefix target "node/id/" then DHTTypeLookupKey
  else if HasPrefix target "service/" then DHTTypeLookupSvc
  else if HasPrefix target "private-catalog/" then DHTTypeLookupPriv
  else if HasPrefix target "hidden-desc/v1/" then DHTTypeLookupHid
  else if action =?s "find_node" then DHTTypeBootstrap
  else "".

Section Validation.
Context `{UnicodeTables}.

Definition isSHA256Hex (value : string) : bool :=
  (slen value =? 64) && (ToLower value =?s value) && bool_decide (is_Some (hex_decode value)).

Definition validEndpointUpdateTarget (target : string) : bool :=
  if HasPrefix target "node/name/" then isSHA256Hex (TrimPrefix target "node/name/")
  else if HasPrefix target "node/id/vx6_" then isSHA256Hex (TrimPrefix target "node/id/vx6_")
  else false.

(** The characters [\x00\r\n\t ]. *)
Definition key_blanks : string :=
  String "000" (String "013" (String "010" (String "009" (String " " "")))).

Definition validDHTValueKey (target : string) : bool :=
  if (slen target =? 0) || (512 <? slen target) || ContainsAny target key_blanks then false
  else if HasPrefix target "node/name/" then isSHA256Hex (TrimPrefix target "node/name/")
  else if HasPrefix target "node/id/vx6_" then isSHA256Hex (TrimPrefix target "node/id/vx6_")
  else if HasPrefix target "service/" then 0 <? slen (TrimPrefix target "service/")
  else if HasPrefix target "private-catalog/" then 0 <? slen (TrimPrefix target "private-catalog/")
  else if HasPrefix target "hidden-desc/v1/" then 0 <? slen (TrimPrefix target "hidden-desc/v1/")
  else false.

(** A full NodeID, ["vx6_"] and 64 hexadecimal digits. *)
Definition full_NodeID (s : string) : bool :=
  HasPrefix s "vx6_" && isSHA256Hex (TrimPrefix s "vx6_").
Definition is_find (action : string) : bool :=
  (action =?s "find_value") || (action =?s "find_node").

Definition DHTRequest_Validate (r : DHTRequest) : res unit :=
  let ty := rq_Type r in let action := rq_Action r in let target := rq_Target r in
  err_if (negb (rq_Version r =? DHTWireVersion)) "unsupported DHT wire version";;
  err_if ((target =?s "") || (512 <? slen target)) "DHT request target is empty or too long";;
  err_if (1024 * 1024 <? slen (rq_Data r)) "DHT request data is too large";;
  (if ty =?s DHTTypeLookupName then
     err_if (negb (is_find action) || negb (isSHA256Hex target))
       "name lookup target must be a full SHA-256 digest"
   else if ty =?s DHTTypeLookupKey then
     err_if (negb (is_find action) || negb (HasPrefix target "vx6_")
             || negb (isSHA256Hex (TrimPrefix target "vx6_")))
       "identity lookup target must contain a full NodeID"
   else if ty =?s DHTTypeBootstrap then
     err_if ((action <>?s "find_node") || negb (isSHA256Hex target || full_NodeID target))
       "bootstrap target must be a full name hash or NodeID"
   else if ty =?s DHTTypeUpdateIP then
     err_if ((action <>?s "update_ip") || negb (validEndpointUpdateTarget target))
       "endpoint update requires update_ip action and a node ID or name-hash key"
   else if ty =?s DHTTypeUpdate then
     err_if ((action <>?s "store") || negb (validDHTValueKey target))
       "DHT store target is not a supported record key"
   else if (ty =?s DHTTypeLookupSvc) || (ty =?s DHTTypeLookupPriv) || (ty =?s DHTTypeLookupHid) then
     err_if (action <>?s "find_value") "service and descriptor lookups must use find_value"
   else if ty =?s DHTTypeLookupOther then Err "unsupported DHT lookup target"
   else Err "unsupported DHT request type");;
  err_if ((ty <>?s DHTTypeLookupName) && (ty <>?s DHTTypeLookupKey) && (ty <>?s DHTTypeBootstrap)
          && (ty <>?s DHTTypeUpdateIP) && (ty <>?s DHTTypeFor action target))
    "DHT request type does not match action and target";;
  if (action =?s "find_node") || (action =?s "find_value") then
    err_if (rq_Data r <>?s "") "DHT lookup request must not contain update data"
  else if (action =?s "store") || (action =?s "update_ip") then
    err_if (rq_Data r =?s "") "DHT update request has no data"
  else Err "unsupported DHT action".
End Validation.

(** ** Framing: lemmas *)
Lemma ReadFull_spec r n p r' : 0 <= n →
  ReadFull r n = Some (p, r') ↔ r = p ++ r' ∧ len p = n.
Proof.
  intros Hn. unfold ReadFull, len. case_match eqn:E; bool_prop; split.
  - intros [= <- <-]. by rewrite take_drop, length_take; split; [|lia].
  - intros [-> <-]. rewrite Nat2Z.id, take_app_length, drop_app_length. done.
  - done.
  - intros [-> <-]. rewrite length_app in E. lia.
Qed.

Lemma ReadFull_app p r : ReadFull (p ++ r) (len p) = Some (p, r).
Proof. apply ReadFull_spec; [apply len_nonneg|done]. Qed.

Lemma be_Z_be_bytes4 z : 0 <= z < 2 ^ 32 → be_Z (be_bytes 4 z) = z.
Proof. intros. rewrite be_Z_be_bytes. by apply Z.mod_small. Qed.

(** What was written is read back, and nothing more. *)
Lemma ReadLengthPrefixed_app maxSize p rest : 0 < len p <= maxSize → maxSize <= max_u32 →
  ReadLengthPrefixed (WriteLengthPrefixed [] p ++ rest) maxSize = Ok (p, rest).
Proof.
  unfold max_u32. intros Hp Hm. unfold ReadLengthPrefixed, WriteLengthPrefixed. cbn [app].
  assert (u32 (len p) = len p) as Hu by (apply Z.mod_small; lia).
  rewrite Hu, <- app_assoc.
  change 4 with (Z.of_nat 4) at 1. rewrite <- (length_be_bytes 4 (len p)) at 2.
  fold (len (be_bytes 4 (len p))). rewrite ReadFull_app. cbn [of_option mbind res_bind].
  rewrite be_Z_be_bytes4 by lia.
  rewrite (proj2 (Z.eqb_neq _ _)), (proj2 (Z.ltb_ge _ _)) by lia. cbn [orb err_if mbind res_bind].
  by rewrite ReadFull_app.
Qed.

(** Length-prefixed framing is exact in both directions.  For a limit that
    is a [uint32], [ReadLengthPrefixed] succeeds on a stream exactly when the
    stream is the big-endian length of a non-empty payload within the limit
    followed by that payload, and it consumes nothing more; in particular it
    reads back any such payload that [WriteLengthPrefixed] wrote. *)
Theorem length_prefix_exact (maxSize : Z) (s p rest : bytes) :
  0 <= maxSize <= max_u32 →
  ReadLengthPrefixed s maxSize = Ok (p, rest) ↔
  0 < len p <= maxSize ∧ s = WriteLengthPrefixed [] p ++ rest.
Proof.
  unfold max_u32. intros Hm. split.
  - unfold ReadLengthPrefixed, WriteLengthPrefixed. cbn [app]. intros Hr. res_inv. bool_prop.
    match goal with H : ReadFull s 4 = Some (?b, _) |- _ =>
      rename b into size; apply ReadFull_spec in H as [-> Hs]; [|lia] end.
    pose proof (be_Z_range size).
    match goal with H : ReadFull _ _ = _ |- _ => apply ReadFull_spec in H as [-> Hp]; [|lia] end.
    simplify_eq.
    split; [lia|]. rewrite <- app_assoc. f_equal. apply be_Z_inj.
    + rewrite length_be_bytes. unfold len in Hs. lia.
    + rewrite be_Z_be_bytes4; unfold u32; rewrite Z.mod_small by lia; lia.
  - intros [Hp ->]. apply ReadLengthPrefixed_app; unfold max_u32; lia.
Qed.

Lemma length_prefix_exact_witness :
  ReadLengthPrefixed (WriteLengthPrefixed [] (str_bytes "hi") ++ [x01]) 4096
  = Ok (str_bytes "hi", [x01]).
Proof.
  apply (length_prefix_exact 4096); [vm_compute; split; discriminate|].
  split; [vm_compute; split; [reflexivity|discriminate]|reflexivity].
Defined.

Lemma ReadHeader_WriteHeader kind rest : 0 <= kind < 256 →
  ReadHeader (WriteHeader [] kind ++ rest) = Ok (kind, rest).
Proof.
  intros Hk. unfold ReadHeader, WriteHeader. cbn [app].
  change 5 with (len (magic ++ [Z_byte kind])). rewrite ReadFull_app. cbn.
  rewrite bool_decide_eq_true_2 by done. cbn.
  by rewrite byte_Z_byte, Z.mod_small by lia.
Qed.

(** ** Validation: the requests a node accepts *)
Section Accepted.
Context `{UnicodeTables}.

Definition max_data : Z := 1024 * 1024.

(** The descriptor lookups and the key space each one reads. *)
Definition descriptor_lookup (ty pre : string) : Prop :=
  In (ty, pre) [(DHTTypeLookupSvc, "service/"); (DHTTypeLookupPriv, "private-catalog/");
                (DHTTypeLookupHid, "hidden-desc/v1/")].

Inductive accepted : DHTRequest → Prop :=
| acc_name a t : is_find a = true → isSHA256Hex t = true →
    accepted (mkDHTRequest 1 DHTTypeLookupName a t "")
| acc_key a t : is_find a = true → full_NodeID t = true →
    accepted (mkDHTRequest 1 DHTTypeLookupKey a t "")
| acc_bootstrap t : isSHA256Hex t = true ∨ full_NodeID t = true →
    accepted (mkDHTRequest 1 DHTTypeBootstrap "find_node" t "")
| acc_update_ip t d : validEndpointUpdateTarget t = true → 0 < slen d <= max_data →
    accepted (mkDHTRequest 1 DHTTypeUpdateIP "update_ip" t d)
| acc_store t d : validDHTValueKey t = true → 0 < slen d <= max_data →
    accepted (mkDHTRequest 1 DHTTypeUpdate "store" t d)
| acc_descriptor ty pre t : descriptor_lookup ty pre → HasPrefix t pre = true → slen t <= 512 →
    accepted (mkDHTRequest 1 ty "find_value" t "").

Lemma isSHA256Hex_length t : isSHA256Hex t = true → slen t = 64.
Proof. unfold isSHA256Hex. intros. by bool_prop. Qed.

Lemma slen_prefix s p : HasPrefix s p = true → slen s = slen p + slen (TrimPrefix s p).
Proof. intros E%HasPrefix_inv. rewrite E at 1. unfold slen. rewrite str_length_app. lia. Qed.

Lemma full_NodeID_length t : full_NodeID t = true → slen t = 68.
Proof.
  unfold full_NodeID. intros. bool_prop. rewrite (slen_prefix t "vx6_") by done.
  rewrite (isSHA256Hex_length (TrimPrefix _ _)) by done. reflexivity.
Qed.

Lemma validEndpointUpdateTarget_length t : validEndpointUpdateTarget t = true → 64 <= slen t <= 76.
Proof.
  unfold validEndpointUpdateTarget. repeat case_match; intros; try done;
    erewrite slen_prefix by eassumption; rewrite (isSHA256Hex_length (TrimPrefix _ _)) by done;
    vm_compute; split; discriminate.
Qed.

Lemma validDHTValueKey_length t : validDHTValueKey t = true → 0 < slen t <= 512.
Proof.
  unfold validDHTValueKey. destruct ((slen t =? 0) || (512 <? slen t) || _) eqn:E; [done|].
  intros _. bool_prop. unfold slen in *. lia.
Qed.

Lemma slen_pos s : 0 < slen s ↔ s ≠ "".
Proof. destruct s; unfold slen; cbn; split; intros; try done; lia. Qed.

Lemma DHTTypeFor_descriptor ty t :
  ty = DHTTypeLookupSvc ∨ ty = DHTTypeLookupPriv ∨ ty = DHTTypeLookupHid →
  ty = DHTTypeFor "find_value" t ↔ ∃ pre, descriptor_lookup ty pre ∧ HasPrefix t pre = true.
Proof.
  unfold descriptor_lookup. cbn [In]. unfold DHTTypeFor. cbn [String.eqb].
  intros Hty. split.
  - intros E. repeat case_match; destruct Hty as [->|[->| ->]]; try discriminate E; eauto 8.
  - intros (pre & Hp & Hpre).
    destruct Hp as [[= <- <-]|[[= <- <-]|[[= <- <-]|[]]]]; apply HasPrefix_inv in Hpre;
      rewrite Hpre; destruct (TrimPrefix t _); vm_compute; reflexivity.
Qed.

Lemma request_data_ok a d :
  (if (a =?s "find_node") || (a =?s "find_value") then
     err_if (d <>?s "") "DHT lookup request must not contain update data"
   else if (a =?s "store") || (a =?s "update_ip") then
     err_if (d =?s "") "DHT update request has no data"
   else Err "unsupported DHT action") = Ok tt ↔
  (is_find a = true ∧ d = "") ∨ ((a = "store" ∨ a = "update_ip") ∧ d ≠ "").
Proof.
  unfold is_find. rewrite (orb_comm (a =?s "find_value")).
  destruct ((a =?s "find_node") || (a =?s "find_value")) eqn:E1.
  - rewrite err_if_ok, negb_false_iff, String.eqb_eq. split; [auto|].
    intros [[_ ?]|[[-> | ->] ?]]; done.
  - destruct ((a =?s "store") || (a =?s "update_ip")) eqn:E2.
    + rewrite err_if_ok, String.eqb_neq. split; [|by intros [[? ?]|[? ?]]].
      intros ?. right. split; [|done]. apply orb_true_iff in E2. by rewrite !String.eqb_eq in E2.
    + split; [done|]. intros [[? ?]|[[-> | ->] ?]]; done.
Qed.

Lemma Validate_accepted r : DHTRequest_Validate r = Ok tt → accepted r.
Proof.
  destruct r as [v ty a t d]. unfold DHTRequest_Validate, DHTWireVersion.
  cbn [rq_Version rq_Type rq_Action rq_Target rq_Data]. intros Hv.
  apply res_bind_ok in Hv as (? & Hver & Hv). apply res_bind_ok in Hv as (? & Hlen & Hv).
  apply res_bind_ok in Hv as (? & Hdata & Hv). apply res_bind_ok in Hv as (? & Hty & Hv).
  apply res_bind_ok in Hv as (? & Hfor & Hv). apply request_data_ok in Hv.
  res_inv. bool_prop. subst v.
  repeat match type of Hty with (if ?c then _ else _) = _ => destruct c eqn:? end;
    res_inv; bool_prop; subst.
  - destruct Hv as [[_ ->]|[[-> | ->] _]]; [by constructor|done..].
  - destruct Hv as [[_ ->]|[[-> | ->] _]]; [|done..]. constructor; [done|].
    unfold full_NodeID. by apply andb_true_iff.
  - destruct Hv as [[_ ->]|[[?|?] _]]; [|done..]. constructor. by apply orb_true_iff.
  - destruct Hv as [[? _]|[_ ?]]; [done|]. constructor; [done|]. split; [by apply slen_pos|done].
  - destruct Hv as [[? _]|[_ ?]]; [done|]. constructor; [done|]. split; [by apply slen_pos|done].
  - destruct Hv as [[_ ->]|[[?|?] _]]; [|done..].
    match goal with H : context [DHTTypeLookupHid] |- _ => rename H into Hd end.
    rewrite !orb_true_iff, !String.eqb_eq in Hd.
    rewrite !andb_false_iff, !negb_false_iff, !String.eqb_eq in Hfor.
    destruct (proj1 (DHTTypeFor_descriptor ty t ltac:(tauto))) as (pre & ? & ?).
    + destruct Hd as [[-> | ->] | ->]; destruct Hfor as [[[[?|?]|?]|?]|?]; done.
    + by econstructor.
Qed.

Lemma accepted_Validate r : accepted r → DHTRequest_Validate r = Ok tt.
Proof.
  assert (∀ s, 0 < slen s → (s =?s "") = false) as Hne.
  { intros s Hs%slen_pos. by apply String.eqb_neq. }
  assert (∀ s n, slen s <= n → (n <? slen s) = false) as Hle by (intros; by apply Z.ltb_ge).
  intros Hr. unfold DHTRequest_Validate.
  destruct Hr as [a t Ha Ht|a t Ha Ht|t Ht|t d Ht Hd|t d Ht Hd|ty pre t Hd Hp Hl];
    cbn [rq_Version rq_Type rq_Action rq_Target rq_Data].
  - pose proof (isSHA256Hex_length _ Ht).
    rewrite (Hne t), (Hle t), Ha, Ht by lia. cbn. apply (proj2 (request_data_ok a "")). by left.
  - pose proof (full_NodeID_length _ Ht). unfold full_NodeID in Ht. bool_prop.
    rewrite (Hne t), (Hle t), Ha by lia. cbn -[HasPrefix TrimPrefix].
    match goal with H1 : HasPrefix t _ = true, H2 : isSHA256Hex _ = true |- _ => rewrite H1, H2 end.
    cbn. apply (proj2 (request_data_ok a "")). by left.
  - assert (0 < slen t <= 512) by (destruct Ht as [?%isSHA256Hex_length|?%full_NodeID_length]; lia).
    rewrite (Hne t), (Hle t) by lia. apply orb_true_iff in Ht. cbn -[full_NodeID]. by rewrite Ht.
  - pose proof (validEndpointUpdateTarget_length _ Ht).
    rewrite (Hne t), (Hle t), (Hle d) by (unfold max_data in *; lia). cbn. rewrite Ht. cbn.
    by rewrite (Hne d) by lia.
  - pose proof (validDHTValueKey_length _ Ht).
    rewrite (Hne t), (Hle t), (Hle d) by (unfold max_data in *; lia). cbn. rewrite Ht. cbn.
    by rewrite (Hne d) by lia.
  - assert (0 < slen t).
    { rewrite (slen_prefix _ _ Hp). destruct Hd as [[= <- <-]|[[= <- <-]|[[= <- <-]|[]]]];
        pose proof (len_nonneg (str_bytes (TrimPrefix t "service/"))); unfold slen; cbn; lia. }
    rewrite (Hne t), (Hle t) by lia.
    assert (ty = DHTTypeFor "find_value" t) as Hty.
    { apply DHTTypeFor_descriptor; [|by exists pre]. clear -Hd.
      destruct Hd as [[= <- <-]|[[= <- <-]|[[= <- <-]|[]]]]; auto. }
    destruct Hd as [[= <- <-]|[[= <- <-]|[[= <- <-]|[]]]]; rewrite <- Hty; reflexivity.
Qed.

(** C34: [DHTRequest.Validate] accepts exactly the well-formed requests: wire
    version 1, a target of the shape its type calls for (a full digest, a full
    NodeID, or a key of the type's own key space), an action that goes with
    the type, no data on lookups and between 1 byte and 1 MiB on updates. *)
Theorem DHTRequest_Validate_exact (r : DHTRequest) :
  DHTRequest_Validate r = Ok tt ↔ accepted r.
Proof.
  split; [apply Validate_accepted|apply accepted_Validate].
Qed.
End Accepted.
