(* ===== verification/NodeInfo.v ===== *)
(** * Node descriptors and routing coordinates
    (internal/proto/proto.go [NodeInfo], internal/dht/nodeinfo.go, and the
    coordinate functions of internal/dht/table.go and dht.go)

    [NodeInfo] carries a node's address with its signed identity fields.  A
    routing coordinate is 32 bytes; distances are the XOR of two coordinates
    as 256-bit integers ([math/big] values are [Z]). *)
From S2P Require Import Prelude GoBytes GoStrings GoEncoding GoTime Sha256 GoEnv Lines Identity Record Proto.

Record NodeInfo := mkNodeInfo {
  n_IdentityVersion : Z;   (* uint8 *)
  n_IdentitySequence : Z;  (* uint64 *)
  n_ID : string;
  n_Name : string;
  n_NameHash : string;
  n_Addr : string;
  n_PublicKey : string;
  n_IdentityIssuedAt : string;
  n_IdentityExpiresAt : string;
  n_IdentitySignature : string;
}.
#[export] Instance NodeInfo_eq_dec : EqDecision NodeInfo.
Proof. solve_decision. Defined.
(** [proto.NodeInfo{}]. *)
Definition zero_NodeInfo : NodeInfo := mkNodeInfo 0 0 "" "" "" "" "" "" "" "".
#[export] Instance NodeInfo_inhabited : Inhabited NodeInfo := populate zero_NodeInfo.

(** ** Coordinates *)
(** The value of [encoded] chosen by the switch of [routingIDBytes]. *)
Definition routing_encoded (value : string) : string :=
  if HasPrefix value "vx6_" then TrimPrefix value "vx6_"
  else if HasPrefix value "node/name/" then TrimPrefix value "node/name/"
  else if HasPrefix value "node/id/" then TrimPrefix value "node/id/vx6_"
  else "".

Definition routingIDBytes (value : string) : bytes :=
  let encoded := routing_encoded value in
  if slen encoded =? 64 then
    match hex_decode encoded with
    | Some decoded => decoded
    | None => Sum256 (str_bytes value)
    end
  else Sum256 (str_bytes value).

Definition xorDistance (id1 id2 : string) : Z :=
  Z.lxor (be_Z (routingIDBytes id1)) (be_Z (routingIDBytes id2)).

(** [big.Int.BitLen] of a non-negative value. *)
Definition BitLen (z : Z) : Z := if z =? 0 then 0 else Z.log2 z + 1.

(** The bucket of a coordinate in the table of [self]: -1 for its own. *)
Definition bucket_of (self id : string) : Z := BitLen (xorDistance self id) - 1.

(** [randomTargetInBucket]; [r] is the value drawn by [rand.Int] below
    [2^bucket].  An out-of-range bucket yields the empty string. *)
Definition randomTargetInBucket (selfCoordinate : string) (bucket r : Z) : string :=
  if (bucket <? 0) || (255 <? bucket) then ""
  else
    let delta := Z.lor r (Z.shiftl 1 bucket) in
    let self := be_Z (routingIDBytes selfCoordinate) in
    let target := Z.lxor self delta in
    hex_encode (be_bytes 32 target).

Definition livenessProbeInterval : Z := 5 * Minute.

Definition initialProbeDelay (nodeID : string) : Z :=
  be_Z (take 8 (Sum256 (str_bytes nodeID))) mod livenessProbeInterval.

Section Names.
Context `{UnicodeTables}.

Definition NodeNameHash (name : string) : string :=
  match NormalizeNodeName name with
  | Ok canonical =>
      hex_encode (Sum256 (str_bytes ("vx6/node-name/v1" +:+ String "000" canonical)))
  | _ => ""
  end.

Definition nodeNameHash (node : NodeInfo) : string :=
  if n_NameHash node <>?s "" then n_NameHash node else NodeNameHash (n_Name node).

Definition lookupDistance (node : NodeInfo) (target : string) : Z :=
  if HasPrefix target "node/name/" then
    let nameHash :=
      if n_NameHash node =?s "" then NodeNameHash (n_Name node) else n_NameHash node in
    xorDistance nameHash (TrimPrefix target "node/name/")
  else xorDistance (n_ID node) target.

(** nodeinfo.go *)
Definition NodeInfoFromEndpointRecord (rec : EndpointRecord) : NodeInfo := {|
  n_IdentityVersion := er_Version rec;
  n_IdentitySequence := er_Sequence rec;
  n_ID := er_NodeID rec;
  n_Name := er_NodeName rec;
  n_NameHash := NodeNameHash (er_NodeName rec);
  n_Addr := er_Address rec;
  n_PublicKey := er_PublicKey rec;
  n_IdentityIssuedAt := er_IssuedAt rec;
  n_IdentityExpiresAt := er_ExpiresAt rec;
  n_IdentitySignature := er_Signature rec;
|}.
End Names.

(** [endpointRecordFromNodeInfo] (also the record built by [VerifyNodeInfo]). *)
Definition endpointRecordFromNodeInfo (node : NodeInfo) : EndpointRecord := {|
  er_Version := n_IdentityVersion node; er_Sequence := n_IdentitySequence node;
  er_NodeID := n_ID node; er_NodeName := n_Name node; er_Address := n_Addr node;
  er_PublicKey := n_PublicKey node; er_IssuedAt := n_IdentityIssuedAt node;
  er_ExpiresAt := n_IdentityExpiresAt node; er_Signature := n_IdentitySignature node;
|}.

Definition VerifyNodeInfo `{UnicodeTables, NetIP, RFC3339, Ed25519} (info : NodeInfo) (now : Z) : res unit :=
  err_if ((n_ID info =?s "") || (n_Name info =?s "") || (n_Addr info =?s "") || (n_PublicKey info =?s "")
          || (n_IdentityIssuedAt info =?s "") || (n_IdentityExpiresAt info =?s "")
          || (n_IdentitySignature info =?s "")) "node info is missing signed identity fields";;
  err_if ((n_NameHash info <>?s "") && (n_NameHash info <>?s NodeNameHash (n_Name info)))
    "node info name hash does not match canonical name";;
  VerifyEndpointRecord (endpointRecordFromNodeInfo info) now.

(** ** Lemmas *)
Lemma length_routingIDBytes v : List.length (routingIDBytes v) = 32%nat.
Proof.
  unfold routingIDBytes. case_match eqn:E; [|apply length_Sum256].
  case_match eqn:D; [|apply length_Sum256].
  apply hex_decode_length in D. bool_prop. unfold slen in E. lia.
Qed.

Lemma coord_range v : 0 <= be_Z (routingIDBytes v) < 2 ^ 256.
Proof.
  pose proof (be_Z_range (routingIDBytes v)) as H. unfold len in H.
  rewrite length_routingIDBytes in H. exact H.
Qed.

Lemma Z_lt_pow2_testbit x n : 0 <= x → 0 <= n →
  x < 2 ^ n ↔ ∀ m, n <= m → Z.testbit x m = false.
Proof.
  intros Hx Hn. split.
  - intros Hlt m Hm. destruct (decide (x = 0)) as [->|]; [apply Z.bits_0|].
    apply Z.bits_above_log2; [done|]. apply Z.log2_lt_pow2 in Hlt; lia.
  - intros Hb. destruct (decide (x = 0)) as [->|]; [lia|].
    apply Z.log2_lt_pow2; [lia|]. destruct (decide (n <= Z.log2 x)); [|lia].
    assert (Z.testbit x (Z.log2 x) = true) by (apply Z.bit_log2; lia). rewrite Hb in *; done.
Qed.

Lemma lxor_range x y n : 0 <= n → 0 <= x < 2 ^ n → 0 <= y < 2 ^ n → 0 <= Z.lxor x y < 2 ^ n.
Proof.
  intros Hn Hx Hy. assert (0 <= Z.lxor x y) by (apply Z.lxor_nonneg; lia).
  split; [done|]. apply Z_lt_pow2_testbit; [done..|]. intros m Hm. rewrite Z.lxor_spec.
  rewrite (proj1 (Z_lt_pow2_testbit x n ltac:(lia) Hn)), (proj1 (Z_lt_pow2_testbit y n ltac:(lia) Hn)) by lia.
  done.
Qed.

Lemma xorDistance_range a b : 0 <= xorDistance a b < 2 ^ 256.
Proof. apply lxor_range; [lia|apply coord_range..]. Qed.

Lemma xorDistance_zero a b : xorDistance a b = 0 ↔ routingIDBytes a = routingIDBytes b.
Proof.
  unfold xorDistance. rewrite Z.lxor_eq_0_iff. split; [|congruence].
  apply be_Z_inj. by rewrite !length_routingIDBytes.
Qed.

Lemma xorDistance_sym a b : xorDistance a b = xorDistance b a.
Proof. apply Z.lxor_comm. Qed.

Lemma BitLen_range d : 0 <= d < 2 ^ 256 → 0 <= BitLen d <= 256.
Proof.
  intros Hd. unfold BitLen. case_match eqn:E; bool_prop; [lia|].
  pose proof (Z.log2_nonneg d). pose proof (proj1 (Z.log2_lt_pow2 d 256 ltac:(lia)) ltac:(lia)). lia.
Qed.

Lemma BitLen_zero d : 0 <= d → BitLen d = 0 ↔ d = 0.
Proof.
  intros. unfold BitLen. case_match eqn:E; bool_prop; [done|]. pose proof (Z.log2_nonneg d). lia.
Qed.

Lemma routingIDBytes_hex b : List.length b = 32%nat → routingIDBytes ("vx6_" +:+ hex_encode b) = b.
Proof.
  intros Hb. unfold routingIDBytes, routing_encoded. rewrite prefix_app, TrimPrefix_app.
  unfold slen. rewrite hex_encode_length, Hb, hex_decode_encode. done.
Qed.

(** NodeIDs have distinct coordinates exactly when their keys have distinct digests. *)
Lemma routingIDBytes_NodeID k : routingIDBytes (NodeIDFromPublicKey k) = Sum256 k.
Proof. apply routingIDBytes_hex, length_Sum256. Qed.

Lemma NodeID_distance_zero k k' :
  xorDistance (NodeIDFromPublicKey k) (NodeIDFromPublicKey k') = 0 →
  NodeIDFromPublicKey k = NodeIDFromPublicKey k'.
Proof.
  rewrite xorDistance_zero, !routingIDBytes_NodeID. unfold NodeIDFromPublicKey. by intros ->.
Qed.

Lemma lor_top_bit r b : 0 <= b → 0 <= r < 2 ^ b →
  2 ^ b <= Z.lor r (Z.shiftl 1 b) < 2 ^ (b + 1).
Proof.
  intros Hb Hr. rewrite Z.shiftl_1_l.
  assert (Z.lor r (2 ^ b) = r + 2 ^ b) as ->.
  { rewrite <- Z.lxor_lor, <- Z.add_nocarry_lxor; try done.
    all: apply Z.bits_inj'; intros n Hn; rewrite Z.land_spec, Z.bits_0.
    all: destruct (decide (n = b)) as [->|].
    all: try (rewrite Z.pow2_bits_false by lia; by rewrite andb_false_r).
    all: rewrite (proj1 (Z_lt_pow2_testbit r b ltac:(lia) Hb) ltac:(lia)); [done|lia]. }
  rewrite Z.pow_add_r by lia. lia.
Qed.

Lemma BitLen_pow2 d b : 0 <= b → 2 ^ b <= d < 2 ^ (b + 1) → BitLen d - 1 = b.
Proof.
  intros Hb Hd. unfold BitLen. rewrite (proj2 (Z.eqb_neq d 0)) by lia.
  pose proof (Z.log2_unique d b Hb Hd). lia.
Qed.

Lemma VerifyNodeInfo_endpoint `{UnicodeTables, NetIP, RFC3339, Ed25519} info now :
  VerifyNodeInfo info now = Ok tt → VerifyEndpointRecord (endpointRecordFromNodeInfo info) now = Ok tt.
Proof. unfold VerifyNodeInfo. intros Hv. by res_inv. Qed.

Lemma bucket_of_range self id : -1 <= bucket_of self id <= 255.
Proof. unfold bucket_of. pose proof (BitLen_range _ (xorDistance_range self id)). lia. Qed.

Lemma bucket_of_neg self id : bucket_of self id = -1 ↔ routingIDBytes self = routingIDBytes id.
Proof.
  unfold bucket_of. rewrite <- xorDistance_zero, <- BitLen_zero by apply xorDistance_range. lia.
Qed.

(** Two nodes share a bucket exactly when their distances to the table's owner
    have the same number of bits; closer nodes have smaller buckets. *)
Lemma bucket_of_mono self a b : xorDistance self a <= xorDistance self b → bucket_of self a <= bucket_of self b.
Proof.
  intros Hle. unfold bucket_of, BitLen. pose proof (xorDistance_range self a).
  repeat case_match; bool_prop; try lia.
  - pose proof (Z.log2_nonneg (xorDistance self b)). lia.
  - pose proof (Z.log2_le_mono _ _ Hle). lia.
Qed.

(** The refresh target drawn for an ID bucket lands in that bucket: for
    every owner, every bucket 0..255 and every random value below [2^bucket],
    the key ["vx6_" + randomTargetInBucket ...] has that bucket index. *)
Theorem refresh_target_in_bucket (self : string) (bucket r : Z) :
  0 <= bucket <= 255 → 0 <= r < 2 ^ bucket →
  bucket_of self ("vx6_" +:+ randomTargetInBucket self bucket r) = bucket.
Proof.
  intros Hb Hr. unfold randomTargetInBucket.
  rewrite (proj2 (Z.ltb_ge bucket 0)), (proj2 (Z.ltb_ge 255 bucket)) by lia. cbn [orb].
  pose proof (lor_top_bit r bucket ltac:(lia) Hr) as Hd.
  set (delta := Z.lor r (Z.shiftl 1 bucket)) in *.
  assert (2 ^ (bucket + 1) <= 2 ^ 256) by (apply Z.pow_le_mono_r; lia).
  assert (0 < 2 ^ bucket) by (apply Z.pow_pos_nonneg; lia).
  unfold bucket_of. apply BitLen_pow2; [lia|].
  unfold xorDistance. rewrite routingIDBytes_hex by apply length_be_bytes.
  rewrite be_Z_be_bytes.
  rewrite Z.mod_small by (apply (lxor_range _ _ 256); [lia|apply coord_range|lia]).
  rewrite <- Z.lxor_assoc, Z.lxor_nilpotent, Z.lxor_0_l. done.
Qed.

Lemma refresh_target_in_bucket_witness :
  bucket_of "vx6_self" ("vx6_" +:+ randomTargetInBucket "vx6_self" 200 12345) = 200.
Proof. apply (refresh_target_in_bucket "vx6_self" 200 12345); vm_compute; split; congruence. Defined.

(** A refresh target for a name bucket misses it: name coordinates are bare
    name hashes, which [routingIDBytes] hashes once more, while the drawn target
    is the XOR of the hashed coordinate.  Looked up under its ["node/name/"] key,
    the target drawn for bucket 5 of this owner lies in its bucket 253. *)
Theorem name_refresh_misses_bucket `{UnicodeTables} :
  let self := hex_encode (Sum256 (str_bytes "self name")) in
  let target := randomTargetInBucket self 5 0 in
  bucket_of self target = 253 ∧
  lookupDistance (mkNodeInfo 0 0 "" "" self "" "" "" "" "") ("node/name/" +:+ target)
  = xorDistance self target.
Proof. split; [vm_compute; reflexivity|reflexivity]. Qed.
