(* ===== verification/Value.v ===== *)
(** * Validation of DHT values (internal/dht/value.go, keys of dht.go)

    A value is validated according to the keyspace of its key, bare or inside a
    publisher envelope.  [chooseStoredValue] decides whether an incoming value
    replaces the stored one. *)
From S2P Require Import Prelude GoBytes GoStrings GoEncoding GoTime GoSort Sha256 GoEnv Lines GoNumbers Identity Record StrictJson Envelope Hidden Catalog Proto NodeInfo.

(** ** Keys *)
Section Keys.
Context `{UnicodeTables}.

Definition NodeNameKey (name : string) : string := "node/name/" +:+ NodeNameHash name.
Definition NodeIDKey (nodeID : string) : string := "node/id/" +:+ nodeID.
Definition NodePublicKeyKey (publicKey : bytes) : res string :=
  err_if (negb (len publicKey =? PublicKeySize)) "public key must be 32 bytes";;
  Ok (NodeIDKey (NodeIDFromPublicKey publicKey)).
Definition ServiceKey (fullName : string) : string :=
  let '(nodeName, serviceName, ok) := Cut fullName "." in
  if ok then
    match NormalizeNodeName nodeName with
    | Ok canonical => "service/" +:+ canonical +:+ "." +:+ serviceName
    | _ => "service/" +:+ fullName
    end
  else "service/" +:+ fullName.
End Keys.

Definition isTrustedLookupKey (key : string) : bool :=
  HasPrefix key "node/name/" || HasPrefix key "node/id/" || HasPrefix key "service/" ||
  HasPrefix key "hidden-desc/v1/" || HasPrefix key "private-catalog/".

Definition storeFamily (key : string) : string :=
  if HasPrefix key "node/name/" then "node"
  else if HasPrefix key "node/id/" then "node"
  else if HasPrefix key "service/" then "service"
  else if HasPrefix key "private-catalog/" then "private-catalog"
  else if HasPrefix key "hidden-desc/v1/" then "hidden-desc"
  else "other".

(** ** Fingerprints and versions *)
Definition rawFingerprint (raw : string) : string :=
  RawURLEncoding_EncodeToString (take 12 (Sum256 (str_bytes raw))).
Definition serviceFingerprint (rec : ServiceRecord) : string :=
  RawURLEncoding_EncodeToString (take 12 (Sum256 (str_bytes
    (sr_Signature rec +:+ newline +:+ sr_IssuedAt rec +:+ newline +:+ sr_ExpiresAt rec)))).

Definition isNewerValue (candidate current : validatedValue) : bool :=
  if vv_version current <? vv_version candidate then true
  else if vv_version candidate <? vv_version current then false
  else if vv_sequenceBased candidate && vv_sequenceBased current
  then str_gt (vv_fingerprint candidate) (vv_fingerprint current)
  else if After (vv_issuedAt candidate) (vv_issuedAt current) then true
  else if Before (vv_issuedAt candidate) (vv_issuedAt current) then false
  else str_gt (vv_fingerprint candidate) (vv_fingerprint current).

(** [validatedValue{}]. *)
Definition zero_value : validatedValue :=
  mkValidated "" "" false "" "" zero_time zero_time 0 false "" "" false false.

(** The literal the verified keyspaces build. *)
Definition record_value (raw family fingerprint : string) (issuedAt expiresAt version : Z)
    (sequenceBased : bool) (origin : string) : validatedValue :=
  {| vv_storedRaw := raw; vv_raw := raw; vv_verified := true; vv_family := family;
     vv_fingerprint := fingerprint; vv_issuedAt := issuedAt; vv_expiresAt := expiresAt;
     vv_version := version; vv_sequenceBased := sequenceBased; vv_originNodeID := origin;
     vv_publisherNodeID := ""; vv_enveloped := false; vv_authoritativePublisher := false |}.

Section Validate.
Context `{UnicodeTables, NetIP, RFC3339, Ed25519, GoSort}.
Context `{!StrictJSON EndpointRecord} `{!JSON SignedEnvelope} `{!JSON ServiceRecord}
  `{!JSON HiddenDescriptor} `{!JSON (list ServiceRecord)} `{!JSON PrivateServiceCatalog}.

Definition recordTimes (issuedAtRaw expiresAtRaw : string) : res (Z * Z * Z) :=
  issuedAt ← of_option (time_Parse issuedAtRaw) "parse issued_at";
  expiresAt ← of_option (time_Parse expiresAtRaw) "parse expires_at";
  Ok (issuedAt, expiresAt, u64 (Unix issuedAt)).

(** Both node keyspaces: [matches] is the comparison with the key. *)
Definition inner_endpoint (raw : string) (now : Z) (matches : EndpointRecord → bool) (err : string)
  : res validatedValue :=
  rec ← Decode raw;
  VerifyEndpointRecord rec now;;
  err_if (negb (matches rec)) err;;
  '(issuedAt, expiresAt, _) ← recordTimes (er_IssuedAt rec) (er_ExpiresAt rec);
  let version := EndpointRecordSequenceVersion rec in
  Ok (record_value raw ("endpoint:" +:+ er_NodeID rec) (Fingerprint rec) issuedAt expiresAt version
        (2 <=? er_Version rec) (er_NodeID rec)).

Definition inner_service (raw : string) (now : Z) (want : string) : res validatedValue :=
  rec ← of_option (json_Unmarshal raw) "decode service record";
  VerifyServiceRecord rec now;;
  err_if (sr_IsPrivate rec) "private service cannot be stored in public service keyspace";;
  err_if (FullServiceName (sr_NodeName rec) (sr_ServiceName rec) <>?s want)
    "service record name does not match key";;
  '(issuedAt, expiresAt, version) ← recordTimes (sr_IssuedAt rec) (sr_ExpiresAt rec);
  Ok (record_value raw ("service:" +:+ sr_NodeID rec +:+ ":" +:+ want) (serviceFingerprint rec)
        issuedAt expiresAt version false (sr_NodeID rec)).

Definition inner_catalog (raw : string) (now : Z) (want : string) : res validatedValue :=
  catalog ← DecodePrivateServiceCatalog raw now;
  err_if (pc_NodeName catalog <>?s want) "private catalog name does not match key";;
  '(issuedAt, expiresAt, version) ← recordTimes (pc_IssuedAt catalog) (pc_ExpiresAt catalog);
  Ok (record_value raw ("private-catalog:" +:+ pc_NodeID catalog +:+ ":" +:+ want)
        (rawFingerprint (pc_Signature catalog +:+ newline +:+ pc_IssuedAt catalog +:+ newline +:+
                         pc_ExpiresAt catalog))
        issuedAt expiresAt version false (pc_NodeID catalog)).

Definition inner_hidden (raw : string) (now : Z) (want : string) : res validatedValue :=
  rec ← of_option (json_Unmarshal raw) "decode hidden service record";
  VerifyServiceRecord rec now;;
  err_if (negb (sr_IsHidden rec) || (sr_Alias rec <>?s want)) "hidden service alias does not match key";;
  '(issuedAt, expiresAt, version) ← recordTimes (sr_IssuedAt rec) (sr_ExpiresAt rec);
  Ok (record_value raw ("hidden:" +:+ sr_NodeID rec +:+ ":" +:+ want) (serviceFingerprint rec)
        issuedAt expiresAt version false (sr_NodeID rec)).

(** A stored service record under a descriptor key (the legacy form). *)
Definition inner_legacy (key raw : string) (now epoch : Z) : res validatedValue :=
  rec ← of_option (json_Unmarshal raw) "decode hidden service descriptor";
  VerifyServiceRecord rec now;;
  err_if (negb (sr_IsHidden rec) || (sr_Alias rec =?s ""))
    "hidden descriptor must wrap a hidden service with alias";;
  err_if (hiddenServiceKeyForRefEpoch (mkRef (sr_Alias rec) "") epoch <>?s key)
    "hidden descriptor key does not match alias-derived blinded key";;
  '(issuedAt, expiresAt, version) ← recordTimes (sr_IssuedAt rec) (sr_ExpiresAt rec);
  Ok (record_value raw ("hidden:" +:+ sr_NodeID rec +:+ ":" +:+ hiddenServiceTag rec)
        (serviceFingerprint rec) issuedAt expiresAt version false (sr_NodeID rec)).

Definition inner_descriptor (key raw : string) (now : Z) : res validatedValue :=
  epoch ← parseHiddenDescriptorEpoch key;
  match parseHiddenDescriptor raw with
  | Ok desc =>
      '(issuedAt, expiresAt, version) ← recordTimes (hd_IssuedAt desc) (hd_ExpiresAt desc);
      Ok (record_value raw ("hidden:" +:+ hd_NodeID desc +:+ ":" +:+ hd_ServiceTag desc)
            (hiddenDescriptorFingerprint desc) issuedAt expiresAt version false (hd_NodeID desc))
  | _ => inner_legacy key raw now epoch
  end.

Definition validateInnerLookupValue (key raw : string) (now : Z) : res validatedValue :=
  if HasPrefix key "node/name/" then
    inner_endpoint raw now (fun rec => NodeNameKey (er_NodeName rec) =?s key)
      "endpoint record name does not match name lookup key"
  else if HasPrefix key "node/id/" then
    let want := TrimPrefix key "node/id/" in
    inner_endpoint raw now (fun rec => er_NodeID rec =?s want) "endpoint record node id does not match key"
  else if HasPrefix key "service/" then inner_service raw now (TrimPrefix key "service/")
  else if HasPrefix key "private-catalog/" then inner_catalog raw now (TrimPrefix key "private-catalog/")
  else if HasPrefix key "hidden/" then inner_hidden raw now (TrimPrefix key "hidden/")
  else if HasPrefix key "hidden-desc/v1/" then inner_descriptor key raw now
  else Ok {| vv_storedRaw := raw; vv_raw := raw; vv_verified := false; vv_family := "";
             vv_fingerprint := rawFingerprint raw; vv_issuedAt := zero_time; vv_expiresAt := zero_time;
             vv_version := 0; vv_sequenceBased := false; vv_originNodeID := "";
             vv_publisherNodeID := ""; vv_enveloped := false; vv_authoritativePublisher := false |}.

(** The fields [validateLookupValue] sets from the envelope. *)
Definition enveloped_value (value : validatedValue) (raw : string) (env : SignedEnvelope) : validatedValue :=
  {| vv_storedRaw := raw; vv_raw := vv_raw value; vv_verified := vv_verified value;
     vv_family := vv_family value; vv_fingerprint := vv_fingerprint value;
     vv_issuedAt := vv_issuedAt value; vv_expiresAt := vv_expiresAt value;
     vv_version := vv_version value; vv_sequenceBased := vv_sequenceBased value;
     vv_originNodeID := vv_originNodeID value; vv_publisherNodeID := env_PublisherNodeID env;
     vv_enveloped := true;
     vv_authoritativePublisher :=
       (vv_originNodeID value <>?s "") && (env_PublisherNodeID env =?s vv_originNodeID value) |}.

Definition validateLookupValue (key raw : string) (now : Z) : res validatedValue :=
  env ← maybeDecodeEnvelope raw;
  match env with
  | Some env =>
      verifyEnvelope key env now;;
      value ← validateInnerLookupValue key (env_Value env) now;
      (if vv_verified value then
         err_if (env_OriginNodeID env <>?s vv_originNodeID value)
           "envelope origin does not match record origin";;
         err_if (negb (env_Version env =? vv_version value))
           "envelope version does not match record version";;
         err_if (env_IssuedAt env <>?s time_Format (vv_issuedAt value))
           "envelope issued_at does not match wrapped record";;
         err_if (env_ExpiresAt env <>?s time_Format (vv_expiresAt value))
           "envelope expires_at does not match wrapped record"
       else Ok tt);;
      Ok (enveloped_value value raw env)
  | None => validateInnerLookupValue key raw now
  end.

(** The five results of [chooseStoredValue]. *)
Record choice := mkChoice {
  ch_chosen : string;
  ch_changed : bool;
  ch_previous : validatedValue;
  ch_incoming : validatedValue;
  ch_error : option string;
}.

Definition ErrConflictingValues : string := "dht lookup returned conflicting values".

(** The comparison of two validated values. *)
Definition choose_between (existing incoming : string) (existingValue incomingValue : validatedValue) : choice :=
  if negb (vv_verified incomingValue) then
    if existing =?s incoming then mkChoice existing false existingValue incomingValue None
    else mkChoice incoming true existingValue incomingValue None
  else if negb (vv_verified existingValue) then mkChoice incoming true existingValue incomingValue None
  else if vv_family existingValue <>?s vv_family incomingValue
  then mkChoice existing false existingValue incomingValue (Some ErrConflictingValues)
  else if vv_fingerprint incomingValue =?s vv_fingerprint existingValue
  then mkChoice existing false existingValue incomingValue None
  else if isNewerValue incomingValue existingValue
  then mkChoice incoming true existingValue incomingValue None
  else mkChoice existing false existingValue incomingValue None.

Definition chooseStoredValue (key existing incoming : string) (now : Z) : res choice :=
  match validateLookupValue key incoming now with
  | Err e => Ok (mkChoice "" false zero_value zero_value (Some e))
  | Panic => Panic
  | Ok incomingValue =>
      if existing =?s "" then Ok (mkChoice incoming true zero_value incomingValue None)
      else match validateLookupValue key existing now with
           | Err _ => Ok (mkChoice incoming true zero_value incomingValue None)
           | Panic => Panic
           | Ok existingValue => Ok (choose_between existing incoming existingValue incomingValue)
           end
  end.
End Validate.
