(* ===== verification/RateLimit.v ===== *)
(** * Rate limits (internal/dht/dht.go, hidden_lookup.go)

    Fixed-window request counters in a map that is swept on every request.
    [allowRateWindowLocked] counts the stores of a key and of a key family,
    [allowHiddenDescriptorRequest] the descriptor requests of a host. *)
From S2P Require Import Prelude GoBytes GoStrings GoTime GoEnv Lines Value.

Record rateWindow := mkWindow { WindowStart : Z; Count : Z }.
(** A missing map entry reads as the zero value. *)
Definition zero_window : rateWindow := mkWindow zero_time 0.
Abbreviation rates := (gmap string rateWindow).

Definition hiddenDescriptorLookupRateWindow : Z := 30 * Second.
Definition hiddenDescriptorLookupRateLimit : Z := 48.
Definition hiddenDescriptorStoreRateWindow : Z := 30 * Second.
Definition hiddenDescriptorStoreRateLimit : Z := 24.

(** The counter of one key: whether the request is allowed, and the counter after it. *)
Definition window_step (window limit now : Z) (counter : rateWindow) : bool * rateWindow :=
  if IsZero (WindowStart counter) || (window <=? Sub now (WindowStart counter))
  then (true, mkWindow now 1)
  else if limit <=? Count counter then (false, counter)
  else (true, mkWindow (WindowStart counter) (Count counter + 1)).

Definition allowRateWindowLocked (m : rates) (key : string) (now window limit : Z) : bool * rates :=
  let counter := default zero_window (m !! key) in
  if IsZero (WindowStart counter) || (window <=? Sub now (WindowStart counter))
  then (true, <[key := mkWindow now 1]> m)
  else if limit <=? Count counter then (false, m)
  else (true, <[key := mkWindow (WindowStart counter) (Count counter + 1)]> m).

(** [for existing, counter := range m { if now.Sub(start) > window*2 { delete } }]. *)
Definition sweep (now window : Z) (m : rates) : rates :=
  filter (fun kv => Sub now (WindowStart kv.2) <= window * 2) m.

(** The host of a remote address, its port removed. *)
Definition remote_host (remoteAddr : string) : string :=
  match SplitHostPort remoteAddr with Some (h, _) => h | None => remoteAddr end.

Definition allowStoreRequest (m : rates) (remoteAddr key : string) (trusted : bool) (now : Z)
  : res unit * rates :=
  let window := hiddenDescriptorStoreRateWindow in
  let limit := if trusted then hiddenDescriptorStoreRateLimit else hiddenDescriptorStoreRateLimit * 2 in
  let host := Trim (remote_host remoteAddr) "[]" in
  let keyClass := "store" +:+ newline +:+ host +:+ newline +:+ key in
  let familyKey := "store-family" +:+ newline +:+ host +:+ newline +:+ storeFamily key in
  let m := sweep now window m in
  let '(ok, m) := allowRateWindowLocked m keyClass now window limit in
  if negb ok then (Err "store rate limit exceeded for key", m)
  else
    let '(ok, m) := allowRateWindowLocked m familyKey now window (limit * 2) in
    if negb ok then (Err "store family rate limit exceeded for key", m)
    else (Ok tt, m).

Definition allowHiddenDescriptorRequest (m : rates) (remoteAddr action : string) (now : Z) : bool * rates :=
  let run (window limit : Z) :=
    let host := remote_host remoteAddr in
    let key := action +:+ newline +:+ host in
    let m := sweep now window m in
    let counter := default zero_window (m !! key) in
    if IsZero (WindowStart counter) || (window <=? Sub now (WindowStart counter))
    then (true, <[key := mkWindow now 1]> m)
    else if limit <=? Count counter then (false, m)
    else (true, <[key := mkWindow (WindowStart counter) (Count counter + 1)]> m) in
  if action =?s "find_value" then run hiddenDescriptorLookupRateWindow hiddenDescriptorLookupRateLimit
  else if action =?s "store" then run hiddenDescriptorStoreRateWindow hiddenDescriptorStoreRateLimit
  else (true, m).

(** ** The map of counters is a family of independent counters *)
Lemma allowRateWindow_step m key now window limit :
  let '(ok, w) := window_step window limit now (default zero_window (m !! key)) in
  (allowRateWindowLocked m key now window limit).1 = ok ∧
  default zero_window ((allowRateWindowLocked m key now window limit).2 !! key) = w ∧
  ∀ k, k ≠ key → (allowRateWindowLocked m key now window limit).2 !! k = m !! k.
Proof.
  unfold window_step, allowRateWindowLocked.
  repeat case_match; simplify_eq; cbn; (split_and!; [done| |]);
    try (by rewrite lookup_insert_eq); try done; intros; by rewrite lookup_insert_ne.
Qed.

(** A swept counter behaves like a missing one. *)
Definition expired (window now : Z) (w : rateWindow) : Prop :=
  WindowStart w = zero_time ∨ window <= Sub now (WindowStart w).

Lemma window_step_expired window limit now w1 w2 :
  expired window now w1 → expired window now w2 → window_step window limit now w1 = window_step window limit now w2.
Proof.
  unfold expired, window_step, IsZero, zero_time.
  intros [->|H1] [->|H2]; rewrite ?(proj2 (Z.leb_le _ _) H1), ?(proj2 (Z.leb_le _ _) H2), ?orb_true_r; done.
Qed.

Lemma sweep_step window limit now m key : 0 <= window →
  window_step window limit now (default zero_window (sweep now window m !! key)) =
  window_step window limit now (default zero_window (m !! key)).
Proof.
  intros Hw. unfold sweep. destruct (m !! key) as [w|] eqn:E.
  - destruct (decide (Sub now (WindowStart w) <= window * 2)) as [H|H].
    + by rewrite (map_lookup_filter_Some_2 _ _ _ w).
    + rewrite map_lookup_filter_None_2 by (right; intros x; naive_solver).
      apply window_step_expired; [by left|right]. simpl. lia.
  - by rewrite map_lookup_filter_None_2 by by left.
Qed.

(** ** How many requests one counter lets through *)
Fixpoint allowed_count (window limit : Z) (w : rateWindow) (times : list Z) : Z :=
  match times with
  | [] => 0
  | t :: times' =>
      let '(ok, w') := window_step window limit t w in
      (if ok then 1 else 0) + allowed_count window limit w' times'
  end.

Definition counter_ok (limit : Z) (w : rateWindow) : Prop := 0 <= Count w <= limit.

Lemma window_step_ok window limit now w : 1 <= limit → counter_ok limit w →
  counter_ok limit (window_step window limit now w).2.
Proof.
  unfold counter_ok, window_step. intros Hl Hw.
  repeat case_match; bool_prop; cbn; lia.
Qed.

(** Within the current window at most the remaining quota is let through. *)
Lemma allowed_in_window window limit times : ∀ w,
  1 <= limit → counter_ok limit w → WindowStart w ≠ zero_time →
  Forall (fun t => Sub t (WindowStart w) < window) times →
  allowed_count window limit w times <= limit - Count w.
Proof.
  induction times as [|t times IH]; intros w Hl Hc Hz Ht; cbn [allowed_count]; unfold counter_ok in *; [lia|].
  apply Forall_cons in Ht as [Ht1 Ht]. unfold window_step, IsZero.
  rewrite (proj2 (Z.eqb_neq _ _)), (proj2 (Z.leb_gt _ _)) by done. cbn [orb].
  destruct (Z.leb_spec limit (Count w)).
  - specialize (IH w Hl Hc Hz Ht). lia.
  - specialize (IH (mkWindow (WindowStart w) (Count w + 1)) Hl). cbn in IH.
    specialize (IH ltac:(lia) Hz Ht). lia.
Qed.

(** Over any span shorter than the window at most one reset happens. *)
Lemma allowed_span window limit start times : ∀ w,
  1 <= limit → 0 <= window < 2 ^ 63 → counter_ok limit w → 0 < start →
  Forall (fun t => start <= t < start + window) times →
  allowed_count window limit w times <= 2 * limit - Count w.
Proof.
  induction times as [|t times IH]; intros w Hl Hwin Hc Hs Ht; cbn [allowed_count]; unfold counter_ok in *; [lia|].
  apply Forall_cons in Ht as [Ht1 Ht]. unfold window_step at 1. destruct (IsZero (WindowStart w) || (window <=? Sub t (WindowStart w)))%bool.
  - cbv beta iota. assert (allowed_count window limit (mkWindow t 1) times <= limit - 1); [|lia].
    apply allowed_in_window; [done|unfold counter_ok; cbn; lia|unfold zero_time; cbn; lia|].
    eapply Forall_impl; [exact Ht|]. intros x Hx. cbn in Hx |- *.
    apply Z.ltb_lt. rewrite Sub_lt by lia. apply Z.ltb_lt. lia.
  - destruct (Z.leb_spec limit (Count w)).
    + specialize (IH w Hl Hwin Hc Hs Ht). lia.
    + specialize (IH (mkWindow (WindowStart w) (Count w + 1)) Hl Hwin). cbn in IH.
      specialize (IH ltac:(lia) Hs Ht). lia.
Qed.

(** ** Requests that share one map

    [span_inv] follows one counter of a shared map through requests made inside
    a span [start, start + window): [n] of them were admitted under this
    counter.  Sweeps made for other keys never delete it while it counts. *)
Section Span.
Context (window limit start : Z) (Hwindow : 0 <= window < 2 ^ 62) (Hlimit : 1 <= limit) (Hstart : 0 < start).

Definition span_inv (n : Z) (w : rateWindow) : Prop :=
  0 <= Count w ∧
  (n = 0 ∨
   (0 < WindowStart w ∧ start - window < WindowStart w < start ∧ n <= Count w <= limit) ∨
   (0 < WindowStart w ∧ start <= WindowStart w ∧ n <= limit + Count w ∧ Count w <= limit)).

Lemma span_inv_bound n w : span_inv n w → n <= 2 * limit.
Proof. unfold span_inv. lia. Qed.

Lemma span_inv_step n w t : start <= t < start + window → 0 <= WindowStart w → span_inv n w →
  span_inv (n + if (window_step window limit t w).1 then 1 else 0) (window_step window limit t w).2 ∧
  0 <= WindowStart (window_step window limit t w).2.
Proof.
  intros Ht H0 (Hc & H). unfold window_step, IsZero, span_inv.
  assert (Hsub : (window <=? Sub t (WindowStart w)) = (window <=? t - WindowStart w)).
  { apply Bool.eq_true_iff_eq. rewrite !Z.leb_le. unfold Sub, min_i64, max_i64. lia. }
  rewrite Hsub. destruct (Z.eqb_spec (WindowStart w) 0), (Z.leb_spec window (t - WindowStart w)),
    (Z.leb_spec limit (Count w)); cbn; lia.
Qed.

Lemma span_inv_sweep n w t : start <= t < start + window → span_inv n w → window * 2 < Sub t (WindowStart w) →
  span_inv n zero_window.
Proof.
  unfold span_inv, Sub, min_i64, max_i64, zero_window, zero_time. cbn [Count WindowStart]. lia.
Qed.
End Span.

Definition starts_ok (m : rates) : Prop := map_Forall (fun _ w => 0 <= Count w ∧ 0 <= WindowStart w) m.

Lemma starts_ok_default m key : starts_ok m →
  0 <= Count (default zero_window (m !! key)) ∧ 0 <= WindowStart (default zero_window (m !! key)).
Proof. intros H. destruct (m !! key) as [w|] eqn:E; cbn; [by apply (H key)|unfold zero_time; lia]. Qed.

Lemma sweep_lookup now window m key :
  sweep now window m !! key = m !! key ∨
  (sweep now window m !! key = None ∧ ∃ w, m !! key = Some w ∧ window * 2 < Sub now (WindowStart w)).
Proof.
  unfold sweep. destruct (m !! key) as [w|] eqn:E.
  - destruct (decide (Sub now (WindowStart w) <= window * 2)).
    + left. by apply map_lookup_filter_Some_2.
    + right. split; [apply map_lookup_filter_None_2; right; intros x; naive_solver|]. eexists; split; [done|lia].
  - left. apply map_lookup_filter_None_2. by left.
Qed.

Lemma sweep_span window limit start n now m key : 0 <= window < 2 ^ 62 → 1 <= limit → 0 < start →
  start <= now < start + window →
  span_inv window limit start n (default zero_window (m !! key)) →
  span_inv window limit start n (default zero_window (sweep now window m !! key)).
Proof.
  intros ? ? ? Ht H. destruct (sweep_lookup now window m key) as [->|(-> & w & E & Hw)]; [done|].
  rewrite E in H. by eapply span_inv_sweep.
Qed.

Lemma sweep_start now window m key : 0 <= WindowStart (default zero_window (m !! key)) →
  0 <= WindowStart (default zero_window (sweep now window m !! key)).
Proof. intros H. destruct (sweep_lookup now window m key) as [->|[-> _]]; done. Qed.

(** One request of the store path: host, key, trust and time. *)
Record store_req := mkStoreReq { sr_addr : string; sr_key : string; sr_time : Z }.
Definition store_class (r : store_req) : string :=
  "store" +:+ newline +:+ Trim (remote_host (sr_addr r)) "[]" +:+ newline +:+ sr_key r.
(** The requests of a list that [allowStoreRequest] admits, in a shared map. *)
Fixpoint store_run (m : rates) (rs : list store_req) : list store_req :=
  match rs with
  | [] => []
  | r :: rs' =>
      let '(x, m') := allowStoreRequest m (sr_addr r) (sr_key r) (isTrustedLookupKey (sr_key r)) (sr_time r) in
      if is_ok x then r :: store_run m' rs' else store_run m' rs'
  end.
Definition store_limit (key : string) : Z :=
  if isTrustedLookupKey key then hiddenDescriptorStoreRateLimit else hiddenDescriptorStoreRateLimit * 2.

Lemma allowRate_other m key now window limit k : k ≠ key →
  (allowRateWindowLocked m key now window limit).2 !! k = m !! k.
Proof.
  intros Hk. pose proof (allowRateWindow_step m key now window limit) as H.
  destruct (window_step _ _ _ _). naive_solver.
Qed.
Lemma allowRate_same m key now window limit :
  (allowRateWindowLocked m key now window limit).1 =
    (window_step window limit now (default zero_window (m !! key))).1 ∧
  default zero_window ((allowRateWindowLocked m key now window limit).2 !! key) =
    (window_step window limit now (default zero_window (m !! key))).2.
Proof.
  pose proof (allowRateWindow_step m key now window limit) as H.
  destruct (window_step _ _ _ _). naive_solver.
Qed.

(** The counter of a key class after a request: stepped by the requests of its
    own class, swept by all; family counters live apart from it. *)
Lemma allowStoreRequest_counter m r kc : let '(x, m') :=
    allowStoreRequest m (sr_addr r) (sr_key r) (isTrustedLookupKey (sr_key r)) (sr_time r) in
  let w := default zero_window (sweep (sr_time r) hiddenDescriptorStoreRateWindow m !! kc) in
  (∃ rest, kc = "store" +:+ newline +:+ rest) →
  if decide (store_class r = kc)
  then (is_ok x = true → (window_step hiddenDescriptorStoreRateWindow (store_limit (sr_key r)) (sr_time r) w).1 = true) ∧
       default zero_window (m' !! kc) =
         (window_step hiddenDescriptorStoreRateWindow (store_limit (sr_key r)) (sr_time r) w).2
  else default zero_window (m' !! kc) = w.
Proof.
  destruct (allowStoreRequest _ _ _ _ _) as [x m'] eqn:E. intros w [rest Hkc]. revert E.
  unfold allowStoreRequest. fold (store_class r) (store_limit (sr_key r)).
  set (m0 := sweep _ _ m). set (fam := "store-family" +:+ _).
  assert (Hfam : fam ≠ kc) by (subst; unfold fam, newline; cbn; discriminate).
  pose proof (allowRate_same m0 (store_class r) (sr_time r) hiddenDescriptorStoreRateWindow (store_limit (sr_key r))) as [Hs1 Hs2].
  pose proof (fun m1 => allowRate_other m1 fam (sr_time r) hiddenDescriptorStoreRateWindow (store_limit (sr_key r) * 2) kc) as Ho.
  pose proof (allowRate_other m0 (store_class r) (sr_time r) hiddenDescriptorStoreRateWindow (store_limit (sr_key r)) kc) as Ho2.
  destruct (allowRateWindowLocked m0 (store_class r) _ _ _) as [ok m1] eqn:E1. cbn [fst snd] in *.
  specialize (Ho m1 (not_eq_sym Hfam)).
  destruct (allowRateWindowLocked m1 fam _ _ _) as [ok2 m2] eqn:E2. cbn [fst snd] in *.
  destruct ok, ok2; cbn [negb]; intros [= <- <-];
    (destruct (decide (store_class r = kc)) as [Hk|Hk];
     [rewrite ?Ho; unfold w; rewrite <- Hk, <- ?Hs1, <- ?Hs2; done
     |rewrite ?Ho, Ho2 by congruence; done]).
Qed.

Definition of_class (kc : string) (r : store_req) : bool := store_class r =?s kc.

Lemma store_run_span kc limit start rs : ∀ m n,
  (∃ rest, kc = "store" +:+ newline +:+ rest) → 1 <= limit → 0 < start →
  Forall (fun r => start <= sr_time r < start + hiddenDescriptorStoreRateWindow) rs →
  Forall (fun r => store_class r = kc → store_limit (sr_key r) = limit) rs →
  span_inv hiddenDescriptorStoreRateWindow limit start n (default zero_window (m !! kc)) →
  0 <= WindowStart (default zero_window (m !! kc)) →
  n + Z.of_nat (length (List.filter (of_class kc) (store_run m rs))) <= 2 * limit.
Proof.
  assert (Hw : 0 <= hiddenDescriptorStoreRateWindow < 2 ^ 62) by (vm_compute; split; congruence).
  induction rs as [|r rs IH]; intros m n Hkc Hl Hs Ht Hlim Hinv H0; cbn [store_run].
  { cbn. apply span_inv_bound in Hinv; lia. }
  apply Forall_cons in Ht as [Ht1 Ht], Hlim as [Hlim1 Hlim].
  pose proof (allowStoreRequest_counter m r kc) as Hstep.
  destruct (allowStoreRequest _ _ _ _ _) as [x m'] eqn:E. specialize (Hstep Hkc).
  apply (sweep_span _ _ _ _ (sr_time r) m kc Hw Hl Hs Ht1) in Hinv.
  apply (sweep_start (sr_time r) hiddenDescriptorStoreRateWindow m kc) in H0.
  set (w := default zero_window (sweep _ _ m !! kc)) in *.
  assert (Hcl : of_class kc r = bool_decide (store_class r = kc)).
  { unfold of_class. case_bool_decide; [by apply String.eqb_eq|by apply String.eqb_neq]. }
  destruct (decide (store_class r = kc)) as [Hk|Hk].
  - rewrite (Hlim1 Hk) in Hstep. destruct Hstep as [Hok Hm'].
    destruct (span_inv_step _ _ _ Hw Hl Hs n w (sr_time r) Ht1 H0 Hinv) as [Hinv' H0'].
    rewrite <- Hm' in Hinv', H0'. rewrite bool_decide_true in Hcl by done.
    destruct (is_ok x).
    + rewrite (Hok eq_refl) in Hinv'. cbn [List.filter]. rewrite Hcl. cbn [length].
      specialize (IH m' _ Hkc Hl Hs Ht Hlim Hinv' H0'). lia.
    + specialize (IH m' _ Hkc Hl Hs Ht Hlim Hinv' H0').
      destruct (window_step _ _ _ w).1; lia.
  - rewrite bool_decide_false in Hcl by done. rewrite <- Hstep in Hinv, H0.
    specialize (IH m' _ Hkc Hl Hs Ht Hlim Hinv H0).
    destruct (is_ok x); [|done]. cbn [List.filter]. by rewrite Hcl.
Qed.

(** C28: whatever the order of the store requests that share the node's counters,
    at most twice the limit of a key is admitted for one host and key in any
    span of one rate window (30 s): the counters of other keys, their sweeps and
    the family counters never give a requester more. *)
Theorem store_rate_bounded m r0 start rs :
  starts_ok m → 0 < start →
  Forall (fun r => start <= sr_time r < start + hiddenDescriptorStoreRateWindow) rs →
  Forall (fun r => store_class r = store_class r0 → store_limit (sr_key r) = store_limit (sr_key r0)) rs →
  Z.of_nat (length (List.filter (of_class (store_class r0)) (store_run m rs))) <= 2 * store_limit (sr_key r0).
Proof.
  intros Hm Hs Ht Hlim. destruct (starts_ok_default m (store_class r0) Hm).
  apply (store_run_span (store_class r0) (store_limit (sr_key r0)) start rs m 0); try done.
  - by eexists.
  - unfold store_limit, hiddenDescriptorStoreRateLimit. case_match; lia.
  - split; [done|by left].
Qed.

(** Sixty stores of one key in six seconds: forty-eight of a publisher's limit pass. *)
Definition demo_requests : list store_req :=
  (fun i => mkStoreReq "[2001:db8::9]:4000" "custom/key" (1000 + Z.of_nat i)) <$> seq 0 60.
Lemma store_rate_bounded_witness :
  length (store_run ∅ demo_requests) = 48%nat ∧
  Z.of_nat (length (List.filter (of_class (store_class (mkStoreReq "[2001:db8::9]:4000" "custom/key" 0)))
    (store_run ∅ demo_requests))) <= 96.
Proof.
  split; [vm_compute; reflexivity|].
  apply (store_rate_bounded ∅ (mkStoreReq "[2001:db8::9]:4000" "custom/key" 0) 1000 demo_requests).
  - apply map_Forall_empty.
  - lia.
  - apply Forall_fmap, Forall_seq. intros j Hj. change hiddenDescriptorStoreRateWindow with 30000000000.
    cbn [sr_time]. cbn [compose] in *. simpl. lia.
  - apply Forall_fmap, Forall_seq. intros j _ _. reflexivity.
Defined.
