(* ===== verification/ValueProps.v ===== *)
(** * What validation and replacement guarantee

    A verified value carries a signed record of its key's owner (descriptors
    excepted, as the last theorems show), and a stored value is only replaced by
    a newer one of the same family. *)
From S2P Require Import Prelude GoBytes GoStrings GoEncoding GoTime GoSort Sha256 GoEnv Lines GoNumbers Identity Record RecordProps DemoJson StrictJson Envelope Hidden HiddenProps Catalog Proto NodeInfo Value.

(** The keyspaces whose values are verified. *)
Definition verified_keyspace (key : string) : bool :=
  HasPrefix key "node/name/" || HasPrefix key "node/id/" || HasPrefix key "service/" ||
  HasPrefix key "private-catalog/" || HasPrefix key "hidden/" || HasPrefix key "hidden-desc/v1/".

Ltac units := repeat match goal with u : unit |- _ => destruct u end.

Section Facts.
Context `{UnicodeTables, NetIP, RFC3339, Ed25519, GoSort}.
Context `{!StrictJSON EndpointRecord} `{!JSON SignedEnvelope} `{!JSON ServiceRecord}
  `{!JSON HiddenDescriptor} `{!JSON (list ServiceRecord)} `{!JSON PrivateServiceCatalog}.

(** The signed record a value [v] of [key] was read from: it verifies, belongs to the key and
    names the origin of the value. *)
Definition signed_record (key raw : string) (now : Z) (v : validatedValue) : Prop :=
  (∃ r, Decode raw = Ok r ∧ VerifyEndpointRecord r now = Ok tt ∧ vv_originNodeID v = er_NodeID r ∧
     (key = NodeNameKey (er_NodeName r) ∨ key = NodeIDKey (er_NodeID r))) ∨
  (∃ r, json_Unmarshal raw = Some r ∧ VerifyServiceRecord r now = Ok tt ∧ vv_originNodeID v = sr_NodeID r ∧
     (key = "service/" +:+ FullServiceName (sr_NodeName r) (sr_ServiceName r) ∧ sr_IsPrivate r = false ∨
      key = "hidden/" +:+ sr_Alias r ∧ sr_IsHidden r = true ∨
      (∃ epoch, key = hiddenServiceKeyForRefEpoch (mkRef (sr_Alias r) "") epoch) ∧ sr_IsHidden r = true)) ∨
  (∃ c, json_Unmarshal raw = Some c ∧ VerifyPrivateServiceCatalog c now = Ok tt ∧
     vv_originNodeID v = pc_NodeID c ∧ key = "private-catalog/" +:+ pc_NodeName c).
(** Under a descriptor key it can also be a sealed descriptor, which has no signature and
    whose link to the key can not be checked without the secret of the service. *)
Definition carries_record (key raw : string) (now : Z) (v : validatedValue) : Prop :=
  signed_record key raw now v ∨
  HasPrefix key "hidden-desc/v1/" = true ∧ ∃ d, parseHiddenDescriptor raw = Ok d ∧ vv_originNodeID v = hd_NodeID d.

Lemma inner_endpoint_ok raw now matches e v :
  inner_endpoint raw now matches e = Ok v →
  ∃ r, Decode raw = Ok r ∧ VerifyEndpointRecord r now = Ok tt ∧ matches r = true ∧
    vv_raw v = raw ∧ vv_verified v = true ∧ vv_originNodeID v = er_NodeID r.
Proof. unfold inner_endpoint. intros E. res_inv. bool_prop. units. eexists. by split_and!. Qed.

Lemma inner_descriptor_ok key raw now v :
  HasPrefix key "hidden-desc/v1/" = true → inner_descriptor key raw now = Ok v →
  vv_raw v = raw ∧ vv_verified v = true ∧ carries_record key raw now v.
Proof.
  intros Hp. unfold inner_descriptor. intros E. apply res_bind_ok in E as (epoch & _ & E).
  assert (inner_legacy key raw now epoch = Ok v →
          vv_raw v = raw ∧ vv_verified v = true ∧ carries_record key raw now v) as Hl.
  { unfold inner_legacy. intros L. res_inv. bool_prop. units. split; [done|]. split; [done|].
    left; right; left. eexists. split_and!; [done..|]. right; right. eauto. }
  destruct (parseHiddenDescriptor raw) as [d| |] eqn:Ed; [|by apply Hl..].
  res_inv. split; [done|]. split; [done|]. right. split; [done|]. by eexists.
Qed.

(** Validation by keyspace. *)
Lemma validateInner_ok key raw now v :
  validateInnerLookupValue key raw now = Ok v →
  vv_raw v = raw ∧ vv_verified v = verified_keyspace key ∧
  (vv_verified v = true → carries_record key raw now v).
Proof.
  unfold validateInnerLookupValue, verified_keyspace. intros E.
  destruct (HasPrefix key "node/name/") eqn:P1; [|destruct (HasPrefix key "node/id/") eqn:P2;
    [|destruct (HasPrefix key "service/") eqn:P3; [|destruct (HasPrefix key "private-catalog/") eqn:P4;
    [|destruct (HasPrefix key "hidden/") eqn:P5; [|destruct (HasPrefix key "hidden-desc/v1/") eqn:P6]]]]];
    cbn [orb].
  - apply inner_endpoint_ok in E as (r & ? & ? & ? & ? & ? & ?). bool_prop. split_and!; [done..|].
    intros _. left; left. exists r. split_and!; [done..|by left].
  - apply inner_endpoint_ok in E as (r & ? & ? & Hm & ? & ? & ?). bool_prop. split_and!; [done..|].
    intros _. left; left. exists r. split_and!; [done..|]. right. unfold NodeIDKey. rewrite Hm. by apply HasPrefix_inv.
  - unfold inner_service in E. res_inv. bool_prop. units. split_and!; [done..|]. intros _. left; right; left.
    eexists. split_and!; [done..|]. left. split; [|done].
    match goal with F : FullServiceName _ _ = _ |- _ => rewrite F end. by apply HasPrefix_inv.
  - unfold inner_catalog, DecodePrivateServiceCatalog in E. res_inv. bool_prop. units. split_and!; [done..|].
    intros _. left; right; right. eexists. split_and!; [done..|].
    match goal with F : pc_NodeName _ = _ |- _ => rewrite F end. by apply HasPrefix_inv.
  - unfold inner_hidden in E. res_inv. bool_prop. units. split_and!; [done..|]. intros _. left; right; left.
    eexists. split_and!; [done..|]. right; left. split; [|done].
    match goal with F : sr_Alias _ = _ |- _ => rewrite F end. by apply HasPrefix_inv.
  - apply inner_descriptor_ok in E as (? & ? & ?); [|done]. by split_and!.
  - injection E as <-. by split_and!.
Qed.

(** Whether a value is verified depends on the key alone. *)
Lemma validate_verified key raw now v :
  validateLookupValue key raw now = Ok v → vv_verified v = verified_keyspace key.
Proof.
  unfold validateLookupValue. intros E. apply res_bind_ok in E as ([env|] & _ & E).
  - res_inv. match goal with V : validateInnerLookupValue _ _ _ = Ok _ |- _ =>
      by apply validateInner_ok in V as (_ & ? & _) end.
  - by apply validateInner_ok in E as (_ & ? & _).
Qed.

Lemma validated_carries key raw now v : validateLookupValue key raw now = Ok v → vv_verified v = true →
  carries_record key (vv_raw v) now v.
Proof.
  unfold validateLookupValue. intros E Hv. apply res_bind_ok in E as ([env|] & _ & E).
  - res_inv. match goal with V : validateInnerLookupValue _ _ _ = Ok _ |- _ =>
      apply validateInner_ok in V as (Hraw & _ & Hc) end. cbn. rewrite Hraw. by apply Hc.
  - apply validateInner_ok in E as (Hraw & _ & Hc). rewrite Hraw. auto.
Qed.
End Facts.

(** C6: Outside the keyspace of hidden descriptors, a value that [validateLookupValue]
    accepts as verified carries, in the payload that will be used, a signed record
    of its keyspace (endpoint, service, private catalog) that itself verifies, belongs to
    the key it is stored under and names the value's origin.  Under a
    descriptor key it carries such a record or a sealed descriptor that names the
    origin, which is only well formed: nothing in it is signed.  In every
    keyspace, if the value came in an envelope, that envelope is signed, current, for
    this key, and agrees with the payload on the origin. *)
Theorem validated_value_authentic `{UnicodeTables, NetIP, RFC3339, Ed25519, GoSort}
    `{!StrictJSON EndpointRecord} `{!JSON SignedEnvelope} `{!JSON ServiceRecord}
    `{!JSON HiddenDescriptor} `{!JSON (list ServiceRecord)} `{!JSON PrivateServiceCatalog}
    (key raw : string) (now : Z) (v : validatedValue) :
  validateLookupValue key raw now = Ok v → vv_verified v = true →
  (HasPrefix key "hidden-desc/v1/" = false → signed_record key (vv_raw v) now v) ∧
  carries_record key (vv_raw v) now v ∧
  (vv_enveloped v = false ∧ vv_raw v = raw ∨
   vv_enveloped v = true ∧ ∃ env, json_Unmarshal raw = Some env ∧ envelope_good key env now ∧
     env_Value env = vv_raw v ∧ env_PublisherNodeID env = vv_publisherNodeID v ∧
     env_OriginNodeID env = vv_originNodeID v ∧
     (vv_authoritativePublisher v = true ↔ env_PublisherNodeID env = vv_originNodeID v)).
Proof.
  intros E Hv. pose proof (validated_carries key raw now v E Hv) as Hcar.
  split; [intros Hp; destruct Hcar as [?|[Hd _]]; [done|congruence]|]. split; [exact Hcar|]. clear Hcar. revert E Hv.
  unfold validateLookupValue. intros E Hv. apply res_bind_ok in E as ([env|] & Hd & E).
  - res_inv.
    repeat match goal with u : unit |- _ => destruct u end.
    match goal with V : verifyEnvelope _ _ _ = _ |- _ => apply verifyEnvelope_good in V end.
    match goal with V : validateInnerLookupValue _ _ _ = Ok ?x |- _ =>
      rename x into w; apply validateInner_ok in V as (Hraw & Hk & Hc) end.
    cbn [vv_verified enveloped_value vv_raw vv_originNodeID vv_enveloped vv_publisherNodeID vv_authoritativePublisher] in *.
    match goal with M : (if vv_verified w then _ else _) = Ok _ |- _ => rewrite Hv in M end. res_inv. bool_prop.
    apply maybeDecode_ok in Hd as (Hj & _ & _ & Hp & _).
    right. split; [done|]. exists env. split_and!; [done..|].
    rewrite andb_true_iff, negb_true_iff, String.eqb_eq, String.eqb_neq. split; [by intros []|].
    intros Ep. split; [|done]. congruence.
  - assert (∀ w, validateInnerLookupValue key raw now = Ok w → vv_enveloped w = false) as He.
    { clear. intros w E. unfold validateInnerLookupValue, inner_endpoint, inner_service, inner_catalog,
        inner_hidden, inner_descriptor, inner_legacy in E.
      repeat case_match; try done; res_inv; try done; repeat case_match; try done; by res_inv. }
    pose proof (He _ E). apply validateInner_ok in E as (Hraw & _ & Hc). rewrite Hraw. auto.
Qed.

(** ** The order of values *)
Lemma str_gt_lt a b : str_gt a b = str_lt b a.
Proof. done. Qed.

Lemma isNewer_irrefl v : isNewerValue v v = false.
Proof.
  unfold isNewerValue, After, Before. rewrite !Z.ltb_irrefl, str_gt_lt, str_lt_irrefl.
  by destruct (_ && _).
Qed.

Lemma isNewer_version a b : isNewerValue a b = true → vv_version b <= vv_version a.
Proof.
  unfold isNewerValue. destruct (Z.ltb_spec (vv_version b) (vv_version a)); [lia|].
  destruct (Z.ltb_spec (vv_version a) (vv_version b)); [done|lia].
Qed.

Lemma isNewer_trans a b c :
  vv_sequenceBased a = vv_sequenceBased b → vv_sequenceBased b = vv_sequenceBased c →
  isNewerValue a b = true → isNewerValue b c = true → isNewerValue a c = true.
Proof.
  intros Hab Hbc. unfold isNewerValue, After, Before. rewrite Hab, Hbc, andb_diag, !str_gt_lt. intros H1 H2.
  repeat match goal with
    | |- context [?x <? ?y] => destruct (Z.ltb_spec x y); try done
    | H : context [?x <? ?y] |- _ => destruct (Z.ltb_spec x y); try done
    end; try lia; destruct (vv_sequenceBased c); try done; try lia; by eapply str_lt_trans.
Qed.

Lemma isNewerValue_total_aux a b : vv_sequenceBased a = vv_sequenceBased b →
  vv_fingerprint a ≠ vv_fingerprint b → isNewerValue a b = true ∨ isNewerValue b a = true.
Proof.
  intros Hab. unfold isNewerValue, After, Before. rewrite Hab, andb_diag, !str_gt_lt. intros Hne.
  destruct (str_lt_total (vv_fingerprint a) (vv_fingerprint b)) as [E|[E|E]]; [|done|];
  repeat match goal with |- context [?x <? ?y] => destruct (Z.ltb_spec x y); try lia end;
  destruct (vv_sequenceBased b); auto; lia.
Qed.

(** Among values that all carry sequence numbers, and among values that all
    do not, [isNewerValue] is a strict order in which two values of different
    fingerprints are always comparable, so that every node that has seen the
    same values keeps the same one. *)
Theorem isNewerValue_total_order (a b c : validatedValue) :
  vv_sequenceBased a = vv_sequenceBased b → vv_sequenceBased b = vv_sequenceBased c →
  isNewerValue a a = false ∧
  (isNewerValue a b = true → isNewerValue b c = true → isNewerValue a c = true) ∧
  (vv_fingerprint a ≠ vv_fingerprint b → isNewerValue a b = true ∨ isNewerValue b a = true).
Proof.
  intros Hab Hbc. split; [apply isNewer_irrefl|]. split; [by apply isNewer_trans|].
  by apply isNewerValue_total_aux.
Qed.

Definition demo_value (version issued : Z) (seq : bool) (fingerprint : string) : validatedValue :=
  record_value "raw" "endpoint:x" fingerprint issued (issued + 1) version seq "x".

Lemma isNewerValue_total_order_witness :
  isNewerValue (demo_value 3 0 true "a") (demo_value 1 0 true "c") = true.
Proof.
  apply (proj1 (proj2 (isNewerValue_total_order (demo_value 3 0 true "a") (demo_value 2 0 true "b")
    (demo_value 1 0 true "c") eq_refl eq_refl))); reflexivity.
Defined.

(** Across the two kinds the relation has cycles. *)
Example isNewerValue_mixed_cycle :
  let a := demo_value 5 3 true "a" in let b := demo_value 5 2 false "b" in let c := demo_value 5 1 true "c" in
  isNewerValue a b = true ∧ isNewerValue b c = true ∧ isNewerValue c a = true.
Proof. done. Qed.

(** A stored value is never rolled back: while the stored value still
    validates, an incoming value of the same verified keyspace replaces it only
    if it validates, has the same family (hence the same origin) and is newer;
    in every other case, including a conflict of families, the stored value is
    kept. *)
Theorem stored_value_never_rolls_back `{UnicodeTables, NetIP, RFC3339, Ed25519, GoSort}
    `{!StrictJSON EndpointRecord} `{!JSON SignedEnvelope} `{!JSON ServiceRecord}
    `{!JSON HiddenDescriptor} `{!JSON (list ServiceRecord)} `{!JSON PrivateServiceCatalog}
    (key existing incoming : string) (now : Z) (old : validatedValue) (ch : choice) :
  verified_keyspace key = true → existing ≠ "" →
  validateLookupValue key existing now = Ok old →
  chooseStoredValue key existing incoming now = Ok ch →
  (ch_changed ch = true ∧ ch_chosen ch = incoming ∧ ch_error ch = None ∧
   ∃ new, validateLookupValue key incoming now = Ok new ∧ vv_family new = vv_family old ∧
     isNewerValue new old = true ∧ vv_version old <= vv_version new) ∨
  (ch_changed ch = false ∧ (ch_error ch = None → ch_chosen ch = existing)).
Proof.
  intros Hk He Hold. unfold chooseStoredValue. rewrite (proj2 (String.eqb_neq _ _) He), Hold.
  destruct (validateLookupValue key incoming now) as [new|e|] eqn:Hnew; [|intros [= <-]; by right|done].
  intros [= <-]. unfold choose_between.
  rewrite (validate_verified _ _ _ _ Hnew), (validate_verified _ _ _ _ Hold), Hk. cbn [negb].
  destruct (String.eqb_spec (vv_family old) (vv_family new)) as [Hf|]; cbn [negb]; [|by right].
  destruct (vv_fingerprint new =?s vv_fingerprint old); [by right|].
  destruct (isNewerValue new old) eqn:Hn; [|by right].
  left. split_and!; [done..|]. exists new. split_and!; [done..|by apply isNewer_version].
Qed.

(** ** Hidden descriptors are not authenticated *)
Section Descriptor.
Context `{UnicodeTables, NetIP, RFC3339, Ed25519, GoSort}.
Context `{!StrictJSON EndpointRecord} `{!JSON SignedEnvelope} `{!JSON ServiceRecord}
  `{!JSON HiddenDescriptor} `{!JSON (list ServiceRecord)} `{!JSON PrivateServiceCatalog}.

(** The value of a descriptor stored without an envelope. *)
Lemma bare_descriptor_value key raw now epoch d issued expires :
  HasPrefix key "hidden-desc/v1/" = true → parseHiddenDescriptorEpoch key = Ok epoch →
  maybeDecodeEnvelope raw = Ok None → parseHiddenDescriptor raw = Ok d →
  time_Parse (hd_IssuedAt d) = Some issued → time_Parse (hd_ExpiresAt d) = Some expires →
  validateLookupValue key raw now =
  Ok (record_value raw ("hidden:" +:+ hd_NodeID d +:+ ":" +:+ hd_ServiceTag d)
        (hiddenDescriptorFingerprint d) issued expires (u64 (Unix issued)) false (hd_NodeID d)).
Proof.
  intros Hp He Hm Hd Hi Hx. unfold validateLookupValue. rewrite Hm. cbn [mbind res_bind].
  unfold validateInnerLookupValue.
  assert (HasPrefix key "node/name/" = false ∧ HasPrefix key "node/id/" = false ∧
          HasPrefix key "service/" = false ∧ HasPrefix key "private-catalog/" = false ∧
          HasPrefix key "hidden/" = false) as (-> & -> & -> & -> & ->).
  { rewrite (HasPrefix_inv _ _ Hp). done. }
  rewrite Hp. unfold inner_descriptor, recordTimes. rewrite He, Hd. cbn [mbind res_bind].
  rewrite Hi, Hx. done.
Qed.
End Descriptor.

(** Anyone can replace a stored hidden descriptor: descriptors carry no
    signature, so a descriptor with the NodeID and service tag of the stored one
    (both readable in it) and a later issue time is accepted as verified at any
    time, even past its expiry, and chosen over the genuine descriptor. *)
Theorem descriptor_replaced_unsigned `{UnicodeTables, NetIP, RFC3339, Ed25519, GoSort}
    `{!StrictJSON EndpointRecord} `{!JSON SignedEnvelope} `{!JSON ServiceRecord}
    `{!JSON HiddenDescriptor} `{!JSON (list ServiceRecord)} `{!JSON PrivateServiceCatalog}
    (key existing incoming : string) (now epoch : Z) (d forged : HiddenDescriptor)
    (i1 x1 i2 x2 : Z) :
  HasPrefix key "hidden-desc/v1/" = true → parseHiddenDescriptorEpoch key = Ok epoch → existing ≠ "" →
  maybeDecodeEnvelope existing = Ok None → parseHiddenDescriptor existing = Ok d →
  maybeDecodeEnvelope incoming = Ok None → parseHiddenDescriptor incoming = Ok forged →
  hd_NodeID forged = hd_NodeID d → hd_ServiceTag forged = hd_ServiceTag d →
  time_Parse (hd_IssuedAt d) = Some i1 → time_Parse (hd_ExpiresAt d) = Some x1 →
  time_Parse (hd_IssuedAt forged) = Some i2 → time_Parse (hd_ExpiresAt forged) = Some x2 →
  u64 (Unix i1) < u64 (Unix i2) →
  hiddenDescriptorFingerprint forged ≠ hiddenDescriptorFingerprint d →
  ∃ ch, chooseStoredValue key existing incoming now = Ok ch ∧
    ch_changed ch = true ∧ ch_chosen ch = incoming ∧ vv_verified (ch_incoming ch) = true ∧
    vv_originNodeID (ch_incoming ch) = hd_NodeID d.
Proof.
  intros Hp He Hne Me Pe Mi Pi Hn Ht T1 T2 T3 T4 Hlt Hf. unfold chooseStoredValue.
  rewrite (proj2 (String.eqb_neq _ _) Hne).
  erewrite !bare_descriptor_value by eassumption. eexists. split; [done|].
  unfold choose_between, record_value. cbn [vv_verified vv_family vv_fingerprint negb].
  rewrite Hn, Ht, String.eqb_refl. cbn [negb]. apply String.eqb_neq in Hf. rewrite Hf.
  unfold isNewerValue. cbn [vv_version]. rewrite (proj2 (Z.ltb_lt _ _) Hlt). done.
Qed.

(** The store prefers a legacy record to a sequence-numbered one: the version
    of a legacy endpoint record is its Unix time, far above any sequence number
    a node reaches, so the store counts the legacy record as newer, although
    [EndpointRecordNewer], the order of the records themselves, says the
    opposite. *)
Theorem legacy_outranks_sequence `{RFC3339} (legacy current : EndpointRecord) (issued : Z)
    (raw1 raw2 family : string) (i1 x1 i2 x2 : Z) (origin : string) :
  er_Version legacy < 2 → er_Version current = 2 →
  time_Parse (er_IssuedAt legacy) = Some issued → er_Sequence current < u64 (Unix issued) →
  EndpointRecordNewer current legacy = true ∧
  isNewerValue
    (record_value raw1 family (Fingerprint legacy) i1 x1 (EndpointRecordSequenceVersion legacy) false origin)
    (record_value raw2 family (Fingerprint current) i2 x2 (EndpointRecordSequenceVersion current) true origin)
  = true.
Proof.
  intros H1 H2 Hi Hs. unfold EndpointRecordNewer, EndpointRecordSequenceVersion, isNewerValue, record_value.
  cbn [vv_version]. rewrite Hi, H2, (proj2 (Z.leb_gt 2 (er_Version legacy))) by done. cbn [Z.leb Z.compare Pos.compare Pos.compare_cont].
  rewrite (proj2 (Z.eqb_neq 2 (er_Version legacy))) by lia. cbn [negb].
  rewrite (proj2 (Z.ltb_lt _ _) H1), (proj2 (Z.ltb_lt _ _) Hs). done.
Qed.

(** ** Witnesses *)
#[export] Instance demo_StrictJSON_endpoint : StrictJSON EndpointRecord := {|
  json_lex s := if s =?s "" then [] else [Atom];
  json_DecodeKnown s := r ← json_Unmarshal s; Some (r, "");
|}.
#[export] Instance demo_JSON_catalog : JSON PrivateServiceCatalog.
Proof.
  refine (demo_JSON 7
    (fun c => [pc_NodeID c; pc_NodeName c; pc_PublicKey c; json_Marshal (pc_Services c);
               pc_IssuedAt c; pc_ExpiresAt c; pc_Signature c])
    (fun l => match l with
              | [a; b; c; d; e; f; g] => d ← json_Unmarshal d; Some (mkCatalog a b c d e f g)
              | _ => None
              end)
    (fun c => json_safe (pc_Services c)) _ _); [done|].
  intros [a b c d e f g] Hs. cbn -[json_Unmarshal json_Marshal json_safe] in *.
  rewrite json_Unmarshal_Marshal by done. done.
Defined.

Definition demo_endpoint (sequence : Z) : EndpointRecord :=
  res_get demo_record (newEndpointRecord demo_id "alice" "[2001:db8::1]:4242" Hour demo_now sequence).
Definition demo_endpoint_1 : string := Eval vm_compute in json_Marshal (demo_endpoint 1).
Definition demo_endpoint_2 : string := Eval vm_compute in json_Marshal (demo_endpoint 2).
Definition demo_id_key : string := Eval vm_compute in NodeIDKey (id_NodeID demo_id).
Definition demo_later : Z := demo_now + Minute.
Definition demo_val_1 : validatedValue :=
  Eval vm_compute in res_get zero_value (validateLookupValue demo_id_key demo_endpoint_1 demo_later).

Definition demo_val_2 : validatedValue :=
  Eval vm_compute in res_get zero_value (validateLookupValue demo_id_key demo_endpoint_2 demo_later).
Lemma demo_val_1_ok : validateLookupValue demo_id_key demo_endpoint_1 demo_later = Ok demo_val_1.
Proof. vm_compute. reflexivity. Qed.
Lemma demo_val_2_ok : validateLookupValue demo_id_key demo_endpoint_2 demo_later = Ok demo_val_2.
Proof. vm_compute. reflexivity. Qed.

Lemma validated_value_authentic_witness :
  signed_record demo_id_key (vv_raw demo_val_1) demo_later demo_val_1.
Proof.
  destruct (validated_value_authentic demo_id_key demo_endpoint_1 demo_later demo_val_1 demo_val_1_ok eq_refl) as [Hs _].
  apply Hs. reflexivity.
Defined.

Definition demo_choice : choice := choose_between demo_endpoint_1 demo_endpoint_2 demo_val_1 demo_val_2.

Lemma stored_value_never_rolls_back_witness :
  ch_changed demo_choice = true ∧
  ((ch_changed demo_choice = true ∧ ch_chosen demo_choice = demo_endpoint_2 ∧ ch_error demo_choice = None ∧
    ∃ new, validateLookupValue demo_id_key demo_endpoint_2 demo_later = Ok new ∧
      vv_family new = vv_family demo_val_1 ∧ isNewerValue new demo_val_1 = true ∧
      vv_version demo_val_1 <= vv_version new) ∨
   (ch_changed demo_choice = false ∧ (ch_error demo_choice = None → ch_chosen demo_choice = demo_endpoint_1))).
Proof.
  split; [vm_compute; reflexivity|].
  apply (stored_value_never_rolls_back demo_id_key demo_endpoint_1 demo_endpoint_2 demo_later);
    [done|done|apply demo_val_1_ok|].
  unfold chooseStoredValue. by rewrite demo_val_1_ok, demo_val_2_ok.
Defined.

Definition demo_genuine : HiddenDescriptor :=
  mkDescriptor "vx6_x" "tag" (time_Format (70000000000 * Second)) (time_Format (70000003600 * Second)) "AQI" "AAAA".
Definition demo_forged : HiddenDescriptor :=
  mkDescriptor "vx6_x" "tag" (time_Format (70000000001 * Second)) (time_Format (70000003600 * Second)) "AQI" "BBBB".

Lemma descriptor_replaced_unsigned_witness :
  ∃ ch, chooseStoredValue demo_hidden_key (json_Marshal demo_genuine) (json_Marshal demo_forged)
          (80000000000 * Second) = Ok ch ∧
    ch_changed ch = true ∧ ch_chosen ch = json_Marshal demo_forged ∧ vv_verified (ch_incoming ch) = true ∧
    vv_originNodeID (ch_incoming ch) = "vx6_x".
Proof.
  apply (descriptor_replaced_unsigned demo_hidden_key (json_Marshal demo_genuine) (json_Marshal demo_forged)
    (80000000000 * Second) 7 demo_genuine demo_forged (70000000000 * Second) (70000003600 * Second)
    (70000000001 * Second) (70000003600 * Second)); try (vm_compute; reflexivity); by vm_compute.
Defined.

Definition demo_legacy : EndpointRecord :=
  mkEndpointRecord 1 0 "vx6_a" "ALICE" "[2001:db8::1]:1" "pk" (time_Format (70000000000 * Second)) "t1" "sig".
Definition demo_current : EndpointRecord :=
  mkEndpointRecord 2 5 "vx6_a" "ALICE" "[2001:db8::1]:1" "pk" (time_Format (70000000600 * Second)) "t1" "sig".

Lemma legacy_outranks_sequence_witness :
  EndpointRecordNewer demo_current demo_legacy = true ∧
  isNewerValue
    (record_value "" "" (Fingerprint demo_legacy) 0 0 (EndpointRecordSequenceVersion demo_legacy) false "")
    (record_value "" "" (Fingerprint demo_current) 0 0 (EndpointRecordSequenceVersion demo_current) true "") = true.
Proof.
  apply (legacy_outranks_sequence demo_legacy demo_current (70000000000 * Second) "" "" "" 0 0 0 0 "");
    by vm_compute.
Defined.
