(* ===== verification/Collector.v ===== *)
(** * The lookup collector (internal/dht/value.go)

    A value lookup feeds every answer to a [lookupCollector], which groups the
    validated values by family and decides when a value is confirmed by enough
    independent sources.  Each candidate observation is owned by one map entry,
    so the pointers of the source are plain values here.  The order in which Go
    iterates over a map is an argument of [Resolve]. *)
From S2P Require Import Prelude GoBytes GoStrings GoEncoding GoTime GoSort Sha256 GoEnv Lines GoNumbers Identity Record StrictJson Envelope Hidden Catalog Proto NodeInfo Value.

Definition minTrustedSupportingSources : Z := 2.
Definition minTrustedConfirmationScore : Z := 4.
Definition minTrustedLookupBranches : Z := 2.

Inductive LookupOutcome := LookupNone | LookupFound | LookupNotFound | LookupIncomplete | LookupConflict.

Record LookupResult := mkResult {
  lr_Outcome : LookupOutcome;
  lr_Value : string;
  lr_Verified : bool;
  lr_SourceCount : Z;
  lr_ExactMatchCount : Z;
  lr_QueriedNodes : Z;
  lr_RejectedValues : Z;
  lr_ConflictCount : Z;
  lr_ConflictValues : list string;
  lr_PublisherCount : Z;
  lr_NetworkDiversity : Z;
  lr_ProviderDiversity : Z;
  lr_ASNDiversity : Z;
  lr_BranchDiversity : Z;
  lr_TrustWeight : Z;
  lr_Version : Z;
}.

Record sourceObservation := mkSource {
  so_nodeID : string;
  so_addr : string;
  so_trust : Z;
  so_branch : Z;
}.

Record candidateObservation := mkCandidate {
  co_value : validatedValue;
  co_sources : gmap string sourceObservation;
  co_exactSources : gmap string sourceObservation;
  co_providers : gset string;
  co_exactProviders : gset string;
  co_asns : gset string;
  co_exactASNs : gset string;
  co_networks : gset string;
  co_exactNetworks : gset string;
  co_branches : gset Z;
  co_exactBranches : gset Z;
  co_publishers : gset string;
  co_exactWeight : Z;
}.

Record lookupCollector := mkCollector {
  lc_key : string;
  lc_now : Z;
  lc_verified : gmap string candidateObservation;
  lc_raw : gmap string candidateObservation;
  lc_rejected : Z;
  lc_conflicted : Z;
}.

Definition newLookupCollector (key : string) (now : Z) : lookupCollector :=
  mkCollector key now ∅ ∅ 0 0.
Definition newCandidateObservation (value : validatedValue) : candidateObservation :=
  mkCandidate value ∅ ∅ ∅ ∅ ∅ ∅ ∅ ∅ ∅ ∅ ∅ 0.

(** ** Where a source is *)
Section Sources.
Context `{NetIP} (ResolveASNForAddr : string → option string).

(** The address of a source, with the port and the brackets removed. *)
Definition source_ip (s : sourceObservation) : option bytes :=
  let host := match SplitHostPort (so_addr s) with
              | Some (parsedHost, _) => parsedHost
              | None => so_addr s
              end in
  net_ParseIP (Trim host "[]").

Definition providerKey (s : sourceObservation) : string :=
  match source_ip s with
  | None => ""
  | Some ip =>
      if IsLoopback ip then "loopback:" +:+ ip_String ip
      else match To4 ip with
           | Some v4 => "provider4:" +:+ ip_String (mask_bytes 2 v4)
           | None => "provider6:" +:+ ip_String (mask_bytes 4 ip)
           end
  end.

Definition asnKey (s : sourceObservation) : string :=
  match ResolveASNForAddr (so_addr s) with
  | None => ""
  | Some asn => "asn:" +:+ asn
  end.

Definition networkKey (s : sourceObservation) : string :=
  match source_ip s with
  | None => ""
  | Some ip =>
      if IsLoopback ip then "loopback:" +:+ ip_String ip
      else match To4 ip with
           | Some v4 => "ipv4:" +:+ ip_String (mask_bytes 3 v4)
           | None => "ipv6:" +:+ ip_String (mask_bytes 8 ip)
           end
  end.

Definition weightFor (s : sourceObservation) (value : validatedValue) : Z :=
  so_trust s + (if vv_enveloped value then 1 else 0) + (if vv_authoritativePublisher value then 1 else 0).

(** [if k := key; k != "" { m[k] = struct{}{} }]. *)
Definition add_key (k : string) (m : gset string) : gset string := if k <>?s "" then {[k]} ∪ m else m.
Definition add_branch (b : Z) (m : gset Z) : gset Z := if 0 <=? b then {[b]} ∪ m else m.

Definition addSource (source : sourceObservation) (c : candidateObservation) : candidateObservation :=
  {| co_value := co_value c;
     co_sources := match co_sources c !! so_nodeID source with
                   | Some _ => co_sources c
                   | None => <[so_nodeID source := source]> (co_sources c)
                   end;
     co_exactSources := co_exactSources c;
     co_providers := add_key (providerKey source) (co_providers c);
     co_exactProviders := co_exactProviders c;
     co_asns := add_key (asnKey source) (co_asns c);
     co_exactASNs := co_exactASNs c;
     co_networks := add_key (networkKey source) (co_networks c);
     co_exactNetworks := co_exactNetworks c;
     co_branches := add_branch (so_branch source) (co_branches c);
     co_exactBranches := co_exactBranches c;
     co_publishers := co_publishers c;
     co_exactWeight := co_exactWeight c |}.

Definition addExactSource (source : sourceObservation) (value : validatedValue) (c : candidateObservation)
  : candidateObservation :=
  let '(exactSources, exactWeight) :=
    match co_exactSources c !! so_nodeID source with
    | Some _ => (co_exactSources c, co_exactWeight c)
    | None => (<[so_nodeID source := source]> (co_exactSources c), co_exactWeight c + weightFor source value)
    end in
  {| co_value := co_value c;
     co_sources := co_sources c;
     co_exactSources := exactSources;
     co_providers := co_providers c;
     co_exactProviders := add_key (providerKey source) (co_exactProviders c);
     co_asns := co_asns c;
     co_exactASNs := add_key (asnKey source) (co_exactASNs c);
     co_networks := co_networks c;
     co_exactNetworks := add_key (networkKey source) (co_exactNetworks c);
     co_branches := co_branches c;
     co_exactBranches := add_branch (so_branch source) (co_exactBranches c);
     co_publishers := add_key (vv_publisherNodeID value) (co_publishers c);
     co_exactWeight := exactWeight |}.

(** The reset when a newer value of the family arrives. *)
Definition adopt_newer (value : validatedValue) (c : candidateObservation) : candidateObservation :=
  {| co_value := value;
     co_sources := co_sources c;
     co_exactSources := ∅;
     co_providers := co_providers c;
     co_exactProviders := co_exactProviders c;
     co_asns := co_asns c;
     co_exactASNs := co_exactASNs c;
     co_networks := co_networks c;
     co_exactNetworks := ∅;
     co_branches := co_branches c;
     co_exactBranches := co_exactBranches c;
     co_publishers := ∅;
     co_exactWeight := 0 |}.

(** The updates of one candidate by a verified and by an unverified value. *)
Definition observe_verified (source : sourceObservation) (value : validatedValue)
    (obs : candidateObservation) : candidateObservation :=
  let obs := addSource source obs in
  let obs := if isNewerValue value (co_value obs) then adopt_newer value obs else obs in
  if vv_fingerprint value =?s vv_fingerprint (co_value obs) then addExactSource source value obs else obs.
Definition observe_raw (source : sourceObservation) (value : validatedValue)
    (obs : candidateObservation) : candidateObservation :=
  addExactSource source value (addSource source obs).

(** The defaults [Observe] gives to a source. *)
Definition normalize_source (source : sourceObservation) : sourceObservation :=
  {| so_nodeID := if so_nodeID source =?s "" then "unknown" else so_nodeID source;
     so_addr := so_addr source;
     so_trust := if so_trust source <=? 0 then 1 else so_trust source;
     so_branch := so_branch source |}.

(** [Observe] of a validated value. *)
Definition observe_value (c : lookupCollector) (source : sourceObservation) (value : validatedValue)
  : lookupCollector :=
  if vv_verified value then
    let obs := default (newCandidateObservation value) (lc_verified c !! vv_family value) in
    {| lc_key := lc_key c; lc_now := lc_now c;
       lc_verified := <[vv_family value := observe_verified source value obs]> (lc_verified c);
       lc_raw := lc_raw c; lc_rejected := lc_rejected c; lc_conflicted := lc_conflicted c |}
  else
    let obs := default (newCandidateObservation value) (lc_raw c !! vv_fingerprint value) in
    {| lc_key := lc_key c; lc_now := lc_now c; lc_verified := lc_verified c;
       lc_raw := <[vv_fingerprint value := observe_raw source value obs]> (lc_raw c);
       lc_rejected := lc_rejected c; lc_conflicted := lc_conflicted c |}.
Definition reject_value (c : lookupCollector) : lookupCollector :=
  mkCollector (lc_key c) (lc_now c) (lc_verified c) (lc_raw c) (lc_rejected c + 1) (lc_conflicted c).

(** ** Confirmation *)
Definition msize {A} (m : gmap string A) : Z := Z.of_nat (size m).
Definition ssize {A} `{Countable A} (s : gset A) : Z := Z.of_nat (size s).

Definition onlyLoopbackNetworks (c : candidateObservation) : bool :=
  if ssize (co_exactNetworks c) =? 0 then false
  else bool_decide (set_Forall (fun n => HasPrefix n "loopback:" = true) (co_exactNetworks c)).

Definition confirmed (c : candidateObservation) : bool :=
  if negb (vv_verified (co_value c)) then true
  else if msize (co_exactSources c) <? minTrustedSupportingSources then false
  else if co_exactWeight c <? minTrustedConfirmationScore then false
  else if negb (onlyLoopbackNetworks c) && (ssize (co_exactBranches c) <? minTrustedLookupBranches) then false
  else true.

Definition lookupResult (c : candidateObservation) (queried rejected : Z) : LookupResult :=
  {| lr_Outcome := LookupNone;
     lr_Value := vv_raw (co_value c); lr_Verified := vv_verified (co_value c);
     lr_SourceCount := msize (co_sources c); lr_ExactMatchCount := msize (co_exactSources c);
     lr_QueriedNodes := queried; lr_RejectedValues := rejected;
     lr_ConflictCount := 0; lr_ConflictValues := [];
     lr_PublisherCount := ssize (co_publishers c); lr_NetworkDiversity := ssize (co_exactNetworks c);
     lr_ProviderDiversity := ssize (co_exactProviders c); lr_ASNDiversity := ssize (co_exactASNs c);
     lr_BranchDiversity := ssize (co_exactBranches c); lr_TrustWeight := co_exactWeight c;
     lr_Version := vv_version (co_value c) |}.

Definition with_outcome (r : LookupResult) (o : LookupOutcome) : LookupResult :=
  {| lr_Outcome := o; lr_Value := lr_Value r; lr_Verified := lr_Verified r;
     lr_SourceCount := lr_SourceCount r; lr_ExactMatchCount := lr_ExactMatchCount r;
     lr_QueriedNodes := lr_QueriedNodes r; lr_RejectedValues := lr_RejectedValues r;
     lr_ConflictCount := lr_ConflictCount r; lr_ConflictValues := lr_ConflictValues r;
     lr_PublisherCount := lr_PublisherCount r; lr_NetworkDiversity := lr_NetworkDiversity r;
     lr_ProviderDiversity := lr_ProviderDiversity r; lr_ASNDiversity := lr_ASNDiversity r;
     lr_BranchDiversity := lr_BranchDiversity r; lr_TrustWeight := lr_TrustWeight r;
     lr_Version := lr_Version r |}.

Definition IsConfirmed (c : lookupCollector) : bool :=
  match map_to_list (lc_verified c) with
  | [(_, candidate)] => confirmed candidate
  | _ => false
  end.

Definition sign_of (less greater : bool) (rest : Z) : Z := if greater then 1 else if less then -1 else rest.
Definition compareObservationStrength (left right : candidateObservation) : Z :=
  let by_size (l r : Z) (rest : Z) := sign_of (l <? r) (r <? l) rest in
  by_size (msize (co_exactSources left)) (msize (co_exactSources right))
    (by_size (co_exactWeight left) (co_exactWeight right)
      (by_size (ssize (co_exactProviders left)) (ssize (co_exactProviders right))
        (by_size (ssize (co_exactNetworks left)) (ssize (co_exactNetworks right))
          (sign_of (str_gt (vv_fingerprint (co_value left)) (vv_fingerprint (co_value right)))
             (str_lt (vv_fingerprint (co_value left)) (vv_fingerprint (co_value right))) 0)))).

(** The results with an error; [ErrConflictingValues] is in [Value]. *)
Definition ErrInsufficientConfirmation : string := "dht lookup returned insufficient confirmation".
Definition ErrLookupNotFound : string := "no matching value in reachable peers".

Definition outcome_only (o : LookupOutcome) (verified : bool) (queried rejected conflicts : Z)
    (values : list string) : LookupResult :=
  mkResult o "" verified 0 0 queried rejected conflicts values 0 0 0 0 0 0 0.

(** The loop that selects the strongest unverified candidate. *)
Fixpoint select_raw (candidates : list candidateObservation) (best : option candidateObservation)
    (conflicts : Z) : option candidateObservation * Z :=
  match candidates with
  | [] => (best, conflicts)
  | candidate :: rest =>
      match best with
      | None => select_raw rest (Some candidate) 1
      | Some b =>
          let s := compareObservationStrength candidate b in
          if s =? 1 then select_raw rest (Some candidate) 1
          else if s =? 0 then select_raw rest best (conflicts + 1)
          else select_raw rest best conflicts
      end
  end.

Context `{GoSort}.
(** The order of a [range] over a map of candidates. *)
Context (iterate : gmap string candidateObservation → list candidateObservation).

Definition conflict_values (candidates : list candidateObservation) : list string :=
  sort_Slice str_lt
    (filter (fun v => TrimSpace v ≠ "") (map (fun c => vv_raw (co_value c)) candidates)).

Definition Resolve (c : lookupCollector) (queried : Z) : LookupResult * option string :=
  match iterate (lc_verified c) with
  | [candidate] =>
      let result := lookupResult candidate queried (lc_rejected c) in
      if negb (confirmed candidate)
      then (with_outcome result LookupIncomplete, Some ErrInsufficientConfirmation)
      else (with_outcome result LookupFound, None)
  | (_ :: _ :: _) as candidates =>
      (outcome_only LookupConflict true queried (lc_rejected c) (len candidates) (conflict_values candidates),
       Some ErrConflictingValues)
  | [] =>
      let candidates := iterate (lc_raw c) in
      match select_raw candidates None 0 with
      | (None, _) =>
          (outcome_only LookupNotFound false queried (lc_rejected c) 0 [], Some ErrLookupNotFound)
      | (Some best, conflicts) =>
          if 1 <? conflicts
          then (outcome_only LookupConflict false queried (lc_rejected c) conflicts (conflict_values candidates),
                Some ErrConflictingValues)
          else (with_outcome (lookupResult best queried (lc_rejected c)) LookupFound, None)
      end
  end.
End Sources.

Section Observe.
Context `{UnicodeTables, NetIP, RFC3339, Ed25519, GoSort}.
Context `{!StrictJSON EndpointRecord} `{!JSON SignedEnvelope} `{!JSON ServiceRecord}
  `{!JSON HiddenDescriptor} `{!JSON (list ServiceRecord)} `{!JSON PrivateServiceCatalog}.
Context (ResolveASNForAddr : string → option string).

Definition Observe (c : lookupCollector) (source : sourceObservation) (raw : string) : res lookupCollector :=
  if TrimSpace raw =?s "" then Ok c
  else
    let source := normalize_source source in
    match validateLookupValue (lc_key c) raw (lc_now c) with
    | Err _ => Ok (reject_value c)
    | Panic => Panic
    | Ok value => Ok (observe_value ResolveASNForAddr c source value)
    end.

(** A lookup's observations in the order they arrive. *)
Fixpoint observe_all (c : lookupCollector) (answers : list (sourceObservation * string)) : res lookupCollector :=
  match answers with
  | [] => Ok c
  | (source, raw) :: rest => c ← Observe c source raw; observe_all c rest
  end.
End Observe.
