(* ===== verification/CollectorProps.v ===== *)
(** * What a lookup result guarantees

    Invariants of the collector over any sequence of answers: who supports the
    value of a candidate, with which weight, and that it is the newest of its
    family. *)
From S2P Require Import Prelude GoBytes GoStrings GoEncoding GoTime GoSort Sha256 GoEnv Lines GoNumbers Identity Record RecordProps DemoJson StrictJson Envelope Hidden HiddenProps Catalog Proto NodeInfo Value ValueProps Collector.

(** An accepted answer: its source and the validated value. *)
Abbreviation accepted_answer := (sourceObservation * validatedValue)%type.

Definition total_weight (l : list accepted_answer) : Z :=
  foldr (fun '(s, v) w => weightFor s v + w) 0 l.

(** [l] are the answers that support [v], one per source node. *)
Definition supporters (seen : list accepted_answer) (v : validatedValue) (l : list accepted_answer) : Prop :=
  NoDup (map (fun a => so_nodeID a.1) l) ∧
  Forall (fun a => a ∈ seen ∧ vv_family a.2 = vv_family v ∧ vv_fingerprint a.2 = vv_fingerprint v) l.

(** All values of the family number their versions in the same way. *)
Definition same_kind (seen : list accepted_answer) (family : string) : Prop :=
  ∀ a b, a ∈ seen → b ∈ seen → vv_family a.2 = family → vv_family b.2 = family →
    vv_sequenceBased a.2 = vv_sequenceBased b.2.

Record candidate_ok (seen : list accepted_answer) (family : string) (c : candidateObservation) : Prop := {
  ck_value : ∃ s, (s, co_value c) ∈ seen;
  ck_verified : vv_verified (co_value c) = true;
  ck_family : vv_family (co_value c) = family;
  ck_support : ∃ l, supporters seen (co_value c) l ∧
    dom (co_exactSources c) = list_to_set (map (fun a => so_nodeID a.1) l) ∧
    co_exactWeight c = total_weight l;
  ck_newest : same_kind seen family →
    ∀ a, a ∈ seen → vv_family a.2 = family → isNewerValue a.2 (co_value c) = false;
}.

Record collected (c : lookupCollector) (seen : list accepted_answer) : Prop := {
  cd_candidates family cand : lc_verified c !! family = Some cand → candidate_ok seen family cand;
  cd_complete a : a ∈ seen → vv_verified a.2 = true → is_Some (lc_verified c !! vv_family a.2);
  cd_raw fp cand : lc_raw c !! fp = Some cand →
    vv_fingerprint (co_value cand) = fp ∧ vv_verified (co_value cand) = false;
}.

Lemma collected_new key now : collected (newLookupCollector key now) [].
Proof. split; cbn; [intros; by simplify_map_eq|set_solver|intros; by simplify_map_eq]. Qed.

Lemma supporters_grow seen a v l : supporters seen v l → supporters (seen ++ [a]) v l.
Proof.
  intros [Hnd Hall]. split; [done|]. eapply Forall_impl; [exact Hall|]. set_solver.
Qed.

Section Steps.
Context `{NetIP} (resolve : string → option string).

Lemma addExact_value s v c : co_value (addExactSource resolve s v c) = co_value c.
Proof. unfold addExactSource. by case_match. Qed.

(** A supporter of the candidate's value joins its sources. *)
Lemma addExact_support seen s v c l :
  supporters seen (co_value c) l →
  dom (co_exactSources c) = list_to_set (map (fun a => so_nodeID a.1) l) →
  co_exactWeight c = total_weight l →
  (s, v) ∈ seen → vv_family v = vv_family (co_value c) → vv_fingerprint v = vv_fingerprint (co_value c) →
  let c' := addExactSource resolve s v c in
  ∃ l', supporters seen (co_value c) l' ∧
    dom (co_exactSources c') = list_to_set (map (fun a => so_nodeID a.1) l') ∧
    co_exactWeight c' = total_weight l'.
Proof.
  intros [Hnd Hall] Hdom Hw Hin Hf Hfp. unfold addExactSource.
  destruct (co_exactSources c !! so_nodeID s) as [s0|] eqn:E; cbn [co_exactSources co_exactWeight].
  - exists l. by split_and!.
  - exists ((s, v) :: l). split_and!.
    + split; [|by constructor]. cbn. constructor; [|done].
      rewrite <- (elem_of_list_to_set (C := gset string)), <- Hdom. by apply not_elem_of_dom.
    + rewrite dom_insert_L, Hdom. cbn. done.
    + change (total_weight ((s, v) :: l)) with (weightFor s v + total_weight l). lia.
Qed.

(** One observation of a verified value. *)
Lemma observe_verified_ok seen s v c :
  vv_verified v = true →
  (candidate_ok seen (vv_family v) c ∨ c = newCandidateObservation v ∧ ∀ a, a ∈ seen → vv_verified a.2 = true → vv_family a.2 ≠ vv_family v) →
  (∀ a, a ∈ seen → vv_family a.2 = vv_family v → vv_verified a.2 = true) →
  candidate_ok (seen ++ [(s, v)]) (vv_family v) (observe_verified resolve s v c).
Proof.
  intros Hv Hc Hver. unfold observe_verified.
  set (c1 := addSource resolve s c).
  set (c2 := if isNewerValue v (co_value c1) then adopt_newer v c1 else c1).
  assert (candidate_ok (seen ++ [(s, v)]) (vv_family v) c2) as H2.
  { subst c2. destruct (isNewerValue v (co_value c1)) eqn:Hn.
    - split; cbn [adopt_newer co_value co_exactSources co_exactWeight]; [set_solver|done|done| |].
      + exists []. split_and!; [split; constructor|set_solver|done].
      + intros Hk a [Ha| ->%list_elem_of_singleton]%elem_of_app Hf; [|apply isNewer_irrefl].
        destruct Hc as [Hc|[-> Hnone]]; [|by destruct (Hnone a Ha (Hver a Ha Hf))].
        destruct (isNewerValue a.2 v) eqn:E; [|done].
        assert (isNewerValue a.2 (co_value c) = false) as F.
        { apply (ck_newest _ _ _ Hc); [|done|done]. intros x y Hx Hy. apply Hk; set_solver. }
        destruct (ck_value _ _ _ Hc) as [s' Hs'].
        rewrite (isNewer_trans a.2 v (co_value c)) in F; [done| | |done|done].
        * apply (Hk a (s, v)); set_solver.
        * apply (Hk (s, v) (s', co_value c)); [set_solver|set_solver|done|apply (ck_family _ _ _ Hc)].
    - destruct Hc as [Hc|[-> Hnone]].
      + split; cbn [addSource co_value co_exactSources co_exactWeight].
        * destruct (ck_value _ _ _ Hc) as [s' ?]. exists s'. set_solver.
        * apply (ck_verified _ _ _ Hc).
        * apply (ck_family _ _ _ Hc).
        * destruct (ck_support _ _ _ Hc) as (l & Hl & Hd & Hw). exists l. by split_and!; [apply supporters_grow|..].
        * intros Hk a [Ha| ->%list_elem_of_singleton]%elem_of_app Hf; [|done].
          apply (ck_newest _ _ _ Hc); [|done|done]. intros x y Hx Hy. apply Hk; set_solver.
      + split; cbn [addSource co_value co_exactSources co_exactWeight newCandidateObservation]; [set_solver|done|done| |].
        * exists []. split_and!; [split; constructor|set_solver|done].
        * intros Hk a [Ha| ->%list_elem_of_singleton]%elem_of_app Hf; [|apply isNewer_irrefl].
          by destruct (Hnone a Ha (Hver a Ha Hf)). }
  destruct (String.eqb_spec (vv_fingerprint v) (vv_fingerprint (co_value c2))) as [Hfp|]; [|done].
  destruct (ck_support _ _ _ H2) as (l & Hl & Hd & Hw).
  split; rewrite ?addExact_value; try apply H2.
  apply addExact_support with l; try done; [set_solver|]. symmetry. apply (ck_family _ _ _ H2).
Qed.

Lemma observe_value_ok c seen s v :
  (∀ a b, a ∈ seen ++ [(s, v)] → b ∈ seen ++ [(s, v)] → vv_verified a.2 = vv_verified b.2) →
  collected c seen → collected (observe_value resolve c s v) (seen ++ [(s, v)]).
Proof.
  intros Hsame Hc. unfold observe_value. destruct (vv_verified v) eqn:Hv.
  - assert (∀ a, a ∈ seen → vv_verified a.2 = true) as Hver.
    { intros a Ha. rewrite (Hsame a (s, v)); set_solver. }
    split; cbn [lc_verified lc_raw].
    + intros family cand. destruct (decide (vv_family v = family)) as [<-|Hne].
      * rewrite lookup_insert_eq. intros [= <-]. apply observe_verified_ok; [done| |auto].
        destruct (lc_verified c !! vv_family v) as [c0|] eqn:E; cbn [default].
        -- left. by apply (cd_candidates _ _ Hc).
        -- right. split; [done|]. intros a Ha Hav Hf. destruct (cd_complete _ _ Hc a Ha Hav). rewrite Hf in *. congruence.
      * rewrite lookup_insert_ne by done. intros Hl. apply (cd_candidates _ _ Hc) in Hl as [V1 V2 V3 V4 V5].
        split; [|done|done| |].
        -- destruct V1 as [s' ?]. exists s'. set_solver.
        -- destruct V4 as (l & ? & ? & ?). exists l. by split_and!; [apply supporters_grow|..].
        -- intros Hk a [Ha| ->%list_elem_of_singleton]%elem_of_app Hf; [|by rewrite <- Hf in Hne].
           apply V5; [|done|done]. intros x y Hx Hy. apply Hk; set_solver.
    + intros a [Ha| ->%list_elem_of_singleton]%elem_of_app Hav.
      * destruct (decide (vv_family v = vv_family a.2)) as [->|]; [rewrite lookup_insert_eq; eauto|].
        rewrite lookup_insert_ne by done. by apply (cd_complete _ _ Hc).
      * cbn. rewrite lookup_insert_eq. eauto.
    + apply (cd_raw _ _ Hc).
  - assert (∀ a, a ∈ seen → vv_verified a.2 = false) as Hver.
    { intros a Ha. rewrite (Hsame a (s, v)); set_solver. }
    split; cbn [lc_verified lc_raw].
    + intros family cand Hl. apply (cd_candidates _ _ Hc) in Hl as [[s' Hs'] V2 _ _ _].
      apply Hver in Hs'. cbn in Hs'. congruence.
    + intros a [Ha| ->%list_elem_of_singleton]%elem_of_app Hav; [rewrite Hver in Hav by done; done|].
      cbn in Hav. congruence.
    + intros fp cand. destruct (decide (vv_fingerprint v = fp)) as [<-|].
      * rewrite lookup_insert_eq. intros [= <-]. unfold observe_raw. rewrite addExact_value. cbn [addSource co_value].
        destruct (lc_raw c !! vv_fingerprint v) as [c0|] eqn:E; cbn [default]; [|done].
        by apply (cd_raw _ _ Hc).
      * rewrite lookup_insert_ne by done. apply (cd_raw _ _ Hc).
Qed.
End Steps.

(** ** A whole lookup *)
Section Lookup.
Context `{UnicodeTables, NetIP, RFC3339, Ed25519, GoSort}.
Context `{!StrictJSON EndpointRecord} `{!JSON SignedEnvelope} `{!JSON ServiceRecord}
  `{!JSON HiddenDescriptor} `{!JSON (list ServiceRecord)} `{!JSON PrivateServiceCatalog}.
Context (resolve : string → option string).

(** The answers that validate, with their sources as [Observe] completes them. *)
Definition accepted_answers (key : string) (now : Z) (answers : list (sourceObservation * string))
  : list accepted_answer :=
  omap (fun '(s, raw) =>
    if TrimSpace raw =?s "" then None
    else match validateLookupValue key raw now with
         | Ok v => Some (normalize_source s, v)
         | _ => None
         end) answers.

Lemma accepted_verified key now answers a :
  a ∈ accepted_answers key now answers → vv_verified a.2 = verified_keyspace key.
Proof.
  unfold accepted_answers. rewrite list_elem_of_omap. intros ([s raw] & _ & E).
  destruct (TrimSpace raw =?s ""); [done|].
  destruct (validateLookupValue key raw now) as [v| |] eqn:Ev; try done.
  injection E as <-. by apply validate_verified in Ev.
Qed.

Lemma collected_reject c seen : collected c seen → collected (reject_value c) seen.
Proof. by intros []. Qed.

Lemma observe_all_collected key now answers : ∀ c c' seen,
  lc_key c = key → lc_now c = now →
  (∀ a, a ∈ seen → vv_verified a.2 = verified_keyspace key) → collected c seen →
  observe_all resolve c answers = Ok c' → collected c' (seen ++ accepted_answers key now answers).
Proof.
  induction answers as [|[s raw] answers IH]; intros c c' seen Hk Hn Hseen Hc E.
  - injection E as <-. unfold accepted_answers. cbn. by rewrite app_nil_r.
  - cbn [observe_all] in E. apply res_bind_ok in E as (c1 & E1 & E). unfold Observe in E1.
    unfold accepted_answers. cbn [omap list_omap]. fold (accepted_answers key now answers).
    destruct (TrimSpace raw =?s "").
    { injection E1 as <-. by eapply (IH c). }
    rewrite Hk, Hn in E1. destruct (validateLookupValue key raw now) as [v|e|] eqn:Ev; [|..|done].
    + injection E1 as <-.
      change (seen ++ (normalize_source s, v) :: accepted_answers key now answers)
        with (seen ++ [(normalize_source s, v)] ++ accepted_answers key now answers).
      rewrite app_assoc. assert (∀ a, a ∈ seen ++ [(normalize_source s, v)] → vv_verified a.2 = verified_keyspace key) as Hs'.
      { intros a [Ha| ->%list_elem_of_singleton]%elem_of_app; [by apply Hseen|]. by apply validate_verified in Ev. }
      eapply IH; [..|exact E]; [| |done|].
      * unfold observe_value. by case_match.
      * unfold observe_value. by case_match.
      * apply observe_value_ok; [|done]. intros a b Ha Hb. by rewrite (Hs' a), (Hs' b).
    + injection E1 as <-. eapply (IH (reject_value c)); [done|done|done| |exact E]. by apply collected_reject.
Qed.

Lemma lookup_collected key now answers c :
  observe_all resolve (newLookupCollector key now) answers = Ok c →
  collected c (accepted_answers key now answers).
Proof.
  intros E. apply (observe_all_collected key now answers _ _ []) in E; [done|done|done|set_solver|].
  apply collected_new.
Qed.
End Lookup.

(** A [range] over a map visits every value once, in some order. *)
Definition map_iteration (iterate : gmap string candidateObservation → list candidateObservation) : Prop :=
  ∀ m, iterate m ≡ₚ (map_to_list m).*2.

Lemma iteration_singleton iterate m c :
  map_iteration iterate → iterate m = [c] → ∃ k, m = {[k := c]}.
Proof.
  intros Hi E. pose proof (Hi m) as P. rewrite E in P. apply Permutation_singleton_l in P.
  destruct (map_to_list m) as [|[k c'] l] eqn:El; [done|]. destruct l; [|done].
  injection P as ->. exists k. apply map_to_list_inj. by rewrite El, map_to_list_singleton.
Qed.
Lemma iteration_nil iterate m : map_iteration iterate → iterate m = [] → m = ∅.
Proof.
  intros Hi E. pose proof (Hi m) as P. rewrite E in P. apply Permutation_nil_l in P.
  destruct (map_to_list m) eqn:El; [|done]. by apply map_to_list_empty_iff.
Qed.
Lemma iteration_perm iter1 iter2 m : map_iteration iter1 → map_iteration iter2 → iter1 m ≡ₚ iter2 m.
Proof. intros H1 H2. etrans; [apply H1|]. symmetry. apply H2. Qed.
Lemma iteration_elem iterate m c :
  map_iteration iterate → c ∈ iterate m → ∃ k, m !! k = Some c.
Proof.
  intros Hi Hc. rewrite (Hi m) in Hc. apply list_elem_of_fmap in Hc as ([k c'] & -> & Hin).
  exists k. by apply elem_of_map_to_list.
Qed.

Lemma size_supporters (m : gmap string sourceObservation) (l : list accepted_answer) :
  NoDup (map (fun a => so_nodeID a.1) l) → dom m = list_to_set (map (fun a => so_nodeID a.1) l) →
  msize m = len l.
Proof.
  intros Hnd Hd. unfold msize, len. f_equal. rewrite <- (size_dom (D := gset string)), Hd.
  rewrite size_list_to_set by done. by rewrite length_map.
Qed.

(** C13: A lookup that reports a verified value as found has heard it, from at
    least two different nodes whose trust adds up to at least four, in answers
    that validate to exactly this value; no answer of another family validated;
    and among answers that number their versions alike, none was newer. *)
Theorem lookup_found_confirmed `{UnicodeTables, NetIP, RFC3339, Ed25519, GoSort}
    `{!StrictJSON EndpointRecord} `{!JSON SignedEnvelope} `{!JSON ServiceRecord}
    `{!JSON HiddenDescriptor} `{!JSON (list ServiceRecord)} `{!JSON PrivateServiceCatalog}
    (resolve : string → option string) (iterate : gmap string candidateObservation → list candidateObservation)
    (key : string) (now queried : Z) (answers : list (sourceObservation * string))
    (c : lookupCollector) (r : LookupResult) :
  map_iteration iterate →
  observe_all resolve (newLookupCollector key now) answers = Ok c →
  Resolve iterate c queried = (r, None) → lr_Verified r = true →
  let seen := accepted_answers key now answers in
  ∃ v l, lr_Outcome r = LookupFound ∧ lr_Value r = vv_raw v ∧ (∃ s, (s, v) ∈ seen) ∧
    supporters seen v l ∧ 2 <= len l ∧ 4 <= total_weight l ∧
    (∀ a, a ∈ seen → vv_verified a.2 = true → vv_family a.2 = vv_family v) ∧
    (same_kind seen (vv_family v) →
     ∀ a, a ∈ seen → vv_family a.2 = vv_family v → isNewerValue a.2 v = false).
Proof.
  intros Hi Hc Hr Hv seen. apply lookup_collected in Hc. fold seen in Hc.
  unfold Resolve in Hr. destruct (iterate (lc_verified c)) as [|cand [|]] eqn:Ev; [| |done].
  - destruct (select_raw (iterate (lc_raw c)) None 0) as [[best|] n] eqn:Es; [|done].
    destruct (1 <? n); [done|]. injection Hr as <-. cbn in Hv.
    assert (∀ l b n b' n', select_raw l b n = (Some b', n') → b' ∈ l ∨ b = Some b') as Hsel.
    { clear. induction l as [|x l IH]; intros b n b' n' E; cbn in E; [right; congruence|].
      destruct b as [b|]; repeat case_match; apply IH in E as [?|[= ->]]; set_solver. }
    apply Hsel in Es as [Hb|]; [|done]. apply iteration_elem in Hb as [fp Hb]; [|done].
    apply (cd_raw _ _ Hc) in Hb as [_ ?]. congruence.
  - destruct (confirmed cand) eqn:Hcf; [|done]. injection Hr as <-. cbn in Hv.
    apply iteration_singleton in Ev as [family Em]; [|done].
    assert (candidate_ok seen family cand) as Hok by (apply (cd_candidates _ _ Hc); rewrite Em; by simplify_map_eq).
    destruct (ck_support _ _ _ Hok) as (l & Hl & Hd & Hw).
    exists (co_value cand), l. split_and!; [done|done|apply Hok|done|..].
    + rewrite <- (size_supporters (co_exactSources cand)) by (apply Hl || done).
      unfold confirmed, minTrustedSupportingSources in Hcf. rewrite Hv in Hcf. cbn [negb] in Hcf.
      destruct (Z.ltb_spec (msize (co_exactSources cand)) 2); [done|lia].
    + rewrite <- Hw. unfold confirmed, minTrustedConfirmationScore in Hcf. rewrite Hv in Hcf. cbn [negb] in Hcf.
      case_match; [done|]. destruct (Z.ltb_spec (co_exactWeight cand) 4); [done|lia].
    + intros a Ha Hav. destruct (cd_complete _ _ Hc a Ha Hav) as [c0 Hc0]. rewrite Em in Hc0.
      apply lookup_singleton_Some in Hc0 as [<- _]. symmetry. apply (ck_family _ _ _ Hok).
    + rewrite (ck_family _ _ _ Hok). apply (ck_newest _ _ _ Hok).
Qed.

(** ** The strength order is total on different values *)
Lemma compare_range x y : compareObservationStrength x y ∈ [1; 0; -1].
Proof. unfold compareObservationStrength, sign_of. repeat case_match; set_solver. Qed.

Lemma compare_antisym x y : compareObservationStrength x y = 1 → compareObservationStrength y x = -1.
Proof.
  unfold compareObservationStrength, sign_of.
  repeat match goal with |- context [?a <? ?b] => destruct (Z.ltb_spec a b); try done; try lia end.
  rewrite !str_gt_lt. destruct (str_lt (vv_fingerprint (co_value x)) (vv_fingerprint (co_value y))) eqn:E.
  - by rewrite (str_lt_antisym _ _ E).
  - by destruct (str_lt (vv_fingerprint (co_value y)) (vv_fingerprint (co_value x))).
Qed.

Lemma compare_total x y :
  vv_fingerprint (co_value x) ≠ vv_fingerprint (co_value y) →
  compareObservationStrength x y = 1 ∨ compareObservationStrength y x = 1.
Proof.
  intros Hne. unfold compareObservationStrength, sign_of.
  repeat match goal with |- context [?a <? ?b] => destruct (Z.ltb_spec a b); auto; try lia end.
  rewrite !str_gt_lt. destruct (str_lt_total (vv_fingerprint (co_value x)) (vv_fingerprint (co_value y)))
    as [E|[E|E]]; [|done|]; rewrite E; auto.
Qed.

Lemma compare_trans x y z :
  compareObservationStrength x y = 1 → compareObservationStrength y z = 1 → compareObservationStrength x z = 1.
Proof.
  unfold compareObservationStrength, sign_of. rewrite !str_gt_lt. intros H1 H2.
  repeat match goal with
    | |- context [?a <? ?b] => destruct (Z.ltb_spec a b); try done
    | H : context [?a <? ?b] |- _ => destruct (Z.ltb_spec a b); try done
    end; try lia.
  destruct (str_lt (vv_fingerprint (co_value x)) (vv_fingerprint (co_value y))) eqn:E1;
    [|by repeat case_match].
  destruct (str_lt (vv_fingerprint (co_value y)) (vv_fingerprint (co_value z))) eqn:E2;
    [|by repeat case_match].
  by rewrite (str_lt_trans _ _ _ E1 E2).
Qed.

Abbreviation fingerprint_of := (fun c => vv_fingerprint (co_value c)).

(** The loop finds the strongest candidate and counts no tie. *)
Lemma select_raw_best l : ∀ b, NoDup (map fingerprint_of (b :: l)) →
  ∃ best, select_raw l (Some b) 1 = (Some best, 1) ∧ best ∈ b :: l ∧
    ∀ x, x ∈ b :: l → x = best ∨ compareObservationStrength best x = 1.
Proof.
  induction l as [|x l IH]; intros b Hnd.
  - exists b. split_and!; [done|set_solver|]. intros y Hy. left. set_solver.
  - cbn [map] in Hnd. apply NoDup_cons in Hnd as [Hb Hnd]. apply NoDup_cons in Hnd as [Hx Hnd].
    assert (vv_fingerprint (co_value x) ≠ vv_fingerprint (co_value b)) as Hne by (cbn in *; set_solver).
    cbn [select_raw]. destruct (compare_total x b Hne) as [E|E].
    + rewrite E. cbn. destruct (IH x) as (best & Es & Hin & Hmax); [by constructor|].
      exists best. split_and!; [done|set_solver|]. intros y [->|Hy]%elem_of_cons; [|by apply Hmax].
      right. destruct (Hmax x) as [<-|Hbx]; [set_solver|done|]. by eapply compare_trans.
    + rewrite (compare_antisym _ _ E). cbn. destruct (IH b) as (best & Es & Hin & Hmax).
      { constructor; [|done]. set_solver. }
      exists best. split_and!; [done|set_solver|]. intros y Hy.
      apply elem_of_cons in Hy as [->|[->|Hy]%elem_of_cons]; [apply Hmax; set_solver| |apply Hmax; set_solver].
      right. destruct (Hmax b) as [<-|Hbb]; [set_solver|done|]. by eapply compare_trans.
Qed.

Lemma select_raw_spec l : NoDup (map fingerprint_of l) → l ≠ [] →
  ∃ best, select_raw l None 0 = (Some best, 1) ∧ best ∈ l ∧
    ∀ x, x ∈ l → x = best ∨ compareObservationStrength best x = 1.
Proof. destruct l as [|b l]; [done|]. intros Hnd _. by apply select_raw_best. Qed.

Lemma select_raw_perm l1 l2 : NoDup (map fingerprint_of l1) → l1 ≡ₚ l2 →
  select_raw l1 None 0 = select_raw l2 None 0.
Proof.
  intros Hnd Hp. destruct (decide (l1 = [])) as [->|Hne]; [by apply Permutation_nil_l in Hp as ->|].
  assert (l2 ≠ []) as Hne2 by (intros ->; by apply Permutation_nil_r in Hp).
  assert (NoDup (map fingerprint_of l2)) as Hnd2 by (change (NoDup (fingerprint_of <$> l2)); by rewrite <- Hp).
  destruct (select_raw_spec l1 Hnd Hne) as (b1 & -> & Hin1 & Hmax1).
  destruct (select_raw_spec l2 Hnd2 Hne2) as (b2 & -> & Hin2 & Hmax2). do 2 f_equal.
  rewrite <- Hp in Hin2. destruct (Hmax1 b2 Hin2) as [|E1]; [done|].
  rewrite Hp in Hin1. destruct (Hmax2 b1 Hin1) as [|E2]; [done|]. apply compare_antisym in E1. congruence.
Qed.

Lemma raw_fingerprints_NoDup iterate c seen :
  map_iteration iterate → collected c seen → NoDup (map fingerprint_of (iterate (lc_raw c))).
Proof.
  intros Hi Hc. change (NoDup (fingerprint_of <$> iterate (lc_raw c))). rewrite (Hi (lc_raw c)).
  assert (fingerprint_of <$> (map_to_list (lc_raw c)).*2 = (map_to_list (lc_raw c)).*1) as ->;
    [|apply NoDup_fst_map_to_list].
  rewrite <- list_fmap_compose. apply list_fmap_ext. intros i [fp cand] Hx. cbn.
  apply list_elem_of_lookup_2, elem_of_map_to_list in Hx. by apply (cd_raw _ _ Hc) in Hx as [? _].
Qed.

(** [sort.Strings] gives permuted inputs the same result. *)
Lemma sort_Strings_perm `{GoSort} l1 l2 : l1 ≡ₚ l2 → sort_Slice str_lt l1 = sort_Slice str_lt l2.
Proof.
  intros Hp. apply (sorted_unique str_lt); [apply str_lt_swo| | | |].
  - intros x y _ _. destruct (str_lt_total x y) as [|[|]]; auto.
  - by rewrite !sort_Slice_perm.
  - apply sort_Slice_sorted, str_lt_swo.
  - apply sort_Slice_sorted, str_lt_swo.
Qed.

Lemma conflict_values_perm `{GoSort} l1 l2 : l1 ≡ₚ l2 → conflict_values l1 = conflict_values l2.
Proof.
  intros Hp. unfold conflict_values. apply sort_Strings_perm.
  change (filter (fun v => TrimSpace v ≠ "") ((fun c => vv_raw (co_value c)) <$> l1) ≡ₚ
          filter (fun v => TrimSpace v ≠ "") ((fun c => vv_raw (co_value c)) <$> l2)).
  by rewrite Hp.
Qed.

(** The result of a lookup does not depend on the order in which Go iterates
    over the collector's maps, although [Resolve] picks the strongest of the
    unverified candidates in such a loop. *)
Theorem Resolve_deterministic `{UnicodeTables, NetIP, RFC3339, Ed25519, GoSort}
    `{!StrictJSON EndpointRecord} `{!JSON SignedEnvelope} `{!JSON ServiceRecord}
    `{!JSON HiddenDescriptor} `{!JSON (list ServiceRecord)} `{!JSON PrivateServiceCatalog}
    (resolve : string → option string) (iter1 iter2 : gmap string candidateObservation → list candidateObservation)
    (key : string) (now queried : Z) (answers : list (sourceObservation * string)) (c : lookupCollector) :
  map_iteration iter1 → map_iteration iter2 →
  observe_all resolve (newLookupCollector key now) answers = Ok c →
  Resolve iter1 c queried = Resolve iter2 c queried.
Proof.
  intros Hi1 Hi2 Hc. apply lookup_collected in Hc.
  assert (iter1 (lc_verified c) ≡ₚ iter2 (lc_verified c)) as Hv by by apply iteration_perm.
  assert (iter1 (lc_raw c) ≡ₚ iter2 (lc_raw c)) as Hr by by apply iteration_perm.
  unfold Resolve.
  rewrite (select_raw_perm _ _ (raw_fingerprints_NoDup _ _ _ Hi1 Hc) Hr), (conflict_values_perm _ _ Hr).
  pose proof (conflict_values_perm _ _ Hv) as Hcv. pose proof (Permutation_length Hv) as Hl.
  destruct (iter1 (lc_verified c)) as [|x1 [|y1 l1]], (iter2 (lc_verified c)) as [|x2 [|y2 l2]]; try done.
  - apply Permutation_singleton_l in Hv. by injection Hv as ->.
  - unfold len. by rewrite Hl, Hcv.
Qed.

(** Conflicting unverified values are never reported: in the keyspaces
    without verification the collector returns one of the values as found,
    whatever else the peers answered, because candidates with different
    fingerprints never tie, and the conflict branch counts ties only. *)
Theorem raw_conflict_never_reported `{UnicodeTables, NetIP, RFC3339, Ed25519, GoSort}
    `{!StrictJSON EndpointRecord} `{!JSON SignedEnvelope} `{!JSON ServiceRecord}
    `{!JSON HiddenDescriptor} `{!JSON (list ServiceRecord)} `{!JSON PrivateServiceCatalog}
    (resolve : string → option string) (iterate : gmap string candidateObservation → list candidateObservation)
    (key : string) (now queried : Z) (answers : list (sourceObservation * string)) (c : lookupCollector) :
  map_iteration iterate →
  observe_all resolve (newLookupCollector key now) answers = Ok c →
  lc_verified c = ∅ → lc_raw c ≠ ∅ →
  ∃ r, Resolve iterate c queried = (r, None) ∧ lr_Outcome r = LookupFound.
Proof.
  intros Hi Hc Hv Hr. apply lookup_collected in Hc. unfold Resolve.
  assert (iterate (lc_verified c) = []) as ->.
  { apply Permutation_nil_r. by rewrite (Hi (lc_verified c)), Hv, map_to_list_empty. }
  destruct (select_raw_spec (iterate (lc_raw c))) as (best & -> & _).
  - by eapply raw_fingerprints_NoDup.
  - intros E. by apply iteration_nil in E.
  - by eexists.
Qed.

(** ** Branches of superseded values are counted *)
(** When a newer value replaces the value of a candidate, the branches (and
    providers and ASNs) that supported the old value keep counting: right after
    the first answer with the new value, from one source in one branch, the
    candidate already has two supporting branches, which is all the branch
    diversity that [confirmed] asks for. *)
Theorem branches_survive_newer_value `{NetIP} (resolve : string → option string)
    (c : candidateObservation) (s : sourceObservation) (v : validatedValue) (b : Z) :
  isNewerValue v (co_value c) = true → b ∈ co_exactBranches c → 0 <= so_branch s → so_branch s ≠ b →
  let c' := observe_verified resolve s v c in
  co_value c' = v ∧ dom (co_exactSources c') = {[so_nodeID s]} ∧
  minTrustedLookupBranches <= ssize (co_exactBranches c').
Proof.
  intros Hn Hb Hs Hne. unfold observe_verified. cbn [addSource co_value]. rewrite Hn.
  cbn [adopt_newer co_value]. rewrite String.eqb_refl. cbv zeta. rewrite addExact_value.
  unfold addExactSource. cbn [adopt_newer co_exactSources]. rewrite lookup_empty.
  cbn [co_exactSources co_exactBranches addSource adopt_newer]. split_and!; [done|set_solver|].
  unfold add_branch, ssize, minTrustedLookupBranches. rewrite (proj2 (Z.leb_le _ _)) by done.
  assert (({[so_branch s; b]} : gset Z) ⊆ {[so_branch s]} ∪ co_exactBranches c) as Hsub by set_solver.
  apply subseteq_size in Hsub. rewrite size_union, !size_singleton in Hsub by set_solver. lia.
Qed.

(** ** Witnesses *)
Definition demo_iterate (m : gmap string candidateObservation) : list candidateObservation := (map_to_list m).*2.
Lemma demo_iterate_ok : map_iteration demo_iterate.
Proof. by intros m. Qed.
Definition no_asn (_ : string) : option string := None.
Definition demo_source (node : string) (branch : Z) : sourceObservation :=
  mkSource node "[2001:db8::1]:4242" 1 branch.

(** Answers with the two endpoint records of [ValueProps], which validate to
    [demo_val_1] and [demo_val_2]. *)
Definition validated_answers (answers : list (string * Z * bool)) : list accepted_answer :=
  map (fun '(n, b, new) => (demo_source n b, if new : bool then demo_val_2 else demo_val_1)) answers.
Definition raw_answers (answers : list (string * Z * bool)) : list (sourceObservation * string) :=
  map (fun '(n, b, new) => (demo_source n b, if new : bool then demo_endpoint_2 else demo_endpoint_1)) answers.

Lemma demo_endpoint_not_blank : (TrimSpace demo_endpoint_1 =?s "") = false ∧ (TrimSpace demo_endpoint_2 =?s "") = false.
Proof. vm_compute. done. Qed.

Lemma observe_demo answers : ∀ c, lc_key c = demo_id_key → lc_now c = demo_later →
  Forall (fun a => a.1.1 ≠ "") answers →
  observe_all no_asn c (raw_answers answers)
  = Ok (foldl (fun c '(s, v) => observe_value no_asn c s v) c (validated_answers answers)).
Proof.
  destruct demo_endpoint_not_blank as [B1 B2].
  induction answers as [|[[n b] new] answers IH]; intros c Hk Hn Hall; [done|].
  apply Forall_cons in Hall as [Hne Hall]. cbn [fst] in Hne.
  cbn [raw_answers validated_answers map observe_all foldl]. unfold Observe.
  assert (normalize_source (demo_source n b) = demo_source n b) as ->.
  { unfold normalize_source, demo_source. cbn [so_nodeID so_addr so_trust so_branch].
    by rewrite (proj2 (String.eqb_neq _ _) Hne). }
  rewrite Hk, Hn. destruct new; [rewrite B2, demo_val_2_ok|rewrite B1, demo_val_1_ok];
    cbn [mbind res_bind]; apply IH; try done; by unfold observe_value; case_match.
Qed.

(** Four nodes of two branches agree. *)
Definition demo_votes : list (string * Z * bool) :=
  [("n1", 1, false); ("n2", 1, true); ("n3", 1, true); ("n4", 2, true); ("n5", 2, true)].
Definition demo_answers : list (sourceObservation * string) := raw_answers demo_votes.
Definition collect_votes (votes : list (string * Z * bool)) : lookupCollector :=
  foldl (fun c '(s, v) => observe_value no_asn c s v) (newLookupCollector demo_id_key demo_later)
    (validated_answers votes).
Definition demo_collector : lookupCollector := collect_votes demo_votes.
Definition demo_result : LookupResult := fst (Resolve demo_iterate demo_collector 5).

Lemma demo_collector_ok :
  observe_all no_asn (newLookupCollector demo_id_key demo_later) demo_answers = Ok demo_collector.
Proof. apply observe_demo; [done..|]. repeat constructor; done. Qed.

Lemma lookup_found_confirmed_witness :
  let seen := accepted_answers demo_id_key demo_later demo_answers in
  ∃ (v : validatedValue) (l : list accepted_answer), lr_Outcome demo_result = LookupFound ∧ lr_Value demo_result = vv_raw v ∧ (∃ s : sourceObservation, (s, v) ∈ seen) ∧
    supporters seen v l ∧ 2 <= len l ∧ 4 <= total_weight l ∧
    (∀ a : accepted_answer, a ∈ seen → vv_verified a.2 = true → vv_family a.2 = vv_family v) ∧
    (same_kind seen (vv_family v) →
     ∀ a : accepted_answer, a ∈ seen → vv_family a.2 = vv_family v → isNewerValue a.2 v = false).
Proof.
  apply (lookup_found_confirmed no_asn demo_iterate demo_id_key demo_later 5 demo_answers demo_collector);
    [apply demo_iterate_ok|apply demo_collector_ok|vm_compute; reflexivity..].
Defined.

Lemma Resolve_deterministic_witness :
  Resolve demo_iterate demo_collector 5 = Resolve (fun m => reverse (demo_iterate m)) demo_collector 5.
Proof.
  apply (Resolve_deterministic no_asn _ _ demo_id_key demo_later 5 demo_answers);
    [apply demo_iterate_ok| |apply demo_collector_ok].
  intros m. unfold demo_iterate. by rewrite reverse_Permutation.
Defined.

(** Two contradictory values of an unverified key. *)
Definition demo_raw_answers : list (sourceObservation * string) :=
  [(demo_source "n1" 1, "yes"); (demo_source "n2" 2, "no")].
Definition demo_raw_collector : lookupCollector :=
  Eval vm_compute in
  res_get (newLookupCollector "" 0) (observe_all no_asn (newLookupCollector "misc/k" demo_later) demo_raw_answers).

Lemma raw_conflict_never_reported_witness :
  ∃ r, Resolve demo_iterate demo_raw_collector 2 = (r, None) ∧ lr_Outcome r = LookupFound.
Proof.
  apply (raw_conflict_never_reported no_asn _ "misc/k" demo_later 2 demo_raw_answers);
    [apply demo_iterate_ok|vm_compute; reflexivity|vm_compute; reflexivity|].
  intros E. assert (size (lc_raw demo_raw_collector) = 2%nat) as F by (vm_compute; reflexivity).
  rewrite E, map_size_empty in F. discriminate F.
Defined.

Definition demo_old_candidate : candidateObservation :=
  observe_verified no_asn (demo_source "n1" 1) (demo_value 1 0 true "a") (newCandidateObservation (demo_value 1 0 true "a")).
Lemma branches_survive_newer_value_witness :
  let c' := observe_verified no_asn (demo_source "n2" 2) (demo_value 2 0 true "b") demo_old_candidate in
  co_value c' = demo_value 2 0 true "b" ∧ dom (co_exactSources c') = {["n2"]} ∧
  minTrustedLookupBranches <= ssize (co_exactBranches c').
Proof.
  apply (branches_survive_newer_value no_asn demo_old_candidate (demo_source "n2" 2) (demo_value 2 0 true "b") 1);
    [done| |done|done].
  apply (proj1 (bool_decide_eq_true (1 ∈ co_exactBranches demo_old_candidate))). vm_compute. reflexivity.
Defined.

(** A whole lookup: four nodes of one branch confirm a value because a node of
    another branch answered with an older one. *)
Definition stale_votes : list (string * Z * bool) :=
  [("n1", 1, false); ("n2", 2, true); ("n3", 2, true); ("n4", 2, true); ("n5", 2, true)].
Example stale_branch_confirms :
  lr_Outcome (fst (Resolve demo_iterate (collect_votes stale_votes) 5)) = LookupFound ∧
  lr_Outcome (fst (Resolve demo_iterate (collect_votes (tail stale_votes)) 4)) = LookupIncomplete.
Proof. vm_compute. done. Qed.
