(* ===== verification/Governor.v ===== *)
(** * The relay governor (internal/node/relay_governor.go)

    Bounds the relay streams a node carries for others.  [Acquire] hands out a
    release function; here a stream that holds one is named by an identifier,
    and calling the function is [Release].  [cpu] is [runtime.GOMAXPROCS(0)]. *)
From S2P Require Import Prelude GoBytes GoStrings GoEncoding GoTime Sha256 GoEnv Lines GoNumbers Proto.

Definition defaultRelayResourcePercent : Z := 33.
Definition minRelayResourcePercent : Z := 5.
Definition maxRelayResourcePercent : Z := 90.
Definition relayStreamsPerCPUUnit : Z := 8.
Definition relayModeOn : string := "on".
Definition relayModeOff : string := "off".

Record relayGovernor := mkGovernor {
  g_mode : string;
  g_percent : Z;
  g_budget : Z;
  g_active : Z;
  g_lastReason : string;
}.

Definition normalizeRelayMode (mode : string) : string :=
  if mode =?s relayModeOff then relayModeOff else relayModeOn.

Definition normalizeRelayResourcePercent (percent : Z) : Z :=
  if percent <=? 0 then defaultRelayResourcePercent
  else if percent <? minRelayResourcePercent then minRelayResourcePercent
  else if maxRelayResourcePercent <? percent then maxRelayResourcePercent
  else percent.

Definition relayBudget (cpu percent : Z) : Z :=
  let cpuUnits := if cpu <=? 0 then 1 else cpu in
  let usableUnits := Z.quot (cpuUnits * percent) 100 in
  let usableUnits := if usableUnits <=? 0 then 1 else usableUnits in
  let budget := usableUnits * relayStreamsPerCPUUnit in
  if budget <? 2 then 2 else budget.

Definition isRelayKind (kind : Z) : bool := (kind =? KindExtend) || (kind =? KindRendezvous).

Definition zero_governor : relayGovernor := mkGovernor "" 0 0 0 "".

Definition Governor_Update (cpu : Z) (mode : string) (percent : Z) (g : relayGovernor) : relayGovernor :=
  let percent := normalizeRelayResourcePercent percent in
  let budget := relayBudget cpu percent in
  mkGovernor (normalizeRelayMode mode) percent budget (g_active g)
    (if budget <? g_active g
     then "relay load above refreshed budget (" +:+ FormatInt (g_active g) +:+ "/" +:+ FormatInt budget +:+ " active)"
     else g_lastReason g).

Definition newRelayGovernor (cpu : Z) (mode : string) (percent : Z) : relayGovernor :=
  Governor_Update cpu mode percent zero_governor.

Definition with_reason (reason : string) (g : relayGovernor) : relayGovernor :=
  mkGovernor (g_mode g) (g_percent g) (g_budget g) (g_active g) reason.
Definition with_active (n : Z) (g : relayGovernor) : relayGovernor :=
  mkGovernor (g_mode g) (g_percent g) (g_budget g) n (g_lastReason g).

Definition budget_reached (g : relayGovernor) : string :=
  "relay budget reached (" +:+ FormatInt (g_active g) +:+ "/" +:+ FormatInt (g_budget g) +:+ " active; "
  +:+ FormatInt (100 - g_percent g) +:+ "% reserved for local work)".

(** The result tells whether the release function does something: it is empty
    for connections that are not relayed. *)
Definition Acquire (kind : Z) (g : relayGovernor) : res bool * relayGovernor :=
  if negb (isRelayKind kind) then (Ok false, g)
  else if g_mode g <>?s relayModeOn
  then (Err "relay participation is disabled", with_reason "relay participation disabled" g)
  else if g_budget g <=? g_active g
  then (Err (budget_reached g), with_reason (budget_reached g) g)
  else (Ok true, with_active (g_active g + 1) g).

Definition Release (g : relayGovernor) : relayGovernor :=
  if 0 <? g_active g then with_active (g_active g - 1) g else g.

(** ** A run of the governor

    The streams that hold a release function that counts. *)
Inductive gov_step : relayGovernor * list nat → relayGovernor * list nat → Prop :=
| step_update cpu mode percent g held : gov_step (g, held) (Governor_Update cpu mode percent g, held)
| step_acquire kind g g' held stream : Acquire kind g = (Ok true, g') → stream ∉ held →
    gov_step (g, held) (g', stream :: held)
| step_pass kind r g g' held : Acquire kind g = (r, g') → r ≠ Ok true → gov_step (g, held) (g', held)
| step_release g l1 stream l2 : gov_step (g, l1 ++ stream :: l2) (Release g, l1 ++ l2).

Lemma Acquire_cases kind g : let '(r, g') := Acquire kind g in
  match r with
  | Ok true => isRelayKind kind = true ∧ g_mode g = relayModeOn ∧ g_active g < g_budget g ∧
      g' = with_active (g_active g + 1) g
  | Ok false => isRelayKind kind = false ∧ g' = g
  | Err _ => isRelayKind kind = true ∧ (g_mode g ≠ relayModeOn ∨ g_budget g <= g_active g) ∧
      ∃ reason, g' = with_reason reason g
  | Panic => False
  end.
Proof.
  unfold Acquire. destruct (isRelayKind kind); cbn [negb]; [|done].
  destruct (String.eqb_spec (g_mode g) relayModeOn); cbn [negb]; [|eauto 6].
  destruct (Z.leb_spec (g_budget g) (g_active g)); [eauto 8|done].
Qed.

Lemma relayBudget_bounds cpu percent : 0 <= percent <= 90 →
  8 <= relayBudget cpu percent <= 8 * Z.max 1 cpu ∧
  (2 <= cpu → relayBudget cpu percent < 8 * cpu).
Proof.
  intros Hp. unfold relayBudget, relayStreamsPerCPUUnit.
  set (c := if cpu <=? 0 then 1 else cpu).
  assert (Hc : 1 <= c ∧ c = Z.max 1 cpu) by (subst c; destruct (Z.leb_spec cpu 0); lia).
  rewrite Z.quot_div_nonneg by nia.
  assert (Hq : 0 <= c * percent / 100 <= c /\ (2 <= c → c * percent / 100 < c)).
  { split; [split; [apply Z.div_pos; nia|apply Z.div_le_upper_bound; nia]|]. intros. apply Z.div_lt_upper_bound; nia. }
  destruct (Z.leb_spec (c * percent / 100) 0), (Z.ltb_spec
    ((if c * percent / 100 <=? 0 then 1 else c * percent / 100) * 8) 2); try lia;
    repeat match goal with |- context [if ?b then _ else _] => destruct b eqn:? end; bool_prop; lia.
Qed.

Lemma normalize_percent_bounds p : 5 <= normalizeRelayResourcePercent p <= 90.
Proof.
  unfold normalizeRelayResourcePercent, defaultRelayResourcePercent, minRelayResourcePercent, maxRelayResourcePercent.
  repeat case_match; bool_prop; lia.
Qed.

Definition gov_inv (x : relayGovernor * list nat) : Prop :=
  g_active x.1 = Z.of_nat (length x.2) ∧ NoDup x.2 ∧ 8 <= g_budget x.1 ∧ 5 <= g_percent x.1 <= 90 ∧
  (g_mode x.1 = relayModeOn ∨ g_mode x.1 = relayModeOff).

Lemma update_inv cpu mode percent g held :
  g_active g = Z.of_nat (length held) → NoDup held → gov_inv (Governor_Update cpu mode percent g, held).
Proof.
  intros Ha Hn. pose proof (normalize_percent_bounds percent).
  destruct (relayBudget_bounds cpu (normalizeRelayResourcePercent percent)) as [? _]; [lia|].
  repeat split; cbn; try done; try lia. unfold normalizeRelayMode. case_match; auto.
Qed.

Lemma gov_step_inv x y : gov_step x y → gov_inv x → gov_inv y.
Proof.
  unfold gov_inv. intros Hs (Ha & Hn & Hb & Hp & Hm). destruct Hs as [cpu mode percent g held|kind g g' held stream E Hf|
    kind r g g' held E Hr|g l1 stream l2]; cbn [fst snd] in *.
  - by apply update_inv.
  - pose proof (Acquire_cases kind g) as Hc. rewrite E in Hc. destruct Hc as (_ & _ & _ & ->). cbn.
    split_and!; [lia|by constructor|lia..|done].
  - pose proof (Acquire_cases kind g) as Hc. rewrite E in Hc. destruct r as [[]|e|]; [done| | |done].
    + by destruct Hc as [_ ->].
    + destruct Hc as (_ & _ & reason & ->). cbn. split_and!; lia || done.
  - rewrite length_app in Ha. cbn in Ha. unfold Release. rewrite (proj2 (Z.ltb_lt _ _)) by lia. cbn.
    split_and!; [rewrite length_app; lia| |lia..|done]. apply NoDup_app in Hn as (? & Hd & [_ ?]%NoDup_cons). apply NoDup_app. set_solver.
Qed.

(** C15: The governor refines a counting semaphore.  In every run in which each
    admitted stream releases at most once, the active count is exactly the
    number of streams that hold a slot; a relay stream is then admitted if and
    only if relaying is on and fewer streams hold a slot than the budget allows;
    other connections are never counted; and no call panics. *)
Theorem governor_semaphore cpu mode percent g held :
  rtc gov_step (newRelayGovernor cpu mode percent, []) (g, held) →
  g_active g = Z.of_nat (length held) ∧ NoDup held ∧
  ∀ kind, (isRelayKind kind = false → Acquire kind g = (Ok false, g)) ∧
    (isRelayKind kind = true →
       (∃ g', Acquire kind g = (Ok true, g')) ↔ g_mode g = relayModeOn ∧ Z.of_nat (length held) < g_budget g) ∧
    (Acquire kind g).1 ≠ Panic.
Proof.
  intros Hr. assert (Hi : gov_inv (g, held)).
  { eapply (rtc_ind_r (fun x => gov_inv x)); [|by intros; eapply gov_step_inv|exact Hr].
    apply update_inv; [done|constructor]. }
  destruct Hi as (Ha & Hn & _). cbn in Ha, Hn. split_and!; [done..|]. intros kind.
  pose proof (Acquire_cases kind g) as Hc. split_and!.
  - intros Hk. unfold Acquire. by rewrite Hk.
  - intros Hk. destruct (Acquire kind g) as [[[]|e|] g'].
    + destruct Hc as (_ & ? & ? & _). split; [|eauto]. split; [done|lia].
    + by destruct Hc as [? _]; congruence.
    + destruct Hc as (_ & Hc & _). split; [by intros [? ?]|]. intros [? ?]. destruct Hc; [done|lia].
    + done.
  - by destruct (Acquire kind g) as [[| |] ?].
Qed.

Definition demo_governor : relayGovernor := newRelayGovernor 4 "on" 33.
Lemma governor_semaphore_witness : ∃ g', Acquire KindExtend (with_active 1 demo_governor) = (Ok true, g').
Proof.
  assert (Hrun : rtc gov_step (demo_governor, []) (with_active 1 demo_governor, [7%nat])).
  { apply rtc_once. apply (step_acquire KindExtend); [reflexivity|intros H; inversion H]. }
  destruct (governor_semaphore 4 "on" 33 (with_active 1 demo_governor) [7%nat] Hrun) as (_ & _ & H).
  destruct (H KindExtend) as (_ & H2 & _). apply H2; [reflexivity|]. split; [reflexivity|]. vm_compute. reflexivity.
Defined.

(** Bounds of the relay budget, whatever the configuration and machine: at
    least eight streams, at most eight per processor, and with two processors or
    more some processor share is always left to local work. *)
Theorem governor_budget_bounds cpu mode percent g held :
  rtc gov_step (newRelayGovernor cpu mode percent, []) (g, held) →
  (∀ cpu' mode' percent', let g' := Governor_Update cpu' mode' percent' g in
     8 <= g_budget g' <= 8 * Z.max 1 cpu' ∧ (2 <= cpu' → g_budget g' < 8 * cpu')) ∧
  8 <= g_budget g.
Proof.
  intros Hr. assert (Hi : gov_inv (g, held)).
  { eapply (rtc_ind_r (fun x => gov_inv x)); [|by intros; eapply gov_step_inv|exact Hr].
    apply update_inv; [done|constructor]. }
  destruct Hi as (_ & _ & Hb & _). split; [|exact Hb]. intros cpu' mode' percent'. cbn.
  apply relayBudget_bounds. pose proof (normalize_percent_bounds percent'). lia.
Qed.

Lemma governor_budget_bounds_witness : 8 <= g_budget demo_governor.
Proof. apply (governor_budget_bounds 4 "on" 33 demo_governor []), rtc_refl. Defined.
