(* ===== verification/Session.v ===== *)
(** * Secure sessions (internal/secure/session.go)

    The signed handshake and the encrypted byte stream that follows it.  A
    connection is its incoming bytes and the bytes it has written; random keys
    are arguments.  Closing a connection has no effect on the results. *)
From S2P Require Import Prelude GoBytes GoStrings GoEncoding GoTime Sha256 GoEnv Lines GoNumbers Identity Proto.

Definition maxHandshakeSize : Z := 8 * 1024.
Definition maxChunkSize : Z := 32 * 1024.
Definition sessionVersion : Z := 2.

Record hello := mkHello {
  h_Version : Z;  (* uint8 *)
  h_NodeID : string;
  h_PublicKey : string;
  h_Ephemeral : string;
  h_Signature : string;
}.

(** The fields of [Conn]; the cipher is its key. *)
Record Conn := mkConn {
  c_aead : bytes;
  c_readCounter : Z;  (* uint64 *)
  c_writeCtr : Z;     (* uint64 *)
  c_readBuf : bytes;
  c_writeDir : Z;
  c_readDir : Z;
  c_localNodeID : string;
  c_peerNodeID : string;
  c_peerPublicKey : bytes;
}.

Definition nl : byte := x0a.

Definition Session_signingPayload (version kind : Z) (nodeID : string) (eph : bytes) : bytes :=
  str_bytes "vx6-secure" ++ [nl] ++ [Z_byte version] ++ [nl] ++ [Z_byte kind] ++ [nl] ++
  str_bytes nodeID ++ [nl] ++ eph.

Definition nonce (dir counter : Z) : bytes := [Z_byte dir; x00; x00; x00] ++ be_bytes 8 counter.

Definition buildTranscript (kind : Z) (localEph remoteEph localStaticPub remoteStaticPub : bytes)
    (initiator : bool) : bytes :=
  let '(clientEph, serverEph, clientPub, serverPub) :=
    if initiator then (localEph, remoteEph, localStaticPub, remoteStaticPub)
    else (remoteEph, localEph, remoteStaticPub, localStaticPub) in
  str_bytes "vx6-transcript-v2" ++ [nl] ++ [Z_byte kind] ++ [nl] ++ clientPub ++ [nl] ++ serverPub ++ [nl] ++
  clientEph ++ serverEph.

Section Session.
Context `{Ed25519, AEAD, KeyExchange, JSON hello}.

Definition deriveKey (sharedSecret transcript : bytes) : bytes :=
  hkdf_Key sharedSecret (Sum256 transcript) "vx6-session-v2".

(** ** The handshake *)
Definition buildHello (id : Identity) (kind : Z) (eph : bytes) : res hello :=
  sig ← ed25519_Sign (id_PrivateKey id) (Session_signingPayload sessionVersion kind (id_NodeID id) eph);
  Ok {| h_Version := sessionVersion; h_NodeID := id_NodeID id;
        h_PublicKey := StdEncoding_EncodeToString (id_PublicKey id);
        h_Ephemeral := StdEncoding_EncodeToString eph;
        h_Signature := StdEncoding_EncodeToString sig |}.

Definition ephemeralBytes (h : hello) : res bytes :=
  of_option (StdEncoding_DecodeString (h_Ephemeral h)) "decode ephemeral key".

Definition writeHello (w : bytes) (h : hello) : bytes :=
  WriteLengthPrefixed w (str_bytes (json_Marshal h)).

Definition readHello (r : bytes) (kind : Z) : res (hello * bytes) :=
  '(payload, r) ← ReadLengthPrefixed r maxHandshakeSize;
  h ← of_option (json_Unmarshal (bytes_str payload)) "decode handshake";
  pub ← of_option (StdEncoding_DecodeString (h_PublicKey h)) "decode public key";
  sig ← of_option (StdEncoding_DecodeString (h_Signature h)) "decode signature";
  eph ← ephemeralBytes h;
  err_if (NodeIDFromPublicKey pub <>?s h_NodeID h) "handshake node id mismatch";;
  ok ← ed25519_Verify pub (Session_signingPayload (h_Version h) kind (h_NodeID h) eph) sig;
  err_if (negb ok) "handshake signature verification failed";;
  Ok (h, r).

(** [curve.NewPublicKey] accepts 32 bytes. *)
Definition NewPublicKey (b : bytes) : option bytes := if len b =? 32 then Some b else None.

(** The session of a verified remote hello. *)
Definition establish (kind : Z) (id : Identity) (priv : bytes) (initiator : bool) (remoteHello : hello) : res Conn :=
  remoteEph ← ephemeralBytes remoteHello;
  remotePub ← of_option (NewPublicKey remoteEph) "parse remote ephemeral key";
  shared ← of_option (x_shared priv remotePub) "derive shared key";
  remoteStaticPub ← of_option (StdEncoding_DecodeString (h_PublicKey remoteHello)) "decode remote static public key";
  let transcript := buildTranscript kind (x_public priv) remoteEph (id_PublicKey id) remoteStaticPub initiator in
  Ok {| c_aead := deriveKey shared transcript; c_readCounter := 0; c_writeCtr := 0; c_readBuf := [];
        c_writeDir := if initiator then 0 else 1; c_readDir := if initiator then 1 else 0;
        c_localNodeID := id_NodeID id; c_peerNodeID := h_NodeID remoteHello;
        c_peerPublicKey := remoteStaticPub |}.

(** [handshake]: the session with the bytes left to read, and the bytes written. *)
Definition handshake (incoming : bytes) (kind : Z) (id : Identity) (priv : bytes) (initiator : bool)
  : res (Conn * bytes) * bytes :=
  match buildHello id kind (x_public priv) with
  | Ok localHello =>
      let out := if initiator then writeHello [] localHello else [] in
      match readHello incoming kind with
      | Ok (remoteHello, rest) =>
          if negb (h_Version remoteHello =? sessionVersion)
          then (Err "secure: peer uses another session version", out)
          else
            let out := if initiator then out else writeHello out localHello in
            (c ← establish kind id priv initiator remoteHello; Ok (c, rest), out)
      | Err e => (Err e, out)
      | Panic => (Panic, out)
      end
  | Err e => (Err e, [])
  | Panic => (Panic, [])
  end.

Definition Session_Client (incoming : bytes) (kind : Z) (id : Identity) (priv : bytes) :=
  handshake incoming kind id priv true.
Definition Session_Server (incoming : bytes) (kind : Z) (id : Identity) (priv : bytes) :=
  handshake incoming kind id priv false.

Definition ClientExpected (incoming : bytes) (kind : Z) (id : Identity) (priv : bytes) (nodeID publicKey : string)
  : res (Conn * bytes) * bytes :=
  let '(r, out) := Session_Client incoming kind id priv in
  ('(c, rest) ← r;
   want ← of_option (StdEncoding_DecodeString publicKey) "secure: invalid expected public key";
   err_if (c_peerNodeID c <>?s nodeID) "secure: remote NodeID does not match expected DHT identity";;
   err_if (negb (bool_decide (c_peerPublicKey c = want)))
     "secure: remote public key does not match expected DHT identity";;
   Ok (c, rest), out).

(** ** The encrypted stream *)
Definition with_read (c : Conn) (counter : Z) (buf : bytes) : Conn :=
  {| c_aead := c_aead c; c_readCounter := counter; c_writeCtr := c_writeCtr c; c_readBuf := buf;
     c_writeDir := c_writeDir c; c_readDir := c_readDir c; c_localNodeID := c_localNodeID c;
     c_peerNodeID := c_peerNodeID c; c_peerPublicKey := c_peerPublicKey c |}.
Definition with_writeCtr (c : Conn) (counter : Z) : Conn :=
  {| c_aead := c_aead c; c_readCounter := c_readCounter c; c_writeCtr := counter; c_readBuf := c_readBuf c;
     c_writeDir := c_writeDir c; c_readDir := c_readDir c; c_localNodeID := c_localNodeID c;
     c_peerNodeID := c_peerNodeID c; c_peerPublicKey := c_peerPublicKey c |}.

(** [Read] into a buffer of [n] bytes: the bytes copied. *)
Definition Session_Read (c : Conn) (incoming : bytes) (n : nat) : res (bytes * Conn * bytes) :=
  '(c, incoming) ←
    (if (len (c_readBuf c) =? 0) then
       '(payload, incoming) ← ReadLengthPrefixed incoming (maxChunkSize + 1024);
       plain ← gcm_Open (c_aead c) (nonce (c_readDir c) (c_readCounter c)) payload [];
       Ok (with_read c (u64 (c_readCounter c + 1)) plain, incoming)
     else Ok (c, incoming));
  Ok (take n (c_readBuf c), with_read c (c_readCounter c) (drop n (c_readBuf c)), incoming).

(** [Write]; the loop runs at most once per byte. *)
Fixpoint write_loop (fuel : nat) (c : Conn) (out p : bytes) : res (Conn * bytes) :=
  match fuel with
  | O => Ok (c, out)
  | S fuel =>
      if len p =? 0 then Ok (c, out)
      else
        let n := Z.to_nat (Z.min (len p) maxChunkSize) in
        sealed ← gcm_Seal (c_aead c) (nonce (c_writeDir c) (c_writeCtr c)) (take n p) [];
        write_loop fuel (with_writeCtr c (u64 (c_writeCtr c + 1))) (WriteLengthPrefixed out sealed) (drop n p)
  end.
Definition Session_Write (c : Conn) (out p : bytes) : res (Conn * bytes) := write_loop (length p) c out p.
End Session.
