(* ===== verification/SessionProps.v ===== *)
(** * What sessions guarantee

    Two honest ends agree on a key; an established session knows who the peer
    is; the encrypted stream is a FIFO of bytes; and the check that is missing
    in the handshake. *)
From S2P Require Import Prelude GoBytes GoStrings GoEncoding GoTime Sha256 GoEnv Lines GoNumbers Identity Proto Session.

Lemma len_nonce dir ctr : len (nonce dir ctr) = 12.
Proof. unfold nonce, len. rewrite length_app, length_be_bytes. reflexivity. Qed.

(** Nonces of the two directions, and of different counters, are different. *)
Lemma nonce_inj d1 d2 c1 c2 : 0 <= d1 < 256 → 0 <= d2 < 256 → 0 <= c1 < 2 ^ 64 → 0 <= c2 < 2 ^ 64 →
  nonce d1 c1 = nonce d2 c2 → d1 = d2 ∧ c1 = c2.
Proof.
  intros Hd1 Hd2 Hc1 Hc2 E. unfold nonce in E. apply app_inj_1 in E as [Hd Hc]; [|done]. injection Hd as Hd. split.
  - apply (f_equal byte_Z) in Hd. rewrite !byte_Z_byte, !Z.mod_small in Hd by lia. done.
  - by apply be_bytes_inj in Hc.
Qed.

Section Stream.
Context `{Ed25519, AEAD, KeyExchange, JSON hello}.

(** The bytes on the wire between two counters and the text they carry. *)
Inductive wire (key : bytes) (dir : Z) : Z → bytes → bytes → Z → Prop :=
| wire_nil ctr : wire key dir ctr [] [] ctr
| wire_cons ctr p w q ctr' : 0 < len p <= maxChunkSize → wire key dir (u64 (ctr + 1)) w q ctr' →
    wire key dir ctr (WriteLengthPrefixed [] (aead_Seal key (nonce dir ctr) p []) ++ w) (p ++ q) ctr'.

Lemma wire_app key dir c1 c2 c3 w1 q1 w2 q2 :
  wire key dir c1 w1 q1 c2 → wire key dir c2 w2 q2 c3 → wire key dir c1 (w1 ++ w2) (q1 ++ q2) c3.
Proof. induction 1; intros; [done|]. rewrite <- !app_assoc. constructor; auto. Qed.

(** One direction of a session: the writer, the reader, the bytes in flight and
    the text written but not yet read. *)
Definition in_sync (w r : Conn) (flight pending : bytes) : Prop :=
  c_aead w = c_aead r ∧ c_writeDir w = c_readDir r ∧
  ∃ q, wire (c_aead r) (c_readDir r) (c_readCounter r) flight q (c_writeCtr w) ∧ pending = c_readBuf r ++ q.

Lemma WriteLengthPrefixed_app out p : WriteLengthPrefixed out p = out ++ WriteLengthPrefixed [] p.
Proof. done. Qed.

Lemma write_loop_wire fuel : ∀ c out p, (length p <= fuel)%nat →
  ∃ w c', write_loop fuel c out p = Ok (c', out ++ w) ∧
    wire (c_aead c) (c_writeDir c) (c_writeCtr c) w p (c_writeCtr c') ∧ c' = with_writeCtr c (c_writeCtr c').
Proof.
  induction fuel as [|fuel IH]; intros c out p Hf; cbn [write_loop].
  { destruct p; [|cbn in Hf; lia]. exists [], c. rewrite app_nil_r. split_and!; [done|constructor|by destruct c]. }
  destruct (Z.eqb_spec (len p) 0) as [->%len_nil_inv|Hp].
  { exists [], c. rewrite app_nil_r. split_and!; [done|constructor|by destruct c]. }
  set (n := Z.to_nat _). unfold gcm_Seal. rewrite len_nonce. cbn [Z.eqb Pos.eqb mbind res_bind gcm_NonceSize].
  assert (Hn : (1 <= n <= length p)%nat ∧ Z.of_nat n <= maxChunkSize).
  { subst n. unfold len, maxChunkSize in *. lia. }
  destruct (IH (with_writeCtr c (u64 (c_writeCtr c + 1)))
    (WriteLengthPrefixed out (aead_Seal (c_aead c) (nonce (c_writeDir c) (c_writeCtr c)) (take n p) []))
    (drop n p)) as (w & c' & E & Hw & Hc'); [rewrite length_drop; lia|].
  exists (WriteLengthPrefixed [] (aead_Seal (c_aead c) (nonce (c_writeDir c) (c_writeCtr c)) (take n p) []) ++ w), c'.
  split_and!.
  - rewrite E, WriteLengthPrefixed_app. by rewrite app_assoc.
  - rewrite <- (take_drop n p) at 2. constructor; [|exact Hw]. unfold len. rewrite length_take. lia.
  - rewrite Hc'. by destruct c.
Qed.

Lemma write_in_sync w r flight pending p : in_sync w r flight pending →
  ∃ w' flight', Session_Write w flight p = Ok (w', flight') ∧ in_sync w' r flight' (pending ++ p).
Proof.
  intros (Hk & Hd & q & Hw & ->).
  destruct (write_loop_wire (length p) w flight p) as (x & w' & E & Hx & Hw'); [lia|].
  exists w', (flight ++ x). split; [exact E|]. rewrite Hw'. split; [done|]. split; [done|].
  exists (q ++ p). split; [|by rewrite app_assoc]. cbn. rewrite Hk, Hd in Hx. by eapply wire_app.
Qed.

Lemma read_in_sync w r flight pending n : in_sync w r flight pending → pending ≠ [] → (0 < n)%nat →
  ∃ d r' flight' pending', Session_Read r flight n = Ok (d, r', flight') ∧
    pending = d ++ pending' ∧ d ≠ [] ∧ (length d <= n)%nat ∧ in_sync w r' flight' pending'.
Proof.
  intros (Hk & Hd & q & Hw & ->) Hne Hn. unfold Session_Read.
  destruct (Z.eqb_spec (len (c_readBuf r)) 0) as [He%len_nil_inv|He].
  - rewrite He in *. cbn [app] in *. remember (c_writeCtr w) as cw eqn:Hcw.
    destruct Hw as [ctr|ctr p flight q ctr' Hp Hw]; [done|].
    rewrite ReadLengthPrefixed_app by (rewrite ?aead_Seal_length; unfold maxChunkSize, max_u32 in *; lia).
    cbn [mbind res_bind]. unfold gcm_Open. rewrite len_nonce, aead_Open_Seal. cbn.
    assert (Hpn : p ≠ []) by (intros ->; unfold len in Hp; cbn [length] in Hp; lia).
    eexists _, _, _, (drop n p ++ q). split; [done|]. split_and!.
    + by rewrite app_assoc, take_drop.
    + destruct p, n; done || lia.
    + rewrite length_take. lia.
    + split; [done|]. split; [done|]. exists q. by rewrite <- Hcw.
  - cbn. eexists _, _, _, (drop n (c_readBuf r) ++ q). split; [done|]. split_and!.
    + by rewrite app_assoc, take_drop.
    + destruct (c_readBuf r); [done|]. destruct n; [lia|done].
    + rewrite length_take. lia.
    + split; [done|]. split; [done|]. by exists q.
Qed.
End Stream.

(** C5: The encrypted connection is a FIFO of bytes.  While writer and reader are
    in step, a [Write] of any size always succeeds and appends its bytes to what
    is pending, and a [Read] into a non-empty buffer returns a non-empty prefix
    of what is pending and leaves the rest, however the writes were cut into
    frames; both keep writer and reader in step, so no sequence of calls loses,
    repeats, reorders or changes a byte. *)
Theorem session_stream_fifo `{Ed25519, AEAD, KeyExchange, JSON hello} (w r : Conn) (flight pending : bytes) :
  in_sync w r flight pending →
  (∀ p, ∃ w' flight', Session_Write w flight p = Ok (w', flight') ∧ in_sync w' r flight' (pending ++ p)) ∧
  (∀ n, (0 < n)%nat → pending ≠ [] → ∃ d r' flight' pending',
     Session_Read r flight n = Ok (d, r', flight') ∧ pending = d ++ pending' ∧ d ≠ [] ∧
     (length d <= n)%nat ∧ in_sync w r' flight' pending').
Proof.
  intros Hs. split; [intros p; by apply write_in_sync|]. intros n Hn Hne. by apply read_in_sync.
Qed.

(** ** The handshake *)
Section Handshake.
Context `{Ed25519, AEAD, KeyExchange, JSON hello}.

(** An identity whose keys belong together, as [Generate] makes them. *)
Definition good_identity (id : Identity) : Prop :=
  ed_keypair (id_PrivateKey id) ∧ id_PublicKey id = drop 32 (id_PrivateKey id) ∧
  id_NodeID id = NodeIDFromPublicKey (id_PublicKey id).

Definition hello_of (id : Identity) (kind : Z) (priv : bytes) : hello :=
  {| h_Version := sessionVersion; h_NodeID := id_NodeID id;
     h_PublicKey := StdEncoding_EncodeToString (id_PublicKey id);
     h_Ephemeral := StdEncoding_EncodeToString (x_public priv);
     h_Signature := StdEncoding_EncodeToString
       (ed_sign (id_PrivateKey id) (Session_signingPayload sessionVersion kind (id_NodeID id) (x_public priv))) |}.

(** JSON carries the hello, in a frame of the size the peer accepts. *)
Definition hello_fits (h : hello) : Prop :=
  json_safe h ∧ 0 < len (str_bytes (json_Marshal h)) <= maxHandshakeSize.

Lemma buildHello_ok id kind priv : good_identity id → buildHello id kind (x_public priv) = Ok (hello_of id kind priv).
Proof.
  intros (Hk & _). unfold buildHello, ed25519_Sign, PrivateKeySize.
  by rewrite (ed_keypair_length _ Hk).
Qed.

Lemma readHello_written id kind priv rest : good_identity id → hello_fits (hello_of id kind priv) →
  readHello (writeHello [] (hello_of id kind priv) ++ rest) kind = Ok (hello_of id kind priv, rest).
Proof.
  intros (Hk & Hpub & Hid) [Hs Hl]. unfold readHello, writeHello.
  rewrite ReadLengthPrefixed_app by (unfold maxHandshakeSize, max_u32 in *; lia). cbn [mbind res_bind].
  rewrite bytes_str_bytes, json_Unmarshal_Marshal by done. cbn [of_option mbind res_bind].
  unfold ephemeralBytes. cbn [hello_of h_PublicKey h_Signature h_Ephemeral h_NodeID h_Version].
  rewrite !b64_decode_encode. cbn [of_option mbind res_bind].
  rewrite <- Hid, String.eqb_refl. cbn [negb err_if mbind res_bind].
  assert (Hlen : len (id_PublicKey id) = 32).
  { pose proof (ed_keypair_length _ Hk) as Hl2. rewrite Hpub. unfold len in *. rewrite length_drop. lia. }
  unfold ed25519_Verify, PublicKeySize, SignatureSize. rewrite Hlen, ed_sign_length. cbn [Z.eqb Pos.eqb andb].
  rewrite Hpub, ed_verify_sign by done. done.
Qed.

Lemma establish_ok kind id priv initiator id' priv' shared : good_identity id' →
  x_shared priv (x_public priv') = Some shared →
  establish kind id priv initiator (hello_of id' kind priv') = Ok
    {| c_aead := deriveKey shared (buildTranscript kind (x_public priv) (x_public priv') (id_PublicKey id)
                                     (id_PublicKey id') initiator);
       c_readCounter := 0; c_writeCtr := 0; c_readBuf := [];
       c_writeDir := if initiator then 0 else 1; c_readDir := if initiator then 1 else 0;
       c_localNodeID := id_NodeID id; c_peerNodeID := id_NodeID id'; c_peerPublicKey := id_PublicKey id' |}.
Proof.
  intros _ Hsh. unfold establish, ephemeralBytes. cbn [hello_of h_Ephemeral h_PublicKey h_NodeID].
  rewrite !b64_decode_encode. cbn [of_option mbind res_bind]. unfold NewPublicKey. rewrite x_public_length.
  cbn [Z.eqb Pos.eqb of_option mbind res_bind]. rewrite Hsh. done.
Qed.
End Handshake.

(** C24: Two honest ends agree.  When a client and a server with proper identities
    run the handshake over a connection that delivers what they write, both
    succeed and consume exactly the handshake; each knows the other's NodeID and
    public key; and in both directions writer and reader are in step with
    nothing pending, under one key. *)
Theorem handshake_agree `{Ed25519, AEAD, KeyExchange, JSON hello} (kind : Z) (idc ids : Identity)
    (privc privs shared restc rests : bytes) :
  good_identity idc → good_identity ids →
  hello_fits (hello_of idc kind privc) → hello_fits (hello_of ids kind privs) →
  x_shared privc (x_public privs) = Some shared →
  ∃ out_c out_s c s,
    Session_Client (out_s ++ restc) kind idc privc = (Ok (c, restc), out_c) ∧
    Session_Server (out_c ++ rests) kind ids privs = (Ok (s, rests), out_s) ∧
    c_peerNodeID c = id_NodeID ids ∧ c_peerPublicKey c = id_PublicKey ids ∧
    c_peerNodeID s = id_NodeID idc ∧ c_peerPublicKey s = id_PublicKey idc ∧
    in_sync c s [] [] ∧ in_sync s c [] [].
Proof.
  intros Hc Hs Hfc Hfs Hsh. unfold Session_Client, Session_Server, handshake.
  exists (writeHello [] (hello_of idc kind privc)), (writeHello [] (hello_of ids kind privs)).
  rewrite !buildHello_ok by done. rewrite !readHello_written by done.
  cbn [hello_of h_Version]. fold (hello_of idc kind privc) (hello_of ids kind privs).
  change (negb (sessionVersion =? sessionVersion)) with false. cbv iota.
  rewrite (establish_ok kind idc privc true ids privs shared) by done.
  rewrite (establish_ok kind ids privs false idc privc shared) by (done || by rewrite x_shared_comm).
  eexists _, _. split; [done|]. split; [done|]. cbn. split_and!; try done.
  - split; [done|]. split; [done|]. exists []. split; [constructor|done].
  - split; [done|]. split; [done|]. exists []. split; [constructor|done].
Qed.

(** What an established session proves about its peer. *)
Definition peer_proved `{Ed25519, KeyExchange} (kind : Z) (id : Identity) (priv : bytes) (initiator : bool) (c : Conn) : Prop :=
  ∃ eph sig shared, len (c_peerPublicKey c) = 32 ∧ len eph = 32 ∧
    c_peerNodeID c = NodeIDFromPublicKey (c_peerPublicKey c) ∧
    ed_verify (c_peerPublicKey c) (Session_signingPayload sessionVersion kind (c_peerNodeID c) eph) sig = true ∧
    x_shared priv eph = Some shared ∧
    c_aead c = deriveKey shared (buildTranscript kind (x_public priv) eph (id_PublicKey id) (c_peerPublicKey c) initiator).

Lemma readHello_ok `{Ed25519, AEAD, KeyExchange, JSON hello} r kind h rest : readHello r kind = Ok (h, rest) →
  ∃ pub sig eph, StdEncoding_DecodeString (h_PublicKey h) = Some pub ∧
    StdEncoding_DecodeString (h_Ephemeral h) = Some eph ∧ len pub = 32 ∧ NodeIDFromPublicKey pub = h_NodeID h ∧
    ed_verify pub (Session_signingPayload (h_Version h) kind (h_NodeID h) eph) sig = true.
Proof.
  unfold readHello, ephemeralBytes. intros E. res_inv. bool_prop. simplify_eq.
  match goal with V : ed25519_Verify _ _ _ = Ok true |- _ => apply ed25519_Verify_ok in V as (? & _ & ?) end.
  eexists _, _, _. by split_and!.
Qed.

(** C9: An established session is with the owner of the peer's NodeID: the peer
    sent a signature, under the key that hashes to that NodeID, of this session
    kind, version and ephemeral key, and the session key is derived from both
    ephemeral and both long-term keys; with [ClientExpected] the NodeID and key
    are those the caller asked for. *)
Theorem session_peer_authentic `{Ed25519, AEAD, KeyExchange, JSON hello} (incoming : bytes) (kind : Z)
    (id : Identity) (priv : bytes) (initiator : bool) (c : Conn) (rest out : bytes) :
  handshake incoming kind id priv initiator = (Ok (c, rest), out) →
  peer_proved kind id priv initiator c ∧
  (∀ nodeID publicKey c' rest' out', initiator = true →
     ClientExpected incoming kind id priv nodeID publicKey = (Ok (c', rest'), out') →
     c' = c ∧ c_peerNodeID c = nodeID ∧ StdEncoding_DecodeString publicKey = Some (c_peerPublicKey c)).
Proof.
  intros Hh. split.
  - unfold handshake in Hh. destruct (buildHello _ _ _) as [lh|e|]; [|done..].
    destruct (readHello incoming kind) as [[h r]|e|] eqn:Hr; [|done..].
    destruct (Z.eqb_spec (h_Version h) sessionVersion) as [Hv|]; cbn [negb] in Hh; [|done].
    injection Hh as Hh _. apply readHello_ok in Hr as (pub & sig & eph & Hp & He & Hlp & Hid & Hver).
    unfold establish, ephemeralBytes in Hh. rewrite He, Hp in Hh. cbn [of_option mbind res_bind] in Hh.
    apply res_bind_ok in Hh as (c0 & Hc0 & [= -> ->]). apply res_bind_ok in Hc0 as (rp & Hrp & Hc0).
    apply of_option_ok in Hrp. unfold NewPublicKey in Hrp. destruct (Z.eqb_spec (len eph) 32); [|done]. injection Hrp as <-.
    apply res_bind_ok in Hc0 as (shared & Hsh & [= <-]). apply of_option_ok in Hsh. cbn.
    exists eph, sig, shared. rewrite Hv in Hver. cbn. by split_and!.
  - intros nodeID publicKey c' rest' out' -> Hc. unfold ClientExpected, Session_Client in Hc. rewrite Hh in Hc.
    injection Hc as Hc _. cbn [mbind res_bind] in Hc. res_inv. bool_prop.
    simplify_eq. split_and!; congruence.
Qed.

(** C40: The handshake crashes on a key of the wrong size: a hello whose public key
    does not have 32 bytes and whose NodeID is the hash of that key makes
    [readHello] panic in [ed25519.Verify], before the peer has proved anything;
    so any peer that can connect can stop the process. *)
Theorem hello_key_panics `{Ed25519, AEAD, KeyExchange, JSON hello} (kind version : Z) (pub eph sig rest : bytes) :
  let h := mkHello version (NodeIDFromPublicKey pub) (StdEncoding_EncodeToString pub)
             (StdEncoding_EncodeToString eph) (StdEncoding_EncodeToString sig) in
  len pub ≠ 32 → hello_fits h →
  readHello (writeHello [] h ++ rest) kind = Panic ∧
  ∀ id priv initiator, good_identity id →
    (handshake (writeHello [] h ++ rest) kind id priv initiator).1 = Panic.
Proof.
  intros h Hp [Hs Hl].
  assert (Hr : readHello (writeHello [] h ++ rest) kind = Panic).
  { unfold readHello, writeHello.
    rewrite ReadLengthPrefixed_app by (unfold maxHandshakeSize, max_u32 in *; lia). cbn [mbind res_bind].
    rewrite bytes_str_bytes, json_Unmarshal_Marshal by done. cbn [of_option mbind res_bind].
    unfold ephemeralBytes, h. cbn [h_PublicKey h_Signature h_Ephemeral h_NodeID h_Version].
    rewrite !b64_decode_encode. cbn [of_option mbind res_bind]. rewrite String.eqb_refl. cbn [negb err_if mbind res_bind].
    unfold ed25519_Verify, PublicKeySize. by rewrite (proj2 (Z.eqb_neq _ _) Hp). }
  split; [done|]. intros id priv initiator Hid. unfold handshake. rewrite buildHello_ok by done. by rewrite Hr.
Qed.

(** ** Witnesses *)
#[export] Instance demo_JSON_hello : JSON hello.
Proof.
  refine (demo_JSON 5
    (fun h => [int_field (h_Version h); h_NodeID h; h_PublicKey h; h_Ephemeral h; h_Signature h])
    (fun l => match l with
              | [a; b; c; d; e] => Some (mkHello (field_int a) b c d e)
              | _ => None
              end)
    (fun h => 0 <= h_Version h < 256) _ _); [done|].
  intros [] ?. cbn -[int_field field_int Z.pow] in *. rewrite field_int_field by lia. done.
Defined.

Definition demo_node (b : byte) : Identity :=
  let priv := repeat x00 32 ++ repeat b 32 in
  mkIdentity (NodeIDFromPublicKey (repeat b 32)) (repeat b 32) priv.
Lemma demo_node_good b : good_identity (demo_node b).
Proof. by split_and!. Qed.
Definition demo_conn (dir : Z) : Conn := mkConn [x01] 7 7 [] dir dir "a" "b" [].

Lemma session_stream_fifo_witness :
  ∃ w' flight', Session_Write (demo_conn 0) [] (str_bytes "hello") = Ok (w', flight') ∧
    in_sync w' (demo_conn 0) flight' (str_bytes "hello").
Proof.
  apply (session_stream_fifo (demo_conn 0) (demo_conn 0) [] []).
  split; [reflexivity|]. split; [reflexivity|]. exists []. split; [constructor|reflexivity].
Defined.

Lemma demo_fits_1 : hello_fits (hello_of (demo_node x01) 6 [x05]).
Proof. split; [vm_compute; split; [discriminate|reflexivity]|vm_compute; split; [reflexivity|discriminate]]. Qed.
Lemma demo_fits_2 : hello_fits (hello_of (demo_node x02) 6 [x06]).
Proof. split; [vm_compute; split; [discriminate|reflexivity]|vm_compute; split; [reflexivity|discriminate]]. Qed.
Definition demo_secret : bytes := match x_shared [x05] (x_public [x06]) with Some s => s | None => [] end.

Lemma demo_secret_ok : x_shared [x05] (x_public [x06]) = Some demo_secret.
Proof. reflexivity. Qed.

Lemma handshake_agree_witness : ∃ out_c out_s c s,
  Session_Client (out_s ++ []) 6 (demo_node x01) [x05] = (Ok (c, []), out_c) ∧
  Session_Server (out_c ++ []) 6 (demo_node x02) [x06] = (Ok (s, []), out_s) ∧
  c_peerNodeID c = id_NodeID (demo_node x02) ∧ c_peerPublicKey c = id_PublicKey (demo_node x02) ∧
  c_peerNodeID s = id_NodeID (demo_node x01) ∧ c_peerPublicKey s = id_PublicKey (demo_node x01) ∧
  in_sync c s [] [] ∧ in_sync s c [] [].
Proof.
  apply (handshake_agree 6 (demo_node x01) (demo_node x02) [x05] [x06] demo_secret [] []).
  - apply demo_node_good.
  - apply demo_node_good.
  - exact demo_fits_1.
  - exact demo_fits_2.
  - exact demo_secret_ok.
Defined.

(** The session of the first end, as the second end's hello establishes it. *)
Definition demo_hello_bytes : bytes := writeHello [] (hello_of (demo_node x02) 6 [x06]).
Lemma demo_session_ok : ∃ c out, handshake (demo_hello_bytes ++ []) 6 (demo_node x01) [x05] true = (Ok (c, []), out).
Proof.
  unfold handshake. rewrite buildHello_ok by apply demo_node_good. unfold demo_hello_bytes.
  rewrite readHello_written by (exact demo_fits_2 || apply demo_node_good).
  change (negb (h_Version (hello_of (demo_node x02) 6 [x06]) =? sessionVersion)) with false. cbv iota.
  rewrite (establish_ok 6 (demo_node x01) [x05] true (demo_node x02) [x06] demo_secret (demo_node_good _) demo_secret_ok).
  eexists _, _. cbn [mbind res_bind]. reflexivity.
Qed.
Lemma session_peer_authentic_witness : ∃ c, peer_proved 6 (demo_node x01) [x05] true c.
Proof.
  destruct demo_session_ok as (c & out & Hc). exists c.
  apply (session_peer_authentic (demo_hello_bytes ++ []) 6 (demo_node x01) [x05] true c [] out Hc).
Defined.

Lemma hello_key_panics_witness :
  readHello (writeHello [] (mkHello 2 (NodeIDFromPublicKey [x01]) (StdEncoding_EncodeToString [x01])
    (StdEncoding_EncodeToString [x02]) (StdEncoding_EncodeToString [x03])) ++ []) 6 = Panic.
Proof.
  apply (hello_key_panics 6 2 [x01] [x02] [x03] []); [discriminate|].
  split; [vm_compute; split; [discriminate|reflexivity]|vm_compute; split; [reflexivity|discriminate]].
Defined.
