(* ===== verification/Cell.v ===== *)
(** * Onion cells (internal/onion/cell.go)

    Fixed-size cells, the relay envelope inside them, and the key agreement of
    one hop.  Arrays of the source ([16]byte, [32]byte, [64]byte) are byte
    strings of that length; [copy] into them cuts and pads with zeros. *)
From S2P Require Import Prelude GoBytes GoStrings GoEncoding GoTime Sha256 GoEnv Lines GoNumbers Identity Proto.

Definition cellVersion : Z := 1.
Definition cellSize : Z := 1024.
Definition cellHeaderSize : Z := 20.
Definition cellPayloadSize : Z := cellSize - cellHeaderSize.
Definition maxRelayLayers : Z := 5.
Definition relayTagSize : Z := 16.
Definition relayEnvelopeSize : Z := 7.
Definition maxRelayPlainPayload : Z := cellPayloadSize - maxRelayLayers * relayTagSize.
Definition maxRelayDataPayload : Z := maxRelayPlainPayload - relayEnvelopeSize.

Definition cellTypeCreate : Z := 1.
Definition cellTypeCreated : Z := 2.
Definition cellTypeRelay : Z := 3.
Definition cellTypeDestroy : Z := 4.

Definition relayCmdExtend : Z := 1.
Definition relayCmdExtended : Z := 2.
Definition relayCmdBegin : Z := 3.
Definition relayCmdConnected : Z := 4.
Definition relayCmdData : Z := 5.
Definition relayCmdEnd : Z := 6.
Definition relayCmdError : Z := 7.

Definition relayMagic : bytes := str_bytes "VXRL".

Record cell := mkCell {
  cl_Type : Z;  (* byte *)
  cl_CircuitID : bytes;  (* [16]byte *)
  cl_Payload : bytes;
}.

Record createdPayload := mkCreated { cp_ServerPub : bytes; cp_Signature : bytes }.

(** The ciphers are their keys. *)
Record circuitKeyState := mkKeys {
  k_forward : bytes;
  k_backward : bytes;
  k_forwardCounter : Z;   (* uint64 *)
  k_backwardCounter : Z;  (* uint64 *)
}.

(** [copy] into a zeroed array of [n] bytes. *)
Definition array (n : nat) (b : bytes) : bytes := take n (b ++ repeat x00 n).

(** ** Cells *)
Definition writeCell (w : bytes) (c : cell) : res bytes :=
  err_if (cellPayloadSize <? len (cl_Payload c)) "cell payload too large";;
  Ok (w ++ [Z_byte cellVersion; Z_byte (cl_Type c)] ++ array 16 (cl_CircuitID c) ++
      be_bytes 2 (len (cl_Payload c)) ++ array (Z.to_nat cellPayloadSize) (cl_Payload c)).

Definition readCell (r : bytes) : res (cell * bytes) :=
  '(raw, r) ← of_option (ReadFull r cellSize) "read cell";
  err_if (negb (be_Z (take 1 raw) =? cellVersion)) "unsupported onion cell version";;
  let length := be_Z (take 2 (drop 18 raw)) in
  err_if ((length <? 0) || (cellPayloadSize <? length)) "invalid onion cell payload length";;
  Ok (mkCell (be_Z (take 1 (drop 1 raw))) (take 16 (drop 2 raw)) (take (Z.to_nat length) (drop 20 raw)), r).

Definition circuitIDFromString (id : string) : bytes :=
  match hex_decode id with
  | Some raw => if len raw =? 16 then raw else take 16 (Sum256 (str_bytes id))
  | None => take 16 (Sum256 (str_bytes id))
  end.
(** The label of a random identifier. *)
Definition randomCircuitID (random : bytes) : string := hex_encode random.

(** ** The envelope of a relay command *)
Definition encodeRelayEnvelope (command : Z) (body : bytes) : res bytes :=
  err_if (maxRelayDataPayload <? len body) "relay body too large";;
  Ok (relayMagic ++ [Z_byte command] ++ be_bytes 2 (len body) ++ body).

(** [Ok None] is a payload that is not recognized. *)
Definition decodeRelayEnvelope (payload : bytes) : res (option (Z * bytes)) :=
  if len payload <? relayEnvelopeSize then Ok None
  else if negb (bool_decide (take 4 payload = relayMagic)) then Ok None
  else
    let length := be_Z (take 2 (drop 5 payload)) in
    err_if ((length <? 0) || (len payload <? relayEnvelopeSize + length)) "invalid relay envelope length";;
    Ok (Some (be_Z (take 1 (drop 4 payload)), take (Z.to_nat length) (drop 7 payload))).

Definition counterNonce (counter : Z) : bytes := [x00; x00; x00; x00] ++ be_bytes 8 counter.

Section Keys.
Context `{Ed25519, AEAD, KeyExchange}.

(** ** Key agreement with one relay *)
Definition parseCreatePayload (payload : bytes) : res bytes :=
  err_if (negb (len payload =? 32)) "invalid create payload size";;
  Ok payload.

Definition createdSigningPayload (circuitID clientPub serverPub : bytes) : bytes :=
  str_bytes "vx6-onion-create" ++ [x0a] ++ circuitID ++ clientPub ++ serverPub.

Definition buildCreatedPayload (circuitID clientPub relayPriv signer : bytes) : res (createdPayload * bytes) :=
  let serverPub := array 32 (x_public relayPriv) in
  sig ← ed25519_Sign signer (createdSigningPayload circuitID clientPub serverPub);
  clientKey ← of_option (if len clientPub =? 32 then Some clientPub else None) "parse create public key";
  shared ← of_option (x_shared relayPriv clientKey) "derive onion shared key";
  Ok (mkCreated serverPub (array 64 sig), shared).

Definition marshalCreatedPayload (created : createdPayload) : bytes := cp_ServerPub created ++ cp_Signature created.

Definition verifyCreatedPayload (payload : bytes) (expectedPubKey : string) (circuitID clientPub : bytes) : res bytes :=
  err_if (negb (len payload =? 32 + 64)) "invalid created payload size";;
  let created := mkCreated (take 32 payload) (drop 32 payload) in
  pubKey ← of_option (StdEncoding_DecodeString expectedPubKey) "decode relay public key";
  err_if (negb (len pubKey =? PublicKeySize)) "relay public key has invalid size";;
  ok ← ed25519_Verify pubKey (createdSigningPayload circuitID clientPub (cp_ServerPub created)) (cp_Signature created);
  err_if (negb ok) "created payload signature verification failed";;
  Ok (cp_ServerPub created).

Definition Cell_deriveKey (shared circuitID : bytes) (label : string) : bytes :=
  hkdf_Key shared circuitID ("vx6-onion-" +:+ label).

Definition deriveCircuitKeys (shared circuitID : bytes) : circuitKeyState :=
  mkKeys (Cell_deriveKey shared circuitID "forward") (Cell_deriveKey shared circuitID "backward") 0 0.

Definition deriveClientHopKeys (priv payload : bytes) (relayPublicKey : string) (circuitID clientPub : bytes)
  : res circuitKeyState :=
  serverPub ← verifyCreatedPayload payload relayPublicKey circuitID clientPub;
  serverKey ← of_option (if len serverPub =? 32 then Some serverPub else None) "parse relay response public key";
  shared ← of_option (x_shared priv serverKey) "derive client relay key";
  Ok (deriveCircuitKeys shared circuitID).

(** ** Sealing and opening *)
Definition next_forward (s : circuitKeyState) : circuitKeyState :=
  mkKeys (k_forward s) (k_backward s) (u64 (k_forwardCounter s + 1)) (k_backwardCounter s).
Definition next_backward (s : circuitKeyState) : circuitKeyState :=
  mkKeys (k_forward s) (k_backward s) (k_forwardCounter s) (u64 (k_backwardCounter s + 1)).

Definition sealForward (s : circuitKeyState) (payload : bytes) : res bytes * circuitKeyState :=
  (gcm_Seal (k_forward s) (counterNonce (k_forwardCounter s)) payload [], next_forward s).
Definition openForward (s : circuitKeyState) (payload : bytes) : res bytes * circuitKeyState :=
  match gcm_Open (k_forward s) (counterNonce (k_forwardCounter s)) payload [] with
  | Ok plain => (Ok plain, next_forward s)
  | Err _ => (Err "decrypt forward relay payload", s)
  | Panic => (Panic, s)
  end.
Definition sealBackward (s : circuitKeyState) (payload : bytes) : res bytes * circuitKeyState :=
  (gcm_Seal (k_backward s) (counterNonce (k_backwardCounter s)) payload [], next_backward s).
Definition openBackward (s : circuitKeyState) (payload : bytes) : res bytes * circuitKeyState :=
  match gcm_Open (k_backward s) (counterNonce (k_backwardCounter s)) payload [] with
  | Ok plain => (Ok plain, next_backward s)
  | Err _ => (Err "decrypt backward relay payload", s)
  | Panic => (Panic, s)
  end.
End Keys.

(** ** Cells and envelopes round-trip *)
Lemma length_array n b : length (array n b) = n.
Proof. unfold array. rewrite length_take, length_app, repeat_length. lia. Qed.
Lemma array_id n b : length b = n → array n b = b.
Proof. intros <-. unfold array. by rewrite take_app_length. Qed.
Lemma take_array n m b : (n <= m)%nat → (n <= length b)%nat → take n (array m b) = take n b.
Proof. intros. unfold array. rewrite take_take, Nat.min_l by done. by rewrite take_app_le. Qed.

Definition good_cell (c : cell) : Prop :=
  0 <= cl_Type c < 256 ∧ length (cl_CircuitID c) = 16%nat ∧ len (cl_Payload c) <= cellPayloadSize.

Lemma cell_layout (v t : byte) (id n payload : bytes)  : length id = 16%nat → length n = 2%nat →
  let raw := [v; t] ++ id ++ n ++ payload in
  take 1 raw = [v] ∧ take 1 (drop 1 raw) = [t] ∧ take 16 (drop 2 raw) = id ∧
  take 2 (drop 18 raw) = n ∧ drop 20 raw = payload.
Proof.
  intros Hid Hn. cbn zeta. split_and!; try reflexivity.
  - change (take 16 (id ++ n ++ payload) = id). by apply take_app_length'.
  - change (take 2 (drop 16 (id ++ n ++ payload)) = n). rewrite drop_app_length' by done. by apply take_app_length'.
  - change (drop (16 + 2) (id ++ n ++ payload) = payload). rewrite <- drop_drop, drop_app_length' by done.
    by apply drop_app_length'.
Qed.

Lemma readCell_writeCell w c rest : good_cell c →
  ∃ raw, writeCell w c = Ok (w ++ raw) ∧ len raw = cellSize ∧ readCell (raw ++ rest) = Ok (c, rest).
Proof.
  intros (Ht & Hid & Hp). unfold writeCell. rewrite (proj2 (Z.ltb_ge _ _)) by done. cbn [err_if mbind res_bind].
  eexists. split; [done|]. set (raw := [_; _] ++ _).
  assert (Hn : length (array (Z.to_nat cellPayloadSize) (cl_Payload c)) = 1004%nat) by (rewrite length_array; reflexivity).
  assert (Hraw : len raw = cellSize).
  { unfold len, raw. rewrite !length_app, length_array, length_be_bytes, Hn. reflexivity. }
  split; [done|]. unfold readCell. rewrite <- Hraw, ReadFull_app. cbn [of_option mbind res_bind].
  destruct (cell_layout (Z_byte cellVersion) (Z_byte (cl_Type c)) (array 16 (cl_CircuitID c))
    (be_bytes 2 (len (cl_Payload c))) (array (Z.to_nat cellPayloadSize) (cl_Payload c)))
    as (E1 & E2 & E3 & E4 & E5); [apply length_array|apply length_be_bytes|]. fold raw in E1, E2, E3, E4, E5.
  rewrite E1, E2, E3, E4, E5. pose proof (len_nonneg (cl_Payload c)).
  rewrite be_Z_be_bytes, Z.mod_small by (unfold cellPayloadSize, cellSize, cellHeaderSize in Hp; cbn; lia).
  unfold be_Z at 1. cbn [foldl]. rewrite byte_Z_byte. change (0 * 256 + cellVersion mod 256 =? cellVersion) with true.
  cbn [negb err_if mbind res_bind]. rewrite (proj2 (Z.ltb_ge _ _)), (proj2 (Z.ltb_ge cellPayloadSize _)) by lia.
  cbn [orb err_if mbind res_bind]. do 2 f_equal. rewrite take_array, array_id by (done || (unfold len in *; lia)).
  unfold be_Z. cbn [foldl]. rewrite byte_Z_byte, Z.mod_small, Z.mul_0_l, Z.add_0_l by lia. unfold len. rewrite Nat2Z.id, firstn_all.
  by destruct c.
Qed.

(** C26: Cells round-trip at a constant size: a cell with an array-sized circuit
    identifier is written as exactly 1024 bytes from which [readCell] gives the
    same cell back and leaves the rest of the stream, if its payload has at most
    1004 bytes; a larger payload is refused; and what [readCell] accepts is
    always such a cell. *)
Theorem cell_roundtrip (w rest : bytes) (c : cell) :
  (good_cell c → ∃ raw, writeCell w c = Ok (w ++ raw) ∧ len raw = cellSize ∧ readCell (raw ++ rest) = Ok (c, rest)) ∧
  (cellPayloadSize < len (cl_Payload c) → writeCell w c = Err "cell payload too large") ∧
  (∀ r c' r', readCell r = Ok (c', r') → good_cell c' ∧ len r = cellSize + len r').
Proof.
  split_and!.
  - apply readCell_writeCell.
  - intros Hp. unfold writeCell. by rewrite (proj2 (Z.ltb_lt _ _) Hp).
  - intros r c' r' E. unfold readCell in E. apply res_bind_ok in E as ([raw r0] & E1 & E).
    apply of_option_ok, ReadFull_spec in E1 as [-> Hraw]; [|unfold cellSize; lia].
    apply res_bind_ok in E as (? & _ & E). apply res_bind_ok in E as (? & Hl & [= <- <-]).
    apply err_if_ok in Hl. bool_prop. unfold len in *. unfold cellSize, cellPayloadSize in *. unfold good_cell. cbn.
    rewrite length_app. split; [|lia]. split_and!.
    + apply be_Z_range.
    + pose proof (be_Z_range (take 1 (drop 1 raw))) as Hb. unfold len in Hb. rewrite length_take, length_drop in Hb.
      replace (1 `min` (length raw - 1))%nat with 1%nat in Hb by lia. lia.
    + rewrite length_take, length_drop. lia.
    + unfold len. rewrite length_take, length_drop. unfold cellPayloadSize, cellSize, cellHeaderSize in *. lia.
Qed.

Lemma decode_encode_envelope cmd body : 0 <= cmd < 256 → len body <= maxRelayDataPayload →
  ∃ p, encodeRelayEnvelope cmd body = Ok p ∧ len p = relayEnvelopeSize + len body ∧
    decodeRelayEnvelope p = Ok (Some (cmd, body)).
Proof.
  intros Hc Hb. unfold encodeRelayEnvelope. rewrite (proj2 (Z.ltb_ge _ _)) by done. cbn [err_if mbind res_bind].
  eexists. split; [done|]. pose proof (len_nonneg body). pose proof (length_be_bytes 2 (len body)) as Hn.
  set (n := be_bytes 2 (len body)) in *.
  assert (Hlen : len (relayMagic ++ [Z_byte cmd] ++ n ++ body) = relayEnvelopeSize + len body).
  { unfold len. rewrite !length_app, Hn. cbn [length relayMagic str_bytes]. unfold relayEnvelopeSize. cbn. lia. }
  split; [done|]. unfold decodeRelayEnvelope. rewrite Hlen, (proj2 (Z.ltb_ge _ _)) by lia.
  change (take 4 (relayMagic ++ [Z_byte cmd] ++ n ++ body)) with relayMagic. rewrite bool_decide_eq_true_2 by done. cbn [negb].
  change (drop 5 (relayMagic ++ [Z_byte cmd] ++ n ++ body)) with (n ++ body).
  change (drop 7 (relayMagic ++ [Z_byte cmd] ++ n ++ body)) with (drop 2 (n ++ body)).
  change (take 1 (drop 4 (relayMagic ++ [Z_byte cmd] ++ n ++ body))) with [Z_byte cmd].
  rewrite take_app_length', drop_app_length' by done. unfold n at 1 2 3.
  rewrite be_Z_be_bytes, Z.mod_small
    by (unfold maxRelayDataPayload, maxRelayPlainPayload, cellPayloadSize, cellSize, cellHeaderSize,
          maxRelayLayers, relayTagSize, relayEnvelopeSize in Hb; cbn; lia).
  rewrite (proj2 (Z.ltb_ge (len body) 0)), Z.ltb_irrefl by lia. cbn [orb err_if mbind res_bind].
  unfold be_Z. cbn [foldl]. rewrite byte_Z_byte, Z.mod_small by lia. unfold len. rewrite Nat2Z.id, firstn_all. done.
Qed.

(** ** Both ends of a hop derive the same keys *)
Lemma hop_keys_agree `{Ed25519, AEAD, KeyExchange} circuitID cpriv rpriv shared signer :
  ed_keypair signer → x_shared rpriv (x_public cpriv) = Some shared →
  ∃ created, buildCreatedPayload circuitID (x_public cpriv) rpriv signer = Ok (created, shared) ∧
    len (marshalCreatedPayload created) = 96 ∧
    deriveClientHopKeys cpriv (marshalCreatedPayload created) (StdEncoding_EncodeToString (ed_Public signer))
      circuitID (x_public cpriv) = Ok (deriveCircuitKeys shared circuitID).
Proof.
  intros Hk Hsh. pose proof (ed_keypair_length _ Hk) as Hkl. pose proof (x_public_length rpriv) as Hpl.
  assert (Hpub : len (ed_Public signer) = 32) by (unfold ed_Public, len in *; rewrite length_drop; lia).
  unfold buildCreatedPayload, ed25519_Sign, PrivateKeySize. rewrite Hkl, x_public_length.
  rewrite (array_id 32 (x_public rpriv)) by (unfold len in Hpl; lia). cbn [Z.eqb Pos.eqb of_option mbind res_bind].
  rewrite Hsh. cbn [of_option mbind res_bind]. eexists. split; [done|].
  set (sig := ed_sign signer _).
  assert (Hsl : len sig = 64) by apply ed_sign_length.
  rewrite (array_id 64 sig) by (clear -Hsl; unfold len in Hsl; lia). unfold marshalCreatedPayload. cbn [cp_ServerPub cp_Signature].
  assert (Hlen : len (x_public rpriv ++ sig) = 96) by (rewrite len_app; lia). split; [done|].
  unfold deriveClientHopKeys, verifyCreatedPayload. rewrite Hlen. change (negb (96 =? 32 + 64)) with false.
  cbn [err_if mbind res_bind cp_ServerPub cp_Signature].
  rewrite take_app_length', drop_app_length' by (unfold len in Hpl; lia).
  rewrite b64_decode_encode. cbn [of_option mbind res_bind]. unfold PublicKeySize. rewrite Hpub. cbn [Z.eqb Pos.eqb negb err_if mbind res_bind].
  unfold ed25519_Verify, PublicKeySize, SignatureSize. rewrite Hpub, Hsl. cbn [Z.eqb Pos.eqb andb].
  unfold ed_Public, sig. rewrite ed_verify_sign by done. cbn [mbind res_bind negb err_if].
  rewrite Hpl. cbn [Z.eqb Pos.eqb of_option mbind res_bind]. by rewrite x_shared_comm, Hsh.
Qed.
