(* ===== verification/Circuit.v ===== *)
(** * Onion circuits (internal/onion/circuit.go, onion.go)

    The relay of a circuit, with the bytes it has written to its client side,
    its next relay and its target, and the client with the keys of its hops.
    Dialling is an oracle: [dial_relay] gives the bytes the next relay answers
    with, [dial_target] says whether the target accepts.  Log output and the
    test hooks of the package are left out.  Locks only order the steps; the
    goroutines of a relay ([serve], [pumpOutbound], [pumpTarget]) are separate
    step functions. *)
From S2P Require Import Prelude GoBytes GoStrings GoEncoding GoTime Sha256 GoEnv Lines GoNumbers Identity Record Proto Cell.

Record extendCommand := mkExtend { ex_NextHop : string; ex_ExpectedNodeID : string; ex_ClientPublicKey : string }.
Record beginCommand := mkBegin { bg_TargetAddr : string }.
Record errorCommand := mkError { ec_Message : string }.

Record relayCircuit := mkRelay {
  rc_nodeID : string;
  rc_circuitID : bytes;
  rc_keys : circuitKeyState;
  rc_inbound : bytes;          (* written towards the client *)
  rc_outbound : option bytes;  (* written to the next relay *)
  rc_target : option bytes;    (* written to the target *)
}.

Definition set_keys (k : circuitKeyState) (c : relayCircuit) : relayCircuit :=
  mkRelay (rc_nodeID c) (rc_circuitID c) k (rc_inbound c) (rc_outbound c) (rc_target c).
Definition set_inbound (b : bytes) (c : relayCircuit) : relayCircuit :=
  mkRelay (rc_nodeID c) (rc_circuitID c) (rc_keys c) b (rc_outbound c) (rc_target c).
Definition set_outbound (o : option bytes) (c : relayCircuit) : relayCircuit :=
  mkRelay (rc_nodeID c) (rc_circuitID c) (rc_keys c) (rc_inbound c) o (rc_target c).
Definition set_target (o : option bytes) (c : relayCircuit) : relayCircuit :=
  mkRelay (rc_nodeID c) (rc_circuitID c) (rc_keys c) (rc_inbound c) (rc_outbound c) o.

Section Relay.
Context `{Ed25519, AEAD, KeyExchange, JSON extendCommand, JSON beginCommand, JSON errorCommand}.
Context (dial_relay : string → string → res bytes) (dial_target : string → bool).

(** ** The relay *)
Definition writeInbound (msg : cell) (c : relayCircuit) : res unit * relayCircuit :=
  match writeCell (rc_inbound c) msg with
  | Ok w => (Ok tt, set_inbound w c)
  | Err e => (Err e, c)
  | Panic => (Panic, c)
  end.

(** Seal a payload and write it as a relay cell. *)
Definition seal_inbound (payload : bytes) (c : relayCircuit) : res unit * relayCircuit :=
  let '(r, k) := sealBackward (rc_keys c) payload in
  match r with
  | Ok sealed => writeInbound (mkCell cellTypeRelay (rc_circuitID c) sealed) (set_keys k c)
  | Err e => (Err e, c)
  | Panic => (Panic, c)
  end.

Definition sendBackwardPlain (command : Z) (body : bytes) (c : relayCircuit) : res unit * relayCircuit :=
  match encodeRelayEnvelope command body with
  | Ok payload => seal_inbound payload c
  | Err e => (Err e, c)
  | Panic => (Panic, c)
  end.

Definition sendBackwardError (e : string) (c : relayCircuit) : res unit * relayCircuit :=
  sendBackwardPlain relayCmdError (str_bytes (json_Marshal (mkError e))) c.

(** [HandleExtend] up to [serve]: the circuit, and the rest of the stream. *)
Definition HandleExtend (inbound : bytes) (id : Identity) (relayPriv : bytes) : res (relayCircuit * bytes) :=
  '(firstCell, rest) ← readCell inbound;
  err_if (negb (cl_Type firstCell =? cellTypeCreate)) "expected create cell";;
  clientPub ← parseCreatePayload (cl_Payload firstCell);
  '(created, shared) ← buildCreatedPayload (cl_CircuitID firstCell) clientPub relayPriv (id_PrivateKey id);
  w ← writeCell [] (mkCell cellTypeCreated (cl_CircuitID firstCell) (marshalCreatedPayload created));
  Ok (mkRelay (id_NodeID id) (cl_CircuitID firstCell) (deriveCircuitKeys shared (cl_CircuitID firstCell)) w None None,
      rest).

(** The create cell to the next relay and its answer. *)
Definition extend_to (c : relayCircuit) (clientPub answer : bytes) : res (bytes * bytes) :=
  out ← writeCell [] (mkCell cellTypeCreate (rc_circuitID c) clientPub);
  '(created, _) ← readCell answer;
  err_if (negb (cl_Type created =? cellTypeCreated)) "expected created from next relay";;
  Ok (out, cl_Payload created).

Definition handleExtendCommand (req : extendCommand) (c : relayCircuit) : res unit * relayCircuit :=
  if ex_NextHop req =?s "" then sendBackwardError "extend command missing next hop" c
  else match StdEncoding_DecodeString (ex_ClientPublicKey req) with
  | None => sendBackwardError "decode extend client key" c
  | Some clientPubRaw =>
      if negb (len clientPubRaw =? 32) then sendBackwardError "invalid extend client key size" c
      else match rc_outbound c with
      | Some _ => sendBackwardError "circuit already extended" c
      | None =>
          match dial_relay (ex_NextHop req) (ex_ExpectedNodeID req) with
          | Ok answer =>
              match extend_to c clientPubRaw answer with
              | Ok (out, created) => sendBackwardPlain relayCmdExtended created (set_outbound (Some out) c)
              | Err e => sendBackwardError e c
              | Panic => (Panic, c)
              end
          | Err _ => sendBackwardError "dial next relay" c
          | Panic => (Panic, c)
          end
      end
  end.

Definition handleBeginCommand (req : beginCommand) (c : relayCircuit) : res unit * relayCircuit :=
  if bg_TargetAddr req =?s "" then sendBackwardError "begin command missing target" c
  else match rc_target c with
  | Some _ => sendBackwardError "circuit already has a target" c
  | None =>
      if dial_target (bg_TargetAddr req) then sendBackwardPlain relayCmdConnected [] (set_target (Some []) c)
      else sendBackwardError "dial circuit target" c
  end.

(** A command addressed to this relay. *)
Definition relay_command (cmd : Z) (body : bytes) (c : relayCircuit) : res unit * relayCircuit :=
  if cmd =? relayCmdExtend then
    match json_Unmarshal (bytes_str body) with
    | None => sendBackwardError "decode extend command" c
    | Some req => handleExtendCommand req c
    end
  else if cmd =? relayCmdBegin then
    match json_Unmarshal (bytes_str body) with
    | None => sendBackwardError "decode begin command" c
    | Some req => handleBeginCommand req c
    end
  else if cmd =? relayCmdData then
    match rc_target c with
    | None => sendBackwardError "circuit has no target connection" c
    | Some t => (Ok tt, set_target (Some (t ++ body)) c)
    end
  else if cmd =? relayCmdEnd then sendBackwardPlain relayCmdEnd [] (set_target None c)
  else sendBackwardError "unsupported relay command" c.

Definition handleRelayCell (payload : bytes) (c : relayCircuit) : res unit * relayCircuit :=
  let '(r, k) := openForward (rc_keys c) payload in
  let c := set_keys k c in
  match r with
  | Ok inner =>
      match decodeRelayEnvelope inner with
      | Ok None =>
          match rc_outbound c with
          | None => (Err "opaque relay payload arrived before outbound hop existed", c)
          | Some out =>
              match writeCell out (mkCell cellTypeRelay (rc_circuitID c) inner) with
              | Ok out => (Ok tt, set_outbound (Some out) c)
              | Err e => (Err e, c)
              | Panic => (Panic, c)
              end
          end
      | Ok (Some (cmd, body)) => relay_command cmd body c
      | Err e => (Err e, c)
      | Panic => (Panic, c)
      end
  | Err e => (Err e, c)
  | Panic => (Panic, c)
  end.

Definition closeAll (c : relayCircuit) : relayCircuit := set_outbound None (set_target None c).

(** One iteration of [serve]: whether it goes on. *)
Definition serve_step (nextCell : cell) (c : relayCircuit) : res bool * relayCircuit :=
  if negb (bool_decide (cl_CircuitID nextCell = rc_circuitID c))
  then (Err "unexpected circuit id on relay segment", c)
  else if cl_Type nextCell =? cellTypeRelay then
    let '(r, c) := handleRelayCell (cl_Payload nextCell) c in (r ≫= fun _ => Ok true, c)
  else if cl_Type nextCell =? cellTypeDestroy then
    match rc_outbound c with
    | Some out =>
        match writeCell out (mkCell cellTypeDestroy (rc_circuitID c) []) with
        | Ok out => (Ok false, set_outbound (Some out) c)
        | _ => (Ok false, c)
        end
    | None => (Ok false, c)
    end
  else (Err "unexpected onion cell type", c).

(** [serve] over the bytes that arrive; each cell takes 1024 of them. *)
Fixpoint serve (fuel : nat) (inbound : bytes) (c : relayCircuit) : res unit * relayCircuit :=
  match fuel with
  | O => (Ok tt, c)
  | S fuel =>
      match readCell inbound with
      | Err e => ((if len inbound =? 0 then Ok tt else Err e), closeAll c)
      | Panic => (Panic, closeAll c)
      | Ok (nextCell, rest) =>
          match serve_step nextCell c with
          | (Ok true, c) => serve fuel rest c
          | (Ok false, c) => (Ok tt, closeAll c)
          | (Err e, c) => (Err e, closeAll c)
          | (Panic, c) => (Panic, closeAll c)
          end
      end
  end.

(** One iteration of [pumpOutbound] on what was read from the next relay. *)
Definition pumpOutbound_step (next : res cell) (c : relayCircuit) : bool * relayCircuit :=
  let stop (c : relayCircuit) := (false, set_outbound None c) in
  match next with
  | Ok nextCell =>
      if cl_Type nextCell =? cellTypeRelay then
        match seal_inbound (cl_Payload nextCell) c with
        | (Ok _, c) => (true, c)
        | (_, c) => stop c
        end
      else if cl_Type nextCell =? cellTypeDestroy then
        stop (writeInbound (mkCell cellTypeDestroy (rc_circuitID c) []) c).2
      else stop (sendBackwardError "unexpected downstream cell type" c).2
  | _ => stop (sendBackwardPlain relayCmdEnd [] c).2
  end.

(** One iteration of [pumpTarget]: the bytes read and whether the read failed. *)
Definition pumpTarget_step (buf : bytes) (failed : bool) (c : relayCircuit) : bool * relayCircuit :=
  let stop (c : relayCircuit) := (false, set_target None c) in
  let '(sent, c) := if 0 <? len buf then sendBackwardPlain relayCmdData buf c else (Ok tt, c) in
  match sent with
  | Ok _ => if failed then stop (sendBackwardPlain relayCmdEnd [] c).2 else (true, c)
  | _ => stop c
  end.
End Relay.

(** ** The client *)
Section Client.
Context `{Ed25519, AEAD, KeyExchange, JSON extendCommand, JSON beginCommand, JSON errorCommand}.

(** The layers of a command, from the last hop to the first. *)
Fixpoint seal_layers (hops : list circuitKeyState) (payload : bytes) : res bytes * list circuitKeyState :=
  match hops with
  | [] => (Ok payload, [])
  | hop :: hops =>
      let '(r, hops) := seal_layers hops payload in
      match r with
      | Ok p => let '(r, hop) := sealForward hop p in (r, hop :: hops)
      | e => (e, hop :: hops)
      end
  end.

Definition sendRelayCommand (out circuitID : bytes) (hops : list circuitKeyState) (command : Z) (body : bytes)
  : res bytes * list circuitKeyState :=
  match encodeRelayEnvelope command body with
  | Ok payload =>
      let '(r, hops) := seal_layers hops payload in
      (payload ← r; writeCell out (mkCell cellTypeRelay circuitID payload), hops)
  | Err e => (Err e, hops)
  | Panic => (Panic, hops)
  end.

(** The layers of a response, opened from the first hop to the last. *)
Fixpoint open_layers (hops : list circuitKeyState) (payload : bytes) : res bytes * list circuitKeyState :=
  match hops with
  | [] => (Ok payload, [])
  | hop :: hops =>
      let '(r, hop) := openBackward hop payload in
      match r with
      | Ok p => let '(r, hops) := open_layers hops p in (r, hop :: hops)
      | e => (e, hop :: hops)
      end
  end.

(** [readRelayResponse]: the command, and the bytes left. *)
Definition readRelayResponse (incoming circuitID : bytes) (hops : list circuitKeyState)
  : res (Z * bytes * bytes) * list circuitKeyState :=
  match readCell incoming with
  | Ok (resp, rest) =>
      if negb (bool_decide (cl_CircuitID resp = circuitID)) then (Err "mismatched circuit id in relay response", hops)
      else if cl_Type resp =? cellTypeRelay then
        let '(r, hops) := open_layers hops (cl_Payload resp) in
        (payload ← r;
         env ← decodeRelayEnvelope payload;
         match env with
         | Some (cmd, body) => Ok (cmd, body, rest)
         | None => Err "relay response remained opaque after full unwrap"
         end, hops)
      else if cl_Type resp =? cellTypeDestroy then (Err "EOF", hops)
      else (Err "unexpected relay response cell type", hops)
  | Err e => (Err e, hops)
  | Panic => (Panic, hops)
  end.

(** A connection while a circuit is built: bytes to come and bytes written. *)
Abbreviation wires := (bytes * bytes)%type (only parsing).

Definition establishFirstHop (io : wires) (circuitID : bytes) (relay : EndpointRecord) (clientPriv : bytes)
  : res (circuitKeyState * wires) :=
  let clientPub := x_public clientPriv in
  out ← writeCell io.2 (mkCell cellTypeCreate circuitID clientPub);
  '(resp, rest) ← readCell io.1;
  err_if (negb (cl_Type resp =? cellTypeCreated)) "expected created cell from first hop";;
  keys ← deriveClientHopKeys clientPriv (cl_Payload resp) (er_PublicKey relay) circuitID clientPub;
  Ok (keys, (rest, out)).

(** The error an error response reports. *)
Definition reported_error (payload : bytes) (other : string) : string :=
  match json_Unmarshal (bytes_str payload) with
  | Some e => if ec_Message e =?s "" then other else ec_Message e
  | None => other
  end.

(** A command and its response, which must be [want]. *)
Definition ask (io : wires) (circuitID : bytes) (hops : list circuitKeyState) (command : Z) (body : bytes)
    (want : Z) (failed unexpected : string) : res (bytes * list circuitKeyState * wires) :=
  let '(r, hops) := sendRelayCommand io.2 circuitID hops command body in
  out ← r;
  let '(r, hops) := readRelayResponse io.1 circuitID hops in
  '(cmd, payload, rest) ← r;
  if cmd =? relayCmdError then Err (reported_error payload failed)
  else
    err_if (negb (cmd =? want)) unexpected;;
    Ok (payload, hops, (rest, out)).

Definition extendCircuit (io : wires) (circuitID : bytes) (relay : EndpointRecord) (hops : list circuitKeyState)
    (clientPriv : bytes) : res (list circuitKeyState * wires) :=
  let clientPub := x_public clientPriv in
  let body := json_Marshal (mkExtend (er_Address relay) (er_NodeID relay) (StdEncoding_EncodeToString clientPub)) in
  '(payload, hops, io) ← ask io circuitID hops relayCmdExtend (str_bytes body) relayCmdExtended
                           "relay extend failed" "expected extended response";
  keys ← deriveClientHopKeys clientPriv payload (er_PublicKey relay) circuitID clientPub;
  Ok (hops ++ [keys], io).

Definition beginCircuit (io : wires) (circuitID : bytes) (targetAddr : string) (hops : list circuitKeyState)
  : res (list circuitKeyState * wires) :=
  '(_, hops, io) ← ask io circuitID hops relayCmdBegin (str_bytes (json_Marshal (mkBegin targetAddr)))
                     relayCmdConnected "relay begin failed" "expected connected response";
  Ok (hops, io).

Fixpoint extend_all (io : wires) (circuitID : bytes) (relays : list (EndpointRecord * bytes))
    (hops : list circuitKeyState) : res (list circuitKeyState * wires) :=
  match relays with
  | [] => Ok (hops, io)
  | (relay, priv) :: relays =>
      '(hops, io) ← extendCircuit io circuitID relay hops priv;
      extend_all io circuitID relays hops
  end.

Record CircuitPlan := mkPlan {
  pl_CircuitID : string;
  pl_Relays : list EndpointRecord;
  pl_TargetAddr : string;
  pl_Purpose : string;
}.

(** [DialPlannedCircuit] on the connection to the first relay; [privs] are the
    client's random keys, [random] a fresh identifier. *)
Definition DialPlannedCircuit (plan : CircuitPlan) (incoming : bytes) (privs : list bytes) (random : bytes)
  : res (bytes * list circuitKeyState * wires) :=
  match zip (pl_Relays plan) privs with
  | [] => Err "circuit plan has no relays"
  | (relay, priv) :: relays =>
      let circuitID := if pl_CircuitID plan =?s "" then circuitIDFromString (randomCircuitID random)
                       else circuitIDFromString (pl_CircuitID plan) in
      '(keys, io) ← establishFirstHop (incoming, []) circuitID relay priv;
      '(hops, io) ← extend_all io circuitID relays [keys];
      '(hops, io) ← (if pl_TargetAddr plan =?s "" then Ok (hops, io)
                     else beginCircuit io circuitID (pl_TargetAddr plan) hops);
      Ok (circuitID, hops, io)
  end.

(** [clientCircuitConn.Write]: full payloads, then the rest. *)
Fixpoint circuit_write (fuel : nat) (out circuitID : bytes) (hops : list circuitKeyState) (p : bytes)
  : res bytes * list circuitKeyState :=
  match fuel with
  | O => (Ok out, hops)
  | S fuel =>
      if len p =? 0 then (Ok out, hops)
      else
        let n := Z.to_nat (Z.min (len p) maxRelayDataPayload) in
        match sendRelayCommand out circuitID hops relayCmdData (take n p) with
        | (Ok out, hops) => circuit_write fuel out circuitID hops (drop n p)
        | r => r
        end
  end.
Definition Circuit_Write (out circuitID : bytes) (hops : list circuitKeyState) (p : bytes) :=
  circuit_write (length p) out circuitID hops p.

Definition Circuit_Close (out circuitID : bytes) (hops : list circuitKeyState) : bytes * list circuitKeyState :=
  let '(r, hops) := sendRelayCommand out circuitID hops relayCmdEnd [] in
  let out := match r with Ok out => out | _ => out end in
  (match writeCell out (mkCell cellTypeDestroy circuitID []) with Ok out => out | _ => out end, hops).

(** One iteration of [readPump] on a cell: what it puts on the channels. *)
Inductive pumped :=
| Chunk (body : bytes)    (* readCh <- body, and go on *)
| Ignored                 (* another command: go on *)
| Ended (e : string).     (* errCh <- e, and stop *)

Definition readPump_step (c : cell) (hops : list circuitKeyState) : pumped * list circuitKeyState :=
  if cl_Type c =? cellTypeRelay then
    let '(r, hops) := open_layers hops (cl_Payload c) in
    (match r ≫= decodeRelayEnvelope with
     | Ok (Some (cmd, body)) =>
         if cmd =? relayCmdData then Chunk body
         else if cmd =? relayCmdEnd then Ended "EOF"
         else if cmd =? relayCmdError then Ended (reported_error body "relay circuit closed with error")
         else Ignored
     | Ok None => Ended "received opaque relay payload after full unwrap"
     | Err e => Ended e
     | Panic => Ended "panic"
     end, hops)
  else if cl_Type c =? cellTypeDestroy then (Ended "EOF", hops)
  else (Ended "unexpected onion cell type", hops).

(** The receiving side of the connection: the buffer and the two channels. *)
Record receiver := mkReceiver { r_buf : bytes; r_chunks : list bytes; r_err : option string }.

(** [readPump] over the cells that arrive, up to the capacity of the channel. *)
Fixpoint readPump (cells : list cell) (hops : list circuitKeyState) (r : receiver) : receiver :=
  match cells with
  | [] => r
  | c :: cells =>
      match readPump_step c hops with
      | (Chunk body, hops) => readPump cells hops (mkReceiver (r_buf r) (r_chunks r ++ [body]) (r_err r))
      | (Ignored, hops) => readPump cells hops r
      | (Ended e, _) => mkReceiver (r_buf r) (r_chunks r) (Some e)
      end
  end.

(** [clientCircuitConn.Read] into [n] bytes.  When both channels are ready,
    [select] takes either: [pick_error] is its choice each time.  [None]: the
    call blocks. *)
Fixpoint circuit_read (fuel : nat) (n : nat) (pick_error : nat → bool) (r : receiver) : option (res bytes * receiver) :=
  match r_buf r with
  | _ :: _ => Some (Ok (take n (r_buf r)), mkReceiver (drop n (r_buf r)) (r_chunks r) (r_err r))
  | [] =>
      match fuel with
      | O => None
      | S fuel =>
          match r_chunks r, r_err r with
          | [], None => None
          | [], Some e => Some (Err e, mkReceiver [] [] None)
          | chunk :: chunks, None => circuit_read fuel n pick_error (mkReceiver chunk chunks None)
          | chunk :: chunks, Some e =>
              if pick_error fuel then Some (Err e, mkReceiver [] (chunk :: chunks) None)
              else circuit_read fuel n pick_error (mkReceiver chunk chunks (Some e))
          end
      end
  end.

(** ** Planning a circuit

    [pick] chooses an introduction point, [shuffle] is [rng.Shuffle]. *)
Fixpoint usable_peers (seen : list string) (peers : list EndpointRecord) : list EndpointRecord :=
  match peers with
  | [] => []
  | peer :: peers =>
      if (er_Address peer =?s "") || bool_decide (er_Address peer ∈ seen) then usable_peers seen peers
      else peer :: usable_peers (er_Address peer :: seen) peers
  end.

Definition PlanAutomatedCircuit (finalTarget : ServiceRecord) (allPeers : list EndpointRecord) (hopCount : Z)
    (excludeAddrs : list string) (pick : nat → nat) (shuffle : list EndpointRecord → list EndpointRecord)
    (random : bytes) : res CircuitPlan :=
  err_if (hopCount <=? 0) "hop count must be greater than zero";;
  let targetAddr :=
    if sr_IsHidden finalTarget && (0 <? Z.of_nat (length (sr_IntroPoints finalTarget)))
    then sr_IntroPoints finalTarget !!! pick (length (sr_IntroPoints finalTarget)) else sr_Address finalTarget in
  err_if (targetAddr =?s "") "service does not expose a reachable address for proxy mode";;
  let seen := targetAddr :: List.filter (fun addr => addr <>?s "") excludeAddrs in
  let filtered := usable_peers seen allPeers in
  err_if (Z.of_nat (length filtered) <? hopCount) "not enough peers in registry to build the chain";;
  Ok (mkPlan (randomCircuitID random) (take (Z.to_nat hopCount) (shuffle filtered)) targetAddr "relay").
End Client.
