(* ===== verification/CircuitProps.v ===== *)
(** * What circuits guarantee

    A command reaches the last relay of a circuit and only that relay acts on
    it, a response reaches the client, both stay in step; five layers always
    fit in a cell; and where the code loses data. *)
From S2P Require Import Prelude GoBytes GoStrings GoEncoding GoTime Sha256 GoEnv Lines GoNumbers Identity Record Proto Cell Circuit.

Lemma len_counterNonce ctr : len (counterNonce ctr) = 12.
Proof. unfold counterNonce, len. rewrite length_app, length_be_bytes. reflexivity. Qed.

Section Layers.
Context `{Ed25519, AEAD, KeyExchange, JSON extendCommand, JSON beginCommand, JSON errorCommand}.

(** The layers of the two directions. *)
Definition seal_f (h : circuitKeyState) (p : bytes) : bytes :=
  aead_Seal (k_forward h) (counterNonce (k_forwardCounter h)) p [].
Definition seal_b (h : circuitKeyState) (p : bytes) : bytes :=
  aead_Seal (k_backward h) (counterNonce (k_backwardCounter h)) p [].
Definition layered (hops : list circuitKeyState) (p : bytes) : bytes := foldr seal_f p hops.
Definition layered_b (hops : list circuitKeyState) (p : bytes) : bytes := foldr seal_b p hops.

Lemma sealForward_eq h p : sealForward h p = (Ok (seal_f h p), next_forward h).
Proof. unfold sealForward, gcm_Seal. by rewrite len_counterNonce. Qed.
Lemma sealBackward_eq h p : sealBackward h p = (Ok (seal_b h p), next_backward h).
Proof. unfold sealBackward, gcm_Seal. by rewrite len_counterNonce. Qed.

Lemma seal_layers_eq hops p : seal_layers hops p = (Ok (layered hops p), next_forward <$> hops).
Proof. induction hops as [|h hops IH]; [done|]. cbn [seal_layers]. rewrite IH, sealForward_eq. done. Qed.

Lemma len_layered hops p : len (layered hops p) = len p + 16 * Z.of_nat (length hops).
Proof. induction hops as [|h hops IH]; cbn [layered foldr length]; [lia|]. fold (layered hops p).
  unfold seal_f. rewrite aead_Seal_length, IH. lia. Qed.
Lemma len_layered_b hops p : len (layered_b hops p) = len p + 16 * Z.of_nat (length hops).
Proof. induction hops as [|h hops IH]; cbn [layered_b foldr length]; [lia|]. fold (layered_b hops p).
  unfold seal_b. rewrite aead_Seal_length, IH. lia. Qed.

(** The keys and counters of the two ends of a hop agree. *)
Definition sync_f (h : circuitKeyState) (c : relayCircuit) : Prop :=
  k_forward h = k_forward (rc_keys c) ∧ k_forwardCounter h = k_forwardCounter (rc_keys c).
Definition sync_b (h : circuitKeyState) (c : relayCircuit) : Prop :=
  k_backward h = k_backward (rc_keys c) ∧ k_backwardCounter h = k_backwardCounter (rc_keys c).
(** A step in one direction leaves the other in step. *)
Lemma sync_b_forward h c k : sync_b h c → k_backward k = k_backward (rc_keys c) →
  k_backwardCounter k = k_backwardCounter (rc_keys c) → sync_b (next_forward h) (set_keys k c).
Proof. unfold sync_b. intros [? ?] ? ?. cbn. split; congruence. Qed.

Definition opened (c : relayCircuit) : relayCircuit := set_keys (next_forward (rc_keys c)) c.

Lemma openForward_sync h c p : sync_f h c → openForward (rc_keys c) (seal_f h p) = (Ok p, next_forward (rc_keys c)).
Proof.
  intros [Hk Hc]. unfold openForward, gcm_Open, seal_f. rewrite len_counterNonce, Hk, Hc, aead_Open_Seal. done.
Qed.
Lemma openBackward_sync h p : openBackward h (seal_b h p) = (Ok p, next_backward h).
Proof. unfold openBackward, gcm_Open, seal_b. by rewrite len_counterNonce, aead_Open_Seal. Qed.
Lemma open_layers_eq hops p : open_layers hops (layered_b hops p) = (Ok p, next_backward <$> hops).
Proof.
  induction hops as [|h hops IH]; [done|]. cbn [open_layers layered_b foldr]. fold (layered_b hops p).
  by rewrite openBackward_sync, IH.
Qed.

Lemma sync_f_opened h c : sync_f h c → sync_f (next_forward h) (opened c).
Proof. unfold sync_f. intros [? ?]. cbn. split; congruence. Qed.

Lemma write_relay_cell w cid p : length cid = 16%nat → len p <= cellPayloadSize →
  ∃ raw, writeCell w (mkCell cellTypeRelay cid p) = Ok (w ++ raw) ∧
    ∀ rest, readCell (raw ++ rest) = Ok (mkCell cellTypeRelay cid p, rest).
Proof.
  intros Hid Hp. assert (Hg : good_cell (mkCell cellTypeRelay cid p)) by (unfold good_cell; cbn; by split_and!).
  destruct (readCell_writeCell w _ [] Hg) as (raw & Hw & _ & _). exists raw. split; [done|]. intros rest.
  destruct (readCell_writeCell w _ rest Hg) as (raw' & Hw' & _ & Hr). rewrite Hw in Hw'. injection Hw' as Hw'.
  apply app_inv_head in Hw'. by subst.
Qed.
End Layers.

(** ** A command on its way to the last relay *)
Section Forward.
Context `{Ed25519, AEAD, KeyExchange, JSON extendCommand, JSON beginCommand, JSON errorCommand}.
Context (dial_relay : string → string → res bytes) (dial_target : string → bool).

(** What a relay newly wrote to its next relay. *)
Definition forwarded (c c' : relayCircuit) : bytes :=
  drop (length (default [] (rc_outbound c))) (default [] (rc_outbound c')).

(** The network: every cell a relay writes to its next relay is read there. *)
Fixpoint carry (relays : list relayCircuit) (payload : bytes) : list relayCircuit :=
  match relays with
  | [] => []
  | c :: relays =>
      let c' := (handleRelayCell dial_relay dial_target payload c).2 in
      match readCell (forwarded c c') with
      | Ok (next, _) => c' :: carry relays (cl_Payload next)
      | _ => c' :: relays
      end
  end.

(** A relay of a chain has a next relay; the circuit has one identifier. *)
Definition linked (cid : bytes) (c : relayCircuit) : Prop :=
  rc_circuitID c = cid ∧ is_Some (rc_outbound c).
(** An inner relay passes a command on: only its counter and the wire change. *)
Definition passed_on (c c' : relayCircuit) : Prop :=
  rc_keys c' = next_forward (rc_keys c) ∧ rc_target c' = rc_target c ∧ rc_inbound c' = rc_inbound c ∧
  rc_circuitID c' = rc_circuitID c ∧ rc_nodeID c' = rc_nodeID c ∧ is_Some (rc_outbound c').

Lemma handle_opaque h c payload cid : sync_f h c → linked cid c → length cid = 16%nat →
  decodeRelayEnvelope payload = Ok None → len payload <= cellPayloadSize →
  ∃ c' raw, handleRelayCell dial_relay dial_target (seal_f h payload) c = (Ok tt, c') ∧ forwarded c c' = raw ∧
    readCell raw = Ok (mkCell cellTypeRelay cid payload, []) ∧ passed_on c c'.
Proof.
  intros Hs [Hid [out Ho]] Hcid Hd Hl. unfold handleRelayCell. rewrite openForward_sync by done. rewrite Hd.
  cbn [set_keys rc_outbound rc_circuitID]. rewrite Ho, Hid.
  destruct (write_relay_cell out cid payload Hcid Hl) as (raw & Hw & Hr). rewrite Hw.
  eexists _, raw. split; [done|]. specialize (Hr []). rewrite app_nil_r in Hr. split_and!; [|done|].
  - unfold forwarded. rewrite Ho. cbn. apply drop_app_length.
  - unfold passed_on. cbn. rewrite Hid. by split_and!.
Qed.

(** Answering a command leaves the forward direction and the next relay alone. *)
Definition same_forward (c c' : relayCircuit) : Prop :=
  k_forward (rc_keys c') = k_forward (rc_keys c) ∧ k_forwardCounter (rc_keys c') = k_forwardCounter (rc_keys c) ∧ rc_outbound c' = rc_outbound c.
Lemma sendBackward_forward cmd body c : same_forward c (sendBackwardPlain cmd body c).2.
Proof.
  unfold sendBackwardPlain, seal_inbound, writeInbound. destruct (encodeRelayEnvelope cmd body); [|done..].
  rewrite sealBackward_eq. destruct (writeCell _ _); by split_and!.
Qed.
Lemma relay_command_forward cmd body c : is_Some (rc_outbound c) ∨ cmd ≠ relayCmdExtend → same_forward c (relay_command dial_relay dial_target cmd body c).2.
Proof.
  intros Ho. unfold relay_command, sendBackwardError. destruct (Z.eqb_spec cmd relayCmdExtend) as [->|_].
  - destruct Ho as [[out Ho]|?]; [|done]. destruct (json_Unmarshal _) as [req|]; [|apply sendBackward_forward].
    unfold handleExtendCommand, sendBackwardError. repeat (case_match; try apply sendBackward_forward); congruence.
  - destruct (cmd =? relayCmdBegin).
    { destruct (json_Unmarshal _) as [req|]; [|apply sendBackward_forward]. unfold handleBeginCommand, sendBackwardError.
      repeat (case_match; try apply sendBackward_forward). exact (sendBackward_forward relayCmdConnected [] (set_target (Some []) c)). }
    destruct (cmd =? relayCmdData); [by destruct (rc_target c); [|apply sendBackward_forward]|].
    destruct (cmd =? relayCmdEnd); [exact (sendBackward_forward relayCmdEnd [] (set_target None c))|apply sendBackward_forward].
Qed.
(** The keys of the forward direction survive an extension too. *)
Lemma relay_command_keys cmd body c : let c' := (relay_command dial_relay dial_target cmd body c).2 in
  k_forward (rc_keys c') = k_forward (rc_keys c) ∧ k_forwardCounter (rc_keys c') = k_forwardCounter (rc_keys c).
Proof.
  cbv zeta. destruct (Z.eqb_spec cmd relayCmdExtend) as [->|Hc]; [|destruct (relay_command_forward cmd body c) as (? & ? & _); auto].
  assert (∀ cmd body c0, rc_keys c0 = rc_keys c → k_forward (rc_keys (sendBackwardPlain cmd body c0).2) = k_forward (rc_keys c) ∧
    k_forwardCounter (rc_keys (sendBackwardPlain cmd body c0).2) = k_forwardCounter (rc_keys c)) as Hs.
  { intros cmd0 body0 c0 <-. by destruct (sendBackward_forward cmd0 body0 c0) as (? & ? & _). }
  unfold relay_command. cbn [Z.eqb relayCmdExtend Pos.eqb]. unfold sendBackwardError. destruct (json_Unmarshal _) as [req|]; [|by apply Hs].
  unfold handleExtendCommand, sendBackwardError. repeat (case_match; try by apply Hs); done.
Qed.

(** What a relay makes of a payload it has opened and does not pass on. *)
Definition acted (inner : bytes) (c : relayCircuit) : relayCircuit :=
  match decodeRelayEnvelope inner with
  | Ok (Some (cmd, body)) => (relay_command dial_relay dial_target cmd body (opened c)).2
  | _ => opened c
  end.
Lemma acted_sync h c inner : sync_f h c → sync_f (next_forward h) (acted inner c).
Proof.
  intros [Hk Hc]. unfold acted, sync_f. destruct (decodeRelayEnvelope inner) as [[[cmd body]|]| |];
    [destruct (relay_command_keys cmd body (opened c)) as [-> ->]|..]; cbn; split; congruence.
Qed.
Lemma decode_cases p : decodeRelayEnvelope p = Ok None ∨ decodeRelayEnvelope p ≠ Ok None.
Proof. destruct (decodeRelayEnvelope p) as [[?|]| |]; [right|left|right|right]; congruence. Qed.
Lemma handle_acted h c inner : sync_f h c → decodeRelayEnvelope inner ≠ Ok None → (handleRelayCell dial_relay dial_target (seal_f h inner) c).2 = acted inner c.
Proof.
  intros Hs Hd. unfold handleRelayCell, acted. rewrite openForward_sync by done. fold (opened c).
  destruct (decodeRelayEnvelope inner) as [[[cmd body]|]|e|]; done.
Qed.
(** It writes nothing to the next relay. *)
Lemma acted_forwards_nothing c inner : is_Some (rc_outbound c) → forwarded c (acted inner c) = [].
Proof.
  intros Ho. assert (rc_outbound (acted inner c) = rc_outbound c) as E.
  { unfold acted. destruct (decodeRelayEnvelope inner) as [[[cmd body]|]| |]; [|done..].
    destruct (relay_command_forward cmd body (opened c)) as (_ & _ & ->); [by left|done]. }
  unfold forwarded. rewrite E. apply drop_all.
Qed.

(** The payload the relay at a position has after opening its layer. *)
Definition seen (hops : list circuitKeyState) (p : bytes) (i : nat) : bytes := layered (drop (S i) hops) p.

Lemma carry_forward cid p mid : ∀ hops h last, length cid = 16%nat →
  Forall2 sync_f hops mid → sync_f h last → Forall (linked cid) mid → decodeRelayEnvelope p ≠ Ok None →
  len p + 16 * (Z.of_nat (length hops) + 1) <= cellPayloadSize →
  ∃ before actor after before', mid ++ [last] = before ++ actor :: after ∧
    (∀ i, (i < length before)%nat → decodeRelayEnvelope (seen (hops ++ [h]) p i) = Ok None) ∧
    decodeRelayEnvelope (seen (hops ++ [h]) p (length before)) ≠ Ok None ∧
    carry (mid ++ [last]) (layered (hops ++ [h]) p) = before' ++ acted (seen (hops ++ [h]) p (length before)) actor :: after ∧
    Forall2 passed_on before before' ∧
    Forall2 sync_f (next_forward <$> take (S (length before)) (hops ++ [h])) (before' ++ [acted (seen (hops ++ [h]) p (length before)) actor]).
Proof.
  induction mid as [|c mid IH]; intros hops h last Hcid Hsync Hlast Hlink Hp Hl.
  - apply Forall2_nil_inv_r in Hsync as ->. exists [], last, [], []. unfold seen. cbn [app length drop layered foldr take fmap list_fmap].
    split_and!; [done|intros i Hi; lia|done| |constructor|constructor; [by apply acted_sync|constructor]].
    cbn [carry]. rewrite handle_acted by done. by destruct (readCell _) as [[next r]|e|].
  - apply Forall2_cons_inv_r in Hsync as (hc & hops' & Hc & Hsync & ->). apply Forall_cons in Hlink as [Hlc Hlink]. cbn [length] in Hl.
    change ((hc :: hops') ++ [h]) with (hc :: (hops' ++ [h])). cbn [app layered foldr carry]. fold (layered (hops' ++ [h]) p).
    destruct (decode_cases (layered (hops' ++ [h]) p)) as [Hd|Hd].
    + destruct (handle_opaque hc c (layered (hops' ++ [h]) p) cid Hc Hlc Hcid Hd) as (c' & raw & Hh & Hf & Hr & Hpass).
      { rewrite len_layered, length_app. cbn [length]. lia. }
      rewrite Hh. cbn [snd]. rewrite Hf, Hr. cbn [cl_Payload].
      destruct (IH hops' h last Hcid Hsync Hlast Hlink Hp) as (before & actor & after & before' & E & Hb & Ha & Ec & Hpo & Hsy); [lia|].
      exists (c :: before), actor, after, (c' :: before'). rewrite Ec. cbn [length app take fmap list_fmap]. split_and!; [by rewrite E| |done|done|by constructor|].
      * intros [|i] Hi; [exact Hd|]. apply Hb. lia.
      * constructor; [|exact Hsy]. destruct Hpass as [Ek _]. destruct Hc. unfold sync_f. rewrite Ek. cbn. split; congruence.
    + rewrite handle_acted by done. rewrite acted_forwards_nothing by apply Hlc.
      exists [], c, (mid ++ [last]), []. unfold seen. cbn [app length drop take fmap list_fmap].
      split_and!; [done|intros i Hi; lia|done|done|constructor|constructor; [by apply acted_sync|constructor]].
Qed.
End Forward.

(** ** A response on its way to the client *)
Section Backward.
Context `{Ed25519, AEAD, KeyExchange, JSON extendCommand, JSON beginCommand, JSON errorCommand}.

(** What a relay newly wrote towards the client. *)
Definition returned (c c' : relayCircuit) : bytes := drop (length (rc_inbound c)) (rc_inbound c').

(** The relays between the one that answers and the client, the nearest to the
    client first: the payload that reaches the client. *)
Fixpoint carry_back (relays : list relayCircuit) (payload : bytes) : list relayCircuit * option bytes :=
  match relays with
  | [] => ([], Some payload)
  | c :: relays =>
      match carry_back relays payload with
      | (relays', Some p) =>
          let c' := (pumpOutbound_step (Ok (mkCell cellTypeRelay (rc_circuitID c) p)) c).2 in
          (c' :: relays', match readCell (returned c c') with Ok (next, _) => Some (cl_Payload next) | _ => None end)
      | (relays', None) => (c :: relays', None)
      end
  end.

(** A relay that sealed one payload. *)
Definition sealed_one (c c' : relayCircuit) : Prop :=
  rc_keys c' = next_backward (rc_keys c) ∧ rc_target c' = rc_target c ∧ rc_outbound c' = rc_outbound c ∧
  rc_circuitID c' = rc_circuitID c ∧ rc_nodeID c' = rc_nodeID c.

Lemma seal_inbound_sync h c p cid : sync_b h c → rc_circuitID c = cid → length cid = 16%nat →
  len p + 16 <= cellPayloadSize →
  ∃ c', seal_inbound p c = (Ok tt, c') ∧ readCell (returned c c') = Ok (mkCell cellTypeRelay cid (seal_b h p), []) ∧
    sealed_one c c'.
Proof.
  intros [Hk Hc] Hid Hcid Hl. unfold seal_inbound. rewrite sealBackward_eq. unfold writeInbound. cbn [set_keys rc_inbound].
  assert (Hse : seal_b (rc_keys c) p = seal_b h p) by (unfold seal_b; by rewrite Hk, Hc). rewrite Hse, Hid.
  destruct (write_relay_cell (rc_inbound c) cid (seal_b h p) Hcid) as (raw & Hw & Hr).
  { unfold seal_b. rewrite aead_Seal_length. lia. }
  rewrite Hw. eexists. split; [done|]. split; [|unfold sealed_one; cbn; by rewrite Hid].
  unfold returned. cbn. rewrite drop_app_length. specialize (Hr []). by rewrite app_nil_r in Hr.
Qed.

Lemma carry_back_layers cid p mid : ∀ hops, length cid = 16%nat → Forall2 sync_b hops mid →
  Forall (fun c => rc_circuitID c = cid) mid → len p + 16 * Z.of_nat (length hops) <= cellPayloadSize →
  ∃ mid', carry_back mid p = (mid', Some (layered_b hops p)) ∧ Forall2 sealed_one mid mid'.
Proof.
  induction mid as [|c mid IH]; intros hops Hcid Hsync Hids Hl.
  - apply Forall2_nil_inv_r in Hsync as ->. by exists [].
  - apply Forall2_cons_inv_r in Hsync as (hc & hops' & Hc & Hsync & ->). apply Forall_cons in Hids as [Hid Hids].
    cbn [length] in Hl. destruct (IH hops' Hcid Hsync Hids) as (mid' & E & Hmid'); [lia|]. cbn [carry_back]. rewrite E.
    destruct (seal_inbound_sync hc c (layered_b hops' p) cid Hc Hid Hcid) as (c' & Hs & Hr & Hone).
    { rewrite len_layered_b. lia. }
    cbn [pumpOutbound_step cl_Type cl_Payload]. change (cellTypeRelay =? cellTypeRelay) with true. cbv iota.
    rewrite Hs. cbn [snd]. rewrite Hr. exists (c' :: mid'). split; [done|by constructor].
Qed.
End Backward.

Section Claims.
Context `{Ed25519, AEAD, KeyExchange, JSON extendCommand, JSON beginCommand, JSON errorCommand}.

Lemma sync_passed hops mid mid' : Forall2 sync_f hops mid → Forall2 passed_on mid mid' →
  Forall2 sync_f (next_forward <$> hops) mid'.
Proof.
  intros Hs. revert mid'. induction Hs as [|h c hops mid [Hk Hc] _ IH]; intros mid' Hp.
  - apply Forall2_nil_inv_l in Hp as ->. constructor.
  - apply Forall2_cons_inv_l in Hp as (c' & mid0 & (Ek & _) & Hp & ->). constructor; [|auto].
    unfold sync_f. rewrite Ek. cbn. split; congruence.
Qed.

Lemma sync_sealed hops mid mid' : Forall2 sync_b hops mid → Forall2 sealed_one mid mid' →
  Forall2 sync_b (next_backward <$> hops) mid'.
Proof.
  intros Hs. revert mid'. induction Hs as [|h c hops mid [Hk Hc] _ IH]; intros mid' Hp.
  - apply Forall2_nil_inv_l in Hp as ->. constructor.
  - apply Forall2_cons_inv_l in Hp as (c' & mid0 & (Ek & _) & Hp & ->). constructor; [|auto].
    unfold sync_b. rewrite Ek. cbn. split; congruence.
Qed.

Lemma sizes_unfold : cellPayloadSize = 1004 ∧ maxRelayDataPayload = 917 ∧ relayEnvelopeSize = 7.
Proof. done. Qed.

(** C4: A command is acted on by exactly one relay.  On a circuit of at most five
    relays whose keys are in step, a command with a body of any legal size is
    written as one cell.  Every relay that opens its layer and finds no envelope
    passes the payload on unread (it acts on nothing, and only its own counter
    moves); the first relay that finds one acts on it and passes nothing on; the relays
    after it see nothing; and client and relays up to that one are in step again,
    whatever the command.  The last relay always finds the command.  So the
    command is executed by the last relay, for data by writing the body to the target,
    unless a ciphertext on the way starts with the magic bytes of an envelope, in
    which case the relay that opened it takes it for a command. *)
Theorem relay_forward_delivery dial_relay dial_target (cid out : bytes) (hops : list circuitKeyState)
    (h : circuitKeyState) (mid : list relayCircuit) (last : relayCircuit) (cmd : Z) (body : bytes) :
  length cid = 16%nat → (length hops <= 4)%nat → 0 <= cmd < 256 → len body <= maxRelayDataPayload →
  Forall2 sync_f hops mid → sync_f h last → Forall (linked cid) mid →
  ∃ p raw c before actor after before',
    encodeRelayEnvelope cmd body = Ok p ∧
    sendRelayCommand out cid (hops ++ [h]) cmd body = (Ok (out ++ raw), next_forward <$> hops ++ [h]) ∧
    readCell raw = Ok (c, []) ∧ mid ++ [last] = before ++ actor :: after ∧
    (∀ i, (i < length before)%nat → decodeRelayEnvelope (seen (hops ++ [h]) p i) = Ok None) ∧
    decodeRelayEnvelope (seen (hops ++ [h]) p (length before)) ≠ Ok None ∧
    carry dial_relay dial_target (mid ++ [last]) (cl_Payload c) =
      before' ++ acted dial_relay dial_target (seen (hops ++ [h]) p (length before)) actor :: after ∧
    Forall2 passed_on before before' ∧
    Forall2 sync_f (next_forward <$> take (S (length before)) (hops ++ [h]))
      (before' ++ [acted dial_relay dial_target (seen (hops ++ [h]) p (length before)) actor]) ∧
    (after = [] → before = mid ∧ actor = last ∧
       acted dial_relay dial_target (seen (hops ++ [h]) p (length before)) actor = (relay_command dial_relay dial_target cmd body (opened last)).2 ∧
       ∀ t, cmd = relayCmdData → rc_target last = Some t →
         rc_target (acted dial_relay dial_target (seen (hops ++ [h]) p (length before)) actor) = Some (t ++ body)) ∧
    (after ≠ [] → take 4 (seen (hops ++ [h]) p (length before)) = relayMagic).
Proof.
  intros Hcid Hn Hcmd Hb Hsync Hlast Hlink. destruct sizes_unfold as (S1 & S2 & S3).
  destruct (decode_encode_envelope cmd body Hcmd Hb) as (p & He & Hlen & Hd).
  unfold sendRelayCommand. rewrite He, seal_layers_eq. cbn [mbind res_bind].
  destruct (write_relay_cell out cid (layered (hops ++ [h]) p) Hcid) as (raw & Hw & Hr).
  { rewrite len_layered, length_app, Hlen. cbn [length]. lia. }
  rewrite Hw. specialize (Hr []). rewrite app_nil_r in Hr.
  destruct (carry_forward dial_relay dial_target cid p mid hops h last) as (before & actor & after & before' & Em & Hbef & Hact & E & Hpass & Hsy);
    [done..|congruence|rewrite Hlen; lia|].
  eexists p, raw, _, before, actor, after, before'. split_and!; [done|by rewrite fmap_app|done..| |].
  - intros ->. apply app_inj_tail in Em as [-> ->]. apply Forall2_length in Hsync.
    assert (seen (hops ++ [h]) p (length before) = p) as Es.
    { unfold seen. rewrite drop_ge by (rewrite length_app; cbn; lia). done. }
    rewrite Es. unfold acted. rewrite Hd. split_and!; [done..|]. intros t -> Ht. unfold relay_command.
    cbn [Z.eqb relayCmdData relayCmdExtend relayCmdBegin Pos.eqb opened set_keys rc_target]. by rewrite Ht.
  - intros _. unfold decodeRelayEnvelope in Hact. destruct (_ <? _); [done|]. case_bool_decide; [done|]. done.
Qed.

(** C8: A response reaches the client.  When the last relay of a circuit of at
    most five relays answers with a command of any legal size, each relay on the
    way back adds its layer, the client's read loop opens all of them and
    delivers the body, and the circuit stays in step. *)
Theorem relay_backward_delivery (cid : bytes) (hops : list circuitKeyState) (h : circuitKeyState)
    (mid : list relayCircuit) (last : relayCircuit) (cmd : Z) (body : bytes) :
  length cid = 16%nat → (length hops <= 4)%nat → 0 <= cmd < 256 → len body <= maxRelayDataPayload →
  Forall2 sync_b hops mid → sync_b h last → Forall (fun c => rc_circuitID c = cid) (mid ++ [last]) →
  ∃ last' q mid' final p,
    sendBackwardPlain cmd body last = (Ok tt, last') ∧
    readCell (returned last last') = Ok (mkCell cellTypeRelay cid q, []) ∧
    carry_back mid q = (mid', Some final) ∧
    open_layers (hops ++ [h]) final = (Ok p, next_backward <$> hops ++ [h]) ∧
    decodeRelayEnvelope p = Ok (Some (cmd, body)) ∧
    (cmd = relayCmdData → readPump_step (mkCell cellTypeRelay cid final) (hops ++ [h]) =
       (Chunk body, next_backward <$> hops ++ [h])) ∧
    Forall2 sync_b (next_backward <$> hops ++ [h]) (mid' ++ [last']).
Proof.
  intros Hcid Hn Hcmd Hb Hsync Hlast Hids. destruct sizes_unfold as (S1 & S2 & S3).
  apply Forall_app in Hids as [Hmid [Hid _]%Forall_cons].
  destruct (decode_encode_envelope cmd body Hcmd Hb) as (p & He & Hlen & Hd).
  destruct (seal_inbound_sync h last p cid Hlast Hid Hcid) as (last' & Hs & Hr & Hone); [lia|].
  destruct (carry_back_layers cid (seal_b h p) mid hops Hcid Hsync Hmid) as (mid' & Ec & Hmid').
  { unfold seal_b. rewrite aead_Seal_length. lia. }
  assert (Hopen : open_layers (hops ++ [h]) (layered_b hops (seal_b h p)) = (Ok p, next_backward <$> hops ++ [h])).
  { rewrite <- open_layers_eq. unfold layered_b. by rewrite foldr_app. }
  exists last', (seal_b h p), mid', (layered_b hops (seal_b h p)), p.
  split_and!; [unfold sendBackwardPlain; by rewrite He|done..| |].
  - intros ->. unfold readPump_step. cbn [cl_Type cl_Payload]. change (cellTypeRelay =? cellTypeRelay) with true. cbv iota.
    rewrite Hopen. cbn [mbind res_bind]. by rewrite Hd.
  - rewrite fmap_app. apply Forall2_app; [by eapply sync_sealed|]. constructor; [|constructor].
    destruct Hone as [Ek _]. destruct Hlast. unfold sync_b. rewrite Ek. cbn. split; congruence.
Qed.

(** C27: Five layers always fit, and only five: a command is sent exactly if its
    body is legal and its envelope with one tag per hop fits in the 1004 bytes of
    a cell; so on up to five hops every legal body is sent, and on six hops a
    body of the size [Write] uses is refused, after the counters of all hops
    have moved, which leaves the circuit out of step. *)
Theorem relay_layers_fit (out cid : bytes) (hops : list circuitKeyState) (cmd : Z) (body : bytes) :
  (is_ok (sendRelayCommand out cid hops cmd body).1 = true ↔
     len body <= maxRelayDataPayload ∧ relayEnvelopeSize + len body + 16 * Z.of_nat (length hops) <= cellPayloadSize) ∧
  ((length hops <= 5)%nat → len body <= maxRelayDataPayload → is_ok (sendRelayCommand out cid hops cmd body).1 = true) ∧
  (length hops = 6%nat → len body = maxRelayDataPayload →
     sendRelayCommand out cid hops cmd body = (Err "cell payload too large", next_forward <$> hops)).
Proof.
  destruct sizes_unfold as (S1 & S2 & S3).
  assert (Hgen : len body <= maxRelayDataPayload → sendRelayCommand out cid hops cmd body =
    (if cellPayloadSize <? relayEnvelopeSize + len body + 16 * Z.of_nat (length hops)
     then Err "cell payload too large"
     else Ok (out ++ [Z_byte cellVersion; Z_byte cellTypeRelay] ++ array 16 cid ++
       be_bytes 2 (len (layered hops (relayMagic ++ [Z_byte cmd] ++ be_bytes 2 (len body) ++ body))) ++
       array (Z.to_nat cellPayloadSize) (layered hops (relayMagic ++ [Z_byte cmd] ++ be_bytes 2 (len body) ++ body))),
     next_forward <$> hops)).
  { intros Hb. unfold sendRelayCommand, encodeRelayEnvelope. rewrite (proj2 (Z.ltb_ge _ _)) by done.
    cbn [err_if mbind res_bind]. rewrite seal_layers_eq. cbn [mbind res_bind]. unfold writeCell. cbn [cl_Payload cl_Type cl_CircuitID].
    assert (Hlen : len (layered hops (relayMagic ++ [Z_byte cmd] ++ be_bytes 2 (len body) ++ body)) =
      relayEnvelopeSize + len body + 16 * Z.of_nat (length hops)).
    { rewrite len_layered. unfold len at 1. rewrite !length_app, length_be_bytes. unfold len. cbn [length].
      change (length relayMagic) with 4%nat. lia. }
    rewrite Hlen at 1. by destruct (cellPayloadSize <? _). }
  split_and!.
  - destruct (Z.leb_spec (len body) maxRelayDataPayload) as [Hb|Hb].
    + rewrite Hgen by done. cbn [fst]. destruct (Z.ltb_spec cellPayloadSize (relayEnvelopeSize + len body + 16 * Z.of_nat (length hops)));
        cbn; split; [done|lia|lia|done].
    + unfold sendRelayCommand, encodeRelayEnvelope. rewrite (proj2 (Z.ltb_lt _ _) Hb). cbn. split; [done|lia].
  - intros Hn Hb. rewrite Hgen by done. rewrite (proj2 (Z.ltb_ge _ _)) by lia. done.
  - intros Hn Hb. rewrite Hgen by lia. rewrite (proj2 (Z.ltb_lt _ _)) by lia. done.
Qed.

(** C25: Setting up a hop works and is authenticated.  A relay answers the
    client's create cell with a created cell from which the client derives the
    relay's own keys, so that both directions start in step; and whatever answer
    the client accepts carries a signature by the relay it asked for, over this
    circuit, the client's key and the key the relay offers. *)
Theorem hop_setup_agree (id : Identity) (relay : EndpointRecord) (cid cpriv rpriv shared : bytes) :
  length cid = 16%nat → ed_keypair (id_PrivateKey id) →
  er_PublicKey relay = StdEncoding_EncodeToString (ed_Public (id_PrivateKey id)) →
  x_shared rpriv (x_public cpriv) = Some shared →
  (∃ create c keys, writeCell [] (mkCell cellTypeCreate cid (x_public cpriv)) = Ok create ∧
     HandleExtend create id rpriv = Ok (c, []) ∧
     establishFirstHop (rc_inbound c, []) cid relay cpriv = Ok (keys, ([], create)) ∧
     rc_circuitID c = cid ∧ sync_f keys c ∧ sync_b keys c) ∧
  (∀ payload pubKey circuitID keys, deriveClientHopKeys cpriv payload pubKey circuitID (x_public cpriv) = Ok keys →
     ∃ pub, StdEncoding_DecodeString pubKey = Some pub ∧ len pub = 32 ∧
       ed_verify pub (createdSigningPayload circuitID (x_public cpriv) (take 32 payload)) (drop 32 payload) = true).
Proof.
  intros Hcid Hk Hpub Hsh. split.
  - destruct (hop_keys_agree cid cpriv rpriv shared (id_PrivateKey id) Hk Hsh) as (created & Hb & Hl & Hd).
    pose proof (x_public_length cpriv) as Hxl.
    destruct (readCell_writeCell [] (mkCell cellTypeCreate cid (x_public cpriv)) []) as (create & Hw & _ & Hr).
    { unfold good_cell. cbn. rewrite Hxl. by split_and!. }
    destruct (readCell_writeCell [] (mkCell cellTypeCreated cid (marshalCreatedPayload created)) []) as (ans & Hw2 & _ & Hr2).
    { unfold good_cell. cbn. rewrite Hl. by split_and!. }
    rewrite app_nil_r in Hr, Hr2. cbn [app] in Hw, Hw2.
    exists create. unfold HandleExtend. rewrite Hr. cbn [mbind res_bind cl_Type]. change (negb (cellTypeCreate =? cellTypeCreate)) with false.
    cbn [err_if mbind res_bind cl_Payload cl_CircuitID]. unfold parseCreatePayload. rewrite Hxl. cbn [Z.eqb Pos.eqb negb err_if mbind res_bind].
    rewrite Hb. cbn [mbind res_bind]. rewrite Hw2. cbn [mbind res_bind].
    eexists _, (deriveCircuitKeys shared cid). split; [done|]. split; [done|]. split; [|done].
    unfold establishFirstHop. cbn [rc_inbound fst snd]. rewrite Hw. cbn [mbind res_bind]. rewrite Hr2. cbn [mbind res_bind cl_Type].
    change (negb (cellTypeCreated =? cellTypeCreated)) with false. cbn [err_if mbind res_bind cl_Payload]. rewrite Hpub, Hd. done.
  - intros payload pubKey circuitID keys. unfold deriveClientHopKeys, verifyCreatedPayload. intros E. res_inv. bool_prop. subst.
    match goal with V : ed25519_Verify ?pub _ _ = Ok true |- _ => apply ed25519_Verify_ok in V as (? & _ & ?); exists pub end.
    by split_and!.
Qed.

(** ** Two goroutines of a relay

    [sendBackwardPlain] and [pumpOutbound] seal a payload and write the cell in
    two steps, and only the write holds a lock.  A goroutine that is between the
    two has its sealed payload in hand. *)
Definition seal_step (p : bytes) (c : relayCircuit) : bytes * relayCircuit :=
  (seal_b (rc_keys c) p, set_keys (next_backward (rc_keys c)) c).
Lemma seal_then_write p c : seal_inbound p c =
  writeInbound (mkCell cellTypeRelay (rc_circuitID c) (seal_step p c).1) (seal_step p c).2.
Proof. unfold seal_inbound. by rewrite sealBackward_eq. Qed.

(** C39: Answers of two goroutines can destroy a circuit.  If a second goroutine
    of the relay seals and writes its payload after the first has sealed and
    before it writes, the client receives the second payload first, opens it
    under the counter of the first, fails, and ends the connection: both payloads
    are lost although relay and client work correctly. *)
Theorem backward_race (cid : bytes) (h : circuitKeyState) (c : relayCircuit) (p1 p2 : bytes) :
  length cid = 16%nat → rc_circuitID c = cid → sync_b h c → rc_inbound c = [] →
  len p1 + 16 <= cellPayloadSize → len p2 + 16 <= cellPayloadSize →
  (* AES-GCM rejects a message under a nonce it was not sealed with *)
  aead_Open (k_backward h) (counterNonce (k_backwardCounter h)) (seal_b (next_backward h) p2) [] = None →
  let '(s1, c1) := seal_step p1 c in
  let '(s2, c2) := seal_step p2 c1 in
  ∃ c3 c4 first second, writeInbound (mkCell cellTypeRelay cid s2) c2 = (Ok tt, c3) ∧
    writeInbound (mkCell cellTypeRelay cid s1) c3 = (Ok tt, c4) ∧
    readCell (rc_inbound c4) = Ok (first, second) ∧
    readPump_step first [h] = (Ended "decrypt backward relay payload", [h]).
Proof.
  intros Hcid Hid [Hk Hc] Hin Hl1 Hl2 Hopen. cbn [seal_step].
  assert (Hs2 : seal_b (rc_keys (set_keys (next_backward (rc_keys c)) c)) p2 = seal_b (next_backward h) p2).
  { unfold seal_b. cbn. by rewrite Hk, Hc. }
  rewrite Hs2. unfold writeInbound. cbn [set_keys rc_inbound]. rewrite Hin.
  destruct (write_relay_cell [] cid (seal_b (next_backward h) p2) Hcid) as (raw2 & Hw2 & Hr2).
  { unfold seal_b. rewrite aead_Seal_length. lia. }
  rewrite Hw2. cbn [app] in *. eexists. cbn [set_inbound rc_inbound].
  destruct (write_relay_cell raw2 cid (seal_b (rc_keys c) p1) Hcid) as (raw1 & Hw1 & _).
  { unfold seal_b. rewrite aead_Seal_length. lia. }
  eexists _, _, _. split; [done|]. cbn [set_inbound rc_inbound]. rewrite Hw1. split; [done|]. cbn [set_inbound rc_inbound].
  split; [apply Hr2|]. unfold readPump_step. cbn [cl_Type cl_Payload]. change (cellTypeRelay =? cellTypeRelay) with true. cbv iota.
  cbn [open_layers]. unfold openBackward, gcm_Open. rewrite len_counterNonce. cbn [Z.eqb Pos.eqb gcm_NonceSize].
  by rewrite Hopen.
Qed.

(** The end of a stream can overtake its data.  When the relay has sent data
    and then the end of the stream, and the read loop has received both before
    the application reads, [Read] may return the end of the file first: the
    choice of [select] decides whether the data is delivered. *)
Theorem circuit_read_truncates (n : nat) (hops : list circuitKeyState) (c1 c2 : cell) (body : bytes)
    (hops' hops'' : list circuitKeyState) :
  readPump_step c1 hops = (Chunk body, hops') → readPump_step c2 hops' = (Ended "EOF", hops'') → body ≠ [] →
  let r := readPump [c1; c2] hops (mkReceiver [] [] None) in
  circuit_read 2 n (fun _ => true) r = Some (Err "EOF", mkReceiver [] [body] None) ∧
  circuit_read 2 n (fun _ => false) r = Some (Ok (take n body), mkReceiver (drop n body) [] (Some "EOF")).
Proof. intros H1' H2' Hb. cbn [readPump]. rewrite H1', H2'. cbn. by destruct body. Qed.

(** ** Planning *)
Lemma usable_spec peers : ∀ seen,
  let l := usable_peers seen peers in
  NoDup (er_Address <$> l) ∧ Forall (fun p => p ∈ peers ∧ er_Address p ≠ "" ∧ er_Address p ∉ seen) l ∧
  (∀ p, p ∈ peers → er_Address p ≠ "" → er_Address p ∉ seen → er_Address p ∈ (er_Address <$> l)).
Proof.
  induction peers as [|p peers IH]; intros seen; cbn [usable_peers].
  { split_and!; [constructor|constructor|]. intros p Hp. by inversion Hp. }
  destruct (String.eqb_spec (er_Address p) "") as [He|He]; cbn [orb].
  { destruct (IH seen) as (? & Hf & Hc). split_and!; [done|eapply Forall_impl; [exact Hf|]; set_solver|]. set_solver. }
  case_bool_decide as Hin.
  { destruct (IH seen) as (? & Hf & Hc). split_and!; [done|eapply Forall_impl; [exact Hf|]; set_solver|]. set_solver. }
  destruct (IH (er_Address p :: seen)) as (Hnd & Hf & Hc). rewrite Forall_forall in Hf. split_and!.
  - cbn. constructor; [|done]. intros (q & Hq & Hql)%list_elem_of_fmap. apply Hf in Hql as (_ & _ & Hns). set_solver.
  - constructor; [set_solver|]. apply Forall_forall. intros q Hq%Hf. set_solver.
  - intros q Hq Hne Hns. cbn. destruct (decide (er_Address q = er_Address p)) as [->|Hd]; [left|right]. apply Hc; set_solver.
Qed.

(** A planned circuit uses the number of relays asked for, each a known peer,
    at pairwise different addresses, none of them the target or an excluded
    address; planning fails only if the request is invalid or there are not
    enough different addresses left. *)
Theorem circuit_plan_distinct (target : ServiceRecord) (peers : list EndpointRecord) (hopCount : Z)
    (exclude : list string) (pick : nat → nat) (shuffle : list EndpointRecord → list EndpointRecord) (random : bytes) :
  (∀ l, shuffle l ≡ₚ l) →
  match PlanAutomatedCircuit target peers hopCount exclude pick shuffle random with
  | Ok plan => Z.of_nat (length (pl_Relays plan)) = hopCount ∧ NoDup (er_Address <$> pl_Relays plan) ∧
      Forall (fun r => r ∈ peers ∧ er_Address r ≠ "" ∧ er_Address r ≠ pl_TargetAddr plan ∧ er_Address r ∉ exclude)
        (pl_Relays plan) ∧
      (pl_TargetAddr plan = sr_Address target ∨ pl_TargetAddr plan = sr_IntroPoints target !!! pick (length (sr_IntroPoints target)))
  | Err e => hopCount <= 0 ∨ e = "service does not expose a reachable address for proxy mode" ∨
      ∃ addr, Z.of_nat (length (usable_peers (addr :: List.filter (fun a => a <>?s "") exclude) peers)) < hopCount
  | Panic => False
  end.
Proof.
  intros Hsh. unfold PlanAutomatedCircuit. destruct (Z.leb_spec hopCount 0) as [|Hh]; cbn; [by left|].
  match goal with |- context [if (?b && ?c)%bool then ?x else ?y] => set (addr := if (b && c)%bool then x else y) end.
  assert (Haddr : addr = sr_Address target ∨ addr = sr_IntroPoints target !!! pick (length (sr_IntroPoints target)))
    by (subst addr; case_match; auto).
  destruct (String.eqb_spec addr "") as [|Hne]; cbn; [by right; left|].
  set (l := usable_peers _ _). destruct (Z.ltb_spec (Z.of_nat (length l)) hopCount) as [Hlt|Hge]; cbn; [right; right; by exists addr|].
  destruct (usable_spec peers (addr :: List.filter (fun a => a <>?s "") exclude)) as (Hnd & Hf & _). fold l in Hnd, Hf.
  assert (Hnd' : NoDup (er_Address <$> shuffle l)) by by rewrite Hsh.
  assert (Hf' : Forall (fun p => p ∈ peers ∧ er_Address p ≠ "" ∧ er_Address p ∉ addr :: List.filter (fun a => a <>?s "") exclude) (shuffle l))
    by by rewrite Hsh.
  split_and!; [| | |done].
  - rewrite length_take, Hsh. lia.
  - rewrite fmap_take. rewrite <- (take_drop (Z.to_nat hopCount) (er_Address <$> shuffle l)) in Hnd'. by apply NoDup_app in Hnd' as [? _].
  - apply Forall_take. eapply Forall_impl; [exact Hf'|]. intros p (Hp & Hpe & Hns). split_and!; [done..|set_solver|].
    intros Hin. apply Hns. right. apply list_elem_of_In, filter_In. split; [by apply list_elem_of_In|].
    apply negb_true_iff, String.eqb_neq. done.
Qed.
End Claims.

(** ** Witnesses *)
#[export] Instance demo_JSON_extend : JSON extendCommand.
Proof.
  refine (demo_JSON 3 (fun x => [ex_NextHop x; ex_ExpectedNodeID x; ex_ClientPublicKey x])
    (fun l => match l with [a; b; c] => Some (mkExtend a b c) | _ => None end) (fun _ => True) _ _); [done|].
  by intros [] _.
Defined.
#[export] Instance demo_JSON_begin : JSON beginCommand.
Proof.
  refine (demo_JSON 1 (fun x => [bg_TargetAddr x])
    (fun l => match l with [a] => Some (mkBegin a) | _ => None end) (fun _ => True) _ _); [done|].
  by intros [] _.
Defined.
#[export] Instance demo_JSON_error : JSON errorCommand.
Proof.
  refine (demo_JSON 1 (fun x => [ec_Message x])
    (fun l => match l with [a] => Some (mkError a) | _ => None end) (fun _ => True) _ _); [done|].
  by intros [] _.
Defined.

Definition demo_keys_of (b : byte) : circuitKeyState := mkKeys [b] [b; b] 3 5.
Definition demo_cid : bytes := repeat x07 16.
Definition demo_relay (b : byte) (out target : option bytes) : relayCircuit :=
  mkRelay "relay" demo_cid (demo_keys_of b) [] out target.
Definition no_dial (_ _ : string) : res bytes := Err "dial".

Definition demo_chain : list relayCircuit := [demo_relay x01 (Some []) None] ++ [demo_relay x02 None (Some [])].
Definition demo_hops : list circuitKeyState := [demo_keys_of x01] ++ [demo_keys_of x02].
Lemma relay_forward_delivery_witness : ∃ raw c before actor after before' inner,
  sendRelayCommand [] demo_cid demo_hops relayCmdData (str_bytes "hi") = (Ok ([] ++ raw), next_forward <$> demo_hops) ∧
  readCell raw = Ok (c, []) ∧ demo_chain = before ++ actor :: after ∧
  carry no_dial (fun _ => false) demo_chain (cl_Payload c) = before' ++ acted no_dial (fun _ => false) inner actor :: after ∧
  Forall2 passed_on before before'.
Proof.
  destruct (relay_forward_delivery no_dial (fun _ => false) demo_cid [] [demo_keys_of x01] (demo_keys_of x02)
    [demo_relay x01 (Some []) None] (demo_relay x02 None (Some [])) relayCmdData (str_bytes "hi"))
    as (p & raw & c & before & actor & after & before' & _ & Es & Er & Ec & _ & _ & Ed & Hp & _).
  - reflexivity.
  - cbn. lia.
  - unfold relayCmdData. lia.
  - vm_compute. discriminate.
  - constructor; [by split|constructor].
  - by split.
  - constructor; [|constructor]. split; [reflexivity|by eexists].
  - exists raw, c, before, actor, after, before', (seen ([demo_keys_of x01] ++ [demo_keys_of x02]) p (length before)).
    split; [exact Es|]. split; [exact Er|]. split; [exact Ec|]. split; [exact Ed|exact Hp].
Defined.
(** Here the cipher never starts with the magic, and the last relay writes the data. *)
Lemma demo_delivered :
  match sendRelayCommand [] demo_cid demo_hops relayCmdData (str_bytes "hi") with
  | (Ok raw, _) =>
      match readCell raw with
      | Ok (c, _) => rc_target <$> carry no_dial (fun _ => false) demo_chain (cl_Payload c)
      | _ => []
      end
  | _ => []
  end = [None; Some (str_bytes "hi")].
Proof. vm_compute. reflexivity. Qed.

Lemma relay_backward_delivery_witness : ∃ last' q mid' final p,
  sendBackwardPlain relayCmdData (str_bytes "hi") (demo_relay x02 None (Some [])) = (Ok tt, last') ∧
  readCell (returned (demo_relay x02 None (Some [])) last') = Ok (mkCell cellTypeRelay demo_cid q, []) ∧
  carry_back [demo_relay x01 (Some []) None] q = (mid', Some final) ∧
  open_layers ([demo_keys_of x01] ++ [demo_keys_of x02]) final = (Ok p, next_backward <$> [demo_keys_of x01] ++ [demo_keys_of x02]) ∧
  decodeRelayEnvelope p = Ok (Some (relayCmdData, str_bytes "hi")) ∧
  (relayCmdData = relayCmdData → readPump_step (mkCell cellTypeRelay demo_cid final) ([demo_keys_of x01] ++ [demo_keys_of x02]) =
     (Chunk (str_bytes "hi"), next_backward <$> [demo_keys_of x01] ++ [demo_keys_of x02])) ∧
  Forall2 sync_b (next_backward <$> [demo_keys_of x01] ++ [demo_keys_of x02]) (mid' ++ [last']).
Proof.
  apply (relay_backward_delivery demo_cid [demo_keys_of x01] (demo_keys_of x02) [demo_relay x01 (Some []) None]
    (demo_relay x02 None (Some [])) relayCmdData (str_bytes "hi")).
  - reflexivity.
  - cbn. lia.
  - unfold relayCmdData. lia.
  - vm_compute. discriminate.
  - constructor; [by split|constructor].
  - by split.
  - repeat constructor.
Defined.

Definition demo_hops6 : list circuitKeyState := repeat (demo_keys_of x01) 6.
Lemma relay_layers_fit_witness : sendRelayCommand [] demo_cid demo_hops6 relayCmdData (repeat x00 917) =
  (Err "cell payload too large", next_forward <$> demo_hops6).
Proof. apply relay_layers_fit; reflexivity. Defined.

Definition demo_relay_id : Identity := mkIdentity "" (repeat x02 32) (repeat x00 32 ++ repeat x02 32).
Definition demo_relay_record : EndpointRecord :=
  mkEndpointRecord 2 1 "" "" "" (StdEncoding_EncodeToString (repeat x02 32)) "" "" "".
Definition demo_hop_secret : bytes := match x_shared [x06] (x_public [x05]) with Some s => s | None => [] end.
Lemma hop_setup_agree_witness : ∃ create c keys,
  writeCell [] (mkCell cellTypeCreate demo_cid (x_public [x05])) = Ok create ∧
  HandleExtend create demo_relay_id [x06] = Ok (c, []) ∧
  establishFirstHop (rc_inbound c, []) demo_cid demo_relay_record [x05] = Ok (keys, ([], create)) ∧
  rc_circuitID c = demo_cid ∧ sync_f keys c ∧ sync_b keys c.
Proof. apply (hop_setup_agree demo_relay_id demo_relay_record demo_cid [x05] [x06] demo_hop_secret); reflexivity. Defined.

Lemma backward_race_witness :
  ∃ c3 c4 first second,
    writeInbound (mkCell cellTypeRelay demo_cid (seal_step (str_bytes "two") (seal_step (str_bytes "one") (demo_relay x01 None None)).2).1)
      (seal_step (str_bytes "two") (seal_step (str_bytes "one") (demo_relay x01 None None)).2).2 = (Ok tt, c3) ∧
    writeInbound (mkCell cellTypeRelay demo_cid (seal_step (str_bytes "one") (demo_relay x01 None None)).1) c3 = (Ok tt, c4) ∧
    readCell (rc_inbound c4) = Ok (first, second) ∧
    readPump_step first [demo_keys_of x01] = (Ended "decrypt backward relay payload", [demo_keys_of x01]).
Proof.
  apply (backward_race demo_cid (demo_keys_of x01) (demo_relay x01 None None) (str_bytes "one") (str_bytes "two"));
    try reflexivity; try (by vm_compute); by split.
Defined.

Definition demo_data_cell : cell :=
  mkCell cellTypeRelay demo_cid (seal_b (demo_keys_of x01) (relayMagic ++ [x05; x00; x02] ++ str_bytes "hi")).
Definition demo_end_cell : cell :=
  mkCell cellTypeRelay demo_cid (seal_b (next_backward (demo_keys_of x01)) (relayMagic ++ [x06; x00; x00])).
Lemma circuit_read_truncates_witness :
  circuit_read 2 10 (fun _ => true) (readPump [demo_data_cell; demo_end_cell] [demo_keys_of x01] (mkReceiver [] [] None)) =
  Some (Err "EOF", mkReceiver [] [str_bytes "hi"] None).
Proof.
  apply (circuit_read_truncates 10 [demo_keys_of x01] demo_data_cell demo_end_cell (str_bytes "hi")
    [next_backward (demo_keys_of x01)] [next_backward (next_backward (demo_keys_of x01))]);
    [vm_compute; reflexivity|vm_compute; reflexivity|discriminate].
Defined.

Definition demo_peer (addr : string) : EndpointRecord := mkEndpointRecord 2 1 "" "" addr "" "" "" "".
Definition demo_plan_target : ServiceRecord := mkServiceRecord "" "" "" "" "[::1]:1" false false "" [] [] "" "" "" "".
Definition demo_peers : list EndpointRecord := demo_peer <$> ["[::1]:1"; "[::2]:1"; "[::2]:1"; "[::3]:1"; "[::4]:1"].
Definition demo_plan : CircuitPlan :=
  mkPlan (hex_encode [x01]) (demo_peer <$> ["[::3]:1"; "[::2]:1"]) "[::1]:1" "relay".
Lemma circuit_plan_distinct_witness :
  PlanAutomatedCircuit demo_plan_target demo_peers 2 ["[::4]:1"] (fun _ => 0%nat) reverse [x01] = Ok demo_plan ∧
  Z.of_nat (length (pl_Relays demo_plan)) = 2 ∧ NoDup (er_Address <$> pl_Relays demo_plan).
Proof.
  split; [vm_compute; reflexivity|].
  pose proof (circuit_plan_distinct demo_plan_target demo_peers 2 ["[::4]:1"] (fun _ => 0%nat) reverse [x01] reverse_Permutation) as H.
  change (PlanAutomatedCircuit demo_plan_target demo_peers 2 ["[::4]:1"] (fun _ => 0%nat) reverse [x01]) with (Ok demo_plan) in H.
  destruct H as (H1 & H2 & _). by split.
Defined.
