(* ===== verification/Peer.v ===== *)
(** * Routing-table entries and peer observations
    (types of internal/dht/table.go, retention order of peer_store.go)

    [bucketEntry] is the record the table's pointers refer to; times are
    nanoseconds with 0 for [time.Time{}].  [PeerObservation] is its persisted
    form and [peerRetentionLess] the order in which observations are kept. *)
From S2P Require Import Prelude GoBytes GoStrings GoEncoding GoTime GoSort Sha256 GoEnv Lines Identity Record Proto NodeInfo.

Record bucketEntry := mkEntry {
  e_Node : NodeInfo;
  e_Transient : bool;
  e_FailCount : Z;
  e_SuccessCount : Z;
  e_LastSeen : Z;
  e_FirstSeen : Z;
  e_LastSuccess : Z;
  e_LastUsed : Z;
  e_LastFailure : Z;
  e_LastProbe : Z;
  e_LastProbeFailure : Z;
  e_OfflineSince : Z;
  e_ProbeMisses : Z;
  e_ProbationUntil : Z;
  e_NextProbeAt : Z;
  e_RTTMicros : Z;
  e_Pinned : bool;
  e_Friend : bool;
  e_UseCount : Z;
  e_ClosestIDRank : Z;
  e_ClosestNameRank : Z;
}.
(** [&bucketEntry{Node: node}]: every other field is zero ([time.Time{}] is 0). *)
Definition new_entry (node : NodeInfo) : bucketEntry :=
  mkEntry node false 0 0 0 0 0 0 0 0 0 0 0 0 0 0 false false 0 0 0.
#[export] Instance bucketEntry_inhabited : Inhabited bucketEntry := populate (new_entry zero_NodeInfo).

(** Assignments to one field, [entry.F = v]. *)
Definition set_Node (v : NodeInfo) (e : bucketEntry) : bucketEntry :=
  mkEntry v (e_Transient e) (e_FailCount e) (e_SuccessCount e) (e_LastSeen e) (e_FirstSeen e)
    (e_LastSuccess e) (e_LastUsed e) (e_LastFailure e) (e_LastProbe e) (e_LastProbeFailure e)
    (e_OfflineSince e) (e_ProbeMisses e) (e_ProbationUntil e) (e_NextProbeAt e) (e_RTTMicros e)
    (e_Pinned e) (e_Friend e) (e_UseCount e) (e_ClosestIDRank e) (e_ClosestNameRank e).
Definition set_Transient (v : bool) (e : bucketEntry) : bucketEntry :=
  mkEntry (e_Node e) v (e_FailCount e) (e_SuccessCount e) (e_LastSeen e) (e_FirstSeen e)
    (e_LastSuccess e) (e_LastUsed e) (e_LastFailure e) (e_LastProbe e) (e_LastProbeFailure e)
    (e_OfflineSince e) (e_ProbeMisses e) (e_ProbationUntil e) (e_NextProbeAt e) (e_RTTMicros e)
    (e_Pinned e) (e_Friend e) (e_UseCount e) (e_ClosestIDRank e) (e_ClosestNameRank e).
Definition set_FailCount (v : Z) (e : bucketEntry) : bucketEntry :=
  mkEntry (e_Node e) (e_Transient e) v (e_SuccessCount e) (e_LastSeen e) (e_FirstSeen e)
    (e_LastSuccess e) (e_LastUsed e) (e_LastFailure e) (e_LastProbe e) (e_LastProbeFailure e)
    (e_OfflineSince e) (e_ProbeMisses e) (e_ProbationUntil e) (e_NextProbeAt e) (e_RTTMicros e)
    (e_Pinned e) (e_Friend e) (e_UseCount e) (e_ClosestIDRank e) (e_ClosestNameRank e).
Definition set_SuccessCount (v : Z) (e : bucketEntry) : bucketEntry :=
  mkEntry (e_Node e) (e_Transient e) (e_FailCount e) v (e_LastSeen e) (e_FirstSeen e)
    (e_LastSuccess e) (e_LastUsed e) (e_LastFailure e) (e_LastProbe e) (e_LastProbeFailure e)
    (e_OfflineSince e) (e_ProbeMisses e) (e_ProbationUntil e) (e_NextProbeAt e) (e_RTTMicros e)
    (e_Pinned e) (e_Friend e) (e_UseCount e) (e_ClosestIDRank e) (e_ClosestNameRank e).
Definition set_LastSeen (v : Z) (e : bucketEntry) : bucketEntry :=
  mkEntry (e_Node e) (e_Transient e) (e_FailCount e) (e_SuccessCount e) v (e_FirstSeen e)
    (e_LastSuccess e) (e_LastUsed e) (e_LastFailure e) (e_LastProbe e) (e_LastProbeFailure e)
    (e_OfflineSince e) (e_ProbeMisses e) (e_ProbationUntil e) (e_NextProbeAt e) (e_RTTMicros e)
    (e_Pinned e) (e_Friend e) (e_UseCount e) (e_ClosestIDRank e) (e_ClosestNameRank e).
Definition set_FirstSeen (v : Z) (e : bucketEntry) : bucketEntry :=
  mkEntry (e_Node e) (e_Transient e) (e_FailCount e) (e_SuccessCount e) (e_LastSeen e) v
    (e_LastSuccess e) (e_LastUsed e) (e_LastFailure e) (e_LastProbe e) (e_LastProbeFailure e)
    (e_OfflineSince e) (e_ProbeMisses e) (e_ProbationUntil e) (e_NextProbeAt e) (e_RTTMicros e)
    (e_Pinned e) (e_Friend e) (e_UseCount e) (e_ClosestIDRank e) (e_ClosestNameRank e).
Definition set_LastSuccess (v : Z) (e : bucketEntry) : bucketEntry :=
  mkEntry (e_Node e) (e_Transient e) (e_FailCount e) (e_SuccessCount e) (e_LastSeen e)
    (e_FirstSeen e) v (e_LastUsed e) (e_LastFailure e) (e_LastProbe e) (e_LastProbeFailure e)
    (e_OfflineSince e) (e_ProbeMisses e) (e_ProbationUntil e) (e_NextProbeAt e) (e_RTTMicros e)
    (e_Pinned e) (e_Friend e) (e_UseCount e) (e_ClosestIDRank e) (e_ClosestNameRank e).
Definition set_LastUsed (v : Z) (e : bucketEntry) : bucketEntry :=
  mkEntry (e_Node e) (e_Transient e) (e_FailCount e) (e_SuccessCount e) (e_LastSeen e)
    (e_FirstSeen e) (e_LastSuccess e) v (e_LastFailure e) (e_LastProbe e) (e_LastProbeFailure e)
    (e_OfflineSince e) (e_ProbeMisses e) (e_ProbationUntil e) (e_NextProbeAt e) (e_RTTMicros e)
    (e_Pinned e) (e_Friend e) (e_UseCount e) (e_ClosestIDRank e) (e_ClosestNameRank e).
Definition set_LastFailure (v : Z) (e : bucketEntry) : bucketEntry :=
  mkEntry (e_Node e) (e_Transient e) (e_FailCount e) (e_SuccessCount e) (e_LastSeen e)
    (e_FirstSeen e) (e_LastSuccess e) (e_LastUsed e) v (e_LastProbe e) (e_LastProbeFailure e)
    (e_OfflineSince e) (e_ProbeMisses e) (e_ProbationUntil e) (e_NextProbeAt e) (e_RTTMicros e)
    (e_Pinned e) (e_Friend e) (e_UseCount e) (e_ClosestIDRank e) (e_ClosestNameRank e).
Definition set_LastProbe (v : Z) (e : bucketEntry) : bucketEntry :=
  mkEntry (e_Node e) (e_Transient e) (e_FailCount e) (e_SuccessCount e) (e_LastSeen e)
    (e_FirstSeen e) (e_LastSuccess e) (e_LastUsed e) (e_LastFailure e) v (e_LastProbeFailure e)
    (e_OfflineSince e) (e_ProbeMisses e) (e_ProbationUntil e) (e_NextProbeAt e) (e_RTTMicros e)
    (e_Pinned e) (e_Friend e) (e_UseCount e) (e_ClosestIDRank e) (e_ClosestNameRank e).
Definition set_LastProbeFailure (v : Z) (e : bucketEntry) : bucketEntry :=
  mkEntry (e_Node e) (e_Transient e) (e_FailCount e) (e_SuccessCount e) (e_LastSeen e)
    (e_FirstSeen e) (e_LastSuccess e) (e_LastUsed e) (e_LastFailure e) (e_LastProbe e) v
    (e_OfflineSince e) (e_ProbeMisses e) (e_ProbationUntil e) (e_NextProbeAt e) (e_RTTMicros e)
    (e_Pinned e) (e_Friend e) (e_UseCount e) (e_ClosestIDRank e) (e_ClosestNameRank e).
Definition set_OfflineSince (v : Z) (e : bucketEntry) : bucketEntry :=
  mkEntry (e_Node e) (e_Transient e) (e_FailCount e) (e_SuccessCount e) (e_LastSeen e)
    (e_FirstSeen e) (e_LastSuccess e) (e_LastUsed e) (e_LastFailure e) (e_LastProbe e)
    (e_LastProbeFailure e) v (e_ProbeMisses e) (e_ProbationUntil e) (e_NextProbeAt e) (e_RTTMicros
    e) (e_Pinned e) (e_Friend e) (e_UseCount e) (e_ClosestIDRank e) (e_ClosestNameRank e).
Definition set_ProbeMisses (v : Z) (e : bucketEntry) : bucketEntry :=
  mkEntry (e_Node e) (e_Transient e) (e_FailCount e) (e_SuccessCount e) (e_LastSeen e)
    (e_FirstSeen e) (e_LastSuccess e) (e_LastUsed e) (e_LastFailure e) (e_LastProbe e)
    (e_LastProbeFailure e) (e_OfflineSince e) v (e_ProbationUntil e) (e_NextProbeAt e) (e_RTTMicros
    e) (e_Pinned e) (e_Friend e) (e_UseCount e) (e_ClosestIDRank e) (e_ClosestNameRank e).
Definition set_ProbationUntil (v : Z) (e : bucketEntry) : bucketEntry :=
  mkEntry (e_Node e) (e_Transient e) (e_FailCount e) (e_SuccessCount e) (e_LastSeen e)
    (e_FirstSeen e) (e_LastSuccess e) (e_LastUsed e) (e_LastFailure e) (e_LastProbe e)
    (e_LastProbeFailure e) (e_OfflineSince e) (e_ProbeMisses e) v (e_NextProbeAt e) (e_RTTMicros e)
    (e_Pinned e) (e_Friend e) (e_UseCount e) (e_ClosestIDRank e) (e_ClosestNameRank e).
Definition set_NextProbeAt (v : Z) (e : bucketEntry) : bucketEntry :=
  mkEntry (e_Node e) (e_Transient e) (e_FailCount e) (e_SuccessCount e) (e_LastSeen e)
    (e_FirstSeen e) (e_LastSuccess e) (e_LastUsed e) (e_LastFailure e) (e_LastProbe e)
    (e_LastProbeFailure e) (e_OfflineSince e) (e_ProbeMisses e) (e_ProbationUntil e) v (e_RTTMicros
    e) (e_Pinned e) (e_Friend e) (e_UseCount e) (e_ClosestIDRank e) (e_ClosestNameRank e).
Definition set_RTTMicros (v : Z) (e : bucketEntry) : bucketEntry :=
  mkEntry (e_Node e) (e_Transient e) (e_FailCount e) (e_SuccessCount e) (e_LastSeen e)
    (e_FirstSeen e) (e_LastSuccess e) (e_LastUsed e) (e_LastFailure e) (e_LastProbe e)
    (e_LastProbeFailure e) (e_OfflineSince e) (e_ProbeMisses e) (e_ProbationUntil e) (e_NextProbeAt
    e) v (e_Pinned e) (e_Friend e) (e_UseCount e) (e_ClosestIDRank e) (e_ClosestNameRank e).
Definition set_Pinned (v : bool) (e : bucketEntry) : bucketEntry :=
  mkEntry (e_Node e) (e_Transient e) (e_FailCount e) (e_SuccessCount e) (e_LastSeen e)
    (e_FirstSeen e) (e_LastSuccess e) (e_LastUsed e) (e_LastFailure e) (e_LastProbe e)
    (e_LastProbeFailure e) (e_OfflineSince e) (e_ProbeMisses e) (e_ProbationUntil e) (e_NextProbeAt
    e) (e_RTTMicros e) v (e_Friend e) (e_UseCount e) (e_ClosestIDRank e) (e_ClosestNameRank e).
Definition set_Friend (v : bool) (e : bucketEntry) : bucketEntry :=
  mkEntry (e_Node e) (e_Transient e) (e_FailCount e) (e_SuccessCount e) (e_LastSeen e)
    (e_FirstSeen e) (e_LastSuccess e) (e_LastUsed e) (e_LastFailure e) (e_LastProbe e)
    (e_LastProbeFailure e) (e_OfflineSince e) (e_ProbeMisses e) (e_ProbationUntil e) (e_NextProbeAt
    e) (e_RTTMicros e) (e_Pinned e) v (e_UseCount e) (e_ClosestIDRank e) (e_ClosestNameRank e).
Definition set_UseCount (v : Z) (e : bucketEntry) : bucketEntry :=
  mkEntry (e_Node e) (e_Transient e) (e_FailCount e) (e_SuccessCount e) (e_LastSeen e)
    (e_FirstSeen e) (e_LastSuccess e) (e_LastUsed e) (e_LastFailure e) (e_LastProbe e)
    (e_LastProbeFailure e) (e_OfflineSince e) (e_ProbeMisses e) (e_ProbationUntil e) (e_NextProbeAt
    e) (e_RTTMicros e) (e_Pinned e) (e_Friend e) v (e_ClosestIDRank e) (e_ClosestNameRank e).
Definition set_ClosestIDRank (v : Z) (e : bucketEntry) : bucketEntry :=
  mkEntry (e_Node e) (e_Transient e) (e_FailCount e) (e_SuccessCount e) (e_LastSeen e)
    (e_FirstSeen e) (e_LastSuccess e) (e_LastUsed e) (e_LastFailure e) (e_LastProbe e)
    (e_LastProbeFailure e) (e_OfflineSince e) (e_ProbeMisses e) (e_ProbationUntil e) (e_NextProbeAt
    e) (e_RTTMicros e) (e_Pinned e) (e_Friend e) (e_UseCount e) v (e_ClosestNameRank e).
Definition set_ClosestNameRank (v : Z) (e : bucketEntry) : bucketEntry :=
  mkEntry (e_Node e) (e_Transient e) (e_FailCount e) (e_SuccessCount e) (e_LastSeen e)
    (e_FirstSeen e) (e_LastSuccess e) (e_LastUsed e) (e_LastFailure e) (e_LastProbe e)
    (e_LastProbeFailure e) (e_OfflineSince e) (e_ProbeMisses e) (e_ProbationUntil e) (e_NextProbeAt
    e) (e_RTTMicros e) (e_Pinned e) (e_Friend e) (e_UseCount e) (e_ClosestIDRank e) v.

Record PeerObservation := mkObservation {
  o_Node : NodeInfo;
  o_FailCount : Z;
  o_SuccessCount : Z;
  o_LastSeen : Z;
  o_FirstSeen : Z;
  o_LastSuccess : Z;
  o_LastUsed : Z;
  o_LastFailure : Z;
  o_LastProbe : Z;
  o_LastProbeFailure : Z;
  o_OfflineSince : Z;
  o_ProbeMisses : Z;
  o_ProbationUntil : Z;
  o_NextProbeAt : Z;
  o_RTTMicros : Z;
  o_Pinned : bool;
  o_Friend : bool;
  o_UseCount : Z;
  o_ClosestIDRank : Z;
  o_ClosestNameRank : Z;
}.

Definition peerHistoryTTL : Z := 30 * 24 * Hour.
Definition peerAddressHintTTL : Z := 30 * 24 * Hour.

(** The observation the table compares entries by (a subset of the fields). *)
Definition observationOf (entry : bucketEntry) : PeerObservation := {|
  o_Node := e_Node entry; o_Pinned := e_Pinned entry; o_Friend := e_Friend entry;
  o_UseCount := e_UseCount entry; o_SuccessCount := e_SuccessCount entry;
  o_FirstSeen := e_FirstSeen entry; o_LastSuccess := e_LastSuccess entry; o_LastUsed := e_LastUsed entry;
  o_OfflineSince := e_OfflineSince entry; o_ClosestIDRank := e_ClosestIDRank entry;
  o_ClosestNameRank := e_ClosestNameRank entry;
  o_FailCount := 0; o_LastSeen := 0; o_LastFailure := 0; o_LastProbe := 0; o_LastProbeFailure := 0;
  o_ProbeMisses := 0; o_ProbationUntil := 0; o_NextProbeAt := 0; o_RTTMicros := 0;
|}.

(** The observation [SnapshotPeers] builds. *)
Definition snapshot_of (entry : bucketEntry) : PeerObservation := {|
  o_Node := e_Node entry; o_FailCount := e_FailCount entry; o_SuccessCount := e_SuccessCount entry;
  o_LastSeen := e_LastSeen entry; o_FirstSeen := e_FirstSeen entry;
  o_LastSuccess := e_LastSuccess entry; o_LastUsed := e_LastUsed entry;
  o_LastFailure := e_LastFailure entry; o_RTTMicros := e_RTTMicros entry; o_Pinned := e_Pinned entry;
  o_Friend := e_Friend entry; o_UseCount := e_UseCount entry;
  o_ClosestIDRank := e_ClosestIDRank entry; o_ClosestNameRank := e_ClosestNameRank entry;
  o_NextProbeAt := e_NextProbeAt entry; o_LastProbe := e_LastProbe entry;
  o_LastProbeFailure := e_LastProbeFailure entry;
  o_OfflineSince := e_OfflineSince entry; o_ProbeMisses := e_ProbeMisses entry;
  o_ProbationUntil := e_ProbationUntil entry;
|}.

(** The assignments of [RestoreCandidates] to an entry. *)
Definition restore_entry (peer : PeerObservation) (entry : bucketEntry) : bucketEntry := {|
  e_Node := e_Node entry; e_Transient := e_Transient entry;
  e_FailCount := o_FailCount peer; e_SuccessCount := o_SuccessCount peer;
  e_LastSeen := o_LastSeen peer; e_LastSuccess := o_LastSuccess peer; e_LastUsed := o_LastUsed peer;
  e_FirstSeen := o_FirstSeen peer; e_LastFailure := o_LastFailure peer; e_LastProbe := o_LastProbe peer;
  e_LastProbeFailure := o_LastProbeFailure peer; e_OfflineSince := o_OfflineSince peer;
  e_ProbeMisses := o_ProbeMisses peer; e_ProbationUntil := o_ProbationUntil peer;
  e_NextProbeAt := o_NextProbeAt peer; e_RTTMicros := o_RTTMicros peer;
  e_Pinned := o_Pinned peer; e_Friend := o_Friend peer; e_UseCount := o_UseCount peer;
  e_ClosestIDRank := o_ClosestIDRank peer; e_ClosestNameRank := o_ClosestNameRank peer;
|}.

Definition peerRetentionLess (a b : PeerObservation) : bool :=
  let aUsed := (0 <? o_UseCount a) || negb (IsZero (o_LastUsed a)) in
  let bUsed := (0 <? o_UseCount b) || negb (IsZero (o_LastUsed b)) in
  let aClosest := (0 <? o_ClosestIDRank a) || (0 <? o_ClosestNameRank a) in
  let bClosest := (0 <? o_ClosestIDRank b) || (0 <? o_ClosestNameRank b) in
  if negb (eqb (o_Friend a) (o_Friend b)) then o_Friend a
  else if negb (eqb (o_Pinned a) (o_Pinned b)) then o_Pinned a
  else if negb (eqb aUsed bUsed) then aUsed
  else if negb (o_LastUsed a =? o_LastUsed b) then After (o_LastUsed a) (o_LastUsed b)
  else if negb (o_UseCount a =? o_UseCount b) then o_UseCount b <? o_UseCount a
  else if negb (eqb aClosest bClosest) then aClosest
  else if (0 <? o_ClosestIDRank a) && (0 <? o_ClosestIDRank b)
          && negb (o_ClosestIDRank a =? o_ClosestIDRank b)
  then o_ClosestIDRank a <? o_ClosestIDRank b
  else if (0 <? o_ClosestNameRank a) && (0 <? o_ClosestNameRank b)
          && negb (o_ClosestNameRank a =? o_ClosestNameRank b)
  then o_ClosestNameRank a <? o_ClosestNameRank b
  else if negb (eqb (IsZero (o_OfflineSince a)) (IsZero (o_OfflineSince b))) then IsZero (o_OfflineSince a)
  else if negb (o_FirstSeen a =? o_FirstSeen b) then
    if IsZero (o_FirstSeen a) then false
    else if IsZero (o_FirstSeen b) then true
    else Before (o_FirstSeen a) (o_FirstSeen b)
  else if negb (o_SuccessCount a =? o_SuccessCount b) then o_SuccessCount b <? o_SuccessCount a
  else After (o_LastSuccess a) (o_LastSuccess b).

(** Persisting an entry and restoring it gives it back (the transient mark,
    which keeps an entry out of snapshots, is not stored). *)
Lemma restore_snapshot e : restore_entry (snapshot_of e) e = e.
Proof. by destruct e. Qed.

(** ** The retention order *)
Lemma asym_if (c x y r r' : bool) :
  (c = true → x = true → y = false) → (r = true → r' = false) →
  (if c then x else r) = true → (if c then y else r') = false.
Proof. destruct c; auto. Qed.
Lemma eqb_comm_bool a b : eqb a b = eqb b a.
Proof. by destruct a, b. Qed.

Lemma peerRetentionLess_asym a b : peerRetentionLess a b = true → peerRetentionLess b a = false.
Proof.
  unfold peerRetentionLess, After, Before, IsZero.
  rewrite (Z.eqb_sym (o_LastUsed b) (o_LastUsed a)), (Z.eqb_sym (o_UseCount b)), (Z.eqb_sym (o_ClosestIDRank b)),
    (Z.eqb_sym (o_ClosestNameRank b)), (Z.eqb_sym (o_FirstSeen b) (o_FirstSeen a)), (Z.eqb_sym (o_SuccessCount b)).
  rewrite (andb_comm (0 <? o_ClosestIDRank b)), (andb_comm (0 <? o_ClosestNameRank b)).
  rewrite (eqb_comm_bool (o_Friend b)), (eqb_comm_bool (o_Pinned b)),
    (eqb_comm_bool ((0 <? o_UseCount b) || _)), (eqb_comm_bool ((0 <? o_ClosestIDRank b) || _)),
    (eqb_comm_bool (o_OfflineSince b =? 0)).
  repeat (apply asym_if; [intros Hc Hx|]).
  all: try (by destruct (o_Friend a), (o_Friend b)).
  all: try (by destruct (o_Pinned a), (o_Pinned b)).
  all: try (bool_prop; apply Z.ltb_ge; lia).
  all: try (revert Hc Hx; match goal with |- _ → ?x = true → ?y = false => by destruct x, y end).
  - destruct (o_FirstSeen a =? 0) eqn:Ea; [done|]. destruct (o_FirstSeen b =? 0); [done|].
    bool_prop. apply Z.ltb_ge. lia.
  - intros ?. bool_prop. apply Z.ltb_ge. lia.
Qed.

(** Three peers known by their rank in one list only, in the other only, and
    in both. *)
Definition ranked (id : string) (idRank nameRank firstSeen : Z) : PeerObservation := {|
  o_Node := mkNodeInfo 1 0 id "" "" "[2001:db8::1]:1" "" "" "" ""; o_FailCount := 0; o_SuccessCount := 1;
  o_LastSeen := 9; o_FirstSeen := firstSeen; o_LastSuccess := 9; o_LastUsed := 0; o_LastFailure := 0;
  o_LastProbe := 9; o_LastProbeFailure := 0; o_OfflineSince := 0; o_ProbeMisses := 0;
  o_ProbationUntil := 0; o_NextProbeAt := 0; o_RTTMicros := 0; o_Pinned := false; o_Friend := false;
  o_UseCount := 0; o_ClosestIDRank := idRank; o_ClosestNameRank := nameRank;
|}.

(** The retention order is asymmetric but not transitive, so it is not the
    ordering [sort.Slice] requires: comparing the closeness ranks only when both
    peers have one makes three well-formed observations that precede each other
    in a cycle. *)
Theorem peerRetentionLess_cycle :
  (∀ a b, peerRetentionLess a b = true → peerRetentionLess b a = false) ∧
  let a := ranked "a" 2 0 1 in let b := ranked "b" 0 1 2 in let c := ranked "c" 1 2 3 in
  peerRetentionLess a b = true ∧ peerRetentionLess b c = true ∧ peerRetentionLess c a = true ∧
  ¬ StrictWeakOrder peerRetentionLess.
Proof.
  split; [exact peerRetentionLess_asym|]. cbn zeta. repeat split; try reflexivity.
  intros [Hasym Hneg].
  destruct (Hneg (ranked "a" 2 0 1) (ranked "b" 0 1 2) (ranked "c" 1 2 3) eq_refl) as [H|H]; discriminate H.
Qed.
