(* ===== verification/Routing.v ===== *)
(** * The routing table (internal/dht/table.go): data and operations

    The table's slices and maps hold pointers to shared [bucketEntry] values,
    so the model has a heap of entries: a pointer is a location, the heap a
    list that grows by allocation, and an assignment through a pointer is seen
    through every index that holds it.  [Buckets], [NameBuckets] and [Pending]
    are lists of 256 lists of locations; [peerByID] and [offline] are finite
    maps.  A method body under the table's mutex is one state transition;
    [time.Now()] is the argument [now].  Go leaves the iteration order of a
    map open: an operation that ranges over one takes the keys in the order of
    the iteration. *)
From S2P Require Import Prelude GoBytes GoStrings GoEncoding GoTime GoSort Sha256 GoEnv Lines Identity Record Proto NodeInfo Peer.

Definition K : Z := 20.
Definition maxPendingCandidates : Z := 512.
Definition staleFailureThreshold : Z := 3.
Definition peerProbationPeriod : Z := 2 * Hour.
Definition bucketRefillThreshold : Z := 15.
Definition bucketRefreshInterval : Z := 5 * Minute.
Definition peerCacheHotLimit : Z := 512.

Abbreviation loc := nat (only parsing).
Abbreviation buckets := (list (list nat)) (only parsing).

Record RoutingTable := mkTable {
  SelfID : string;
  SelfNameHash : string;
  heap : list bucketEntry;
  Buckets : buckets;
  NameBuckets : buckets;
  Pending : buckets;
  peerByID : gmap string loc;
  offline : gmap string loc;
  pendingN : Z;
  lastIDRefresh : list Z;
  lastNameRefresh : list Z;
  refreshNameNext : bool;
}.

(** Assignments to the table's fields. *)
Definition with_self (rt : RoutingTable) (hash : string) (nb : buckets) : RoutingTable :=
  mkTable (SelfID rt) hash (heap rt) (Buckets rt) nb (Pending rt) (peerByID rt) (offline rt)
    (pendingN rt) (lastIDRefresh rt) (lastNameRefresh rt) (refreshNameNext rt).
Definition with_heap (rt : RoutingTable) (h : list bucketEntry) : RoutingTable :=
  mkTable (SelfID rt) (SelfNameHash rt) h (Buckets rt) (NameBuckets rt) (Pending rt) (peerByID rt)
    (offline rt) (pendingN rt) (lastIDRefresh rt) (lastNameRefresh rt) (refreshNameNext rt).
Definition with_Buckets (rt : RoutingTable) (b : buckets) : RoutingTable :=
  mkTable (SelfID rt) (SelfNameHash rt) (heap rt) b (NameBuckets rt) (Pending rt) (peerByID rt)
    (offline rt) (pendingN rt) (lastIDRefresh rt) (lastNameRefresh rt) (refreshNameNext rt).
Definition with_NameBuckets (rt : RoutingTable) (b : buckets) : RoutingTable :=
  mkTable (SelfID rt) (SelfNameHash rt) (heap rt) (Buckets rt) b (Pending rt) (peerByID rt)
    (offline rt) (pendingN rt) (lastIDRefresh rt) (lastNameRefresh rt) (refreshNameNext rt).
Definition with_Pending (rt : RoutingTable) (b : buckets) (n : Z) : RoutingTable :=
  mkTable (SelfID rt) (SelfNameHash rt) (heap rt) (Buckets rt) (NameBuckets rt) b (peerByID rt)
    (offline rt) n (lastIDRefresh rt) (lastNameRefresh rt) (refreshNameNext rt).
Definition with_peers (rt : RoutingTable) (m : gmap string loc) : RoutingTable :=
  mkTable (SelfID rt) (SelfNameHash rt) (heap rt) (Buckets rt) (NameBuckets rt) (Pending rt) m
    (offline rt) (pendingN rt) (lastIDRefresh rt) (lastNameRefresh rt) (refreshNameNext rt).
Definition with_offline (rt : RoutingTable) (m : gmap string loc) : RoutingTable :=
  mkTable (SelfID rt) (SelfNameHash rt) (heap rt) (Buckets rt) (NameBuckets rt) (Pending rt)
    (peerByID rt) m (pendingN rt) (lastIDRefresh rt) (lastNameRefresh rt) (refreshNameNext rt).
Definition with_refresh (rt : RoutingTable) (ids names : list Z) (next : bool) : RoutingTable :=
  mkTable (SelfID rt) (SelfNameHash rt) (heap rt) (Buckets rt) (NameBuckets rt) (Pending rt)
    (peerByID rt) (offline rt) (pendingN rt) ids names next.

(** ** Pointers *)
Definition deref (rt : RoutingTable) (l : loc) : bucketEntry := heap rt !!! l.
(** Assignments through a pointer: [f] is the composition of the assignments. *)
Definition modify (rt : RoutingTable) (l : loc) (f : bucketEntry → bucketEntry) : RoutingTable :=
  with_heap rt (<[l := f (deref rt l)]> (heap rt)).
(** [&bucketEntry{...}]: the new pointer and the table. *)
Definition alloc (rt : RoutingTable) (e : bucketEntry) : loc * RoutingTable :=
  (List.length (heap rt), with_heap rt (heap rt ++ [e])).
(** [entry.Node.ID]. *)
Definition id_of (h : list bucketEntry) (l : loc) : string := n_ID (e_Node (h !!! l)).

(** ** Index slices *)
Fixpoint indexOfEntry (h : list bucketEntry) (entries : list loc) (nodeID : string) : option nat :=
  match entries with
  | [] => None
  | l :: rest => if id_of h l =?s nodeID then Some O else S <$> indexOfEntry h rest nodeID
  end.

Definition moveToFront (entries : list loc) (pos : nat) : list loc :=
  match entries !! pos with
  | Some entry => entry :: take pos entries ++ drop (S pos) entries
  | None => entries
  end.

Definition inIndexLocked (h : list bucketEntry) (bs : buckets) (nodeID : string) : bool :=
  existsb (fun b => match indexOfEntry h b nodeID with Some _ => true | None => false end) bs.

(** [append(b[:pos], b[pos+1:]...)]. *)
Definition remove_at (b : list loc) (pos : nat) : list loc := take pos b ++ drop (S pos) b.

Definition removeFromIndexLocked (h : list bucketEntry) (bs : buckets) (nodeID : string)
  : buckets * bool :=
  (map (fun b => match indexOfEntry h b nodeID with Some pos => remove_at b pos | None => b end) bs,
   inIndexLocked h bs nodeID).

Definition clamp_bucket (idx : Z) : nat := Z.to_nat (Z.min 255 (Z.max 0 idx)).

Definition insertIndexLocked (h : list bucketEntry) (bs : buckets) (entry : loc) (idx : Z) : buckets :=
  let i := clamp_bucket idx in
  match bs !! i with
  | None => bs
  | Some b =>
      match indexOfEntry h b (id_of h entry) with
      | Some pos => <[i := moveToFront b pos]> bs
      | None => <[i := entry :: b]> bs
      end
  end.

Definition moveToFrontLocked (h : list bucketEntry) (bs : buckets) (nodeID : string) (bucketIdx : Z) : buckets :=
  if (bucketIdx <? 0) || (255 <? bucketIdx) then bs
  else
    let i := Z.to_nat bucketIdx in
    match bs !! i with
    | None => bs
    | Some b =>
        match indexOfEntry h b nodeID with
        | Some (S p) => <[i := moveToFront b (S p)]> bs
        | _ => bs
        end
    end.

(** The nested loops of [removePendingLocked]: the first match is removed. *)
Fixpoint remove_pending (h : list bucketEntry) (bs : buckets) (nodeID : string) : option buckets :=
  match bs with
  | [] => None
  | b :: rest =>
      match indexOfEntry h b nodeID with
      | Some pos => Some (remove_at b pos :: rest)
      | None => cons b <$> remove_pending h rest nodeID
      end
  end.

Definition removePendingLocked (rt : RoutingTable) (nodeID : string) : RoutingTable * bool :=
  match remove_pending (heap rt) (Pending rt) nodeID with
  | Some bs => (with_Pending rt bs (pendingN rt - 1), true)
  | None => (rt, false)
  end.

Definition removePeerIfUnindexedLocked (rt : RoutingTable) (nodeID : string) : RoutingTable :=
  if match peerByID rt !! nodeID with Some l => e_Pinned (deref rt l) | None => false end then rt
  else if inIndexLocked (heap rt) (Buckets rt) nodeID || inIndexLocked (heap rt) (NameBuckets rt) nodeID
  then rt
  else if bool_decide (is_Some (offline rt !! nodeID)) then rt
  else if inIndexLocked (heap rt) (Pending rt) nodeID then rt
  else with_peers rt (delete nodeID (peerByID rt)).

(** [rt.Pending[idx] = append(rt.Pending[idx], entry)]; the index is out of
    range for -1. *)
Definition append_pending (rt : RoutingTable) (idx : Z) (entry : loc) : res RoutingTable :=
  if idx <? 0 then Panic
  else match Pending rt !! Z.to_nat idx with
       | Some b => Ok (with_Pending rt (<[Z.to_nat idx := b ++ [entry]]> (Pending rt)) (pendingN rt))
       | None => Panic
       end.

Definition empty_buckets : buckets := repeat [] 256.
(** The values of a map in the order of the iteration. *)
Definition range_values (m : gmap string loc) (keys : list string) : list loc :=
  omap (fun k => m !! k) keys.

Section Table.
Context `{UnicodeTables}.

Definition bucketIndex (rt : RoutingTable) (nodeID : string) : Z := bucket_of (SelfID rt) nodeID.
Definition nameBucketIndex (rt : RoutingTable) (node : NodeInfo) : Z :=
  bucket_of (SelfNameHash rt) (nodeNameHash node).

Definition NewRoutingTable (selfID : string) : RoutingTable :=
  mkTable selfID (NodeNameHash selfID) [] empty_buckets empty_buckets empty_buckets ∅ ∅ 0
    (repeat 0 256) (repeat 0 256) false.

Definition SetSelfNameHash `{GoSort} (rt : RoutingTable) (hash : string) (keys : list string) : RoutingTable :=
  let rt := with_self rt hash empty_buckets in
  let entries := sort_Slice (fun i j => str_lt (id_of (heap rt) i) (id_of (heap rt) j))
                   (range_values (peerByID rt) keys) in
  foldl (fun rt entry =>
    if inIndexLocked (heap rt) (Buckets rt) (id_of (heap rt) entry)
    then with_NameBuckets rt
           (insertIndexLocked (heap rt) (NameBuckets rt) entry (nameBucketIndex rt (e_Node (deref rt entry))))
    else rt) rt entries.

Definition ignorable (rt : RoutingTable) (node : NodeInfo) : bool :=
  (n_ID node =?s "") || (n_ID node =?s SelfID rt) || (n_Addr node =?s "").

(** The assignments of [AddNode] to the entry, from [entry.Transient = false]
    to the success counter. *)
Definition note_success (now : Z) (node : NodeInfo) (entry : bucketEntry) : bucketEntry :=
  let entry := set_Transient false entry in
  let entry := set_FailCount 0 entry in
  let entry := set_NextProbeAt 0 entry in
  let entry := set_LastSeen now entry in
  let entry := if IsZero (e_FirstSeen entry) then set_FirstSeen now entry else entry in
  let entry := set_LastSuccess now entry in
  let entry := set_LastProbe now entry in
  let entry := set_NextProbeAt (Add now (initialProbeDelay (n_ID node))) entry in
  let entry := set_ProbeMisses 0 entry in
  let entry := set_LastProbeFailure 0 entry in
  let entry := set_OfflineSince 0 entry in
  if e_SuccessCount entry <? max_u32 then set_SuccessCount (e_SuccessCount entry + 1) entry else entry.

Definition AddNode (rt : RoutingTable) (node : NodeInfo) (now : Z) : RoutingTable :=
  if ignorable rt node then rt
  else
    let '(entry, rt) :=
      match peerByID rt !! n_ID node with
      | None =>
          let '(entry, rt) :=
            alloc rt (set_ProbationUntil (Add now peerProbationPeriod) (new_entry node)) in
          (entry, with_peers rt (<[n_ID node := entry]> (peerByID rt)))
      | Some entry =>
          let rt :=
            if nodeNameHash (e_Node (deref rt entry)) <>?s nodeNameHash node
            then with_NameBuckets rt (removeFromIndexLocked (heap rt) (NameBuckets rt) (n_ID node)).1
            else rt in
          let rt := modify rt entry (set_Node node) in
          let rt :=
            if IsZero (e_ProbationUntil (deref rt entry)) && (e_SuccessCount (deref rt entry) =? 0)
               && negb (e_Pinned (deref rt entry))
            then modify rt entry (set_ProbationUntil (Add now peerProbationPeriod))
            else rt in
          (entry, rt)
      end in
    let rt := with_offline rt (delete (n_ID node) (offline rt)) in
    let rt := modify rt entry (note_success now node) in
    let rt := (removePendingLocked rt (n_ID node)).1 in
    let rt := with_Buckets rt (insertIndexLocked (heap rt) (Buckets rt) entry (bucketIndex rt (n_ID node))) in
    if SelfNameHash rt <>?s ""
    then with_NameBuckets rt (insertIndexLocked (heap rt) (NameBuckets rt) entry (nameBucketIndex rt node))
    else rt.

Definition UpdateKnownNode `{NetIP, RFC3339, Ed25519} (rt : RoutingTable) (node : NodeInfo) (now : Z)
  : RoutingTable * bool :=
  if ignorable rt node || negb (is_ok (VerifyNodeInfo node now)) then (rt, false)
  else
    let incoming := endpointRecordFromNodeInfo node in
    match peerByID rt !! n_ID node with
    | None => (rt, false)
    | Some entry =>
        let current := endpointRecordFromNodeInfo (e_Node (deref rt entry)) in
        if negb (EndpointRecordNewer incoming current) then (rt, false)
        else
          let rt :=
            if nodeNameHash (e_Node (deref rt entry)) <>?s nodeNameHash node
            then with_NameBuckets rt (removeFromIndexLocked (heap rt) (NameBuckets rt) (n_ID node)).1
            else rt in
          let rt := modify rt entry (set_Node node) in
          let rt :=
            if inIndexLocked (heap rt) (Buckets rt) (n_ID node) && (SelfNameHash rt <>?s "")
            then with_NameBuckets rt (insertIndexLocked (heap rt) (NameBuckets rt) entry (nameBucketIndex rt node))
            else rt in
          (rt, true)
    end.

Definition AddLookupCandidate (rt : RoutingTable) (node : NodeInfo) : res (RoutingTable * bool) :=
  if ignorable rt node then Ok (rt, false)
  else
    let idx := bucketIndex rt (n_ID node) in
    if bool_decide (is_Some (peerByID rt !! n_ID node)) || (maxPendingCandidates <=? pendingN rt)
    then Ok (rt, false)
    else
      let '(entry, rt) := alloc rt (set_Transient true (new_entry node)) in
      let rt := with_peers rt (<[n_ID node := entry]> (peerByID rt)) in
      rt ← append_pending rt idx entry;
      Ok (with_Pending rt (Pending rt) (pendingN rt + 1), true).

Definition AddCandidate (rt : RoutingTable) (node : NodeInfo) : res RoutingTable :=
  if ignorable rt node then Ok rt
  else
    let idx := bucketIndex rt (n_ID node) in
    if inIndexLocked (heap rt) (Buckets rt) (n_ID node) || inIndexLocked (heap rt) (NameBuckets rt) (n_ID node)
    then Ok rt
    else
      let entry := peerByID rt !! n_ID node in
      let '(rt, removed) :=
        match entry with Some _ => removePendingLocked rt (n_ID node) | None => (rt, false) end in
      match entry with
      | Some l =>
          if removed then
            let rt := modify rt l (set_Node node) in
            let rt := with_offline rt (delete (n_ID node) (offline rt)) in
            append_pending rt idx l
          else if maxPendingCandidates <=? pendingN rt then Ok rt
          else
            let rt := modify rt l (set_Node node) in
            let rt := modify rt l (set_Transient false) in
            let rt := with_offline rt (delete (n_ID node) (offline rt)) in
            rt ← append_pending rt idx l;
            Ok (with_Pending rt (Pending rt) (pendingN rt + 1))
      | None =>
          if maxPendingCandidates <=? pendingN rt then Ok rt
          else
            let '(l, rt) := alloc rt (new_entry node) in
            let rt := with_peers rt (<[n_ID node := l]> (peerByID rt)) in
            let rt := modify rt l (set_Transient false) in
            let rt := with_offline rt (delete (n_ID node) (offline rt)) in
            rt ← append_pending rt idx l;
            Ok (with_Pending rt (Pending rt) (pendingN rt + 1))
      end.

(** The observations [RestoreCandidates] skips. *)
Definition restore_skips (peer : PeerObservation) (now : Z) : bool :=
  (n_ID (o_Node peer) =?s "") || (n_Addr (o_Node peer) =?s "")
  || (negb (o_Pinned peer) && negb (o_Friend peer)
      && ((negb (IsZero (o_OfflineSince peer)) && (peerHistoryTTL <? Sub now (o_OfflineSince peer)))
          || (IsZero (o_OfflineSince peer) && negb (IsZero (o_LastSeen peer))
              && (peerAddressHintTTL <? Sub now (o_LastSeen peer))))).

(** One iteration of the loop. *)
Definition restore_one (rt : RoutingTable) (peer : PeerObservation) (now : Z) : res RoutingTable :=
  if restore_skips peer now then Ok rt
  else
    rt ← AddCandidate rt (o_Node peer);
    match peerByID rt !! n_ID (o_Node peer) with
    | None => Ok rt
    | Some entry =>
        let rt := modify rt entry (restore_entry peer) in
        if negb (IsZero (o_OfflineSince peer)) then
          let rt := (removePendingLocked rt (n_ID (o_Node peer))).1 in
          Ok (with_offline rt (<[n_ID (o_Node peer) := entry]> (offline rt)))
        else Ok rt
    end.

Fixpoint restore_loop (rt : RoutingTable) (peers : list PeerObservation) (now : Z) : res RoutingTable :=
  match peers with
  | [] => Ok rt
  | peer :: rest => rt ← restore_one rt peer now; restore_loop rt rest now
  end.

Definition RestoreCandidates `{GoSort} (rt : RoutingTable) (peers : list PeerObservation) (now : Z)
  : res RoutingTable :=
  let peers :=
    if peerCacheHotLimit <? len peers
    then take (Z.to_nat peerCacheHotLimit)
           (sort_Slice (fun i j => After (o_LastSuccess i) (o_LastSuccess j)) peers)
    else peers in
  restore_loop rt peers now.

(** The loops of [PromoteCandidate]: remove the first match of each bucket
    until one with a non-empty ID is found. *)
Fixpoint promote_scan (h : list bucketEntry) (bs : buckets) (n : Z) (nodeID : string)
  : buckets * Z * NodeInfo :=
  match bs with
  | [] => ([], n, zero_NodeInfo)
  | b :: rest =>
      match indexOfEntry h b nodeID with
      | Some pos =>
          let node := e_Node (h !!! (b !!! pos)) in
          if n_ID node <>?s "" then (remove_at b pos :: rest, n - 1, node)
          else let '(rest', n', node') := promote_scan h rest (n - 1) nodeID in
               (remove_at b pos :: rest', n', node')
      | None =>
          let '(rest', n', node') := promote_scan h rest n nodeID in (b :: rest', n', node')
      end
  end.

Definition PromoteCandidate (rt : RoutingTable) (nodeID : string) (now : Z) : RoutingTable :=
  let '(bs, n, node) := promote_scan (heap rt) (Pending rt) (pendingN rt) nodeID in
  let rt := with_Pending rt bs n in
  if n_ID node <>?s "" then AddNode rt node now else rt.

Definition DiscardCandidate (rt : RoutingTable) (nodeID : string) : RoutingTable :=
  let '(rt, removed) := removePendingLocked rt nodeID in
  if removed then removePeerIfUnindexedLocked rt nodeID else rt.

Definition NoteFailureAt (rt : RoutingTable) (nodeID : string) (now : Z) : RoutingTable * bool :=
  match peerByID rt !! nodeID with
  | None => (rt, false)
  | Some entry =>
      if nodeID =?s SelfID rt then (rt, false)
      else
        let rt := modify rt entry (set_LastFailure now) in
        let rt := if e_FailCount (deref rt entry) <? max_u8
                  then modify rt entry (fun e => set_FailCount (e_FailCount e + 1) e) else rt in
        (rt, false)
  end.

(** The choice among the due active peers, in the order of the iteration. *)
Definition probe_select (rt : RoutingTable) (now : Z) (selected : option loc) (entry : loc) : option loc :=
  if negb (inIndexLocked (heap rt) (Buckets rt) (id_of (heap rt) entry))
     || Before now (e_NextProbeAt (deref rt entry))
  then selected
  else match selected with
       | None => Some entry
       | Some s => if Before (e_LastProbe (deref rt entry)) (e_LastProbe (deref rt s))
                   then Some entry else selected
       end.

Definition BeginLivenessProbe (rt : RoutingTable) (now : Z) (keys : list string)
  : RoutingTable * option NodeInfo :=
  match foldl (probe_select rt now) None (range_values (peerByID rt) keys) with
  | None => (rt, None)
  | Some selected =>
      let rt := modify rt selected (set_LastProbe now) in
      let rt := modify rt selected (set_NextProbeAt (Add now livenessProbeInterval)) in
      (rt, Some (e_Node (deref rt selected)))
  end.

Definition note_alive (now : Z) (entry : bucketEntry) : bucketEntry :=
  let entry := set_ProbeMisses 0 entry in
  let entry := set_FailCount 0 entry in
  let entry := set_LastSeen now entry in
  let entry := set_LastSuccess now entry in
  let entry := set_LastFailure 0 entry in
  let entry := set_LastProbeFailure 0 entry in
  let entry := set_OfflineSince 0 entry in
  if IsZero (e_ProbationUntil entry) then set_ProbationUntil (Add now peerProbationPeriod) entry else entry.

Definition note_miss (now : Z) (entry : bucketEntry) : bucketEntry :=
  let entry := if e_ProbeMisses entry <? max_u8 then set_ProbeMisses (e_ProbeMisses entry + 1) entry else entry in
  let entry := set_LastFailure now entry in
  set_LastProbeFailure now entry.

Definition mark_offline (now : Z) (entry : bucketEntry) : bucketEntry :=
  if IsZero (e_OfflineSince entry) then set_OfflineSince now entry else entry.

(** The last part of [RecordLivenessResult], after the third miss: take the
    peer out of the indexes and keep it offline or forget it. *)
Definition retire (rt : RoutingTable) (entry : loc) (nodeID : string) (now : Z) : RoutingTable * bool :=
  let '(bs, removed1) := removeFromIndexLocked (heap rt) (Buckets rt) nodeID in
  let rt := with_Buckets rt bs in
  let '(nbs, removed2) := removeFromIndexLocked (heap rt) (NameBuckets rt) nodeID in
  let rt := with_NameBuckets rt nbs in
  let removed := removed2 || removed1 in
  if removed then
    let rt := modify rt entry (mark_offline now) in
    let rt := with_offline rt (<[nodeID := entry]> (offline rt)) in
    (removePeerIfUnindexedLocked rt nodeID, removed)
  else if staleFailureThreshold <=? e_ProbeMisses (deref rt entry) then
    let rt := (removePendingLocked rt nodeID).1 in
    if (0 <? e_SuccessCount (deref rt entry)) || e_Pinned (deref rt entry) then
      let rt := modify rt entry (mark_offline now) in
      (with_offline rt (<[nodeID := entry]> (offline rt)), removed)
    else (with_peers rt (delete nodeID (peerByID rt)), removed)
  else (rt, removed).

Definition RecordLivenessResult (rt : RoutingTable) (nodeID : string) (now : Z) (alive : bool)
  : RoutingTable * bool :=
  match peerByID rt !! nodeID with
  | None => (rt, false)
  | Some entry =>
      let rt := modify rt entry (set_LastProbe now) in
      let rt := modify rt entry (set_NextProbeAt (Add now livenessProbeInterval)) in
      if alive then (modify rt entry (note_alive now), false)
      else if negb (IsZero (e_LastProbeFailure (deref rt entry)))
              && (Sub now (e_LastProbeFailure (deref rt entry)) <? livenessProbeInterval)
      then (rt, false)
      else
        let rt := modify rt entry (note_miss now) in
        if e_ProbeMisses (deref rt entry) <? staleFailureThreshold then (rt, false)
        else retire rt entry nodeID now
  end.

(** The assignments of [RecordUse] up to the round-trip time. *)
Definition note_use (now rtt : Z) (entry : bucketEntry) : bucketEntry :=
  let entry := set_LastUsed now entry in
  let entry := if e_UseCount entry <? max_u32 then set_UseCount (e_UseCount entry + 1) entry else entry in
  let entry := set_LastSeen now entry in
  let entry := set_FailCount 0 entry in
  let entry := set_ProbeMisses 0 entry in
  let entry := set_LastProbeFailure 0 entry in
  let entry := set_LastProbe now entry in
  let entry := set_NextProbeAt (Add now livenessProbeInterval) entry in
  if 0 <? rtt then
    let micros := Z.min (rtt / 1000) max_u32 in
    if e_RTTMicros entry =? 0 then set_RTTMicros micros entry
    else set_RTTMicros (u32 ((e_RTTMicros entry * 7 + micros) / 8)) entry
  else entry.

Definition set_NameHash (hash : string) (node : NodeInfo) : NodeInfo :=
  mkNodeInfo (n_IdentityVersion node) (n_IdentitySequence node) (n_ID node) (n_Name node) hash (n_Addr node)
    (n_PublicKey node) (n_IdentityIssuedAt node) (n_IdentityExpiresAt node) (n_IdentitySignature node).

Definition RecordUse (rt : RoutingTable) (nodeID : string) (now rtt : Z) : RoutingTable :=
  match peerByID rt !! nodeID with
  | None => rt
  | Some entry =>
      let rt := modify rt entry (note_use now rtt) in
      let rt := with_Buckets rt (moveToFrontLocked (heap rt) (Buckets rt) nodeID (bucketIndex rt nodeID)) in
      if SelfNameHash rt <>?s "" then
        let rt :=
          if n_NameHash (e_Node (deref rt entry)) =?s ""
          then modify rt entry (fun e => set_Node (set_NameHash (NodeNameHash (n_Name (e_Node e))) (e_Node e)) e)
          else rt in
        with_NameBuckets rt
          (moveToFrontLocked (heap rt) (NameBuckets rt) nodeID (nameBucketIndex rt (e_Node (deref rt entry))))
      else rt
  end.

Definition SetPinned (rt : RoutingTable) (nodeID : string) (pinned : bool) : RoutingTable * bool :=
  match peerByID rt !! nodeID with
  | None => (rt, false)
  | Some entry =>
      let rt := modify rt entry (set_Pinned pinned) in
      let rt := if negb pinned then removePeerIfUnindexedLocked rt nodeID else rt in
      (rt, true)
  end.

Definition SetFriend (rt : RoutingTable) (nodeID : string) (friend : bool) : RoutingTable * bool :=
  match peerByID rt !! nodeID with
  | None => (rt, false)
  | Some entry => (modify rt entry (set_Friend friend), true)
  end.

(** The loop over [offline], in the order of the iteration. *)
Definition PruneOffline (rt : RoutingTable) (now : Z) (keys : list string) : RoutingTable :=
  foldl (fun rt id =>
    match offline rt !! id with
    | None => rt
    | Some entry =>
        let e := deref rt entry in
        if negb (e_Pinned e) && negb (e_Friend e) && negb (IsZero (e_OfflineSince e))
           && (peerHistoryTTL <? Sub now (e_OfflineSince e))
        then with_peers (with_offline rt (delete id (offline rt))) (delete id (peerByID rt))
        else rt
    end) rt keys.

(** ** Queries *)
Definition ProbeAllowed (rt : RoutingTable) (nodeID : string) (now : Z) : bool :=
  match peerByID rt !! nodeID with
  | None => true
  | Some entry =>
      IsZero (e_NextProbeAt (deref rt entry)) || negb (Before now (e_NextProbeAt (deref rt entry)))
  end.

(** The coordinate [sortClosestEntries] compares. *)
Definition sort_coordinate (node : NodeInfo) (byNameHash : bool) : string :=
  if byNameHash then
    (if n_NameHash node =?s "" then NodeNameHash (n_Name node) else n_NameHash node)
  else n_ID node.

(** [less]: by distance to the target, then by NodeID. *)
Definition closer (target : string) (byNameHash : bool) (a b : NodeInfo) : bool :=
  let dl := xorDistance (sort_coordinate a byNameHash) target in
  let dr := xorDistance (sort_coordinate b byNameHash) target in
  if negb (dl =? dr) then dl <? dr else str_lt (n_ID a) (n_ID b).

Definition sortClosestEntries `{GoSort} (rt : RoutingTable) (all : list loc) (target : string) (count : Z)
    (byNameHash : bool) : list NodeInfo :=
  if count <=? 0 then []
  else
    let all := sort_Slice
      (fun i j => closer target byNameHash (e_Node (deref rt i)) (e_Node (deref rt j))) all in
    let all := if count <? len all then take (Z.to_nat count) all else all in
    map (fun entry => e_Node (deref rt entry)) all.

Definition closestFrom `{GoSort} (rt : RoutingTable) (bs : buckets) (target : string) (count : Z)
    (byNameHash : bool) : list NodeInfo :=
  if count <=? 0 then [] else sortClosestEntries rt (concat bs) target count byNameHash.

Definition ClosestNodes `{GoSort} (rt : RoutingTable) (targetID : string) (count : Z) : list NodeInfo :=
  closestFrom rt (Buckets rt) targetID count false.
Definition ClosestNodesByNameHash `{GoSort} (rt : RoutingTable) (targetHash : string) (count : Z) : list NodeInfo :=
  closestFrom rt (NameBuckets rt) targetHash count true.

Definition ClosestNodesForBootstrap `{GoSort} (rt : RoutingTable) (target : string) (count : Z)
    (byNameHash : bool) (now : Z) (keys : list string) : list NodeInfo :=
  if count <=? 0 then []
  else
    let active := concat (if byNameHash then NameBuckets rt else Buckets rt) in
    let seen := map (id_of (heap rt)) active in
    let hints := List.filter (fun entry =>
      negb (IsZero (e_OfflineSince (deref rt entry))
            || (peerHistoryTTL <? Sub now (e_OfflineSince (deref rt entry))))
      && negb (bool_decide (id_of (heap rt) entry ∈ seen))) (range_values (offline rt) keys) in
    sortClosestEntries rt (active ++ hints) target count byNameHash.

Definition NodeByAddress (rt : RoutingTable) (addr : string) (keys : list string) : option NodeInfo :=
  (fun entry => e_Node (deref rt entry)) <$>
    List.find (fun entry => n_Addr (e_Node (deref rt entry)) =?s addr) (range_values (peerByID rt) keys).

Definition ActiveNode (rt : RoutingTable) (nodeID : string) : option NodeInfo :=
  match peerByID rt !! nodeID with
  | None => None
  | Some entry =>
      if negb (inIndexLocked (heap rt) (Buckets rt) nodeID) && negb (inIndexLocked (heap rt) (NameBuckets rt) nodeID)
      then None else Some (e_Node (deref rt entry))
  end.

(** The last loop of [Nodes]: skip repeated IDs; [rt.peerByID[id].Node]
    dereferences a nil pointer when the ID has no peer. *)
Fixpoint nodes_loop (rt : RoutingTable) (lastID : string) (ids : list string) : res (list NodeInfo) :=
  match ids with
  | [] => Ok []
  | id :: rest =>
      if id =?s lastID then nodes_loop rt lastID rest
      else match peerByID rt !! id with
           | None => Panic
           | Some entry =>
               out ← nodes_loop rt id rest;
               Ok (e_Node (deref rt entry) :: out)
           end
  end.

Definition Nodes `{GoSort} (rt : RoutingTable) : res (list NodeInfo) :=
  nodes_loop rt "" (sort_Slice str_lt (map (id_of (heap rt)) (concat (Buckets rt)))).

Definition ActivePeerCount (rt : RoutingTable) : Z :=
  foldl (fun count b => count + len b) 0 (Buckets rt).

(** [appendUnique] over a list of entries; the flag says the limit was reached. *)
Fixpoint append_unique (rt : RoutingTable) (limit : Z) (entries : list loc)
    (seen : gset string) (out : list NodeInfo) : gset string * list NodeInfo * bool :=
  match entries with
  | [] => (seen, out, false)
  | entry :: rest =>
      let id := id_of (heap rt) entry in
      if bool_decide (id ∈ seen) then append_unique rt limit rest seen out
      else
        let out := out ++ [e_Node (deref rt entry)] in
        let seen := {[id]} ∪ seen in
        if len out =? limit then (seen, out, true) else append_unique rt limit rest seen out
  end.

Definition CandidateNodes `{GoSort} (rt : RoutingTable) (limit now : Z) (peerKeys offlineKeys : list string)
  : list NodeInfo :=
  let limit := if (limit <=? 0) || (maxPendingCandidates <? limit) then maxPendingCandidates else limit in
  let less i j := peerRetentionLess (observationOf (deref rt i)) (observationOf (deref rt j)) in
  let candidates := sort_Slice less (concat (Pending rt)) in
  let '(seen, out, full) := append_unique rt limit candidates ∅ [] in
  if full then out
  else
    let preferred := List.filter (fun entry => e_Pinned (deref rt entry) || e_Friend (deref rt entry))
                       (range_values (peerByID rt) peerKeys) in
    let '(seen, out, full) := append_unique rt limit preferred seen out in
    if full then out
    else
      let offline := List.filter (fun entry =>
        let e := deref rt entry in
        e_Pinned e || e_Friend e || IsZero (e_OfflineSince e)
        || (Sub now (e_OfflineSince e) <=? peerHistoryTTL)) (range_values (offline rt) offlineKeys) in
      let '(_, out, _) := append_unique rt limit (sort_Slice less offline) seen out in
      out.

(** The ranks of the 50 closest peers of a sorted list, 1 for the closest. *)
Definition rank_map (sorted : list PeerObservation) : gmap string Z :=
  foldl (fun m '(i, peer) => <[n_ID (o_Node peer) := u16 (Z.of_nat i + 1)]> m) ∅
    (imap (fun i peer => (i, peer)) (take 50 sorted)).

Definition set_ranks (idRank nameRank : Z) (p : PeerObservation) : PeerObservation :=
  mkObservation (o_Node p) (o_FailCount p) (o_SuccessCount p) (o_LastSeen p) (o_FirstSeen p) (o_LastSuccess p)
    (o_LastUsed p) (o_LastFailure p) (o_LastProbe p) (o_LastProbeFailure p) (o_OfflineSince p) (o_ProbeMisses p)
    (o_ProbationUntil p) (o_NextProbeAt p) (o_RTTMicros p) (o_Pinned p) (o_Friend p) (o_UseCount p)
    idRank nameRank.

Definition assignClosestRanks `{GoSort} (peers : list PeerObservation) (selfID selfNameHash : string)
  : list PeerObservation :=
  let byID := sort_Slice (fun i j =>
    xorDistance selfID (n_ID (o_Node i)) <? xorDistance selfID (n_ID (o_Node j))) peers in
  let idRanks := rank_map byID in
  let byName := sort_Slice (fun i j =>
    xorDistance selfNameHash (nodeNameHash (o_Node i)) <? xorDistance selfNameHash (nodeNameHash (o_Node j))) peers in
  let nameRanks := rank_map byName in
  map (fun peer => set_ranks (default 0 (idRanks !! n_ID (o_Node peer)))
                     (default 0 (nameRanks !! n_ID (o_Node peer))) peer) peers.

Definition snapshot_keeps (entry : bucketEntry) : bool :=
  negb (e_Transient entry)
  && negb ((e_SuccessCount entry =? 0) && negb (e_Pinned entry) && negb (e_Friend entry)).

Definition SnapshotPeers `{GoSort} (rt : RoutingTable) (keys : list string) : list PeerObservation :=
  let out := map snapshot_of (List.filter snapshot_keeps (map (deref rt) (range_values (peerByID rt) keys))) in
  assignClosestRanks out (SelfID rt) (SelfNameHash rt).

(** ** Bucket refresh *)
Record RefreshTarget := mkRefresh { rf_Key : string; rf_NameHash : bool; rf_Bucket : Z }.

(** One bucket of a pass.  [draw] is the random source: the value drawn for
    the bucket, or [None] when the source fails. *)
Definition refresh_bucket (now : Z) (limit : Z) (byName : bool) (selfCoordinate : string) (bs : buckets)
    (draw : bool → Z → option Z) (st : list RefreshTarget * list Z) (i : nat) : list RefreshTarget * list Z :=
  let '(targets, refreshed) := st in
  let size := len (bs !!! i) in
  let age := Sub now (refreshed !!! i) in
  if negb (len targets <? limit) then st
  else if (size =? 0) || ((bucketRefillThreshold <=? size) && (age <? bucketRefreshInterval)) then st
  else if age <? bucketRefreshInterval / 2 then st
  else match draw byName (Z.of_nat i) with
       | None => st
       | Some r =>
           let target := randomTargetInBucket selfCoordinate (Z.of_nat i) r in
           let key := (if byName then "node/name/" else "vx6_") +:+ target in
           (targets ++ [mkRefresh key byName (Z.of_nat i)], <[i := now]> refreshed)
       end.

Definition refresh_pass (now limit : Z) (draw : bool → Z → option Z) (byName : bool)
    (st : list RefreshTarget * RoutingTable) : list RefreshTarget * RoutingTable :=
  let '(targets, rt) := st in
  if negb (len targets <? limit) then st
  else if byName then
    if SelfNameHash rt =?s "" then st
    else
      let '(targets, refreshed) :=
        foldl (refresh_bucket now limit true (SelfNameHash rt) (NameBuckets rt) draw)
          (targets, lastNameRefresh rt) (rev (seq 0 256)) in
      (targets, with_refresh rt (lastIDRefresh rt) refreshed (refreshNameNext rt))
  else
    let '(targets, refreshed) :=
      foldl (refresh_bucket now limit false (SelfID rt) (Buckets rt) draw)
        (targets, lastIDRefresh rt) (rev (seq 0 256)) in
    (targets, with_refresh rt refreshed (lastNameRefresh rt) (refreshNameNext rt)).

Definition RefreshTargets (rt : RoutingTable) (now limit : Z) (draw : bool → Z → option Z)
  : list RefreshTarget * RoutingTable :=
  if limit <=? 0 then ([], rt)
  else
    let st := refresh_pass now limit draw (refreshNameNext rt) ([], rt) in
    let '(targets, rt) := refresh_pass now limit draw (negb (refreshNameNext rt)) st in
    (targets, with_refresh rt (lastIDRefresh rt) (lastNameRefresh rt) (negb (refreshNameNext rt))).
End Table.

(** ** Network diversity (dht.go [ipv6Prefix48], [peerDiversityKeys]) *)
Section Diversity.
Context `{NetIP, GoSort}.

Definition ipv6Prefix48 (address : string) : string :=
  let host := match SplitHostPort address with Some (h, _) => h | None => address end in
  match net_ParseIP (Trim host "[]") with
  | None => ""
  | Some ip => if bool_decide (To4 ip ≠ None) then "" else ip_String (mask_bytes 6 ip)
  end.

(** [resolve] is [ResolveASNForAddr]. *)
Definition peerDiversityKeys (resolve : string → option string) (addr : string) : list string :=
  match resolve addr with Some asn => ["asn:" +:+ asn] | None => [] end
  ++ (let prefix := ipv6Prefix48 addr in if prefix <>?s "" then ["prefix:" +:+ prefix] else []).

Fixpoint diversity_loop (resolve : string → option string) (entries : list bucketEntry)
    (seen : gset string) : list NodeInfo :=
  match entries with
  | [] => []
  | entry :: rest =>
      let keys := peerDiversityKeys resolve (n_Addr (e_Node entry)) in
      let addsCoverage := existsb (fun key => negb (bool_decide (key ∈ seen))) keys in
      if negb addsCoverage then diversity_loop resolve rest seen
      else e_Node entry :: diversity_loop resolve rest (list_to_set keys ∪ seen)
  end.

Definition diversity_less (a b : bucketEntry) : bool :=
  let left := observationOf a in let right := observationOf b in
  if peerRetentionLess left right then true
  else if peerRetentionLess right left then false
  else str_lt (n_ID (e_Node a)) (n_ID (e_Node b)).

Definition DiversityContacts (resolve : string → option string) (rt : RoutingTable) (keys : list string)
  : list NodeInfo :=
  let entries := List.filter (fun e => inIndexLocked (heap rt) (Buckets rt) (n_ID (e_Node e)))
                   (map (deref rt) (range_values (peerByID rt) keys)) in
  diversity_loop resolve (sort_Slice diversity_less entries) ∅.
End Diversity.
