(* ===== verification/Store.v ===== *)
(** * The value store of a DHT server (internal/dht/dht.go)

    The stored values with their version history, the admission of a store
    request, the persistent copy, and [HandleDHT], the whole handler of an
    incoming request.  Every [time.Now()] of the handler is a separate reading of
    the clock. *)
From S2P Require Import Prelude GoBytes GoStrings GoEncoding GoTime GoSort Sha256 GoEnv Lines GoNumbers Identity Record StrictJson Envelope Hidden Catalog Proto NodeInfo Peer Value RateLimit Routing.

(** ** Persistence: the interface the server uses *)
Class ValuePersistence (P : Type) := {
  PutValue : P → string → string → res P;
  LoadValues : P → res (gmap string string);
  DeleteValue : P → string → res P;
  (** What a restarted process would read. *)
  saved : P → gmap string string;
  PutValue_saved p key value p' : HasPrefix key "hidden-desc/v1/" = false →
    PutValue p key value = Ok p' → saved p' = <[key := value]> (saved p);
  LoadValues_saved p rows : LoadValues p = Ok rows → rows = saved p;
  DeleteValue_saved p key p' : DeleteValue p key = Ok p' → saved p' = delete key (saved p);
}.

(** ** The store's state *)
Record StoredVersion := mkVersion {
  v_Family : string;
  v_Fingerprint : string;
  v_PublisherNodeID : string;
  v_Version : Z;  (* uint64 *)
  v_IssuedAt : string;
  v_ExpiresAt : string;
}.
Definition zero_version : StoredVersion := mkVersion "" "" "" 0 "" "".

Record StoredValueState := mkState {
  Current : StoredVersion;
  Previous : list StoredVersion;
  Conflicts : list StoredVersion;
}.
Definition zero_state : StoredValueState := mkState zero_version [] [].

Record LookupLimitsT := mkLimits {
  MaxRounds : Z;
  MaxConcurrent : Z;
  MaxPeerQueries : Z;
  MaxReferrals : Z;
  MaxResponseSize : Z;
  MaxRetries : Z;
  PeerTimeout : Z;
  TotalTimeout : Z;
}.

Definition defaultLookupRounds : Z := 20.
Definition defaultLookupParallelism : Z := 4.
Definition defaultLookupReferralLimit : Z := 4.
Definition defaultLookupResponseLimit : Z := 1024 * 1024.
Definition defaultLookupPeerTimeout : Z := 2 * Second.
Definition defaultLookupTotalTimeout : Z := 10 * Second.

Definition defaultLookupLimits : LookupLimitsT := {|
  MaxRounds := defaultLookupRounds; MaxConcurrent := defaultLookupParallelism;
  MaxPeerQueries := defaultLookupRounds * defaultLookupParallelism;
  MaxReferrals := defaultLookupReferralLimit; MaxResponseSize := defaultLookupResponseLimit;
  MaxRetries := 0; PeerTimeout := defaultLookupPeerTimeout; TotalTimeout := defaultLookupTotalTimeout |}.

(** The fields of [Server] the request path reads and writes. *)
Record Server (P : Type) := mkServer {
  RT : RoutingTable;
  Values : gmap string string;
  valuePersistence : option P;
  publisher : Identity;
  lookupLimits : LookupLimitsT;
  versions : gmap string StoredValueState;
  hiddenRates : rates;
  storeRates : rates;
}.
Arguments mkServer {P}.
Arguments RT {P}.
Arguments Values {P}.
Arguments valuePersistence {P}.
Arguments publisher {P}.
Arguments lookupLimits {P}.
Arguments versions {P}.
Arguments hiddenRates {P}.
Arguments storeRates {P}.

Definition zero_identity : Identity := mkIdentity "" [] [].
Definition NewServer {P} `{UnicodeTables} (selfID : string) : Server P :=
  mkServer (NewRoutingTable selfID) ∅ None zero_identity defaultLookupLimits ∅ ∅ ∅.

Section Fields.
Context {P : Type}.
Implicit Types s : Server P.

Definition set_Values (s : Server P) v : Server P :=
  mkServer (RT s) v (valuePersistence s) (publisher s) (lookupLimits s) (versions s) (hiddenRates s) (storeRates s).
Definition set_persistence (s : Server P) p : Server P :=
  mkServer (RT s) (Values s) p (publisher s) (lookupLimits s) (versions s) (hiddenRates s) (storeRates s).
Definition set_publisher (s : Server P) i : Server P :=
  mkServer (RT s) (Values s) (valuePersistence s) i (lookupLimits s) (versions s) (hiddenRates s) (storeRates s).
Definition set_limits (s : Server P) l : Server P :=
  mkServer (RT s) (Values s) (valuePersistence s) (publisher s) l (versions s) (hiddenRates s) (storeRates s).
Definition set_versions (s : Server P) v : Server P :=
  mkServer (RT s) (Values s) (valuePersistence s) (publisher s) (lookupLimits s) v (hiddenRates s) (storeRates s).
Definition set_hiddenRates (s : Server P) r : Server P :=
  mkServer (RT s) (Values s) (valuePersistence s) (publisher s) (lookupLimits s) (versions s) r (storeRates s).
Definition set_storeRates (s : Server P) r : Server P :=
  mkServer (RT s) (Values s) (valuePersistence s) (publisher s) (lookupLimits s) (versions s) (hiddenRates s) r.

(** ** Lookup limits *)
Definition SetLookupLimits (s : Server P) (l : LookupLimitsT) : res unit * Server P :=
  let d := defaultLookupLimits in
  if (MaxRounds l <=? 0) || (MaxRounds d <? MaxRounds l) ||
     (MaxConcurrent l <=? 0) || (MaxConcurrent d <? MaxConcurrent l) ||
     (MaxPeerQueries l <=? 0) || (MaxPeerQueries d <? MaxPeerQueries l) ||
     (MaxRounds l * MaxConcurrent l <? MaxPeerQueries l) ||
     (MaxReferrals l <=? 0) || (MaxReferrals d <? MaxReferrals l) ||
     (MaxResponseSize l <=? 0) || (MaxResponseSize d <? MaxResponseSize l) ||
     (MaxRetries l <? 0) || (2 <? MaxRetries l) ||
     (PeerTimeout l <=? 0) || (PeerTimeout d <? PeerTimeout l) ||
     (TotalTimeout l <=? 0) || (TotalTimeout d <? TotalTimeout l)
  then (Err "lookup limits must be positive and cannot exceed protocol ceilings", s)
  else (Ok tt, set_limits s l).

Definition LookupLimits (s : Server P) : LookupLimitsT :=
  if MaxRounds (lookupLimits s) =? 0 then defaultLookupLimits else lookupLimits s.

Definition SetPublisherIdentity (s : Server P) (id : Identity) : res unit * Server P :=
  match Identity_Validate id with
  | Ok _ => (Ok tt, set_publisher s id)
  | Err e => (Err e, s)
  | Panic => (Panic, s)
  end.

Definition LookupState (s : Server P) (key : string) : option StoredValueState := versions s !! key.
End Fields.

Definition NewServerWithIdentity {P} `{UnicodeTables} (id : Identity) : Server P :=
  (SetPublisherIdentity (NewServer (id_NodeID id)) id).2.

(** ** Version history *)
Definition maxTrackedVersions : nat := 6.

Definition same_version (a b : StoredVersion) : bool :=
  (v_Fingerprint a =?s v_Fingerprint b) && (v_Version a =? v_Version b) &&
  (v_PublisherNodeID a =?s v_PublisherNodeID b).

Definition appendBoundedVersion (values : list StoredVersion) (incoming : StoredVersion) : list StoredVersion :=
  if existsb (fun existing => same_version existing incoming) values then values
  else
    let values := values ++ [incoming] in
    if (maxTrackedVersions <? List.length values)%nat
    then drop (List.length values - maxTrackedVersions) values else values.

Definition storedVersionFromValidated `{RFC3339} (value : validatedValue) : StoredVersion := {|
  v_Family := vv_family value;
  v_Fingerprint := vv_fingerprint value;
  v_PublisherNodeID := vv_publisherNodeID value;
  v_Version := vv_version value;
  v_IssuedAt := time_Format (vv_issuedAt value);
  v_ExpiresAt := time_Format (vv_expiresAt value);
|}.

Section Store.
Context `{UnicodeTables, NetIP, RFC3339, Ed25519, GoSort}.
Context `{!StrictJSON EndpointRecord} `{!JSON SignedEnvelope} `{!JSON ServiceRecord}
  `{!JSON HiddenDescriptor} `{!JSON (list ServiceRecord)} `{!JSON PrivateServiceCatalog}.
Context {P : Type} `{!ValuePersistence P}.
Implicit Types s : Server P.

Definition recordVersionLocked (s : Server P) (key : string) (previous incoming : validatedValue)
    (changed : bool) : Server P :=
  if vv_raw incoming =?s "" then s
  else
    let state := default zero_state (versions s !! key) in
    if changed then
      let prev := if vv_raw previous <>?s ""
                  then appendBoundedVersion (Previous state) (storedVersionFromValidated previous)
                  else Previous state in
      set_versions s (<[key := mkState (storedVersionFromValidated incoming) prev (Conflicts state)]> (versions s))
    else if v_Fingerprint (Current state) =?s "" then
      set_versions s (<[key := mkState (storedVersionFromValidated incoming) (Previous state)
                                 (Conflicts state)]> (versions s))
    else s.

Definition recordConflictLocked (s : Server P) (key : string) (incoming : validatedValue) : Server P :=
  if vv_raw incoming =?s "" then s
  else
    let state := default zero_state (versions s !! key) in
    set_versions s (<[key := mkState (Current state) (Previous state)
      (appendBoundedVersion (Conflicts state) (storedVersionFromValidated incoming))]> (versions s)).

(** [storeValidated]; the strings are the value kept and whether it changed. *)
Definition storeValidated (s : Server P) (key value : string) (now : Z)
  : res (string * bool) * Server P :=
  let current := default "" (Values s !! key) in
  match chooseStoredValue key current value now with
  | Ok ch =>
      match ch_error ch with
      | Some e =>
          (Err e, if vv_raw (ch_incoming ch) <>?s "" then recordConflictLocked s key (ch_incoming ch) else s)
      | None =>
          let finish (s : Server P) :=
            (Ok (ch_chosen ch, ch_changed ch),
             recordVersionLocked s key (ch_previous ch) (ch_incoming ch) (ch_changed ch)) in
          if ch_changed ch then
            let keep (s : Server P) := set_Values s (<[key := ch_chosen ch]> (Values s)) in
            match valuePersistence s with
            | Some p =>
                if vv_verified (ch_incoming ch) && negb (HasPrefix key "hidden-desc/v1/") then
                  match PutValue p key (ch_chosen ch) with
                  | Ok p' => finish (keep (set_persistence s (Some p')))
                  | Err _ => (Err "persist validated DHT value", s)
                  | Panic => (Panic, s)
                  end
                else finish (keep s)
            | None => finish (keep s)
            end
          else finish s
      end
  | Err e => (Err e, s)
  | Panic => (Panic, s)
  end.

Definition rejectStaleStoreValue (s : Server P) (key value : string) (now : Z) : res unit :=
  incomingValue ← validateLookupValue key value now;
  let current := default "" (Values s !! key) in
  if current =?s "" then Ok tt
  else
    match validateLookupValue key current now with
    | Panic => Panic
    | Err _ => Ok tt
    | Ok currentValue =>
        if negb (vv_verified currentValue) || negb (vv_verified incomingValue) then Ok tt
        else if vv_family currentValue <>?s vv_family incomingValue then Ok tt
        else err_if (negb (isNewerValue incomingValue currentValue)) "stale store rejected for key"
    end.

Definition admitStoreValue (s : Server P) (remoteAddr key value : string) (now : Z) : res unit * Server P :=
  let trusted := isTrustedLookupKey key in
  let '(allowed, m) := allowStoreRequest (storeRates s) remoteAddr key trusted now in
  let s := set_storeRates s m in
  (allowed;;
   (if trusted then
      incomingValue ← validateLookupValue key value now;
      err_if (vv_verified incomingValue && vv_enveloped incomingValue &&
              negb (vv_authoritativePublisher incomingValue))
        "trusted store rejected for non-authoritative publisher";;
      rejectStaleStoreValue s key value now
    else Ok tt), s).

Definition prepareStoreValue (s : Server P) (key value : string) (now : Z) : res string :=
  info ← validateInnerLookupValue key value now;
  if negb (vv_verified info) then Ok value
  else match Identity_Validate (publisher s) with
       | Ok _ => wrapSignedEnvelope (publisher s) key value info now
       | _ => Ok value
       end.

(** The publication of a local value; a failed write to disk is ignored. *)
Definition StoreLocal (s : Server P) (key value : string) (now : Z) : Server P :=
  let s := set_Values s (<[key := value]> (Values s)) in
  match validateLookupValue key value now with
  | Ok validated =>
      let s := set_versions s (<[key := mkState (storedVersionFromValidated validated) [] []]> (versions s)) in
      match valuePersistence s with
      | Some p =>
          if vv_verified validated && negb (HasPrefix key "hidden-desc/v1/") then
            match PutValue p key value with Ok p' => set_persistence s (Some p') | _ => s end
          else s
      | None => s
      end
  | _ => s
  end.

(** ** Loading the persistent copy

    [keys] is the order in which the map of rows is ranged over.  The first
    loop sorts the rows out and deletes those that may not be kept, the second
    loads the others. *)
Definition keep_row (key raw : string) (now : Z) : res bool :=
  if HasPrefix key "hidden-desc/v1/" then Ok false
  else match validateLookupValue key raw now with
       | Ok value => Ok (vv_verified value)
       | Err _ => Ok false
       | Panic => Panic
       end.

Fixpoint sort_rows (p : P) (rows : gmap string string) (keys : list string) (now : Z)
    (valid : gmap string string) : res (P * gmap string string) :=
  match keys with
  | [] => Ok (p, valid)
  | key :: keys =>
      match rows !! key with
      | None => sort_rows p rows keys now valid
      | Some raw =>
          keep ← keep_row key raw now;
          if keep : bool then sort_rows p rows keys now (<[key := raw]> valid)
          else p ← DeleteValue p key; sort_rows p rows keys now valid
      end
  end.

Definition load_row (now : Z) (key raw : string) (s : Server P) : Server P :=
  let s := set_Values s (<[key := raw]> (Values s)) in
  match validateLookupValue key raw now with
  | Ok value => set_versions s (<[key := mkState (storedVersionFromValidated value) [] []]> (versions s))
  | _ => s
  end.

Definition AttachValuePersistence (s : Server P) (store : option P) (keys : list string) (now : Z)
  : res (Server P) :=
  match store with
  | None => Ok s
  | Some p =>
      rows ← LoadValues p;
      '(p, valid) ← sort_rows p rows keys now ∅;
      Ok (map_fold (load_row now) (set_persistence s (Some p)) valid)
  end.

(** ** The request handler *)
Record DHTResponse := mkDHTResponse {
  rs_Version : Z;
  rs_Type : string;
  rs_Nodes : list NodeInfo;
  rs_Value : string;
}.

(** [keys] is the order in which the routing table's map of peers is ranged over. *)
Definition find_nodes (s : Server P) (req : DHTRequest) (now : Z) (keys : list string) : list NodeInfo :=
  let limits := LookupLimits s in
  if rq_Type req =?s DHTTypeBootstrap then
    ClosestNodesForBootstrap (RT s) (rq_Target req) (MaxReferrals limits)
      (negb (HasPrefix (rq_Target req) "vx6_")) now keys
  else if rq_Type req =?s DHTTypeLookupName then
    ClosestNodesByNameHash (RT s) (rq_Target req) (MaxReferrals limits)
  else ClosestNodes (RT s) (TrimPrefix (rq_Target req) "node/id/") (MaxReferrals limits).

(** The storage key a value lookup reads and the referrals it returns. *)
Definition find_value (s : Server P) (req : DHTRequest) : string * list NodeInfo :=
  let limits := LookupLimits s in
  if rq_Type req =?s DHTTypeLookupName then
    ("node/name/" +:+ rq_Target req, ClosestNodesByNameHash (RT s) (rq_Target req) (MaxReferrals limits))
  else if rq_Type req =?s DHTTypeLookupKey then
    (NodeIDKey (rq_Target req), ClosestNodes (RT s) (rq_Target req) (MaxReferrals limits))
  else (rq_Target req, ClosestNodes (RT s) (rq_Target req) (MaxReferrals limits)).

(** The checks of a signed endpoint update, before it is admitted. *)
Definition check_update (req : DHTRequest) (now1 now2 : Z) : res unit :=
  validated ← validateLookupValue (rq_Target req) (rq_Data req) now1;
  err_if (negb (vv_verified validated)) "endpoint update is not verified";;
  endpoint ← Decode (T := EndpointRecord) (vv_raw validated);
  VerifyEndpointRecord endpoint now2;;
  err_if (negb ((rq_Target req =?s NodeIDKey (er_NodeID endpoint)) ||
                (rq_Target req =?s NodeNameKey (er_NodeName endpoint))))
    "endpoint update target does not match signed identity".

Definition admit_and_store (s : Server P) (remote : string) (req : DHTRequest) (now1 now2 : Z)
  : res unit * Server P :=
  match admitStoreValue s remote (rq_Target req) (rq_Data req) now1 with
  | (Ok _, s) =>
      let '(r, s) := storeValidated s (rq_Target req) (rq_Data req) now2 in
      (r ≫= fun _ => Ok tt, s)
  | r => r
  end.

(** The error results of [admit_and_store] that a store request ignores. *)
Definition ignore_error (r : res unit) : res unit :=
  match r with Panic => Panic | _ => Ok tt end.

(** The handler up to the encoding of the response. *)
Definition HandleRequest (s : Server P) (remote : string) (req : DHTRequest) (clock : nat → Z) (keys : list string)
  : res DHTResponse * Server P :=
  let resp nodes value := mkDHTResponse DHTWireVersion (rq_Type req) nodes value in
  match DHTRequest_Validate req with
  | Err e => (Err e, s)
  | Panic => (Panic, s)
  | Ok _ =>
      let '(allowed, s) :=
        if stringsHasHiddenDescriptorKey (rq_Target req) then
          let '(ok, m) := allowHiddenDescriptorRequest (hiddenRates s) remote (rq_Action req) (clock 0%nat) in
          (ok, set_hiddenRates s m)
        else (true, s) in
      if negb allowed then (Ok (resp [] ""), s)
      else if rq_Action req =?s "update_ip" then
        match check_update req (clock 1%nat) (clock 2%nat) with
        | Ok _ =>
            let '(r, s) := admit_and_store s remote req (clock 3%nat) (clock 4%nat) in
            (r ≫= fun _ => Ok (resp [] ""), s)
        | Err e => (Err e, s)
        | Panic => (Panic, s)
        end
      else if rq_Action req =?s "find_node" then (Ok (resp (find_nodes s req (clock 1%nat) keys) ""), s)
      else if rq_Action req =?s "find_value" then
        let '(key, nodes) := find_value s req in
        (Ok (resp nodes (default "" (Values s !! key))), s)
      else if rq_Action req =?s "store" then
        let '(r, s) := admit_and_store s remote req (clock 1%nat) (clock 2%nat) in
        (ignore_error r ≫= fun _ => Ok (resp [] ""), s)
      else (Ok (resp [] ""), s)
  end.

(** The bytes written to the peer. *)
Definition HandleDHT `{!JSON DHTResponse} (s : Server P) (remote : string) (req : DHTRequest) (clock : nat → Z) (keys : list string)
  : res bytes * Server P :=
  let '(r, s) := HandleRequest s remote req clock keys in
  (r ≫= fun resp => Ok (WriteLengthPrefixed (WriteHeader [] KindDHT) (str_bytes (json_Marshal resp))), s).
End Store.
