(* ===== verification/StoreProps.v ===== *)
(** * What the value store guarantees

    A stored value is only replaced by an authentic newer one, its version
    history is bounded and describes it, the persistent copy is never behind,
    and nodes that have seen the same values keep the same one. *)
From S2P Require Import Prelude GoBytes GoStrings GoEncoding GoTime GoSort Sha256 GoEnv Lines GoNumbers Identity Record RecordProps DemoJson StrictJson Envelope Hidden HiddenProps Catalog Proto NodeInfo Peer Value ValueProps RateLimit Routing Store.

(** ** Bounded histories *)
Lemma appendBounded_length l v : (List.length l <= maxTrackedVersions)%nat →
  (List.length (appendBoundedVersion l v) <= maxTrackedVersions)%nat.
Proof.
  intros Hl. unfold appendBoundedVersion. case_match; [done|].
  destruct (Nat.ltb_spec maxTrackedVersions (List.length (l ++ [v]))); [|lia].
  rewrite length_drop. lia.
Qed.

(** The version just appended is remembered. *)
Lemma appendBounded_last l v : existsb (fun e => same_version e v) (appendBoundedVersion l v) = true.
Proof.
  unfold appendBoundedVersion. destruct (existsb _ l) eqn:E; [done|].
  assert (Hv : same_version v v = true).
  { unfold same_version. by rewrite !String.eqb_refl, Z.eqb_refl. }
  destruct (Nat.ltb_spec maxTrackedVersions (List.length (l ++ [v]))).
  - rewrite length_app in *. cbn [List.length] in *. rewrite drop_app_le by (unfold maxTrackedVersions; lia).
    rewrite existsb_app. cbn. by rewrite Hv, orb_true_r.
  - rewrite existsb_app. cbn. by rewrite Hv, orb_true_r.
Qed.

Section Facts.
Context `{UnicodeTables, NetIP, RFC3339, Ed25519, GoSort}.
Context `{!StrictJSON EndpointRecord} `{!JSON SignedEnvelope} `{!JSON ServiceRecord}
  `{!JSON HiddenDescriptor} `{!JSON (list ServiceRecord)} `{!JSON PrivateServiceCatalog}.

(** ** Validated values *)
Lemma hash_not_empty n b : (0 < n)%nat → RawURLEncoding_EncodeToString (take n (Sum256 b)) ≠ "".
Proof.
  intros Hn. apply RawURL_not_empty. intros E%(f_equal List.length). rewrite length_take in E.
  pose proof (len_Sum256 b). unfold len in *. cbn in E. lia.
Qed.

Ltac inner_unfold E := unfold validateInnerLookupValue, inner_endpoint, inner_service, inner_catalog,
  DecodePrivateServiceCatalog, inner_hidden, inner_descriptor, inner_legacy, recordTimes in E.

Lemma inner_fingerprint key raw now v :
  validateInnerLookupValue key raw now = Ok v → vv_fingerprint v ≠ "".
Proof.
  intros E. inner_unfold E. repeat case_match; res_inv; repeat case_match; res_inv;
    apply hash_not_empty; lia.
Qed.

(** What validation returns does not depend on the time it succeeded at. *)
Lemma inner_time key raw t1 t2 v1 v2 :
  validateInnerLookupValue key raw t1 = Ok v1 → validateInnerLookupValue key raw t2 = Ok v2 → v1 = v2.
Proof.
  intros E1 E2. inner_unfold E1. inner_unfold E2.
  repeat case_match; res_inv; repeat case_match; res_inv; try congruence; simplify_eq; done.
Qed.

Lemma validate_time key raw t1 t2 v1 v2 :
  validateLookupValue key raw t1 = Ok v1 → validateLookupValue key raw t2 = Ok v2 → v1 = v2.
Proof.
  unfold validateLookupValue. destruct (maybeDecodeEnvelope raw) as [[env|]|e|]; cbn [mbind res_bind]; [|apply inner_time|done..].
  intros E1 E2. res_inv. f_equal. by eapply inner_time.
Qed.

Lemma validate_fingerprint key raw now v : validateLookupValue key raw now = Ok v → vv_fingerprint v ≠ "".
Proof.
  unfold validateLookupValue. destruct (maybeDecodeEnvelope raw) as [[env|]|e|]; cbn [mbind res_bind];
    [|apply inner_fingerprint|done..]. intros E. res_inv. cbn. by eapply inner_fingerprint.
Qed.

Lemma validate_raw key raw now v : validateLookupValue key raw now = Ok v → raw ≠ "" → vv_raw v ≠ "".
Proof.
  unfold validateLookupValue. destruct (maybeDecodeEnvelope raw) as [[env|]|e|] eqn:D; cbn [mbind res_bind]; try done.
  - intros E _. res_inv. cbn.
    match goal with V : validateInnerLookupValue _ _ _ = Ok _ |- _ => apply validateInner_ok in V as (-> & _) end.
    unfold maybeDecodeEnvelope in D. destruct (json_Unmarshal raw) as [e|]; [|done].
    destruct (_ && _)%bool in D; [done|]. res_inv. simplify_eq. by bool_prop.
  - intros E ?. by apply validateInner_ok in E as (-> & _).
Qed.
End Facts.

(** ** The outcomes of a store *)
Section Outcomes.
Context `{UnicodeTables, NetIP, RFC3339, Ed25519, GoSort}.
Context `{!StrictJSON EndpointRecord} `{!JSON SignedEnvelope} `{!JSON ServiceRecord}
  `{!JSON HiddenDescriptor} `{!JSON (list ServiceRecord)} `{!JSON PrivateServiceCatalog}.
Context {P : Type} `{!ValuePersistence P}.
Implicit Types s : Server P.

(** The copy on disk after a change: written, or not kept there. *)
Definition put_row (p p' : option P) (key value : string) : Prop :=
  match p with
  | Some q => if verified_keyspace key && negb (HasPrefix key "hidden-desc/v1/")
              then ∃ q', PutValue q key value = Ok q' ∧ p' = Some q' else p' = p
  | None => p' = None
  end.

(** A value replaces the stored one [cur] only if it is newer, or the stored
    one has no force (absent, no longer valid, or of an unverified keyspace). *)
Definition may_replace (key cur : string) (now : Z) (v : validatedValue) : Prop :=
  ∀ c, cur ≠ "" → validateLookupValue key cur now = Ok c → verified_keyspace key = true →
    vv_family v = vv_family c ∧ vv_fingerprint v ≠ vv_fingerprint c ∧ isNewerValue v c = true.

(** Invalid data, and a failed write. *)
Definition store_fails s (key value : string) (now : Z) : Prop :=
  is_ok (validateLookupValue key value now) = false ∨
  (∃ cur, Values s !! key = Some cur ∧ cur ≠ "" ∧ validateLookupValue key cur now = Panic) ∨
  ∃ p, valuePersistence s = Some p ∧ is_ok (PutValue p key value) = false.

Inductive stored s (key value : string) (now : Z) : res (string * bool) → Server P → Prop :=
| stored_nothing r : is_ok r = false → store_fails s key value now → stored s key value now r s
| stored_conflict e v c cur : validateLookupValue key value now = Ok v → Values s !! key = Some cur → cur ≠ "" →
    validateLookupValue key cur now = Ok c → vv_family c ≠ vv_family v →
    stored s key value now (Err e) (recordConflictLocked s key v)
| stored_kept v c cur : validateLookupValue key value now = Ok v → Values s !! key = Some cur → cur ≠ "" →
    validateLookupValue key cur now = Ok c →
    (if verified_keyspace key then
       vv_family v = vv_family c ∧ (vv_fingerprint v = vv_fingerprint c ∨ isNewerValue v c = false)
     else cur = value) →
    stored s key value now (Ok (cur, false)) (recordVersionLocked s key c v false)
| stored_new v c p' : validateLookupValue key value now = Ok v →
    put_row (valuePersistence s) p' key value →
    may_replace key (default "" (Values s !! key)) now v →
    stored s key value now (Ok (value, true))
      (recordVersionLocked (set_Values (set_persistence s p') (<[key := value]> (Values s))) key c v true).

Lemma set_persistence_id s p : valuePersistence s = p → set_persistence s p = s.
Proof. intros <-. by destruct s. Qed.

Lemma new_stored s key value now v c : validateLookupValue key value now = Ok v →
  may_replace key (default "" (Values s !! key)) now v →
  let finish s := (Ok (value, true), recordVersionLocked s key c v true) in
  let keep s := set_Values s (<[key := value]> (Values s)) in
  let '(r, s') := match valuePersistence s with
    | Some p =>
        if vv_verified v && negb (HasPrefix key "hidden-desc/v1/") then
          match PutValue p key value with
          | Ok p' => finish (keep (set_persistence s (Some p')))
          | Err _ => (Err "persist validated DHT value", s)
          | Panic => (Panic, s)
          end
        else finish (keep s)
    | None => finish (keep s)
    end in
  stored s key value now r s'.
Proof.
  intros Hv Hm. cbn zeta. rewrite (validate_verified _ _ _ _ Hv).
  destruct (valuePersistence s) as [p|] eqn:Hp.
  - destruct (verified_keyspace key && _) eqn:Hk.
    + destruct (PutValue p key value) as [p'|e|] eqn:E;
        [|constructor; [done|]; right; right; exists p; by rewrite E..].
      apply (stored_new s key value now v c (Some p')); [done| |done]. unfold put_row. rewrite Hp, Hk. eauto.
    + pose proof (stored_new s key value now v c (Some p) Hv) as Hn. rewrite set_persistence_id in Hn by done.
      apply Hn; [|done]. unfold put_row. by rewrite Hp, Hk.
  - pose proof (stored_new s key value now v c None Hv) as Hn. rewrite set_persistence_id in Hn by done.
    apply Hn; [|done]. unfold put_row. by rewrite Hp.
Qed.

Lemma storeValidated_stored s key value now : let '(r, s') := storeValidated s key value now in
  stored s key value now r s'.
Proof.
  unfold storeValidated, chooseStoredValue.
  destruct (validateLookupValue key value now) as [v|e|] eqn:Hv; cbn;
    [|constructor; [done|left; by rewrite Hv]..].
  destruct (String.eqb_spec (default "" (Values s !! key)) "") as [He|He]; cbn.
  { apply new_stored; [done|]. by intros c ?. }
  destruct (validateLookupValue key (default "" (Values s !! key)) now) as [c|e|] eqn:Hc; cbn.
  2: { apply new_stored; [done|]. intros c0 _ Hc0. congruence. }
  2: { constructor; [done|]. right; left. destruct (Values s !! key); [by eexists|done]. }
  destruct (Values s !! key) as [cur|] eqn:Hcur; [|done]. cbn in He, Hc. cbn [default].
  assert (Hmay : ∀ w, (verified_keyspace key = true → vv_family w = vv_family c ∧ vv_fingerprint w ≠ vv_fingerprint c ∧
    isNewerValue w c = true) → may_replace key (default "" (Values s !! key)) now w).
  { intros w Hw c0 _. rewrite Hcur. cbn. intros Hc0 Hk. rewrite Hc in Hc0. injection Hc0 as <-. auto. }
  unfold choose_between. rewrite (validate_verified _ _ _ _ Hv), (validate_verified _ _ _ _ Hc).
  destruct (verified_keyspace key) eqn:Hk; cbn [negb].
  - destruct (String.eqb_spec (vv_family c) (vv_family v)) as [Hf|Hf]; cbn [negb].
    2: { cbn. pose proof (stored_conflict s key value now ErrConflictingValues v c cur Hv Hcur He Hc Hf) as Hst.
         unfold recordConflictLocked in Hst |- *. by destruct (vv_raw v =?s ""). }
    destruct (String.eqb_spec (vv_fingerprint v) (vv_fingerprint c)) as [Hfp|Hfp]; cbn.
    { eapply stored_kept; try done. rewrite Hk. auto. }
    destruct (isNewerValue v c) eqn:Hn; cbn.
    + apply new_stored; [done|]. by apply Hmay.
    + eapply stored_kept; try done. rewrite Hk. auto.
  - cbn [from_option id]. destruct (String.eqb_spec cur value) as [Hs|Hs]; cbn.
    + eapply stored_kept; try done. by rewrite Hk.
    + apply new_stored; [done|]. apply Hmay. congruence.
Qed.
End Outcomes.

(** ** The invariant of the store *)
Section Invariant.
Context `{UnicodeTables, NetIP, RFC3339, Ed25519, GoSort}.
Context `{!StrictJSON EndpointRecord} `{!JSON SignedEnvelope} `{!JSON ServiceRecord}
  `{!JSON HiddenDescriptor} `{!JSON (list ServiceRecord)} `{!JSON PrivateServiceCatalog}.
Context {P : Type} `{!ValuePersistence P}.
Implicit Types s : Server P.

(** The keys a local publication may have spoiled: [StoreLocal] keeps a value that does not
    validate, and one that could not be written to disk. *)
Context (D : gset string).

(** The history of a key describes the value stored under it. *)
Definition tracked s : Prop := ∀ key raw, key ∉ D → Values s !! key = Some raw → raw ≠ "" →
  ∃ t v, validateLookupValue key raw t = Ok v ∧
    Current (default zero_state (versions s !! key)) = storedVersionFromValidated v.
Definition bounded s : Prop := map_Forall (fun _ st =>
  (List.length (Previous st) <= maxTrackedVersions)%nat ∧ (List.length (Conflicts st) <= maxTrackedVersions)%nat) (versions s).
(** The copy on disk has every verified value that may be kept there. *)
Definition durable s : Prop := ∀ p, valuePersistence s = Some p → ∀ key raw, key ∉ D →
  Values s !! key = Some raw → verified_keyspace key = true → HasPrefix key "hidden-desc/v1/" = false →
  saved p !! key = Some raw.
Definition store_inv s : Prop := tracked s ∧ bounded s ∧ durable s.

Lemma bounded_default s key : bounded s →
  (List.length (Previous (default zero_state (versions s !! key))) <= maxTrackedVersions)%nat ∧
  (List.length (Conflicts (default zero_state (versions s !! key))) <= maxTrackedVersions)%nat.
Proof.
  intros Hb. destruct (versions s !! key) as [st|] eqn:E; [by apply (Hb key)|]. cbn. unfold maxTrackedVersions. lia.
Qed.

(** [recordConflictLocked] and the other bookkeeping leave values and disk alone. *)
Lemma recordConflict_inv s key v : store_inv s → store_inv (recordConflictLocked s key v).
Proof.
  intros (Ht & Hb & Hd). unfold recordConflictLocked. case_match; [done|]. split_and!; [| |done].
  - intros k raw Hk Hr Hne. destruct (Ht k raw Hk Hr Hne) as (t & w & Hw & Hc). exists t, w. split; [done|]. cbn.
    destruct (decide (k = key)) as [->|]; [by rewrite lookup_insert_eq|by rewrite lookup_insert_ne].
  - destruct (bounded_default s key Hb) as [? ?]. apply map_Forall_insert_2; [|done]. split; [done|].
    by apply appendBounded_length.
Qed.

(** A value that was not chosen never becomes the current version. *)
Lemma recordVersion_kept s key c v cur : store_inv s → Values s !! key = Some cur → cur ≠ "" →
  store_inv (recordVersionLocked s key c v false).
Proof.
  intros (Ht & Hb & Hd) Hc Hne. unfold recordVersionLocked. case_match; [done|].
  destruct (String.eqb_spec (v_Fingerprint (Current (default zero_state (versions s !! key)))) "") as [Ef|]; [|done].
  destruct (bounded_default s key Hb). split_and!; [|by apply map_Forall_insert_2|done]. intros k raw Hk Hr Hn. cbn in *.
  destruct (decide (k = key)) as [->|]; [|rewrite lookup_insert_ne by done; by apply Ht].
  destruct (Ht key raw Hk Hr Hn) as (t & w & Hw & Ew). rewrite Ew in Ef. by destruct (validate_fingerprint _ _ _ _ Hw).
Qed.

Lemma put_row_durable s p' key value : durable s → put_row (valuePersistence s) p' key value →
  durable (set_Values (set_persistence s p') (<[key := value]> (Values s))).
Proof.
  unfold durable, put_row. intros Hd Hp p Hp' k raw HD Hk Hv Hh. cbn in *. subst p'.
  destruct (valuePersistence s) as [q|]; [|done]. destruct (decide (k = key)) as [->|Hne].
  - rewrite lookup_insert_eq in Hk. injection Hk as <-. rewrite Hv, Hh in Hp. destruct Hp as (q' & Hput & [= ->]).
    rewrite (PutValue_saved _ _ _ _ Hh Hput). apply lookup_insert_eq.
  - rewrite lookup_insert_ne in Hk by done. case_match eqn:E.
    + destruct Hp as (q' & Hput & [= ->]). bool_prop. rewrite (PutValue_saved q key value) by done.
      rewrite lookup_insert_ne by done. by eapply Hd.
    + injection Hp as ->. by eapply Hd.
Qed.

Lemma recordVersion_fields s key c v b : Values (recordVersionLocked s key c v b) = Values s ∧
  valuePersistence (recordVersionLocked s key c v b) = valuePersistence s.
Proof. unfold recordVersionLocked. by repeat case_match. Qed.

Lemma recordVersion_new s key value c v now : validateLookupValue key value now = Ok v →
  (∀ k raw, k ∉ D → k ≠ key → Values s !! k = Some raw → raw ≠ "" → ∃ t v, validateLookupValue k raw t = Ok v ∧
    Current (default zero_state (versions s !! k)) = storedVersionFromValidated v) →
  bounded s → Values s !! key = Some value →
  tracked (recordVersionLocked s key c v true) ∧ bounded (recordVersionLocked s key c v true).
Proof.
  intros Hv Ht Hb Hval. unfold recordVersionLocked. destruct (String.eqb_spec (vv_raw v) "") as [Er|Er].
  { split; [|done]. intros k raw HD Hr Hn. apply Ht; [done| |done..]. intros ->. assert (raw = value) as -> by congruence.
    by apply (validate_raw _ _ _ _ Hv). }
  split.
  - intros k raw HD Hr Hn. cbn. destruct (decide (k = key)) as [->|].
    + rewrite lookup_insert_eq. cbn in *. exists now, v. split; [congruence|done].
    + rewrite lookup_insert_ne by done. by apply Ht.
  - destruct (bounded_default s key Hb). apply map_Forall_insert_2; [|done]. split; [|done]. cbn.
    case_match; [by apply appendBounded_length|done].
Qed.

Lemma stored_inv s key value now r s' : stored s key value now r s' → store_inv s → store_inv s'.
Proof.
  intros Hst Hinv. destruct Hst as [r Hr _|e v c cur Hv|v c cur Hv Hcur Hn Hc Hkept|v c p' Hv Hp Hm]; [done| | |].
  - by apply recordConflict_inv.
  - by eapply recordVersion_kept.
  - destruct Hinv as (Ht & Hb & Hd).
    destruct (recordVersion_new (set_Values (set_persistence s p') (<[key := value]> (Values s))) key value c v now)
      as [Ht' Hb']; [done| |done|by apply lookup_insert_eq|].
    { intros k raw HD Hk. cbn. rewrite lookup_insert_ne by done. by apply Ht. }
    split_and!; [done..|]. unfold durable. destruct (recordVersion_fields
      (set_Values (set_persistence s p') (<[key := value]> (Values s))) key c v true) as [-> ->].
    by apply put_row_durable.
Qed.

Lemma storeValidated_inv s key value now : store_inv s → store_inv (storeValidated s key value now).2.
Proof.
  pose proof (storeValidated_stored s key value now) as Hst.
  destruct (storeValidated _ _ _ _) as [r s']. by apply (stored_inv _ _ _ _ _ _ Hst).
Qed.

(** Rates, publisher and limits are no part of the invariant. *)
Lemma set_storeRates_inv s m : store_inv s → store_inv (set_storeRates s m).
Proof. by destruct s. Qed.
Lemma set_hiddenRates_inv s m : store_inv s → store_inv (set_hiddenRates s m).
Proof. by destruct s. Qed.

Lemma admitStoreValue_state s remote key value now :
  ∃ m, (admitStoreValue s remote key value now).2 = set_storeRates s m.
Proof.
  unfold admitStoreValue. destruct (allowStoreRequest _ _ _ _ _) as [a m]. by exists m.
Qed.

Lemma admit_and_store_inv s remote req t1 t2 : store_inv s →
  store_inv (admit_and_store s remote req t1 t2).2.
Proof.
  intros Hs. unfold admit_and_store.
  destruct (admitStoreValue_state s remote (rq_Target req) (rq_Data req) t1) as [m Hm].
  destruct (admitStoreValue _ _ _ _ _) as [[u|e|] s1]; cbn in Hm; subst s1; [|by apply set_storeRates_inv..].
  pose proof (storeValidated_inv (set_storeRates s m) (rq_Target req) (rq_Data req) t2 (set_storeRates_inv _ _ Hs)) as Hi.
  by destruct (storeValidated _ _ _ _).
Qed.

Lemma HandleRequest_inv s remote req clock keys : store_inv s →
  store_inv (HandleRequest s remote req clock keys).2.
Proof.
  intros Hs. unfold HandleRequest. destruct (DHTRequest_Validate req) as [[]|e|] eqn:Hv; [|done..].
  match goal with |- context [let '(_, _) := ?b in _] => set (gate := b) end.
  assert (Hg : store_inv gate.2).
  { subst gate. case_match; [|done]. destruct (allowHiddenDescriptorRequest _ _ _ _). by apply set_hiddenRates_inv. }
  destruct gate as [allowed s1]. cbn in Hg. destruct allowed; [|done]. cbn [negb].
  destruct (String.eqb_spec (rq_Action req) "update_ip") as [Ha|_].
  - destruct (check_update _ _ _); [|done..].
    pose proof (admit_and_store_inv s1 remote req (clock 3%nat) (clock 4%nat) Hg) as Hi.
    by destruct (admit_and_store _ _ _ _ _).
  - destruct (rq_Action req =?s "find_node"); [done|]. destruct (rq_Action req =?s "find_value").
    { by destruct (find_value _ _). }
    destruct (String.eqb_spec (rq_Action req) "store") as [Ha|_]; [|done].
    pose proof (admit_and_store_inv s1 remote req (clock 1%nat) (clock 2%nat) Hg) as Hi.
    by destruct (admit_and_store _ _ _ _ _).
Qed.
End Invariant.

(** ** Loading the persistent copy *)
Section Restart.
Context `{UnicodeTables, NetIP, RFC3339, Ed25519, GoSort}.
Context `{!StrictJSON EndpointRecord} `{!JSON SignedEnvelope} `{!JSON ServiceRecord}
  `{!JSON HiddenDescriptor} `{!JSON (list ServiceRecord)} `{!JSON PrivateServiceCatalog}.
Context {P : Type} `{!ValuePersistence P}.
Implicit Types s : Server P.

Lemma keep_row_true key raw now : keep_row key raw now = Ok true ↔
  HasPrefix key "hidden-desc/v1/" = false ∧ verified_keyspace key = true ∧
  ∃ v, validateLookupValue key raw now = Ok v.
Proof.
  unfold keep_row. destruct (HasPrefix _ _); [by split; [|intros [? _]]|].
  destruct (validateLookupValue key raw now) as [v|e|] eqn:E; [|by split; [|intros (_ & _ & ? & ?)]..].
  rewrite (validate_verified _ _ _ _ E). split; [intros [= ->]; eauto|by intros (_ & -> & _)].
Qed.

(** The rows that may stay are loaded and stay, the others are deleted. *)
Lemma sort_rows_spec rows now keys : ∀ p valid p' valid',
  sort_rows p rows keys now valid = Ok (p', valid') →
  (∀ k raw, valid !! k = Some raw → rows !! k = Some raw) →
  (∀ k raw, valid' !! k = Some raw ↔
     valid !! k = Some raw ∨ (k ∈ keys ∧ rows !! k = Some raw ∧ keep_row k raw now = Ok true)) ∧
  (∀ k, keep_row k (default "" (rows !! k)) now = Ok true → saved p' !! k = saved p !! k).
Proof.
  induction keys as [|key keys IH]; intros p valid p' valid'; cbn [sort_rows].
  { intros [= <- <-] _. split; [|done]. set_solver. }
  intros Hb Hsub. destruct (rows !! key) as [r|] eqn:Hr.
  - apply res_bind_ok in Hb as (keep & Hk & Hb). destruct keep.
    + apply IH in Hb as [Hb Hs].
      * split; [|done]. intros k raw. rewrite Hb, elem_of_cons.
        destruct (decide (k = key)) as [->|Hne]; [rewrite lookup_insert_eq|rewrite lookup_insert_ne by done; naive_solver].
        pose proof (Hsub key raw). rewrite Hr in *. split; [|naive_solver]. intros [[= <-]|?]; naive_solver.
      * intros k raw. destruct (decide (k = key)) as [->|Hne]; [rewrite lookup_insert_eq|rewrite lookup_insert_ne by done; auto]. congruence.
    + apply res_bind_ok in Hb as (p1 & Hd & Hb). apply IH in Hb as [Hb Hs]; [|done]. split.
      * intros k raw. rewrite Hb, elem_of_cons. split; [naive_solver|]. intros [?|([->|?] & ? & ?)]; [auto|congruence|auto].
      * intros k Hkeep. rewrite (Hs k Hkeep), (DeleteValue_saved _ _ _ Hd).
        destruct (decide (k = key)) as [->|Hne]; [|by rewrite lookup_delete_ne]. rewrite Hr in Hkeep. cbn in Hkeep. congruence.
  - apply IH in Hb as [Hb Hs]; [|done]. split; [|done]. intros k raw. rewrite Hb, elem_of_cons.
    split; [naive_solver|]. intros [?|([->|?] & ? & ?)]; [auto|congruence|auto].
Qed.

Lemma load_rows now s valid : let s' := map_fold (load_row now) s valid in
  Values s' = valid ∪ Values s ∧ valuePersistence s' = valuePersistence s ∧
  (bounded s → bounded s') ∧
  (∀ k raw v, valid !! k = Some raw → validateLookupValue k raw now = Ok v →
     versions s' !! k = Some (mkState (storedVersionFromValidated v) [] [])).
Proof.
  cbn zeta. apply (map_fold_weak_ind (fun s' valid => Values s' = valid ∪ Values s ∧
    valuePersistence s' = valuePersistence s ∧ (bounded s → bounded s') ∧
    (∀ k raw v, valid !! k = Some raw → validateLookupValue k raw now = Ok v →
     versions s' !! k = Some (mkState (storedVersionFromValidated v) [] [])))).
  { split_and!; [by rewrite (left_id_L ∅ (∪))|done..]. }
  clear valid. intros key raw valid s' Hkey (HV & HP & HB & Hvers). unfold load_row.
  assert (HV' : <[key:=raw]> (Values s') = <[key:=raw]> valid ∪ Values s) by (by rewrite HV, insert_union_l).
  destruct (validateLookupValue key raw now) as [v|e|] eqn:E; (split_and!; [exact HV'|exact HP| |]); cbn;
    try (by intros; apply HB); try (intros k r w Hk Hw; destruct (decide (k = key)) as [->|];
      [rewrite lookup_insert_eq in Hk; injection Hk as <-; congruence|rewrite lookup_insert_ne in Hk by done; by eapply Hvers]).
  - intros Hs. apply map_Forall_insert_2; [|by apply HB]. cbn. unfold maxTrackedVersions. lia.
  - intros k r w Hk Hw. destruct (decide (k = key)) as [->|].
    + rewrite lookup_insert_eq in Hk. rewrite lookup_insert_eq. injection Hk as <-. rewrite E in Hw. by injection Hw as <-.
    + rewrite lookup_insert_ne in Hk by done. rewrite lookup_insert_ne by done. by eapply Hvers.
Qed.

(** What a server has after loading a store. *)
Lemma Attach_spec s p keys now s' : AttachValuePersistence s (Some p) keys now = Ok s' →
  ∃ p' valid, s' = map_fold (load_row now) (set_persistence s (Some p')) valid ∧
    (∀ k raw, valid !! k = Some raw ↔ k ∈ keys ∧ saved p !! k = Some raw ∧ keep_row k raw now = Ok true) ∧
    (∀ k raw, valid !! k = Some raw → saved p' !! k = Some raw).
Proof.
  unfold AttachValuePersistence. intros Ha. apply res_bind_ok in Ha as (rows & Hrows & Ha).
  apply LoadValues_saved in Hrows as ->. apply res_bind_ok in Ha as ([p' valid] & Hsort & [= <-]).
  apply sort_rows_spec in Hsort as [Hvalid Hsaved]; [|by intros k raw; rewrite lookup_empty]. exists p', valid.
  assert (Hv : ∀ k raw, valid !! k = Some raw ↔ k ∈ keys ∧ saved p !! k = Some raw ∧ keep_row k raw now = Ok true).
  { intros k raw. rewrite Hvalid, lookup_empty. naive_solver. }
  split_and!; [done|done|]. intros k raw Hk. apply Hv in Hk as (_ & Hs & Hkeep).
  rewrite (Hsaved k); [done|]. by rewrite Hs.
Qed.

Lemma fresh_inv (D : gset string) (selfID : string) : store_inv D (NewServer (P := P) selfID).
Proof. split_and!; [|apply map_Forall_empty|done]. intros k raw _ Hk. cbn in Hk. by rewrite lookup_empty in Hk. Qed.

Lemma Attach_inv D selfID p keys now s' :
  AttachValuePersistence (NewServer selfID) p keys now = Ok s' → store_inv D s'.
Proof.
  destruct p as [p|]; [|intros [= <-]; apply fresh_inv].
  intros (p' & valid & -> & Hvalid & Hsaved)%Attach_spec.
  destruct (load_rows now (set_persistence (NewServer selfID) (Some p')) valid) as (HV & HP & HB & Hvers).
  split_and!.
  - intros k raw _ Hk Hne. rewrite HV, lookup_union_Some_raw in Hk. cbn in Hk. rewrite lookup_empty in Hk. destruct Hk as [Hk|[_ ?]]; [|done].
    pose proof Hk as (_ & _ & Hkeep)%Hvalid. apply keep_row_true in Hkeep as (_ & _ & v & Hv).
    exists now, v. split; [done|]. by rewrite (Hvers k raw v).
  - apply HB. apply map_Forall_empty.
  - intros q Hq k raw _ Hk _ _. rewrite HP in Hq. injection Hq as <-.
    rewrite HV, lookup_union_Some_raw in Hk. cbn in Hk. rewrite lookup_empty in Hk. destruct Hk as [Hk|[_ ?]]; [|done]. by apply Hsaved.
Qed.

(** Whether a local publication is valid and reaches the disk. *)
Definition local_kept s (key value : string) (now : Z) : bool :=
  match validateLookupValue key value now with
  | Ok v =>
      match valuePersistence s with
      | Some p => if vv_verified v && negb (HasPrefix key "hidden-desc/v1/") then is_ok (PutValue p key value) else true
      | None => true
      end
  | _ => false
  end.
Lemma store_inv_weaken D D' s : D ⊆ D' → store_inv D s → store_inv D' s.
Proof. intros HD (Ht & Hb & Hd). split_and!; [|done|]; [intros k raw Hk; apply Ht|intros p Hp k raw Hk; apply Hd]; set_solver. Qed.
(** A value put at [key] spoils no other key. *)
Lemma store_inv_spoil D s s' key value : store_inv D s → key ∈ D → Values s' = <[key := value]> (Values s) →
  valuePersistence s' = valuePersistence s → bounded s' → (∀ k, k ≠ key → versions s' !! k = versions s !! k) → store_inv D s'.
Proof.
  intros (Ht & _ & Hd) HD Ev Ep Hb Hk. split_and!; [|done|].
  - intros k raw Hkd. assert (k ≠ key) by set_solver. rewrite Ev, lookup_insert_ne, Hk by done. by apply Ht.
  - intros p Hp k raw Hkd. assert (k ≠ key) by set_solver. rewrite Ev, lookup_insert_ne by done. apply (Hd p); [by rewrite <- Ep|done].
Qed.
Lemma StoreLocal_inv D s key value now : store_inv D s →
  store_inv (if local_kept s key value now then D else {[key]} ∪ D) (StoreLocal s key value now).
Proof.
  intros Hi. pose proof Hi as (Ht & Hb & Hd). unfold StoreLocal, local_kept.
  destruct (validateLookupValue key value now) as [v|e|] eqn:Hv.
  2-3: by apply (store_inv_spoil _ s _ key value); [eapply store_inv_weaken, Hi; set_solver|set_solver|..].
  rewrite (validate_verified _ _ _ _ Hv). set (s1 := set_versions _ _).
  assert (tracked D s1) as Ht1.
  { intros k raw HD Hk Hn. cbn in *. destruct (decide (k = key)) as [->|].
    - rewrite lookup_insert_eq in Hk. rewrite lookup_insert_eq. injection Hk as <-. by exists now, v.
    - rewrite lookup_insert_ne in Hk by done. rewrite lookup_insert_ne by done. by apply Ht. }
  assert (bounded s1) as Hb1.
  { apply map_Forall_insert_2; [|done]. cbn. unfold maxTrackedVersions. lia. }
  cbn [valuePersistence set_versions set_Values s1].
  assert (∀ p', put_row (valuePersistence s) p' key value → store_inv D (set_persistence s1 p')) as Hgo.
  { intros p' Hp. split_and!; [exact Ht1|exact Hb1|]. exact (put_row_durable D s p' key value Hd Hp). }
  destruct (valuePersistence s) as [p|] eqn:Hp.
  - unfold put_row in Hgo. destruct (_ && _)%bool.
    + destruct (PutValue p key value) as [p'|e|] eqn:E; cbn [is_ok]; [apply Hgo; eauto|..];
        (apply (store_inv_spoil _ s _ key value); [eapply store_inv_weaken, Hi; set_solver|set_solver|done|done|done|]);
        intros k Hk; by apply lookup_insert_ne.
    + rewrite <- (set_persistence_id s1 (Some p)) by done. by apply Hgo.
  - rewrite <- (set_persistence_id s1 None) by done. by apply Hgo.
Qed.

(** What a successful store leaves under its key: the value, or the valid value that was
    there and is not older. *)
Lemma storeValidated_kept s key value now x s' : storeValidated s key value now = (Ok x, s') →
  ∃ v, validateLookupValue key value now = Ok v ∧
    (Values s' !! key = Some value ∨
     ∃ cur c, Values s !! key = Some cur ∧ Values s' !! key = Some cur ∧ validateLookupValue key cur now = Ok c ∧
       verified_keyspace key = true ∧ vv_family v = vv_family c ∧ (vv_fingerprint v = vv_fingerprint c ∨ isNewerValue v c = false)).
Proof.
  intros E. pose proof (storeValidated_stored s key value now) as Hst. rewrite E in Hst. remember (Ok x) as r eqn:Er.
  destruct Hst as [r Hr _|e v c cur|v c cur Hv Hcur Hn Hc Hkept|v c p' Hv Hp Hm]; subst; [done|done| |].
  - exists v. split; [done|]. destruct (recordVersion_fields s key c v false) as [-> _]. destruct (verified_keyspace key); [right|left; congruence].
    exists cur, c. destruct Hkept. by split_and!.
  - exists v. split; [done|]. left. destruct (recordVersion_fields (set_Values (set_persistence s p') (<[key := value]> (Values s))) key c v true) as [-> _].
    apply lookup_insert_eq.
Qed.
End Restart.

(** ** A key is a newest-value register *)
(** The specification: a register that keeps the newest value offered. *)
Definition reg_offer (cur : option validatedValue) (v : validatedValue) : option validatedValue :=
  match cur with
  | None => Some v
  | Some c => if vv_fingerprint v =?s vv_fingerprint c then cur else if isNewerValue v c then Some v else cur
  end.
Definition reg_run (cur : option validatedValue) (vs : list validatedValue) : option validatedValue :=
  fold_left reg_offer vs cur.

(** Values of one origin and kind, as the records of one node are. *)
Definition comparable (v w : validatedValue) : Prop :=
  vv_family v = vv_family w ∧ vv_sequenceBased v = vv_sequenceBased w.
Definition no_older (m v : validatedValue) : Prop :=
  vv_fingerprint v = vv_fingerprint m ∨ isNewerValue m v = true.

(** Equal fingerprints identify equal places in the order. *)
Definition same_place (vs : list validatedValue) : Prop :=
  ∀ v w, v ∈ vs → w ∈ vs → vv_fingerprint v = vv_fingerprint w →
    vv_version v = vv_version w ∧ vv_issuedAt v = vv_issuedAt w.

Lemma isNewer_same_place a v w : vv_version v = vv_version w → vv_issuedAt v = vv_issuedAt w →
  vv_fingerprint v = vv_fingerprint w → vv_sequenceBased v = vv_sequenceBased w →
  isNewerValue a v = isNewerValue a w.
Proof. unfold isNewerValue. by intros -> -> -> ->. Qed.

Lemma isNewer_same_place_l a v w : vv_version v = vv_version w → vv_issuedAt v = vv_issuedAt w →
  vv_fingerprint v = vv_fingerprint w → vv_sequenceBased v = vv_sequenceBased w →
  isNewerValue v a = isNewerValue w a.
Proof. unfold isNewerValue. by intros -> -> -> ->. Qed.

Lemma reg_run_newest all vs : ∀ c, same_place all → Forall (comparable c) all → c ∈ all → (∀ v, v ∈ vs → v ∈ all) →
  ∃ m, reg_run (Some c) vs = Some m ∧ m ∈ c :: vs ∧ Forall (no_older m) (c :: vs).
Proof.
  induction vs as [|v vs IH]; intros c Hp Hall Hc Hvs; cbn.
  { exists c. split_and!; [done|set_solver|]. constructor; [by left|done]. }
  assert (Hv : v ∈ all) by set_solver.
  pose proof (proj1 (Forall_forall _ _) Hall) as Hcmp. destruct (Hcmp v Hv) as [Hfam Hseq].
  destruct (String.eqb_spec (vv_fingerprint v) (vv_fingerprint c)) as [Hf|Hf].
  - destruct (IH c) as (m & Hm & Hin & Hold); [done..|set_solver|]. exists m. split_and!; [done|set_solver|].
    apply Forall_cons in Hold as [Hmc Hold]. apply Forall_cons; split; [done|]. apply Forall_cons; split; [|done]. destruct (Hp v c Hv Hc Hf) as [Hve Hiss].
    destruct Hmc as [?|Hn]; [left; congruence|right]. by rewrite (isNewer_same_place m v c).
  - destruct (isNewerValue v c) eqn:Hn.
    + destruct (IH v) as (m & Hm & Hin & Hold); [done| |done|set_solver|].
      { eapply Forall_impl; [exact Hall|]. intros w [? ?]. split; congruence. }
      exists m. split_and!; [done|set_solver|]. constructor; [|done]. apply Forall_cons in Hold as [[Hmv|Hmv] _].
      * right. assert (Hma : m ∈ all) by set_solver. destruct (Hp v m Hv Hma) as [? ?]; [done|].
        destruct (Hcmp m Hma) as [_ Hs].
        rewrite <- (isNewer_same_place_l c v m); congruence.
      * right. apply (isNewer_trans m v c); [|done..].
        assert (Hma : m ∈ all) by set_solver. destruct (Hcmp m Hma) as [_ Hs]. congruence.
    + destruct (IH c) as (m & Hm & Hin & Hold); [done..|set_solver|]. exists m. split_and!; [done|set_solver|].
      apply Forall_cons in Hold as [Hmc Hold]. apply Forall_cons; split; [done|]. apply Forall_cons; split; [|done].
      assert (Hcv : isNewerValue c v = true).
      { destruct (isNewerValue_total_aux c v); congruence. }
      assert (Hma : m ∈ all) by set_solver. destruct (Hcmp m Hma) as [_ Hs]. right.
      destruct Hmc as [Hmc|Hmc]; [|apply (isNewer_trans m c v); congruence].
      destruct (Hp c m Hc Hma) as [? ?]; [done|]. rewrite <- (isNewer_same_place_l v c m); congruence.
Qed.

Section Register.
Context `{UnicodeTables, NetIP, RFC3339, Ed25519, GoSort}.
Context `{!StrictJSON EndpointRecord} `{!JSON SignedEnvelope} `{!JSON ServiceRecord}
  `{!JSON HiddenDescriptor} `{!JSON (list ServiceRecord)} `{!JSON PrivateServiceCatalog}.
Context {P : Type} `{!ValuePersistence P}.
Implicit Types s : Server P.

(** Stores of one key, each a raw value and a time. *)
Definition offer_all s (key : string) (l : list (string * Z)) : Server P :=
  fold_left (fun s o => (storeValidated s key o.1 o.2).2) l s.

(** The register holds the validated form of the stored value. *)
Definition holds (key : string) (vals : string → validatedValue) s (cur : option validatedValue) : Prop :=
  match cur with
  | None => default "" (Values s !! key) = ""
  | Some c => ∃ raw, Values s !! key = Some raw ∧ raw ≠ "" ∧ vals raw = c
  end.

(** The offers are valid throughout, of one family, and reach the disk. *)
Record offers (key : string) (vals : string → validatedValue) (l : list (string * Z)) : Prop := {
  off_key : verified_keyspace key = true;
  off_nonempty raw t : (raw, t) ∈ l → raw ≠ "";
  off_valid raw t : raw ∈ l.*1 → t ∈ l.*2 → validateLookupValue key raw t = Ok (vals raw);
  off_family raw raw' : raw ∈ l.*1 → raw' ∈ l.*1 → comparable (vals raw) (vals raw');
  off_put p raw : is_ok (PutValue (P := P) p key raw) = true;
}.

Lemma storeValidated_simulates key vals all s cur raw t : offers key vals all → (raw, t) ∈ all →
  holds key vals s cur → (∀ r, Values s !! key = Some r → r ≠ "" → r ∈ all.*1) →
  holds key vals (storeValidated s key raw t).2 (reg_offer cur (vals raw)) ∧
  (∀ r, Values (storeValidated s key raw t).2 !! key = Some r → r ≠ "" → r ∈ all.*1).
Proof.
  intros Ho Hin Hh Hsub.
  assert (Hr : raw ∈ all.*1) by (apply list_elem_of_fmap; by exists (raw, t)).
  assert (Ht : t ∈ all.*2) by (apply list_elem_of_fmap; by exists (raw, t)).
  pose proof (off_valid _ _ _ Ho raw t Hr Ht) as Hv. pose proof (off_nonempty _ _ _ Ho raw t Hin) as Hne.
  pose proof (off_key _ _ _ Ho) as Hkey.
  pose proof (storeValidated_stored s key raw t) as Hst. pose proof (off_put _ _ _ Ho) as Hput.
  destruct (storeValidated s key raw t) as [r s'] eqn:E. cbn [snd].
  destruct Hst as [r _ Hf|e v c cur' Hv' Hcur Hn Hc Hf|v c cur' Hv' Hcur Hn Hc Hkept|v c p' Hv' Hp Hm].
  - exfalso. destruct Hf as [Hf|[(c & Hc & Hcne & Hf)|(p & _ & Hf)]]; [by rewrite Hv in Hf| |by rewrite Hput in Hf].
    by rewrite (off_valid _ _ _ Ho c t (Hsub _ Hc Hcne) Ht) in Hf.
  - exfalso. rewrite (off_valid _ _ _ Ho cur' t (Hsub _ Hcur Hn) Ht) in Hc.
    destruct (off_family _ _ _ Ho cur' raw (Hsub _ Hcur Hn) Hr). congruence.
  - assert (c = vals cur') as -> by (rewrite (off_valid _ _ _ Ho cur' t (Hsub _ Hcur Hn) Ht) in Hc; congruence).
    assert (v = vals raw) as -> by congruence. rewrite Hkey in Hkept.
    unfold holds. destruct (recordVersion_fields s key (vals cur') (vals raw) false) as [-> _].
    split; [|done]. destruct cur as [cv|]; cbn in Hh; [|by rewrite Hcur in Hh].
    destruct Hh as (raw' & Hraw' & _ & <-). assert (raw' = cur') as -> by congruence. cbn.
    destruct Hkept as [_ [-> | ->]]; [rewrite String.eqb_refl|destruct (_ =?s _)]; cbn; by exists cur'.
  - assert (v = vals raw) as -> by congruence. unfold holds.
    destruct (recordVersion_fields (set_Values (set_persistence s p') (<[key := raw]> (Values s))) key c (vals raw) true) as [-> _].
    cbn. rewrite lookup_insert_eq. split; [|by intros r0 [= <-]].
    destruct cur as [cv|]; cbn in Hh |- *; [|eauto].
    destruct Hh as (raw' & Hraw' & Hne' & <-). rewrite Hraw' in Hm.
    destruct (Hm (vals raw')) as (_ & Hfp & ->); [done| |done|].
    { exact (off_valid _ _ _ Ho raw' t (Hsub _ Hraw' Hne') Ht). }
    rewrite (proj2 (String.eqb_neq _ _) Hfp). eauto.
Qed.

Lemma offer_all_simulates key vals all l : ∀ s cur, offers key vals all → (∀ o, o ∈ l → o ∈ all) →
  holds key vals s cur → (∀ r, Values s !! key = Some r → r ≠ "" → r ∈ all.*1) →
  holds key vals (offer_all s key l) (reg_run cur (vals ∘ fst <$> l)).
Proof.
  induction l as [|[raw t] l IH]; intros s cur Ho Hl Hh Hsub; [done|]. cbn.
  destruct (storeValidated_simulates key vals all s cur raw t) as [Hh' Hsub']; [done|set_solver|done..|].
  apply IH; [done|set_solver|done..].
Qed.

Lemma offers_comparable key vals l : offers key vals l → ∀ v w, v ∈ (vals <$> l.*1) → w ∈ (vals <$> l.*1) → comparable v w.
Proof.
  intros Ho v w (r1 & -> & Hr1)%list_elem_of_fmap (r2 & -> & Hr2)%list_elem_of_fmap. by eapply off_family.
Qed.

(** What one run leaves: one of the offers, no older than any of them. *)
Lemma offer_all_newest key vals all l s : offers key vals all → same_place (vals <$> all.*1) →
  default "" (Values s !! key) = "" → l ≠ [] → (∀ o, o ∈ l → o ∈ all) →
  ∃ raw, Values (offer_all s key l) !! key = Some raw ∧ vals raw ∈ (vals ∘ fst <$> l) ∧
    Forall (no_older (vals raw)) (vals ∘ fst <$> l).
Proof.
  intros Ho Hp He Hl Hsub. assert (Hvs : ∀ v, v ∈ (vals ∘ fst <$> l) → v ∈ (vals <$> all.*1)).
  { intros v (o & -> & Hin)%list_elem_of_fmap. apply (list_elem_of_fmap_2 vals), list_elem_of_fmap_2. auto. }
  pose proof (offer_all_simulates key vals all l s None Ho Hsub He) as Hh.
  destruct l as [|o l]; [done|]. cbn [fmap list_fmap] in *.
  destruct (reg_run_newest (vals <$> all.*1) (vals ∘ fst <$> l) ((vals ∘ fst) o)) as (m & Hm & Hin & Hall);
    [done| |apply Hvs; left|intros v Hv; apply Hvs; by right|].
  { apply Forall_forall. intros v Hv. eapply offers_comparable; [done|apply Hvs; left|done]. }
  unfold reg_run in Hh. cbn [fold_left reg_offer] in Hh. unfold reg_run in Hm. rewrite Hm in Hh.
  destruct Hh as (raw & Hraw & _ & <-); [|eauto].
  intros r Hr Hne. rewrite Hr in He. done.
Qed.
End Register.

(** ** The claims *)
Section Claims.
Context `{UnicodeTables, NetIP, RFC3339, Ed25519, GoSort}.
Context `{!StrictJSON EndpointRecord} `{!JSON SignedEnvelope} `{!JSON ServiceRecord}
  `{!JSON HiddenDescriptor} `{!JSON (list ServiceRecord)} `{!JSON PrivateServiceCatalog}.
Context {P : Type} `{!ValuePersistence P}.
Implicit Types s : Server P.

(** C1: The values stored under a key of a verified keyspace refine a
    newest-value register: for offers that are valid at every time of the run,
    of one family and one kind of version, and whose writes to disk succeed,
    every [storeValidated] does what the register does (keep the first, then
    whatever is newer), so the server's stored bytes always validate to the
    register's content. *)
Theorem store_refines_register key vals l s cur :
  offers (P := P) key vals l → holds key vals s cur →
  (∀ r, Values s !! key = Some r → r ≠ "" → r ∈ l.*1) →
  holds key vals (offer_all s key l) (reg_run cur (vals ∘ fst <$> l)).
Proof. intros Ho Hh Hs. by apply (offer_all_simulates key vals l l). Qed.

(** C7: Replicas converge on records that do not expire meanwhile: two servers
    that held nothing under a key and were offered the same records, in any order
    and any number of times, store the same record in the end (the same
    fingerprint), and it is the newest.  The records are of one family and one kind
    of version, valid at every time at which one of them is offered to either
    server, those with one fingerprint have one version and time, and no
    write to disk fails. *)
Theorem stores_converge key vals l1 l2 s1 s2 :
  offers (P := P) key vals (l1 ++ l2) → same_place (vals <$> (l1 ++ l2).*1) →
  default "" (Values s1 !! key) = "" → default "" (Values s2 !! key) = "" → l1 ≠ [] →
  (∀ raw, raw ∈ l1.*1 ↔ raw ∈ l2.*1) →
  ∃ raw1 raw2, Values (offer_all s1 key l1) !! key = Some raw1 ∧ Values (offer_all s2 key l2) !! key = Some raw2 ∧
    vv_fingerprint (vals raw1) = vv_fingerprint (vals raw2) ∧ Forall (no_older (vals raw1)) (vals ∘ fst <$> l1).
Proof.
  intros Ho Hp He1 He2 Hl1 Hsame.
  assert (Hl2 : l2 ≠ []).
  { intros ->. destruct l1 as [|o l1]; [done|]. pose proof (proj1 (Hsame o.1)) as Hin. cbn in Hin. set_solver. }
  destruct (offer_all_newest key vals (l1 ++ l2) l1 s1) as (raw1 & E1 & In1 & Old1); [done..|set_solver|].
  destruct (offer_all_newest key vals (l1 ++ l2) l2 s2) as (raw2 & E2 & In2 & Old2); [done..|set_solver|].
  exists raw1, raw2. split_and!; [done..| |done].
  assert (Hmem : ∀ v, v ∈ (vals ∘ fst <$> l1) ↔ v ∈ (vals ∘ fst <$> l2)).
  { intros v. rewrite !list_fmap_compose, !(list_elem_of_fmap vals). by setoid_rewrite Hsame. }
  rewrite Forall_forall in Old1, Old2.
  destruct (Old1 _ (proj2 (Hmem _) In2)) as [?|N1]; [done|].
  destruct (Old2 _ (proj1 (Hmem _) In1)) as [?|N2]; [done|].
  assert (comparable (vals raw1) (vals raw2)) as [_ Hseq].
  { eapply offers_comparable; [done| |]; rewrite fmap_app, fmap_app, elem_of_app, <- !list_fmap_compose; auto. }
  pose proof (isNewer_trans (vals raw1) (vals raw2) (vals raw1) Hseq (eq_sym Hseq) N1 N2) as N.
  by rewrite isNewer_irrefl in N.
Qed.

(** Targets of updates lie in the verified keyspaces. *)
Lemma update_target_verified req : DHTRequest_Validate req = Ok tt →
  rq_Action req = "store" ∨ rq_Action req = "update_ip" →
  verified_keyspace (rq_Target req) = true ∧ isTrustedLookupKey (rq_Target req) = true.
Proof.
  intros Ha%Validate_accepted Hact.
  assert (Hgo : ∀ t, validEndpointUpdateTarget t = true ∨ validDHTValueKey t = true →
    verified_keyspace t = true ∧ isTrustedLookupKey t = true).
  { intros t Ht. unfold verified_keyspace, isTrustedLookupKey.
    assert (∀ a, HasPrefix a "node/id/vx6_" = true → HasPrefix a "node/id/" = true) as Hid.
    { intros a E%HasPrefix_inv. by rewrite E. }
    unfold validEndpointUpdateTarget, validDHTValueKey in Ht.
    destruct (HasPrefix t "node/name/"); [done|]. destruct (HasPrefix t "node/id/vx6_") eqn:E.
    { by rewrite (Hid t E). }
    destruct (HasPrefix t "service/"), (HasPrefix t "private-catalog/"), (HasPrefix t "hidden-desc/v1/");
      rewrite ?orb_true_r; try done. destruct Ht as [?|Ht]; [done|]. by case_match. }
  destruct Ha as [a t Ha|a t Ha| |t d Ht|t d Ht|]; cbn in *; try (by destruct Hact);
    try (destruct Hact; subst a; discriminate Ha); apply Hgo; auto.
Qed.

(** What a change of the stored values says of the value that made it. *)
Definition good_change s (key value : string) : Prop :=
  ∃ now v, validateLookupValue key value now = Ok v ∧ vv_verified v = true ∧
    (vv_enveloped v = true → vv_authoritativePublisher v = true) ∧
    carries_record key (vv_raw v) now v ∧
    ∀ cur c, Values s !! key = Some cur → cur ≠ "" → validateLookupValue key cur now = Ok c →
      vv_family v = vv_family c ∧ isNewerValue v c = true.

Lemma stored_values s key value now r s' : stored s key value now r s' →
  Values s' = Values s ∨ Values s' = <[key := value]> (Values s) ∧
  ∃ v, validateLookupValue key value now = Ok v ∧ may_replace key (default "" (Values s !! key)) now v.
Proof.
  destruct 1 as [r Hr _|e v c cur|v c cur Hv Hcur Hn Hc Hkept|v c p' Hv Hp Hm]; [by left|left| |right].
  - unfold recordConflictLocked. by case_match.
  - left. apply recordVersion_fields.
  - split; [|eauto]. by destruct (recordVersion_fields (set_Values (set_persistence s p') (<[key := value]> (Values s))) key c v true) as [-> _].
Qed.

Lemma admit_and_store_change s remote req t1 t2 key :
  verified_keyspace (rq_Target req) = true → isTrustedLookupKey (rq_Target req) = true →
  Values (admit_and_store s remote req t1 t2).2 !! key ≠ Values s !! key →
  key = rq_Target req ∧ Values (admit_and_store s remote req t1 t2).2 !! key = Some (rq_Data req) ∧
  good_change s key (rq_Data req).
Proof.
  intros Hk Ht. unfold admit_and_store, admitStoreValue. rewrite Ht.
  destruct (allowStoreRequest _ _ _ _ _) as [a m]. set (s1 := set_storeRates s m).
  destruct (a ≫= _) as [u|e|] eqn:Ha; cbn [snd]; [|done..].
  apply res_bind_ok in Ha as (? & _ & Ha). apply res_bind_ok in Ha as (v & Hv & Ha).
  apply res_bind_ok in Ha as (? & Hauth & _). apply err_if_ok in Hauth.
  pose proof (storeValidated_stored s1 (rq_Target req) (rq_Data req) t2) as Hst.
  destruct (storeValidated s1 _ _ t2) as [r s']. cbn [snd].
  apply stored_values in Hst as [-> |(-> & w & Hw & Hm)]; [done|].
  destruct (decide (key = rq_Target req)) as [->|Hne]; [|by rewrite lookup_insert_ne].
  rewrite lookup_insert_eq. intros _. split_and!; [done..|].
  assert (v = w) as -> by by eapply validate_time.
  pose proof (validate_verified _ _ _ _ Hw) as Hver. rewrite Hk in Hver. exists t2, w. split_and!; [done..| | |].
  - intros He. rewrite Hver, He in Hauth. by apply negb_false_iff in Hauth.
  - by eapply validated_carries.
  - intros cur c Hc Hne Hcv. destruct (Hm c) as (? & _ & ?); cbn; rewrite ?Hc; done.
Qed.

(** C18: A peer changes a node's stored values only by an authentic update: if
    handling a request changes what is stored under some key, then the request
    is an update of that key, its data is stored, it validates and carries a
    verified record of the key (under a descriptor key: such a record or a
    well-formed descriptor, which is not signed), an envelope around it is signed by the record's
    own node, and a stored value that is still valid is of the same family and
    older. *)
Theorem handler_change_authentic s remote req clock keys key :
  Values (HandleRequest s remote req clock keys).2 !! key ≠ Values s !! key →
  (rq_Action req = "store" ∨ rq_Action req = "update_ip") ∧ key = rq_Target req ∧
  Values (HandleRequest s remote req clock keys).2 !! key = Some (rq_Data req) ∧
  good_change s key (rq_Data req).
Proof.
  unfold HandleRequest. destruct (DHTRequest_Validate req) as [[]|e|] eqn:Hv; [|done..].
  match goal with |- context [let '(_, _) := ?b in _] => set (gate := b) end.
  assert (Hg : Values gate.2 = Values s).
  { subst gate. case_match; [|done]. by destruct (allowHiddenDescriptorRequest _ _ _ _). }
  destruct gate as [allowed s1]. cbn in Hg. destruct allowed; cbn [negb snd]; [|by rewrite Hg].
  assert (Hgo : rq_Action req = "store" ∨ rq_Action req = "update_ip" → ∀ t1 t2,
    Values (admit_and_store s1 remote req t1 t2).2 !! key ≠ Values s !! key →
    (rq_Action req = "store" ∨ rq_Action req = "update_ip") ∧ key = rq_Target req ∧
    Values (admit_and_store s1 remote req t1 t2).2 !! key = Some (rq_Data req) ∧ good_change s key (rq_Data req)).
  { intros Ha t1 t2. destruct (update_target_verified req Hv Ha) as [Hk Ht]. unfold good_change. rewrite <- Hg.
    intros (? & ? & ?)%admit_and_store_change; [|done..]. by split_and!. }
  destruct (String.eqb_spec (rq_Action req) "update_ip") as [Ha|_].
  - destruct (check_update _ _ _); cbn [snd]; [|by rewrite Hg..].
    specialize (Hgo (or_intror Ha) (clock 3%nat) (clock 4%nat)). by destruct (admit_and_store _ _ _ _ _).
  - destruct (rq_Action req =?s "find_node"); cbn [snd]; [by rewrite Hg|].
    destruct (rq_Action req =?s "find_value"); [destruct (find_value _ _); cbn [snd]; by rewrite Hg|].
    destruct (String.eqb_spec (rq_Action req) "store") as [Ha|_]; cbn [snd]; [|by rewrite Hg].
    specialize (Hgo (or_introl Ha) (clock 1%nat) (clock 2%nat)). by destruct (admit_and_store _ _ _ _ _).
Qed.
End Claims.

(** ** Witnesses: a server over a disk that is a map *)
#[export] Program Instance demo_persistence : ValuePersistence (gmap string string) := {|
  PutValue p key value := Ok (<[key := value]> p);
  LoadValues p := Ok p;
  DeleteValue p key := Ok (delete key p);
  saved p := p;
|}.
Next Obligation. by intros p key value p' _ [= <-]. Qed.
Next Obligation. by intros p rows [= <-]. Qed.
Next Obligation. by intros p key p' [= <-]. Qed.

Definition demo_vals (raw : string) : validatedValue :=
  if raw =?s demo_endpoint_1 then demo_val_1 else demo_val_2.
Definition demo_server : Server (gmap string string) := set_persistence (NewServer "vx6_self") (Some ∅).

Lemma demo_offers l : (∀ o, o ∈ l → (o = (demo_endpoint_1, demo_later) ∨ o = (demo_endpoint_2, demo_later))) →
  offers (P := gmap string string) demo_id_key demo_vals l.
Proof.
  intros Hl.
  assert (Hraw : ∀ raw, raw ∈ l.*1 → raw = demo_endpoint_1 ∨ raw = demo_endpoint_2).
  { intros raw (o & -> & Ho)%list_elem_of_fmap. by destruct (Hl o Ho) as [-> | ->]; [left|right]. }
  split.
  - reflexivity.
  - intros raw t Hin. by destruct (Hl _ Hin) as [[= -> ->]|[= -> ->]].
  - intros raw t Hr (o & -> & Ho)%list_elem_of_fmap.
    assert (o.2 = demo_later) as -> by by destruct (Hl o Ho) as [-> | ->].
    destruct (Hraw raw Hr) as [-> | ->]; [exact demo_val_1_ok|exact demo_val_2_ok].
  - intros raw raw' Hr Hr'. by destruct (Hraw raw Hr) as [-> | ->], (Hraw raw' Hr') as [-> | ->].
  - done.
Qed.

Definition demo_run : list (string * Z) := [(demo_endpoint_2, demo_later); (demo_endpoint_1, demo_later)].

Lemma store_refines_register_witness :
  holds demo_id_key demo_vals (offer_all demo_server demo_id_key demo_run) (Some demo_val_2).
Proof.
  apply (store_refines_register demo_id_key demo_vals demo_run demo_server None).
  - apply demo_offers. intros o Ho. apply list_elem_of_In in Ho as [<-|[<-|[]]]; auto.
  - reflexivity.
  - intros r Hr. discriminate Hr.
Defined.

Lemma stores_converge_witness :
  ∃ raw1 raw2, Values (offer_all demo_server demo_id_key demo_run) !! demo_id_key = Some raw1 ∧
    Values (offer_all demo_server demo_id_key (rev demo_run)) !! demo_id_key = Some raw2 ∧
    vv_fingerprint (demo_vals raw1) = vv_fingerprint (demo_vals raw2) ∧
    Forall (no_older (demo_vals raw1)) (demo_vals ∘ fst <$> demo_run).
Proof.
  apply (stores_converge demo_id_key demo_vals demo_run (rev demo_run) demo_server demo_server).
  - apply demo_offers. intros o Ho. apply list_elem_of_In in Ho as [<-|[<-|[<-|[<-|[]]]]]; auto.
  - intros v w Hv Hw Hf. apply list_elem_of_In in Hv, Hw.
    assert (Hor : ∀ x, In x (demo_vals <$> (demo_run ++ rev demo_run).*1) → x = demo_val_1 ∨ x = demo_val_2).
    { intros x [<-|[<-|[<-|[<-|[]]]]]; auto. }
    destruct (Hor v Hv) as [-> | ->], (Hor w Hw) as [-> | ->]; try done; discriminate Hf.
  - reflexivity.
  - reflexivity.
  - discriminate.
  - intros raw. rewrite !list_elem_of_In. cbn. tauto.
Defined.

Definition demo_store_request : DHTRequest := mkDHTRequest 1 DHTTypeUpdate "store" demo_id_key demo_endpoint_2.
Definition demo_after : Server (gmap string string) :=
  (HandleRequest demo_server "[2001:db8::9]:4000" demo_store_request (fun _ => demo_later) []).2.
Lemma demo_after_value : Values demo_after !! demo_id_key = Some demo_endpoint_2.
Proof. vm_compute. reflexivity. Qed.

Lemma handler_change_authentic_witness :
  Values demo_after !! demo_id_key = Some demo_endpoint_2 ∧ good_change demo_server demo_id_key demo_endpoint_2.
Proof.
  split; [exact demo_after_value|].
  apply (handler_change_authentic demo_server "[2001:db8::9]:4000" demo_store_request (fun _ => demo_later) [] demo_id_key).
  fold demo_after. rewrite demo_after_value. discriminate.
Defined.

Definition demo_disk : gmap string string := default ∅ (valuePersistence demo_after).
Lemma demo_after_disk : valuePersistence demo_after = Some demo_disk.
Proof.
  assert (H : match valuePersistence demo_after with Some _ => true | None => false end = true)
    by (vm_compute; reflexivity).
  unfold demo_disk. by destruct (valuePersistence demo_after).
Qed.
Definition demo_keys : list string := (map_to_list demo_disk).*1.
Definition demo_restart : res (Server (gmap string string)) :=
  AttachValuePersistence (NewServer "vx6_self") (Some demo_disk) demo_keys demo_later.
Definition demo_restarted : Server (gmap string string) := res_get demo_server demo_restart.
