(* ===== verification/Lookup.v ===== *)
(** * Iterative lookups (internal/dht/dht.go)

    The walk of a node lookup and of a value lookup, and the replication of a
    value.  The network is an oracle: [answers round batch] gives the results of
    the queries of a round in the order they arrive, each with the clock reading
    its referrals are checked at; if it gives fewer than were asked, the deadline
    of the lookup has passed.  Maps are ranged over in an arbitrary order only to
    be sorted.  [log] records the queries sent. *)
From S2P Require Import Prelude GoBytes GoStrings GoEncoding GoTime GoSort Sha256 GoEnv Lines GoNumbers Identity Record StrictJson Envelope Hidden Catalog Proto NodeInfo Value Collector RateLimit Peer Routing Store.

Definition ErrLookupIncomplete : string := "dht lookup incomplete".

(** The result of one query. *)
Record answer := mkAnswer {
  an_time : Z;
  an_refs : res (list NodeInfo);
}.

Record NodeLookupResult := mkNodeResult {
  nl_Matches : list NodeInfo;
  nl_Closest : list NodeInfo;
  nl_Outcome : LookupOutcome;
  nl_QueriedNodes : Z;
  nl_Rounds : Z;
}.

Section Helpers.
Context `{UnicodeTables, GoSort}.

Definition xorDistanceForNode (node : NodeInfo) (target : string) : Z :=
  if HasPrefix target "node/name/" then
    let hash := if n_NameHash node =?s "" then NodeNameHash (n_Name node) else n_NameHash node in
    xorDistance hash (TrimPrefix target "node/name/")
  else xorDistance (n_ID node) (TrimPrefix target "node/id/").

Definition nearer (target : string) (a b : NodeInfo) : bool :=
  let left := xorDistanceForNode a target in let right := xorDistanceForNode b target in
  if negb (left =? right) then left <? right else str_lt (n_ID a) (n_ID b).

Definition closestUnqueried (known : gmap string NodeInfo) (queried : gset string) (target : string) (limit : Z)
  : list NodeInfo :=
  let all := (map_to_list (filter (fun kv => kv.1 ∉ queried) known)).*2 in
  let all := sort_Slice (nearer target) all in
  if limit <? len all then take (Z.to_nat limit) all else all.

Definition sortedKnown (known : gmap string NodeInfo) (target : string) (limit : Z) : list NodeInfo :=
  let all := closestUnqueried known ∅ target (Z.of_nat (size known)) in
  if limit <? len all then take (Z.to_nat limit) all else all.

Definition matchesNodeLookupTarget (info : NodeInfo) (target : string) : bool :=
  if HasPrefix target "node/name/" then
    let want := TrimPrefix target "node/name/" in
    (NodeNameHash (n_Name info) =?s want) && ((n_NameHash info =?s "") || (n_NameHash info =?s want))
  else if HasPrefix target "node/id/" then n_ID info =?s TrimPrefix target "node/id/"
  else n_ID info =?s target.

Definition addDiversityFallback (known : gmap string NodeInfo) (contacts : list NodeInfo) : gmap string NodeInfo :=
  fold_left (fun known peer =>
    if bool_decide (is_Some (known !! n_ID peer)) then known else <[n_ID peer := peer]> known) contacts known.

Definition closestForTarget (rt : RoutingTable) (target : string) (count : Z) : list NodeInfo :=
  if HasPrefix target "node/name/" then ClosestNodesByNameHash rt (TrimPrefix target "node/name/") count
  else ClosestNodes rt target count.

Definition nodeLookupTarget (target : string) : string * string :=
  if HasPrefix target "node/name/" then (DHTTypeLookupName, TrimPrefix target "node/name/")
  else if HasPrefix target "node/id/" then (DHTTypeLookupKey, TrimPrefix target "node/id/")
  else if HasPrefix target "vx6_" then (DHTTypeLookupKey, target)
  else (DHTTypeFor "find_node" target, target).

Definition lookupRequestTarget (key : string) : string * string :=
  if HasPrefix key "node/name/" then (DHTTypeLookupName, TrimPrefix key "node/name/")
  else if HasPrefix key "node/id/" then (DHTTypeLookupKey, TrimPrefix key "node/id/")
  else (DHTTypeFor "find_value" key, key).

Definition selectReplicationNodes (nodes : list NodeInfo) (limit : Z) : list NodeInfo :=
  if limit <=? 0 then [] else if limit <? len nodes then take (Z.to_nat limit) nodes else nodes.
End Helpers.

(** ** One query, with its retries

    [once attempt] is one exchange with the peer, [expired] says whether the
    context had ended before it. *)
Fixpoint retry {A} (attempts : nat) (n : nat) (expired : nat → option string) (once : nat → res A) (lastErr : res A) : res A :=
  match attempts with
  | O => lastErr
  | S attempts =>
      match expired n with
      | Some e => Err e
      | None =>
          match once n with
          | Ok a => Ok a
          | Panic => Panic
          | Err e => retry attempts (S n) expired once (Err e)
          end
      end
  end.

Section Query.
Context `{UnicodeTables, !JSON DHTRequest, !StrictJSON DHTResponse}.

(** The request a node lookup sends. *)
Definition node_request (targetID : string) (bootstrap : bool) : DHTRequest :=
  let '(typ, target) := nodeLookupTarget targetID in
  if bootstrap then
    mkDHTRequest DHTWireVersion DHTTypeBootstrap "find_node"
      (if HasPrefix targetID "node/name/" then TrimPrefix targetID "node/name/" else TrimPrefix targetID "node/id/") ""
  else mkDHTRequest DHTWireVersion typ "find_node" target "".
Definition value_request (key : string) : DHTRequest :=
  let '(typ, target) := lookupRequestTarget key in mkDHTRequest DHTWireVersion typ "find_value" target "".

(** The response, read from the bytes the peer sends. *)
Definition read_response (req : DHTRequest) (limits : LookupLimitsT) (incoming : bytes) : res DHTResponse :=
  match ReadHeader incoming with
  | Ok (kind, incoming) =>
      err_if (negb (kind =? KindDHT)) "invalid response";;
      '(resPayload, _) ← ReadLengthPrefixed incoming (u32 (MaxResponseSize limits));
      resp ← Decode (T := DHTResponse) (bytes_str resPayload);
      err_if (negb ((rs_Version resp =? rq_Version req) && (rs_Type resp =?s rq_Type req)))
        "DHT response version/type does not match request";;
      err_if (MaxReferrals limits <? len (rs_Nodes resp)) "DHT response exceeds referrals";;
      Ok resp
  | _ => Err "invalid response"
  end.

(** [dial req] gives the bytes the peer answers the request with. *)
Definition queryOnce (req : DHTRequest) (limits : LookupLimitsT) (dial : res bytes) : res DHTResponse :=
  incoming ← dial;
  DHTRequest_Validate req;;
  read_response req limits incoming.

Definition queryNodeOnce (targetID : string) (bootstrap : bool) (limits : LookupLimitsT) (dial : res bytes)
  : res (list NodeInfo) :=
  resp ← queryOnce (node_request targetID bootstrap) limits dial; Ok (rs_Nodes resp).
Definition queryValueOnce (key : string) (limits : LookupLimitsT) (dial : res bytes) : res (string * list NodeInfo) :=
  resp ← queryOnce (value_request key) limits dial; Ok (rs_Value resp, rs_Nodes resp).

Definition queryNode (targetID : string) (bootstrap : bool) (limits : LookupLimitsT)
    (expired : nat → option string) (dial : nat → res bytes) : res (list NodeInfo) :=
  retry (Z.to_nat (MaxRetries limits + 1)) 0 expired
    (fun attempt => queryNodeOnce targetID bootstrap limits (dial attempt)) (Ok []).
Definition QueryValue (key : string) (limits : LookupLimitsT)
    (expired : nat → option string) (dial : nat → res bytes) : res (string * list NodeInfo) :=
  retry (Z.to_nat (MaxRetries limits + 1)) 0 expired
    (fun attempt => queryValueOnce key limits (dial attempt)) (Ok ("", [])).
End Query.

(** ** The node lookup *)
Section FindNode.
Context `{UnicodeTables, NetIP, RFC3339, Ed25519, GoSort}.

(** What the loop of a node lookup carries. *)
Record walk := mkWalk {
  w_rt : RoutingTable;
  w_known : gmap string NodeInfo;
  w_matches : gmap string NodeInfo;
  w_queried : gset string;
  w_transient : list string;
  w_queries : Z;
  w_failures : Z;
  w_rounds : Z;
  w_diversity : bool;
  w_log : list NodeInfo;
}.

(** A referral is used if it verifies and names a peer. *)
Definition usable_ref (now : Z) (ref : NodeInfo) : bool :=
  is_ok (VerifyNodeInfo ref now) && (n_ID ref <>?s "") && (n_Addr ref <>?s "").

Definition learn (target : string) (now : Z) (km : gmap string NodeInfo * gmap string NodeInfo) (ref : NodeInfo)
  : gmap string NodeInfo * gmap string NodeInfo :=
  let '(known, matches) := km in
  if negb (usable_ref now ref) then km
  else (if bool_decide (is_Some (known !! n_ID ref)) then known else <[n_ID ref := ref]> known,
        if matchesNodeLookupTarget ref target then <[n_ID ref := ref]> matches else matches).

Definition seed_step (rt : RoutingTable) (target : string) (now : Z)
    (km : gmap string NodeInfo * gmap string NodeInfo) (node : NodeInfo)
  : gmap string NodeInfo * gmap string NodeInfo :=
  let '(known, matches) := km in
  let verified := is_ok (VerifyNodeInfo node now) in
  if bool_decide (is_Some (ActiveNode rt (n_ID node))) || verified then
    (<[n_ID node := node]> known,
     if verified && matchesNodeLookupTarget node target then <[n_ID node := node]> matches else matches)
  else km.
Definition seed_known (rt : RoutingTable) (target : string) (now : Z) (seeds : list NodeInfo)
  : gmap string NodeInfo * gmap string NodeInfo := fold_left (seed_step rt target now) seeds (∅, ∅).

(** The start of a query: it is counted, and an inactive peer becomes a candidate. *)
Definition send_query (w : walk) (node : NodeInfo) : res walk :=
  let w1 rt transient := mkWalk rt (w_known w) (w_matches w) ({[ n_ID node ]} ∪ w_queried w) transient
    (w_queries w + 1) (w_failures w) (w_rounds w) (w_diversity w) (w_log w ++ [node]) in
  if bool_decide (is_Some (ActiveNode (w_rt w) (n_ID node))) then Ok (w1 (w_rt w) (w_transient w))
  else
    '(rt, added) ← AddLookupCandidate (w_rt w) node;
    Ok (w1 rt (if added : bool then n_ID node :: w_transient w else w_transient w)).

Fixpoint send_all (w : walk) (batch : list NodeInfo) : res walk :=
  match batch with
  | [] => Ok w
  | node :: batch => w ← send_query w node; send_all w batch
  end.

Definition receive (target : string) (w : walk) (a : answer) : walk :=
  match an_refs a with
  | Ok refs =>
      let '(known, matches) := fold_left (learn target (an_time a)) refs (w_known w, w_matches w) in
      mkWalk (w_rt w) known matches (w_queried w) (w_transient w) (w_queries w) (w_failures w) (w_rounds w)
        (w_diversity w) (w_log w)
  | _ => mkWalk (w_rt w) (w_known w) (w_matches w) (w_queried w) (w_transient w) (w_queries w)
           (w_failures w + 1) (w_rounds w) (w_diversity w) (w_log w)
  end.

Definition lookup_result (target : string) (w : walk) (with_matches : bool) (outcome : LookupOutcome)
  : NodeLookupResult :=
  mkNodeResult (if with_matches then sortedKnown (w_matches w) target (Z.of_nat (size (w_matches w))) else [])
    (sortedKnown (w_known w) target K) outcome (w_queries w) (w_rounds w).

(** The results of an exhausted walk: what was found, unless a query failed. *)
Definition conclude (target : string) (w : walk) : NodeLookupResult * option string :=
  if 0 <? Z.of_nat (size (w_matches w)) then
    if 0 <? w_failures w
    then (lookup_result target w true LookupIncomplete, Some ErrLookupIncomplete)
    else (lookup_result target w true (if 1 <? Z.of_nat (size (w_matches w)) then LookupConflict else LookupFound), None)
  else if 0 <? w_failures w then (lookup_result target w false LookupIncomplete, Some ErrLookupIncomplete)
  else (lookup_result target w false LookupNotFound, None).

Definition set_round (w : walk) (rounds : Z) : walk :=
  mkWalk (w_rt w) (w_known w) (w_matches w) (w_queried w) (w_transient w) (w_queries w) (w_failures w) rounds
    (w_diversity w) (w_log w).
Definition set_diversity (w : walk) (known : gmap string NodeInfo) : walk :=
  mkWalk (w_rt w) known (w_matches w) (w_queried w) (w_transient w) (w_queries w) (w_failures w) (w_rounds w)
    true (w_log w).

(** The loop: [fuel] rounds are left. *)
Fixpoint find_rounds (answers : Z → list NodeInfo → list answer) (contacts : list NodeInfo) (limits : LookupLimitsT)
    (target : string) (fuel : nat) (w : walk) : res (walk * NodeLookupResult * option string) :=
  let finish w :=
    if (0 <? len (closestUnqueried (w_known w) (w_queried w) target 1))
    then Ok (w, lookup_result target w true LookupIncomplete, Some ErrLookupIncomplete)
    else Ok (w, (conclude target w).1, (conclude target w).2) in
  match fuel with
  | O => finish w
  | S fuel =>
      if MaxPeerQueries limits <=? w_queries w then finish w
      else
        let w := set_round w (w_rounds w + 1) in
        let batch := closestUnqueried (w_known w) (w_queried w) target
                       (Z.min (MaxConcurrent limits) (MaxPeerQueries limits - w_queries w)) in
        match batch with
        | [] =>
            let fallback := negb (w_diversity w) in
            let w := if fallback then set_diversity w (addDiversityFallback (w_known w) contacts) else w in
            if fallback && (0 <? len (closestUnqueried (w_known w) (w_queried w) target 1))
            then find_rounds answers contacts limits target fuel w
            else Ok (w, (conclude target w).1, (conclude target w).2)
        | _ :: _ =>
            w ← send_all w batch;
            let got := take (length batch) (answers (w_rounds w) batch) in
            let w := fold_left (receive target) got w in
            if (length got <? length batch)%nat
            then Ok (w, lookup_result target w true LookupIncomplete, Some ErrLookupIncomplete)
            else if negb (HasPrefix target "node/name/") && (0 <? Z.of_nat (size (w_matches w)))
            then Ok (w, lookup_result target w true LookupFound, None)
            else find_rounds answers contacts limits target fuel w
        end
  end.

(** [recursiveFindNodeDetailed]; the walk of the result holds the table after the
    deferred removal of the transient candidates, and the queries sent. *)
Definition recursiveFindNodeDetailed (answers : Z → list NodeInfo → list answer) (contacts : list NodeInfo)
    (limits : LookupLimitsT) (rt : RoutingTable) (target : string) (bootstrap : bool) (now : Z) (keys : list string)
  : res (walk * NodeLookupResult * option string) :=
  let seeds :=
    if bootstrap then
      if HasPrefix target "node/name/"
      then ClosestNodesForBootstrap rt (TrimPrefix target "node/name/") (MaxConcurrent limits) true now keys
      else ClosestNodesForBootstrap rt (TrimPrefix target "node/id/") (MaxConcurrent limits) false now keys
    else closestForTarget rt target (MaxConcurrent limits) in
  let '(known, matches) := seed_known rt target now seeds in
  let w := mkWalk rt known matches ∅ [] 0 0 0 false [] in
  if negb (HasPrefix target "node/name/") && (0 <? Z.of_nat (size matches))
  then Ok (w, lookup_result target w true LookupFound, None)
  else
    '(w, result, err) ← find_rounds answers contacts limits target (Z.to_nat (MaxRounds limits)) w;
    let rt := fold_left DiscardCandidate (w_transient w) (w_rt w) in
    Ok (mkWalk rt (w_known w) (w_matches w) (w_queried w) (w_transient w) (w_queries w) (w_failures w) (w_rounds w)
          (w_diversity w) (w_log w), result, err).

Definition RecursiveFindNode answers contacts limits rt target now keys : res (list NodeInfo * option string) :=
  '(_, result, err) ← recursiveFindNodeDetailed answers contacts limits rt target false now keys;
  Ok (if 0 <? len (nl_Matches result) then nl_Matches result else nl_Closest result, err).
End FindNode.

(** ** The value lookup *)
Section FindValue.
Context `{UnicodeTables, NetIP, RFC3339, Ed25519, GoSort}.
Context `{!StrictJSON EndpointRecord} `{!JSON SignedEnvelope} `{!JSON ServiceRecord}
  `{!JSON HiddenDescriptor} `{!JSON (list ServiceRecord)} `{!JSON PrivateServiceCatalog}.
Context (resolve : string → option string).
(** The order of a [range] over a map of candidates. *)
Context (iterate : gmap string candidateObservation → list candidateObservation).

(** The result of one value query: the peer, and its value and referrals. *)
Record value_answer := mkValueAnswer {
  va_node : NodeInfo;
  va_time : Z;
  va_result : res (string * list NodeInfo);
}.

Record value_walk := mkVWalk {
  v_rt : RoutingTable;
  v_known : gmap string NodeInfo;
  v_branch : gmap string Z;
  v_queried : gset string;
  v_transient : gset string;
  v_collector : lookupCollector;
  v_answers : Z;
  v_failures : Z;
  v_diversity : bool;
  v_notes : list bool;  (* noteLookupResult *)
  v_log : list NodeInfo;
}.

Definition v_set_rt (w : value_walk) rt transient : value_walk :=
  mkVWalk rt (v_known w) (v_branch w) (v_queried w) transient (v_collector w) (v_answers w) (v_failures w)
    (v_diversity w) (v_notes w) (v_log w).
Definition v_note (w : value_walk) (success : bool) : value_walk :=
  mkVWalk (v_rt w) (v_known w) (v_branch w) (v_queried w) (v_transient w) (v_collector w) (v_answers w) (v_failures w)
    (v_diversity w) (v_notes w ++ [success]) (v_log w).

(** The seeds, and the branch each starts. *)
Definition seed_branches (rt : RoutingTable) (now : Z) (seeds : list NodeInfo) : gmap string NodeInfo * gmap string Z :=
  fold_left (fun '(known, branch) '(index, node) =>
    if bool_decide (is_Some (ActiveNode rt (n_ID node))) || is_ok (VerifyNodeInfo node now)
    then (<[n_ID node := node]> known, <[n_ID node := Z.of_nat index + 1]> branch) else (known, branch))
    (imap (fun i n => (i, n)) seeds) (∅, ∅).

Definition v_send (w : value_walk) (node : NodeInfo) : res value_walk :=
  let w1 rt transient := mkVWalk rt (v_known w) (v_branch w) ({[ n_ID node ]} ∪ v_queried w) transient (v_collector w)
    (v_answers w) (v_failures w) (v_diversity w) (v_notes w) (v_log w ++ [node]) in
  if bool_decide (is_Some (ActiveNode (v_rt w) (n_ID node))) then Ok (w1 (v_rt w) (v_transient w))
  else
    '(rt, added) ← AddLookupCandidate (v_rt w) node;
    Ok (w1 rt (if added : bool then {[ n_ID node ]} ∪ v_transient w else v_transient w)).
Fixpoint v_send_all (w : value_walk) (batch : list NodeInfo) : res value_walk :=
  match batch with
  | [] => Ok w
  | node :: batch => w ← v_send w node; v_send_all w batch
  end.

(** A transient candidate is dropped once it has answered or failed. *)
Definition v_release (w : value_walk) (id : string) : value_walk :=
  if bool_decide (id ∈ v_transient w)
  then v_set_rt w (DiscardCandidate (v_rt w) id) (v_transient w ∖ {[ id ]}) else w.

Definition v_learn (now branch : Z) (w : value_walk) (ref : NodeInfo) : value_walk :=
  if negb (usable_ref now ref) || bool_decide (is_Some (v_known w !! n_ID ref)) then w
  else mkVWalk (v_rt w) (<[n_ID ref := ref]> (v_known w)) (<[n_ID ref := branch]> (v_branch w)) (v_queried w)
         (v_transient w) (v_collector w) (v_answers w) (v_failures w) (v_diversity w) (v_notes w) (v_log w).

Definition v_observe (w : value_walk) (source : sourceObservation) (value : string) : res value_walk :=
  c ← Observe resolve (v_collector w) source value;
  Ok (mkVWalk (v_rt w) (v_known w) (v_branch w) (v_queried w) (v_transient w) c (v_answers w) (v_failures w)
        (v_diversity w) (v_notes w) (v_log w)).
Definition v_count (w : value_walk) (failed : bool) : value_walk :=
  mkVWalk (v_rt w) (v_known w) (v_branch w) (v_queried w) (v_transient w) (v_collector w) (v_answers w + 1)
    (if failed then v_failures w + 1 else v_failures w) (v_diversity w) (v_notes w) (v_log w).

Definition v_receive (w : value_walk) (a : value_answer) : res value_walk :=
  let id := n_ID (va_node a) in
  let branch := default 0 (v_branch w !! id) in
  match va_result a with
  | Ok (value, refs) =>
      let w := v_release (v_note (v_count w false) true) id in
      w ← (if value =?s "" then Ok w
           else v_observe w (mkSource id (n_Addr (va_node a)) 1 branch) value);
      Ok (fold_left (v_learn (va_time a) branch) refs w)
  | _ =>
      let w := v_note (v_count w true) false in
      let w := v_set_rt w (NoteFailureAt (v_rt w) id (va_time a)).1 (v_transient w) in
      Ok (v_release w id)
  end.
Fixpoint v_receive_all (w : value_walk) (got : list value_answer) : res value_walk :=
  match got with
  | [] => Ok w
  | a :: got => w ← v_receive w a; v_receive_all w got
  end.

Definition v_fallback (w : value_walk) (contacts : list NodeInfo) : value_walk :=
  fold_left (fun w peer =>
    if bool_decide (is_Some (v_known w !! n_ID peer)) then w
    else mkVWalk (v_rt w) (<[n_ID peer := peer]> (v_known w))
           (<[n_ID peer := Z.of_nat (size (v_branch w)) + 1]> (v_branch w)) (v_queried w) (v_transient w)
           (v_collector w) (v_answers w) (v_failures w) true (v_notes w) (v_log w)) contacts
    (mkVWalk (v_rt w) (v_known w) (v_branch w) (v_queried w) (v_transient w) (v_collector w) (v_answers w)
       (v_failures w) true (v_notes w) (v_log w)).

(** The value loop: [true] if it ended because the deadline passed. *)
Fixpoint value_rounds (answers : nat → list NodeInfo → list value_answer) (contacts : list NodeInfo)
    (limits : LookupLimitsT) (key : string) (fuel : nat) (w : value_walk) : res (value_walk * bool) :=
  match fuel with
  | O => Ok (w, false)
  | S fuel =>
      if MaxPeerQueries limits <=? v_answers w then Ok (w, false)
      else
        let batch := closestUnqueried (v_known w) (v_queried w) key
                       (Z.min (MaxConcurrent limits) (MaxPeerQueries limits - v_answers w)) in
        match batch with
        | [] =>
            if v_diversity w then Ok (w, false)
            else
              let w := v_fallback w contacts in
              if 0 <? len (closestUnqueried (v_known w) (v_queried w) key 1)
              then value_rounds answers contacts limits key fuel w else Ok (w, false)
        | _ :: _ =>
            w ← v_send_all w batch;
            let got := take (length batch) (answers fuel batch) in
            w ← v_receive_all w got;
            if (length got <? length batch)%nat then Ok (w, true)
            else if IsConfirmed (v_collector w) then Ok (w, false)
            else value_rounds answers contacts limits key fuel w
        end
  end.

(** How a finished walk is reported. *)
Definition value_result (key : string) (w : value_walk) : LookupResult * option string * value_walk :=
  let '(res, err) := Resolve iterate (v_collector w) (v_answers w) in
  match err with
  | None => (res, None, v_note w true)
  | Some e =>
      if (0 <? v_answers w) && (0 <? len (closestUnqueried (v_known w) (v_queried w) key 1))
      then (with_outcome res LookupIncomplete, Some ErrLookupIncomplete, w)
      else if (0 <? v_failures w) && (e =?s ErrLookupNotFound)
      then (with_outcome res LookupIncomplete, Some ErrLookupIncomplete, w)
      else if e =?s ErrInsufficientConfirmation
      then (with_outcome res LookupIncomplete, Some ErrLookupIncomplete, w)
      else (res, Some e, v_note w false)
  end.

Definition RecursiveFindValueDetailed (answers : nat → list NodeInfo → list value_answer) (contacts : list NodeInfo)
    (limits : LookupLimitsT) (rt : RoutingTable) (values : gmap string string) (key : string) (now : Z)
  : res (LookupResult * option string * value_walk) :=
  let '(known, branch) := seed_branches rt now (closestForTarget rt key (MaxConcurrent limits)) in
  let w := mkVWalk rt known branch ∅ ∅ (newLookupCollector key now) 0 0 false [] [] in
  w ← (let local := default "" (values !! key) in
       if local =?s "" then Ok w
       else v_observe w (mkSource ("local:" +:+ SelfID rt) "" 3 0) local);
  '(w, cancelled) ← value_rounds answers contacts limits key (Z.to_nat (MaxRounds limits)) w;
  let '(res, err, w) :=
    if cancelled : bool
    then (with_outcome (Resolve iterate (v_collector w) (v_answers w)).1 LookupIncomplete, Some ErrLookupIncomplete, v_note w false)
    else value_result key w in
  Ok (res, err, v_set_rt w (fold_left DiscardCandidate (elements (v_transient w)) (v_rt w)) (v_transient w)).

Definition RecursiveFindValue answers contacts limits rt values key now : res string :=
  '(res, err, _) ← RecursiveFindValueDetailed answers contacts limits rt values key now;
  match err with None => Ok (lr_Value res) | Some e => Err e end.
End FindValue.

(** ** Replication *)
Section Replicate.
Context `{UnicodeTables, NetIP, RFC3339, Ed25519, GoSort}.
Context `{!StrictJSON EndpointRecord} `{!JSON SignedEnvelope} `{!JSON ServiceRecord}
  `{!JSON HiddenDescriptor} `{!JSON (list ServiceRecord)} `{!JSON PrivateServiceCatalog}.
Context {P : Type} `{!ValuePersistence P}.

Record ReplicationReport := mkReport {
  rp_Key : string;
  rp_Desired : Z;
  rp_Attempted : Z;
  rp_StoredRemotely : Z;
  rp_LocalStored : bool;
  rp_Successful : list NodeInfo;
  rp_Failed : list NodeInfo;
}.

(** The configuration of the adaptive parameters.  The failure average is a
    [float64]: the two comparisons with the threshold are arguments. *)
Record AdaptiveConfig := mkAdaptive {
  LookupAlphaBase : Z;
  LookupAlphaMax : Z;
  LookupBudgetBase : Z;
  LookupBudgetMax : Z;
  ReplicationBase : Z;
  ReplicationMax : Z;
}.
Definition defaultAdaptiveConfig : AdaptiveConfig := mkAdaptive 4 6 12 28 5 8.

Definition adaptiveLookupParams (cfg : AdaptiveConfig) (high middle : bool) : Z * Z :=
  let alpha := LookupAlphaBase cfg in
  let budget := LookupBudgetBase cfg in
  let '(alpha, budget) :=
    if high then (alpha + 2, budget + 10) else if middle then (alpha + 1, budget + 5) else (alpha, budget) in
  let alpha := if alpha <? 1 then 1 else alpha in
  let alpha := if LookupAlphaMax cfg <? alpha then LookupAlphaMax cfg else alpha in
  let budget := if budget <? alpha then alpha else budget in
  let budget := if LookupBudgetMax cfg <? budget then LookupBudgetMax cfg else budget in
  (alpha, budget).

Definition adaptiveReplicationTarget (cfg : AdaptiveConfig) (high middle : bool) : Z :=
  let target := ReplicationBase cfg in
  let target := if high then target + 2 else if middle then target + 1 else target in
  let target := if target <? 1 then 1 else target in
  if ReplicationMax cfg <? target then ReplicationMax cfg else target.

(** The outcome of [sendStore] to a node, in the order the results arrive. *)
Record store_answer := mkStoreAnswer { sa_node : NodeInfo; sa_stored : bool; sa_time : Z }.

Definition note_store (rt_report : RoutingTable * ReplicationReport) (a : store_answer)
  : RoutingTable * ReplicationReport :=
  let '(rt, r) := rt_report in
  if sa_stored a then
    (AddNode rt (sa_node a) (sa_time a),
     mkReport (rp_Key r) (rp_Desired r) (rp_Attempted r + 1) (rp_StoredRemotely r + 1) (rp_LocalStored r)
       (rp_Successful r ++ [sa_node a]) (rp_Failed r))
  else
    ((NoteFailureAt rt (n_ID (sa_node a)) (sa_time a)).1,
     mkReport (rp_Key r) (rp_Desired r) (rp_Attempted r + 1) (rp_StoredRemotely r) (rp_LocalStored r)
       (rp_Successful r) (rp_Failed r ++ [sa_node a])).

(** The batches: [candidates] are those not yet tried. *)
Fixpoint replicate (answers : list NodeInfo → list store_answer) (fuel : nat) (candidates : list NodeInfo)
    (rt : RoutingTable) (r : ReplicationReport) : RoutingTable * ReplicationReport :=
  match fuel with
  | O => (rt, r)
  | S fuel =>
      if (len candidates =? 0) || (rp_Desired r <=? rp_StoredRemotely r) then (rt, r)
      else
        let n := Z.to_nat (Z.min (rp_Desired r - rp_StoredRemotely r) (len candidates)) in
        let '(rt, r) := fold_left note_store (answers (take n candidates)) (rt, r) in
        replicate answers fuel (drop n candidates) rt r
  end.

(** [MaintainReplicas]; the clock is read for the envelope and for the store. *)
Definition MaintainReplicas (answers : string → list NodeInfo → list store_answer) (s : Server P)
    (cfg : AdaptiveConfig) (high middle : bool) (targetID value : string) (now1 now2 : Z)
  : res unit * ReplicationReport * Server P :=
  let report := mkReport targetID 0 0 0 false [] [] in
  match prepareStoreValue s targetID value now1 with
  | Err e => (Err e, report, s)
  | Panic => (Panic, report, s)
  | Ok wrapped =>
      match storeValidated s targetID wrapped now2 with
      | (Ok _, s) =>
          let candidates := selectReplicationNodes (closestForTarget (RT s) targetID K) K in
          let desired := adaptiveReplicationTarget cfg high middle in
          let report := mkReport targetID (if len candidates <? desired then len candidates else desired)
                          0 0 true [] [] in
          let '(rt, report) := replicate (answers wrapped) (length candidates) candidates (RT s) report in
          (Ok tt, report, mkServer rt (Values s) (valuePersistence s) (publisher s) (lookupLimits s) (versions s)
                            (hiddenRates s) (storeRates s))
      | (Err e, s) => (Err e, report, s)
      | (Panic, s) => (Panic, report, s)
      end
  end.

(** The request [sendStore] writes: a signed endpoint update for an envelope of a
    verified endpoint record, a plain store otherwise. *)
Definition store_request (key value : string) (now : Z) : DHTRequest :=
  let plain := mkDHTRequest DHTWireVersion (DHTTypeFor "store" key) "store" key value in
  if HasPrefix key "node/id/" || HasPrefix key "node/name/" then
    match maybeDecodeEnvelope value with
    | Ok (Some envelope) =>
        match Decode (T := EndpointRecord) (env_Value envelope) with
        | Ok endpoint =>
            if is_ok (VerifyEndpointRecord endpoint now)
            then mkDHTRequest DHTWireVersion DHTTypeUpdateIP "update_ip" key value else plain
        | _ => plain
        end
    | _ => plain
    end
  else plain.

(** [sendStore] with the bytes the peer answers with. *)
Definition sendStore `{!StrictJSON DHTResponse} (key value : string) (now : Z) (dial : res bytes) : res unit :=
  incoming ← dial;
  let req := store_request key value now in
  DHTRequest_Validate req;;
  '(kind, incoming) ← ReadHeader incoming;
  err_if (negb (kind =? KindDHT)) "invalid response";;
  '(resPayload, _) ← ReadLengthPrefixed incoming (1024 * 1024);
  resp ← Decode (T := DHTResponse) (bytes_str resPayload);
  err_if (negb ((rs_Version resp =? rq_Version req) && (rs_Type resp =?s rq_Type req)))
    "DHT response version/type does not match request".
End Replicate.
