(* ===== verification/RoutingIndex.v ===== *)
(** * Lemmas on the index slices of the routing table

    The loops of table.go over [Buckets], [NameBuckets] and [Pending], stated
    on the concatenation of the 256 slices: search, removal, insertion and
    move-to-front.  An index is well placed when every pointer sits in the
    slice of its bucket and no NodeID occurs twice. *)
From S2P Require Import Prelude GoBytes GoStrings GoEncoding GoTime GoSort Sha256 GoEnv Lines Identity Record Proto NodeInfo Peer Routing.

(** ** Search *)
Lemma indexOfEntry_Some h b id p :
  indexOfEntry h b id = Some p → ∃ l, b !! p = Some l ∧ id_of h l = id.
Proof.
  revert p. induction b as [|l b IH]; intros p; cbn; [done|].
  case_match eqn:E; [intros [= <-]; bool_prop; by exists l|].
  destruct (indexOfEntry h b id) as [q|] eqn:Eq; cbn; [|done]. intros [= <-]. by apply IH.
Qed.

Lemma indexOfEntry_None h b id : indexOfEntry h b id = None ↔ id ∉ id_of h <$> b.
Proof.
  induction b as [|l b IH]; cbn; [split; [intros _; apply not_elem_of_nil|done]|].
  rewrite not_elem_of_cons. case_match eqn:E; bool_prop.
  - split; [done|]. intros [? _]. congruence.
  - destruct (indexOfEntry h b id); cbn.
    + split; [done|]. intros [_ ?%IH]. done.
    + split; [|done]. intros _. split; [congruence|]. by apply IH.
Qed.

Lemma indexOfEntry_ext h h' b id :
  (∀ l, l ∈ b → id_of h l = id_of h' l) → indexOfEntry h b id = indexOfEntry h' b id.
Proof.
  induction b as [|l b IH]; intros E; cbn; [done|].
  rewrite E by left. rewrite IH; [done|]. intros. apply E. by right.
Qed.

Lemma remove_at_perm (b : list nat) p l : b !! p = Some l → b ≡ₚ l :: remove_at b p.
Proof.
  intros Hp. unfold remove_at. rewrite <- (take_drop_middle b p l Hp) at 1.
  by rewrite Permutation_middle.
Qed.

Lemma moveToFront_perm b p : moveToFront b p ≡ₚ b.
Proof.
  unfold moveToFront. destruct (b !! p) as [l|] eqn:E; [|done].
  symmetry. by apply remove_at_perm.
Qed.

Lemma inIndexLocked_spec h bs id : inIndexLocked h bs id = true ↔ id ∈ id_of h <$> concat bs.
Proof.
  unfold inIndexLocked. induction bs as [|b bs IH]; cbn.
  - split; [done|]. intros ?%elem_of_nil. done.
  - rewrite fmap_app, elem_of_app, <- IH, orb_true_iff.
    destruct (indexOfEntry h b id) eqn:E.
    + split; [|auto]. intros _. left. apply indexOfEntry_Some in E as (l & Hl & <-).
      apply list_elem_of_fmap. exists l. split; [done|]. by eapply list_elem_of_lookup_2.
    + apply indexOfEntry_None in E. naive_solver.
Qed.

Lemma inIndexLocked_false h bs id : inIndexLocked h bs id = false ↔ id ∉ id_of h <$> concat bs.
Proof. rewrite <- not_true_iff_false, inIndexLocked_spec. done. Qed.

(** ** Removal *)
Abbreviation drop_id h id := (filter (fun l => id_of h l ≠ id)).

Lemma drop_id_absent h id (b : list nat) : id ∉ id_of h <$> b → drop_id h id b = b.
Proof.
  induction b as [|l b IH]; [done|]. rewrite fmap_cons, not_elem_of_cons. intros [Hl Hb].
  rewrite filter_cons_True by congruence. by rewrite IH.
Qed.

Lemma remove_at_filter h b id p :
  NoDup (id_of h <$> b) → indexOfEntry h b id = Some p → remove_at b p = drop_id h id b.
Proof.
  revert p. induction b as [|l b IH]; intros p Hnd; cbn [indexOfEntry]; [done|].
  cbn in Hnd. apply NoDup_cons in Hnd as [Hl Hnd].
  case_match eqn:E; bool_prop.
  - intros [= <-]. unfold remove_at. cbn [take drop app]. rewrite filter_cons_False by naive_solver.
    symmetry. apply drop_id_absent. by rewrite <- E.
  - destruct (indexOfEntry h b id) as [q|] eqn:Eq; cbn [fmap option_fmap option_map]; [|done]. intros [= <-].
    rewrite filter_cons_True by done. unfold remove_at in *. cbn [take drop app]. f_equal. by apply IH.
Qed.

Lemma removeFromIndex_concat h bs id :
  NoDup (id_of h <$> concat bs) →
  concat (removeFromIndexLocked h bs id).1 = drop_id h id (concat bs).
Proof.
  cbn [fst removeFromIndexLocked]. induction bs as [|b bs IH]; [done|]. cbn [map concat]. rewrite fmap_app.
  intros (Hb & Hd & Hbs)%NoDup_app. rewrite filter_app, <- IH by done. f_equal.
  destruct (indexOfEntry h b id) eqn:E; [by apply remove_at_filter|].
  symmetry. apply drop_id_absent. by apply indexOfEntry_None.
Qed.

Lemma remove_at_sub b p (l : nat) : l ∈ remove_at b p → l ∈ b.
Proof.
  unfold remove_at. rewrite elem_of_app. intros [H|H].
  - rewrite <- (take_drop p b). apply elem_of_app. by left.
  - rewrite <- (take_drop (S p) b). apply elem_of_app. by right.
Qed.

Lemma removeFromIndex_lookup h bs id i b' :
  (removeFromIndexLocked h bs id).1 !! i = Some b' →
  ∃ b, bs !! i = Some b ∧ ∀ l, l ∈ b' → l ∈ b.
Proof.
  cbn. rewrite list_lookup_fmap. destruct (bs !! i) as [b|]; cbn; [|done].
  intros [= <-]. exists b. split; [done|]. intros l.
  destruct (indexOfEntry h b id); [apply remove_at_sub|done].
Qed.

Lemma remove_pending_concat h bs bs' id :
  NoDup (id_of h <$> concat bs) → remove_pending h bs id = Some bs' →
  concat bs' = drop_id h id (concat bs) ∧ id ∈ id_of h <$> concat bs ∧ List.length bs' = List.length bs ∧
  (∀ i b', bs' !! i = Some b' → ∃ b, bs !! i = Some b ∧ ∀ l, l ∈ b' → l ∈ b).
Proof.
  revert bs'. induction bs as [|b bs IH]; intros bs'; cbn [remove_pending concat]; [done|]. rewrite fmap_app.
  intros (Hb & Hd & Hbs)%NoDup_app. destruct (indexOfEntry h b id) as [p|] eqn:E.
  - intros [= <-]. cbn [concat]. rewrite filter_app, (remove_at_filter _ _ _ _ Hb E).
    pose proof (indexOfEntry_Some _ _ _ _ E) as (l & Hl & <-).
    assert (id_of h l ∈ id_of h <$> b) as Hin.
    { apply list_elem_of_fmap. exists l. split; [done|]. by eapply list_elem_of_lookup_2. }
    repeat split.
    + f_equal. symmetry. apply drop_id_absent. intros ?. by apply (Hd (id_of h l)).
    + apply elem_of_app. by left.
    + intros [|i] b'; cbn; [|by eauto]. intros [= <-]. exists b. split; [done|].
      intros l' [_ ?]%list_elem_of_filter. done.
  - destruct (remove_pending h bs id) as [rest|] eqn:Er; cbn [fmap option_fmap option_map]; [|done]. intros [= <-].
    destruct (IH rest Hbs eq_refl) as (Hc & Hin & Hlen & Hsub). cbn [concat List.length]. repeat split.
    + rewrite filter_app, Hc. f_equal. symmetry. apply drop_id_absent. by apply indexOfEntry_None.
    + apply elem_of_app. by right.
    + by rewrite Hlen.
    + intros [|i] b'; cbn; [|by eauto]. intros [= <-]. eauto.
Qed.

Lemma remove_pending_None h bs id : remove_pending h bs id = None ↔ id ∉ id_of h <$> concat bs.
Proof.
  induction bs as [|b bs IH]; cbn; [split; [intros _; apply not_elem_of_nil|done]|].
  rewrite fmap_app, not_elem_of_app. destruct (indexOfEntry h b id) eqn:E.
  - split; [done|]. intros [Hb _]. apply indexOfEntry_None in Hb. congruence.
  - apply indexOfEntry_None in E. destruct (remove_pending h bs id); cbn; naive_solver.
Qed.

(** ** Well-placed indexes *)
Lemma elem_of_concat_lookup (bs : list (list nat)) l :
  l ∈ concat bs ↔ ∃ i b, bs !! i = Some b ∧ l ∈ b.
Proof.
  induction bs as [|b bs IH]; cbn.
  - split; [intros ?%elem_of_nil; done|]. intros (i & b & ? & _). done.
  - rewrite elem_of_app, IH. split.
    + intros [?|(i & b' & ? & ?)]; [by exists O, b|by exists (S i), b'].
    + intros ([|i] & b' & Hb' & Hl); cbn in Hb'; [injection Hb' as ->; by left|right; eauto].
Qed.

Lemma concat_insert_perm (bs : list (list nat)) i b b' x :
  bs !! i = Some b → b' ≡ₚ x ++ b → concat (<[i := b']> bs) ≡ₚ x ++ concat bs.
Proof.
  intros Hb Hp. revert i Hb. induction bs as [|c bs IH]; intros [|i] Hb; try done; cbn in *.
  - injection Hb as ->. by rewrite Hp, app_assoc.
  - rewrite (IH i Hb), !app_assoc, (Permutation_app_comm c x). done.
Qed.

Record index_ok (h : list bucketEntry) (place : nat → nat) (bs : list (list nat)) : Prop := {
  ix_length : List.length bs = 256%nat;
  ix_nodup : NoDup (id_of h <$> concat bs);
  ix_place i b l : bs !! i = Some b → l ∈ b → place l = i;
}.

Lemma index_ok_empty h place : index_ok h place empty_buckets.
Proof.
  assert (concat empty_buckets = []) as E by reflexivity.
  split; [done| |].
  - rewrite E. constructor.
  - intros i b l Hi Hl. assert (l ∈ concat empty_buckets) as Hc by (apply elem_of_concat_lookup; eauto).
    rewrite E in Hc. by apply elem_of_nil in Hc.
Qed.

Lemma index_ok_ext h h' place place' bs :
  (∀ l, l ∈ concat bs → id_of h' l = id_of h l ∧ place' l = place l) →
  index_ok h place bs → index_ok h' place' bs.
Proof.
  intros E [Hl Hn Hp]. split; [done| |].
  - erewrite list_fmap_ext; [exact Hn|]. intros i l Hi. apply E. by eapply list_elem_of_lookup_2.
  - intros i b l Hi Hl'. rewrite (proj2 (E l ltac:(apply elem_of_concat_lookup; eauto))). eauto.
Qed.

(** Removing an ID from an index by either loop. *)
Lemma fmap_filter_nodup h id (b : list nat) : NoDup (id_of h <$> b) → NoDup (id_of h <$> drop_id h id b).
Proof.
  induction b as [|l b IH]; [done|]. rewrite fmap_cons, NoDup_cons. intros [Hl Hn].
  rewrite filter_cons. case_decide; [|auto]. rewrite fmap_cons, NoDup_cons. split; [|auto].
  intros (l' & E & [_ Hl']%list_elem_of_filter)%list_elem_of_fmap. apply Hl.
  apply list_elem_of_fmap. eauto.
Qed.

Lemma index_ok_remove h place bs id :
  index_ok h place bs → index_ok h place (removeFromIndexLocked h bs id).1.
Proof.
  intros [Hl Hn Hp]. split.
  - cbn. by rewrite length_map.
  - rewrite removeFromIndex_concat by done. by apply fmap_filter_nodup.
  - intros i b' l (b & Hb & Hsub)%removeFromIndex_lookup Hl'. eauto.
Qed.

Lemma index_ok_remove_pending h place bs bs' id :
  index_ok h place bs → remove_pending h bs id = Some bs' → index_ok h place bs'.
Proof.
  intros [Hl Hn Hp] (Hc & _ & Hlen & Hsub)%remove_pending_concat; [|done]. split.
  - congruence.
  - rewrite Hc. by apply fmap_filter_nodup.
  - intros i b' l (b & Hb & Hsub')%Hsub Hl'. eauto.
Qed.

(** Replacing a slice by a rearrangement of it, or by one with a new pointer. *)
Lemma index_ok_perm h place bs i b b' :
  index_ok h place bs → bs !! i = Some b → b' ≡ₚ b →
  index_ok h place (<[i := b']> bs) ∧ concat (<[i := b']> bs) ≡ₚ concat bs.
Proof.
  intros [Hl Hn Hp] Hb Hperm.
  assert (concat (<[i := b']> bs) ≡ₚ concat bs) as Hc by (by apply (concat_insert_perm bs i b b' [])).
  split; [|done]. split.
  - by rewrite length_insert.
  - by rewrite Hc.
  - intros j c l [(<- & <- & _)|[_ Hj]]%list_lookup_insert_Some Hlc; [|eauto].
    rewrite Hperm in Hlc. eauto.
Qed.

Lemma index_ok_add h place bs i b b' l :
  index_ok h place bs → bs !! i = Some b → b' ≡ₚ l :: b → place l = i →
  id_of h l ∉ id_of h <$> concat bs →
  index_ok h place (<[i := b']> bs) ∧ concat (<[i := b']> bs) ≡ₚ l :: concat bs.
Proof.
  intros [Hl Hn Hp] Hb Hperm Hplace Hnew.
  assert (concat (<[i := b']> bs) ≡ₚ l :: concat bs) as Hc by (by apply (concat_insert_perm bs i b b' [l])).
  split; [|done]. split.
  - by rewrite length_insert.
  - rewrite Hc. by apply NoDup_cons.
  - intros j c l' [(<- & <- & _)|[_ Hj]]%list_lookup_insert_Some Hlc; [|eauto].
    rewrite Hperm in Hlc. apply elem_of_cons in Hlc as [->|?]; eauto.
Qed.

Lemma clamp_bucket_lt idx : (clamp_bucket idx < 256)%nat.
Proof. unfold clamp_bucket. lia. Qed.

Lemma clamp_bucket_id idx : 0 <= idx <= 255 → clamp_bucket idx = Z.to_nat idx.
Proof. unfold clamp_bucket. intros. f_equal. lia. Qed.

(** Insertion adds the pointer unless its ID is there already. *)
Lemma insertIndex_ok h place bs l idx :
  index_ok h place bs → place l = clamp_bucket idx →
  (∀ l', l' ∈ concat bs → id_of h l' = id_of h l → l' = l) →
  index_ok h place (insertIndexLocked h bs l idx) ∧
  (∀ l', l' ∈ concat (insertIndexLocked h bs l idx) ↔ l' = l ∨ l' ∈ concat bs).
Proof.
  intros Hok Hpl Huniq. unfold insertIndexLocked.
  destruct (lookup_lt_is_Some_2 bs (clamp_bucket idx)) as [b Hb].
  { rewrite (ix_length _ _ _ Hok). apply clamp_bucket_lt. }
  rewrite Hb. destruct (indexOfEntry h b (id_of h l)) as [p|] eqn:E.
  - destruct (index_ok_perm h place bs _ b (moveToFront b p) Hok Hb (moveToFront_perm b p)) as [Hok' Hc].
    split; [done|]. intros l'. rewrite Hc. split; [auto|]. intros [->|?]; [|done].
    apply indexOfEntry_Some in E as (l' & Hl' & Hid). apply list_elem_of_lookup_2 in Hl'.
    assert (l' ∈ concat bs) by (apply elem_of_concat_lookup; eauto). by rewrite <- (Huniq l').
  - apply indexOfEntry_None in E.
    destruct (index_ok_add h place bs _ b (l :: b) l Hok Hb) as [Hok' Hc]; [done..| |].
    + intros (l' & Hid & Hl')%list_elem_of_fmap. rewrite <- (Huniq l' Hl') in E by done.
      apply elem_of_concat_lookup in Hl' as (i & c & Hi & Hlc).
      pose proof (ix_place _ _ _ Hok i c l' Hi Hlc) as Hi'.
      assert (l' = l) as -> by (apply Huniq; [apply elem_of_concat_lookup; eauto|done]).
      rewrite Hpl in Hi'. subst i. rewrite Hb in Hi. injection Hi as ->.
      apply E, list_elem_of_fmap. eauto.
    + split; [done|]. intros l'. by rewrite Hc, elem_of_cons.
Qed.

Lemma moveToFrontLocked_ok h place bs id idx :
  index_ok h place bs →
  index_ok h place (moveToFrontLocked h bs id idx) ∧ concat (moveToFrontLocked h bs id idx) ≡ₚ concat bs.
Proof.
  intros Hok. unfold moveToFrontLocked. case_match; [done|].
  destruct (bs !! Z.to_nat idx) as [b|] eqn:Hb; [|done].
  destruct (indexOfEntry h b id) as [[|p]|]; [done| |done].
  by apply (index_ok_perm h place bs _ b), moveToFront_perm.
Qed.
