(* ===== verification/RoutingInv.v ===== *)
(** * The routing table's invariant and the primitive updates that keep it

    [table_ok] relates the heap, the three indexes and the two maps.  Each
    primitive of the handlers (assignment through a pointer, allocation,
    insertion in an index, removal, moving between the maps) has a lemma; the
    handlers of table.go are compositions of them. *)
From S2P Require Import Prelude GoBytes GoStrings GoEncoding GoTime GoSort Sha256 GoEnv Lines Identity Record Proto NodeInfo Peer Routing RoutingIndex.

Section Invariant.
Context `{UnicodeTables}.

Definition id_place (rt : RoutingTable) (l : nat) : nat :=
  clamp_bucket (bucketIndex rt (id_of (heap rt) l)).
Definition name_place (rt : RoutingTable) (l : nat) : nat :=
  clamp_bucket (nameBucketIndex rt (e_Node (deref rt l))).
(** What an offline entry keeps: it answered once, or it is pinned. *)
Definition retained (e : bucketEntry) : Prop := 0 < e_SuccessCount e ∨ e_Pinned e = true.

Record table_ok (rt : RoutingTable) : Prop := {
  ok_self : (peerByID rt !! SelfID rt) = None ∧ (peerByID rt !! "") = None;
  ok_peer id l : peerByID rt !! id = Some l → (l < List.length (heap rt))%nat ∧ id_of (heap rt) l = id;
  ok_range id l : peerByID rt !! id = Some l → 0 <= e_SuccessCount (deref rt l);
  ok_buckets : index_ok (heap rt) (id_place rt) (Buckets rt);
  ok_names : index_ok (heap rt) (name_place rt) (NameBuckets rt);
  ok_pendings : index_ok (heap rt) (id_place rt) (Pending rt);
  ok_active l : l ∈ concat (Buckets rt) →
    peerByID rt !! id_of (heap rt) l = Some l ∧ 0 < e_SuccessCount (deref rt l);
  ok_named l : l ∈ concat (NameBuckets rt) → l ∈ concat (Buckets rt);
  ok_pending l : l ∈ concat (Pending rt) →
    peerByID rt !! id_of (heap rt) l = Some l ∧ l ∉ concat (Buckets rt);
  ok_offline id l : offline rt !! id = Some l →
    peerByID rt !! id = Some l ∧ (l ∉ concat (Buckets rt)) ∧ (l ∉ concat (Pending rt)) ∧ retained (deref rt l);
  ok_count : pendingN rt <= len (concat (Pending rt));
}.

(** ** Consequences *)
Lemma ok_id_inj rt l l' : table_ok rt →
  peerByID rt !! id_of (heap rt) l = Some l → peerByID rt !! id_of (heap rt) l' = Some l' →
  id_of (heap rt) l = id_of (heap rt) l' → l = l'.
Proof. congruence. Qed.

Lemma ok_in_buckets rt id l : table_ok rt → peerByID rt !! id = Some l →
  inIndexLocked (heap rt) (Buckets rt) id = true ↔ l ∈ concat (Buckets rt).
Proof.
  intros Hok Hl. rewrite inIndexLocked_spec, list_elem_of_fmap. split.
  - intros (l' & -> & Hl'). destruct (ok_active _ Hok _ Hl'). congruence.
  - intros Hin. exists l. split; [|done]. by destruct (ok_peer _ Hok _ _ Hl).
Qed.

Lemma ok_in_pending rt id l : table_ok rt → peerByID rt !! id = Some l →
  id ∈ id_of (heap rt) <$> concat (Pending rt) ↔ l ∈ concat (Pending rt).
Proof.
  intros Hok Hl. rewrite list_elem_of_fmap. split.
  - intros (l' & -> & Hl'). destruct (ok_pending _ Hok _ Hl'). congruence.
  - intros Hin. exists l. split; [|done]. by destruct (ok_peer _ Hok _ _ Hl).
Qed.

(** ** The primitives *)
Lemma deref_modify rt l f l' :
  (l < List.length (heap rt))%nat →
  deref (modify rt l f) l' = if decide (l' = l) then f (deref rt l) else deref rt l'.
Proof.
  intros Hl. unfold deref, modify. cbn. case_decide as E; [subst|].
  - by rewrite list_lookup_total_insert_eq.
  - by rewrite list_lookup_total_insert_ne.
Qed.

Lemma id_of_deref rt l : id_of (heap rt) l = n_ID (e_Node (deref rt l)).
Proof. done. Qed.

(** Assigning through a pointer: the ID stays, the name coordinate stays
    while the entry is in the name index, an active entry keeps a success and
    an offline one stays retained. *)
Lemma modify_ok rt id l f :
  table_ok rt → peerByID rt !! id = Some l →
  n_ID (e_Node (f (deref rt l))) = id → 0 <= e_SuccessCount (f (deref rt l)) →
  (l ∈ concat (NameBuckets rt) → nodeNameHash (e_Node (f (deref rt l))) = nodeNameHash (e_Node (deref rt l))) →
  (l ∈ concat (Buckets rt) → 0 < e_SuccessCount (f (deref rt l))) →
  (offline rt !! id = Some l → retained (f (deref rt l))) →
  table_ok (modify rt l f).
Proof.
  intros Hok Hl Hid Hcnt Hname Hsucc Hoff.
  destruct (ok_peer _ Hok _ _ Hl) as [Hlt Hlid].
  pose proof (deref_modify rt l f) as Hd.
  assert (∀ l', id_of (heap (modify rt l f)) l' = id_of (heap rt) l') as Hids.
  { intros l'. rewrite !id_of_deref, Hd by done. case_decide; [subst l'|done]. rewrite Hid. symmetry. exact Hlid. }
  assert (∀ l', id_place (modify rt l f) l' = id_place rt l') as Hplace.
  { intros l'. unfold id_place. by rewrite Hids. }
  split; cbn [peerByID SelfID Buckets NameBuckets Pending offline pendingN modify with_heap].
  - apply Hok.
  - intros id' l' Hl'. rewrite Hids. cbn. rewrite length_insert. by apply Hok.
  - intros id' l' Hl'. rewrite Hd by done. case_decide; [done|]. by apply (ok_range _ Hok id').
  - eapply index_ok_ext; [|apply Hok]. auto.
  - eapply index_ok_ext; [|apply Hok]. intros l' Hin. split; [done|].
    unfold name_place, nameBucketIndex. rewrite Hd by done. case_decide; [subst l'|done].
    by rewrite Hname.
  - eapply index_ok_ext; [|apply Hok]. auto.
  - intros l' Hin. rewrite Hids, Hd by done. destruct (ok_active _ Hok _ Hin) as [? ?].
    split; [done|]. case_decide; [subst l'|done]. auto.
  - apply Hok.
  - intros l' Hin. rewrite Hids. by apply Hok.
  - intros id' l' Hin. rewrite Hd by done. destruct (ok_offline _ Hok _ _ Hin) as (Hp & ? & ? & ?).
    repeat split; try done. case_decide; [subst l'|done].
    apply Hoff. by rewrite <- Hlid, <- (proj2 (ok_peer _ Hok _ _ Hp)) in *.
  - apply Hok.
Qed.

(** A field update whose other components are those of a table in order. *)
Ltac table_split Hok :=
  split; cbn [SelfID SelfNameHash heap Buckets NameBuckets Pending peerByID offline pendingN with_heap
    with_Buckets with_NameBuckets with_Pending with_peers with_offline with_refresh with_self];
  try first [exact (ok_self _ Hok) | exact (ok_peer _ Hok) | exact (ok_range _ Hok) | exact (ok_buckets _ Hok) | exact (ok_names _ Hok)
    | exact (ok_pendings _ Hok) | exact (ok_active _ Hok) | exact (ok_named _ Hok) | exact (ok_pending _ Hok)
    | exact (ok_offline _ Hok) | exact (ok_count _ Hok)].

Lemma drop_name_ok rt id : table_ok rt →
  table_ok (with_NameBuckets rt (removeFromIndexLocked (heap rt) (NameBuckets rt) id).1).
Proof.
  intros Hok. table_split Hok.
  - by apply index_ok_remove, Hok.
  - intros l. rewrite removeFromIndex_concat by apply Hok. intros [_ ?]%list_elem_of_filter. by apply Hok.
Qed.

Lemma drop_name_not_in rt id l : table_ok rt → id_of (heap rt) l = id →
  l ∉ concat (removeFromIndexLocked (heap rt) (NameBuckets rt) id).1.
Proof.
  intros Hok Hid. rewrite removeFromIndex_concat by apply Hok. by intros [? _]%list_elem_of_filter.
Qed.

(** Removing an ID from both indexes (the order of the two does not matter). *)
Lemma drop_active_ok rt id : table_ok rt →
  table_ok (with_NameBuckets (with_Buckets rt (removeFromIndexLocked (heap rt) (Buckets rt) id).1)
              (removeFromIndexLocked (heap rt) (NameBuckets rt) id).1).
Proof.
  intros Hok. table_split Hok.
  - by apply index_ok_remove, Hok.
  - by apply index_ok_remove, Hok.
  - intros l. rewrite removeFromIndex_concat by apply Hok. intros [_ ?]%list_elem_of_filter. by apply Hok.
  - intros l. rewrite !removeFromIndex_concat by apply Hok. rewrite !list_elem_of_filter.
    intros [? ?]. split; [done|]. by apply Hok.
  - intros l Hl. destruct (ok_pending _ Hok _ Hl). split; [done|].
    rewrite removeFromIndex_concat by apply Hok. by intros [_ ?]%list_elem_of_filter.
  - intros id' l Hl. destruct (ok_offline _ Hok _ _ Hl) as (? & ? & ? & ?). repeat split; try done.
    rewrite removeFromIndex_concat by apply Hok. by intros [_ ?]%list_elem_of_filter.
Qed.

Lemma drop_active_not_in rt id l : table_ok rt → id_of (heap rt) l = id →
  l ∉ concat (removeFromIndexLocked (heap rt) (Buckets rt) id).1.
Proof.
  intros Hok Hid. rewrite removeFromIndex_concat by apply Hok. by intros [? _]%list_elem_of_filter.
Qed.

(** A fresh entry enters the peer map only. *)
Lemma new_peer_ok rt e : table_ok rt → (peerByID rt !! n_ID (e_Node e)) = None →
  n_ID (e_Node e) ≠ SelfID rt → n_ID (e_Node e) ≠ "" → 0 <= e_SuccessCount e →
  table_ok (with_peers (with_heap rt (heap rt ++ [e]))
              (<[n_ID (e_Node e) := List.length (heap rt)]> (peerByID rt))).
Proof.
  intros Hok Hnew Hself Hne Hcnt. set (l0 := List.length (heap rt)).
  assert (∀ l, (l < l0)%nat → (heap rt ++ [e]) !!! l = heap rt !!! l) as Hold.
  { intros l Hl. by apply lookup_total_app_l. }
  assert ((heap rt ++ [e]) !!! l0 = e) as Hl0 by (apply list_lookup_total_middle; done).
  assert (∀ id l, peerByID rt !! id = Some l →
    id_of (heap rt ++ [e]) l = id_of (heap rt) l ∧ (heap rt ++ [e]) !!! l = heap rt !!! l ∧
    <[n_ID (e_Node e) := l0]> (peerByID rt) !! id = Some l) as Hkeep.
  { intros id l Hl. destruct (ok_peer _ Hok _ _ Hl) as [Hlt _]. unfold id_of. rewrite Hold by done.
    repeat split. rewrite lookup_insert_ne; [done|]. congruence. }
  assert (∀ l, l ∈ concat (Buckets rt) ∨ l ∈ concat (Pending rt) →
    peerByID rt !! id_of (heap rt) l = Some l) as Hidx.
  { intros l [Hl|Hl]; [by destruct (ok_active _ Hok _ Hl)|by destruct (ok_pending _ Hok _ Hl)]. }
  table_split Hok.
  - destruct (ok_self _ Hok). by rewrite !lookup_insert_ne.
  - intros id l [[<- <-]|[Hid Hl]]%lookup_insert_Some.
    + rewrite length_app. cbn. split; [lia|]. unfold id_of. by rewrite Hl0.
    + destruct (Hkeep _ _ Hl) as (-> & _). destruct (ok_peer _ Hok _ _ Hl). rewrite length_app. split; [lia|done].
  - intros id l [[<- <-]|[_ Hl]]%lookup_insert_Some; unfold deref; cbn; [by rewrite Hl0|].
    destruct (Hkeep _ _ Hl) as (_ & -> & _). by apply (ok_range _ Hok id).
  - eapply index_ok_ext; [|apply Hok]. intros l Hl. unfold id_place. cbn.
    by rewrite (proj1 (Hkeep _ _ (Hidx l ltac:(by left)))).
  - eapply index_ok_ext; [|apply Hok]. intros l Hl%(ok_named _ Hok). unfold name_place, deref. cbn.
    destruct (Hkeep _ _ (Hidx l ltac:(by left))) as (-> & -> & _). done.
  - eapply index_ok_ext; [|apply Hok]. intros l Hl. unfold id_place. cbn.
    by rewrite (proj1 (Hkeep _ _ (Hidx l ltac:(by right)))).
  - intros l Hl. destruct (ok_active _ Hok _ Hl) as [Hp ?]. destruct (Hkeep _ _ Hp) as (-> & Hh & ->).
    unfold deref. cbn. by rewrite Hh.
  - intros l Hl. destruct (ok_pending _ Hok _ Hl) as [Hp ?]. by destruct (Hkeep _ _ Hp) as (-> & Hh & ->).
  - intros id l Hl. destruct (ok_offline _ Hok _ _ Hl) as (Hp & ? & ? & ?).
    destruct (Hkeep _ _ Hp) as (_ & Hh & ->). unfold deref. cbn. by rewrite Hh.
Qed.

Lemma delete_offline_ok rt id : table_ok rt → table_ok (with_offline rt (delete id (offline rt))).
Proof. intros Hok. table_split Hok. intros id' l [_ ?]%lookup_delete_Some. by apply Hok. Qed.

Lemma removePending_ok rt id : table_ok rt → table_ok (removePendingLocked rt id).1.
Proof.
  intros Hok. unfold removePendingLocked.
  destruct (remove_pending (heap rt) (Pending rt) id) as [bs|] eqn:E; [|done]. cbn [fst].
  pose proof (remove_pending_concat _ _ _ _ (ix_nodup _ _ _ (ok_pendings _ Hok)) E) as (Hc & Hin & _ & _).
  table_split Hok.
  - exact (index_ok_remove_pending _ _ _ _ _ (ok_pendings _ Hok) E).
  - intros l. rewrite Hc. intros [_ ?]%list_elem_of_filter. by apply Hok.
  - intros id' l Hl. destruct (ok_offline _ Hok _ _ Hl) as (? & ? & ? & ?). repeat split; try done.
    rewrite Hc. by intros [_ ?]%list_elem_of_filter.
  - rewrite Hc. pose proof (ok_count _ Hok).
    enough (len (concat (Pending rt)) = len (drop_id (heap rt) id (concat (Pending rt))) + 1) by lia.
    pose proof (ix_nodup _ _ _ (ok_pendings _ Hok)) as Hn. revert Hin Hn. clear.
    generalize (concat (Pending rt)) as b. induction b as [|l b IH]; [by intros ?%elem_of_nil|].
    rewrite fmap_cons, elem_of_cons, NoDup_cons. intros Hin [Hl Hn]. rewrite filter_cons.
    case_decide as E.
    + destruct Hin as [->|Hin]; [done|]. specialize (IH Hin Hn). unfold len in *. cbn [List.length] in *. lia.
    + rewrite drop_id_absent by (by rewrite <- E). unfold len. cbn. lia.
Qed.

Lemma removePending_not_in rt id l : table_ok rt → id_of (heap rt) l = id →
  l ∉ concat (Pending (removePendingLocked rt id).1).
Proof.
  intros Hok Hid. unfold removePendingLocked.
  destruct (remove_pending (heap rt) (Pending rt) id) as [bs|] eqn:E; cbn.
  - apply remove_pending_concat in E as (-> & _); [|apply Hok]. by intros [? _]%list_elem_of_filter.
  - apply remove_pending_None in E. intros Hl. apply E, list_elem_of_fmap. eauto.
Qed.

Lemma activate_ok rt id l : table_ok rt → peerByID rt !! id = Some l →
  l ∉ concat (Pending rt) → (offline rt !! id) = None → 0 < e_SuccessCount (deref rt l) →
  table_ok (with_Buckets rt (insertIndexLocked (heap rt) (Buckets rt) l (bucketIndex rt id))) ∧
  (∀ l', l' ∈ concat (insertIndexLocked (heap rt) (Buckets rt) l (bucketIndex rt id)) ↔
     l' = l ∨ l' ∈ concat (Buckets rt)).
Proof.
  intros Hok Hl Hpend Hoff Hsucc. destruct (ok_peer _ Hok _ _ Hl) as [_ Hid].
  destruct (insertIndex_ok (heap rt) (id_place rt) (Buckets rt) l (bucketIndex rt id)) as [Hix Hin].
  - apply Hok.
  - unfold id_place. by rewrite Hid.
  - intros l' Hl' E. destruct (ok_active _ Hok _ Hl') as [Hp _]. congruence.
  - split; [|done]. table_split Hok.
    + exact Hix.
    + intros l'. rewrite Hin. intros [->|?]; [by rewrite Hid|by apply Hok].
    + intros l' Hl'. rewrite Hin. right. by apply Hok.
    + intros l' Hl'. destruct (ok_pending _ Hok _ Hl'). split; [done|]. rewrite Hin. by intros [->|?].
    + intros id' l' Hl'. destruct (ok_offline _ Hok _ _ Hl') as (Hp & ? & ? & ?). repeat split; try done.
      rewrite Hin. intros [->|?]; [|done].
      assert (id' = id) as -> by (rewrite <- Hid; symmetry; by apply (ok_peer _ Hok)). congruence.
Qed.

Lemma add_name_ok rt l : table_ok rt → l ∈ concat (Buckets rt) →
  table_ok (with_NameBuckets rt
    (insertIndexLocked (heap rt) (NameBuckets rt) l (nameBucketIndex rt (e_Node (deref rt l))))).
Proof.
  intros Hok Hl.
  destruct (insertIndex_ok (heap rt) (name_place rt) (NameBuckets rt) l
              (nameBucketIndex rt (e_Node (deref rt l)))) as [Hix Hin].
  - apply Hok.
  - done.
  - intros l' Hl'%(ok_named _ Hok) E. destruct (ok_active _ Hok _ Hl'), (ok_active _ Hok _ Hl). congruence.
  - table_split Hok; [exact Hix|]. intros l'. rewrite Hin. intros [->|?]; [done|by apply Hok].
Qed.

Lemma append_pending_ok rt rt' id l n : table_ok rt → peerByID rt !! id = Some l →
  l ∉ concat (Buckets rt) → l ∉ concat (Pending rt) → (offline rt !! id) = None →
  append_pending rt (bucketIndex rt id) l = Ok rt' → n <= pendingN rt + 1 →
  table_ok (with_Pending rt' (Pending rt') n) ∧ concat (Pending rt') ≡ₚ l :: concat (Pending rt) ∧
  rt' = with_Pending rt (Pending rt') (pendingN rt).
Proof.
  intros Hok Hl Hact Hpend Hoff Happ Hn. destruct (ok_peer _ Hok _ _ Hl) as [_ Hid].
  unfold append_pending in Happ. destruct (_ <? 0) eqn:Eneg; [done|]. bool_prop.
  destruct (Pending rt !! Z.to_nat (bucketIndex rt id)) as [b|] eqn:Hb; [|done].
  injection Happ as <-. cbn [Pending with_Pending].
  assert (id_place rt l = Z.to_nat (bucketIndex rt id)) as Hpl.
  { unfold id_place. rewrite Hid. apply clamp_bucket_id. split; [done|].
    unfold bucketIndex. pose proof (bucket_of_range (SelfID rt) id). lia. }
  destruct (index_ok_add (heap rt) (id_place rt) (Pending rt) _ b (b ++ [l]) l
              (ok_pendings _ Hok) Hb) as [Hix Hc].
  - by rewrite Permutation_app_comm.
  - done.
  - rewrite Hid. intros Hin%(ok_in_pending _ _ _ Hok Hl). done.
  - split; [|done]. table_split Hok.
    + exact Hix.
    + intros l'. rewrite Hc, elem_of_cons. intros [->|?]; [by rewrite Hid|by apply Hok].
    + intros id' l' Hl'. destruct (ok_offline _ Hok _ _ Hl') as (Hp & ? & ? & ?). repeat split; try done.
      rewrite Hc, elem_of_cons. intros [->|?]; [|done].
      assert (id' = id) as -> by (rewrite <- Hid; symmetry; by apply (ok_peer _ Hok)). congruence.
    + pose proof (ok_count _ Hok). unfold len in *. rewrite Hc. cbn [List.length]. lia.
Qed.

Lemma go_offline_ok rt id l : table_ok rt → peerByID rt !! id = Some l →
  l ∉ concat (Buckets rt) → l ∉ concat (Pending rt) → retained (deref rt l) →
  table_ok (with_offline rt (<[id := l]> (offline rt))).
Proof.
  intros Hok Hl Hact Hpend Hret. table_split Hok.
  intros id' l' [[<- <-]|[_ ?]]%lookup_insert_Some; [done|by apply Hok].
Qed.

Lemma delete_peer_ok rt id : table_ok rt →
  id ∉ id_of (heap rt) <$> concat (Buckets rt) → id ∉ id_of (heap rt) <$> concat (Pending rt) →
  (offline rt !! id) = None → table_ok (with_peers rt (delete id (peerByID rt))).
Proof.
  intros Hok Hact Hpend Hoff.
  assert (∀ bs l, id ∉ id_of (heap rt) <$> concat bs → l ∈ concat bs → id_of (heap rt) l ≠ id) as Hne.
  { intros bs l Hn Hl E. apply Hn, list_elem_of_fmap. eauto. }
  table_split Hok.
  - destruct (ok_self _ Hok). by rewrite !lookup_delete_None; auto.
  - intros id' l [_ ?]%lookup_delete_Some. by apply Hok.
  - intros id' l [_ ?]%lookup_delete_Some. by apply (ok_range _ Hok id').
  - intros l Hl. rewrite lookup_delete_ne by (symmetry; by apply (Hne (Buckets rt))). by apply Hok.
  - intros l Hl. rewrite lookup_delete_ne by (symmetry; by apply (Hne (Pending rt))). by apply Hok.
  - intros id' l Hl. rewrite lookup_delete_ne by congruence. by apply Hok.
Qed.

Lemma removePeerIfUnindexed_ok rt id : table_ok rt → table_ok (removePeerIfUnindexedLocked rt id).
Proof.
  intros Hok. unfold removePeerIfUnindexedLocked.
  destruct (match peerByID rt !! id with Some l => e_Pinned (deref rt l) | None => false end); [done|].
  destruct (inIndexLocked _ (Buckets rt) id) eqn:Eb; [done|]. cbn [orb].
  destruct (inIndexLocked _ (NameBuckets rt) id) eqn:En; [done|].
  case_bool_decide as Eo; [done|]. destruct (inIndexLocked _ (Pending rt) id) eqn:Ep; [done|].
  apply delete_peer_ok; [done|by apply inIndexLocked_false..|]. by apply eq_None_not_Some.
Qed.

Lemma move_front_ok rt id idx : table_ok rt →
  table_ok (with_Buckets rt (moveToFrontLocked (heap rt) (Buckets rt) id idx)).
Proof.
  intros Hok. destruct (moveToFrontLocked_ok _ _ _ id idx (ok_buckets _ Hok)) as [Hix Hc].
  table_split Hok.
  - exact Hix.
  - intros l. rewrite Hc. apply Hok.
  - intros l. rewrite Hc. apply Hok.
  - intros l. rewrite Hc. apply Hok.
  - intros id' l. rewrite Hc. apply Hok.
Qed.

Lemma move_front_names_ok rt id idx : table_ok rt →
  table_ok (with_NameBuckets rt (moveToFrontLocked (heap rt) (NameBuckets rt) id idx)).
Proof.
  intros Hok. destruct (moveToFrontLocked_ok _ _ _ id idx (ok_names _ Hok)) as [Hix Hc].
  table_split Hok; [exact Hix|]. intros l. rewrite Hc. apply Hok.
Qed.

Lemma with_refresh_ok rt a b c : table_ok rt → table_ok (with_refresh rt a b c).
Proof. intros Hok. table_split Hok. Qed.
End Invariant.
