(* ===== verification/RoutingOps.v ===== *)
(** * Every operation of the routing table keeps its invariant

    One lemma per method of internal/dht/table.go that changes the table, by
    composing the primitives of RoutingInv.v; the step relation of the table,
    the invariant of its reachable states and what it gives the callers. *)
From S2P Require Import Prelude GoBytes GoStrings GoEncoding GoTime GoSort Sha256 GoEnv Lines Identity Record Proto NodeInfo Peer Routing RoutingIndex RoutingInv.

Section Preservation.
Context `{UnicodeTables}.

Lemma NewRoutingTable_ok selfID : table_ok (NewRoutingTable selfID).
Proof.
  assert (concat empty_buckets = []) as E by reflexivity.
  split; cbn [peerByID SelfID heap Buckets NameBuckets Pending offline pendingN NewRoutingTable].
  - by rewrite !lookup_empty.
  - intros id l. by rewrite lookup_empty.
  - intros id l. by rewrite lookup_empty.
  - apply index_ok_empty.
  - apply index_ok_empty.
  - apply index_ok_empty.
  - intros l. rewrite E. by intros ?%elem_of_nil.
  - done.
  - intros l. rewrite E. by intros ?%elem_of_nil.
  - intros id l. by rewrite lookup_empty.
  - rewrite E. done.
Qed.

(** Assignments that leave the node, the successes and the pin alone. *)
Lemma modify_plain_ok rt id l f :
  table_ok rt → peerByID rt !! id = Some l →
  (∀ e, e_Node (f e) = e_Node e ∧ e_SuccessCount (f e) = e_SuccessCount e ∧ e_Pinned (f e) = e_Pinned e) →
  table_ok (modify rt l f).
Proof.
  intros Hok Hl Hf. destruct (Hf (deref rt l)) as (Hn & Hs & Hp).
  apply (modify_ok rt id); [done..| | | | |].
  - rewrite Hn. apply (ok_peer _ Hok _ _ Hl).
  - rewrite Hs. apply (ok_range _ Hok _ _ Hl).
  - by rewrite Hn.
  - rewrite Hs. intros Hin. apply (ok_active _ Hok _ Hin).
  - unfold retained. rewrite Hs, Hp. intros Hin. apply (ok_offline _ Hok _ _ Hin).
Qed.

Lemma ignorable_false rt node : ignorable rt node = false →
  n_ID node ≠ "" ∧ n_ID node ≠ SelfID rt ∧ n_Addr node ≠ "".
Proof. unfold ignorable. intros. by bool_prop. Qed.

(** Replacing the node of a known peer, its name-index entry dropped first
    when the name changes. *)
Lemma refresh_node_ok rt l node :
  table_ok rt → peerByID rt !! n_ID node = Some l →
  let rt' :=
    if nodeNameHash (e_Node (deref rt l)) <>?s nodeNameHash node
    then with_NameBuckets rt (removeFromIndexLocked (heap rt) (NameBuckets rt) (n_ID node)).1
    else rt in
  table_ok (modify rt' l (set_Node node)).
Proof.
  intros Hok Hl rt'. destruct (ok_peer _ Hok _ _ Hl) as [_ Hid].
  assert (table_ok rt' ∧ peerByID rt' = peerByID rt ∧ deref rt' l = deref rt l ∧
    Buckets rt' = Buckets rt ∧ offline rt' = offline rt ∧
    (l ∈ concat (NameBuckets rt') → nodeNameHash node = nodeNameHash (e_Node (deref rt l))))
    as (Hok' & Hp & Hd & Hb & Ho & Hn).
  { unfold rt'. destruct (_ <>?s _) eqn:E; bool_prop.
    - split; [by apply drop_name_ok|]. do 4 (split; [done|]). intros Hin. exfalso. revert Hin. cbn.
      by apply drop_name_not_in.
    - do 5 (split; [done|]). done. }
  apply (modify_ok rt' (n_ID node)); rewrite ?Hp, ?Hd; cbn; try done.
  - apply (ok_range _ Hok _ _ Hl).
  - rewrite Hb. intros Hin. apply (ok_active _ Hok _ Hin).
  - unfold retained. cbn. rewrite Ho. intros Hin. apply (ok_offline _ Hok _ _ Hin).
Qed.

Lemma note_success_node now node e :
  e_Node (note_success now node e) = e_Node e ∧ e_Pinned (note_success now node e) = e_Pinned e ∧
  (0 <= e_SuccessCount e → 0 < e_SuccessCount (note_success now node e)).
Proof.
  unfold note_success, max_u32. destruct (IsZero _); cbn; destruct (_ <? _) eqn:E; cbn; bool_prop;
    repeat split; intros; lia.
Qed.

Lemma removePending_frame rt id :
  ∃ bs n, (removePendingLocked rt id).1 = with_Pending rt bs n.
Proof.
  unfold removePendingLocked. destruct (remove_pending _ _ _) as [bs|]; cbn; [by eauto|].
  exists (Pending rt), (pendingN rt). by destruct rt.
Qed.

(** The second half of [AddNode]: the entry becomes active. *)
Definition activate (rt : RoutingTable) (entry : nat) (node : NodeInfo) (now : Z) : RoutingTable :=
  let rt := with_offline rt (delete (n_ID node) (offline rt)) in
  let rt := modify rt entry (note_success now node) in
  let rt := (removePendingLocked rt (n_ID node)).1 in
  let rt := with_Buckets rt (insertIndexLocked (heap rt) (Buckets rt) entry (bucketIndex rt (n_ID node))) in
  if SelfNameHash rt <>?s ""
  then with_NameBuckets rt (insertIndexLocked (heap rt) (NameBuckets rt) entry (nameBucketIndex rt node))
  else rt.

Lemma activate_table_ok rt l node now :
  table_ok rt → peerByID rt !! n_ID node = Some l → e_Node (deref rt l) = node →
  table_ok (activate rt l node now) ∧
  (∀ l', l' ∈ concat (Buckets (activate rt l node now)) ↔ l' = l ∨ l' ∈ concat (Buckets rt)) ∧
  (∀ l', id_of (heap (activate rt l node now)) l' = id_of (heap rt) l').
Proof.
  intros Hok Hl Hnode. destruct (ok_peer _ Hok _ _ Hl) as [Hlt Hid].
  set (rt1 := with_offline rt (delete (n_ID node) (offline rt))).
  assert (table_ok rt1) as Hok1 by (by apply delete_offline_ok).
  set (rt2 := modify rt1 l (note_success now node)).
  destruct (note_success_node now node (deref rt l)) as (Hn & _ & Hs).
  specialize (Hs (ok_range _ Hok _ _ Hl)).
  assert (table_ok rt2) as Hok2.
  { apply (modify_ok rt1 (n_ID node)); try done; change (deref rt1 l) with (deref rt l).
    - by rewrite Hn, Hnode.
    - lia.
    - by rewrite Hn.
    - by left. }
  assert (deref rt2 l = note_success now node (deref rt l)) as Hd2.
  { unfold rt2. rewrite deref_modify by done. by destruct (decide (l = l)). }
  set (rt3 := (removePendingLocked rt2 (n_ID node)).1).
  assert (table_ok rt3) as Hok3 by (by apply removePending_ok).
  assert (l ∉ concat (Pending rt3)) as Hp3.
  { apply removePending_not_in; [done|]. rewrite id_of_deref, Hd2, Hn, Hnode. done. }
  destruct (removePending_frame rt2 (n_ID node)) as (bs & n & E3). fold rt3 in E3.
  destruct (activate_ok rt3 (n_ID node) l) as [Hok4 Hin4].
  { done. }
  { by rewrite E3. }
  { done. }
  { rewrite E3. cbn. apply lookup_delete_eq. }
  { rewrite E3. change (deref (with_Pending rt2 bs n) l) with (deref rt2 l). by rewrite Hd2. }
  set (rt4 := with_Buckets rt3 (insertIndexLocked (heap rt3) (Buckets rt3) l (bucketIndex rt3 (n_ID node)))) in *.
  assert (e_Node (deref rt4 l) = node) as Hd4.
  { unfold rt4. rewrite E3. change (e_Node (deref rt2 l) = node). by rewrite Hd2, Hn. }
  assert (∀ l', id_of (heap rt2) l' = id_of (heap rt) l') as Hids.
  { intros l'. rewrite !id_of_deref. unfold rt2. rewrite deref_modify by done.
    case_decide; [subst l'|done]. change (deref rt1 l) with (deref rt l). by rewrite Hn. }
  assert (∀ l', id_of (heap rt3) l' = id_of (heap rt) l') as Hids3 by (rewrite E3; exact Hids).
  assert (∀ l', l' ∈ concat (Buckets rt4) ↔ l' = l ∨ l' ∈ concat (Buckets rt)) as Hin.
  { intros l'. unfold rt4. cbn [Buckets with_Buckets]. rewrite Hin4. rewrite E3. done. }
  change (activate rt l node now) with
    (if SelfNameHash rt4 <>?s "" then with_NameBuckets rt4
       (insertIndexLocked (heap rt4) (NameBuckets rt4) l (nameBucketIndex rt4 node)) else rt4).
  destruct (SelfNameHash rt4 <>?s ""); [|done]. split; [|split; [exact Hin|exact Hids3]].
  pose proof (add_name_ok rt4 l Hok4 ltac:(apply Hin; by left)) as Hfin. by rewrite Hd4 in Hfin.
Qed.

(** ** Updates that activate nothing

    [quiet rt rt']: the new table is in order and no entry became active. *)
Record quiet (rt rt' : RoutingTable) : Prop := {
  q_ok : table_ok rt';
  q_self : SelfID rt' = SelfID rt;
  q_active l : l ∈ concat (Buckets rt') →
    l ∈ concat (Buckets rt) ∧ id_of (heap rt') l = id_of (heap rt) l;
}.

Lemma quiet_refl rt : table_ok rt → quiet rt rt.
Proof. by split. Qed.
Lemma quiet_trans rt1 rt2 rt3 : quiet rt1 rt2 → quiet rt2 rt3 → quiet rt1 rt3.
Proof.
  intros [O1 S1 A1] [O2 S2 A2]. split; [done|congruence|].
  intros l [Hl E2]%A2. apply A1 in Hl as [? E1]. by rewrite E2, E1.
Qed.
Lemma quiet_same rt rt' : table_ok rt' → SelfID rt' = SelfID rt → Buckets rt' = Buckets rt →
  heap rt' = heap rt → quiet rt rt'.
Proof. intros Hok Hs Hb Hh. split; [done..|]. rewrite Hb, Hh. auto. Qed.

Lemma quiet_modify rt id l f : table_ok (modify rt l f) → table_ok rt → peerByID rt !! id = Some l →
  n_ID (e_Node (f (deref rt l))) = id → quiet rt (modify rt l f).
Proof.
  intros Hok' Hok Hl Hid. destruct (ok_peer _ Hok _ _ Hl) as [Hlt E]. split; [done..|].
  intros l' Hl'. split; [done|]. rewrite !id_of_deref, deref_modify by done.
  case_decide; [subst l'|done]. by rewrite Hid, <- E.
Qed.

Lemma quiet_plain rt id l f : table_ok rt → peerByID rt !! id = Some l →
  (∀ e, e_Node (f e) = e_Node e ∧ e_SuccessCount (f e) = e_SuccessCount e ∧ e_Pinned (f e) = e_Pinned e) →
  quiet rt (modify rt l f).
Proof.
  intros Hok Hl Hf. apply (quiet_modify rt id); [by eapply modify_plain_ok|done..|].
  destruct (Hf (deref rt l)) as [-> _]. apply (ok_peer _ Hok _ _ Hl).
Qed.

(** [refresh_node_ok], quietly. *)
Lemma refresh_node_quiet rt l node : table_ok rt → peerByID rt !! n_ID node = Some l →
  let rt0 :=
    if nodeNameHash (e_Node (deref rt l)) <>?s nodeNameHash node
    then with_NameBuckets rt (removeFromIndexLocked (heap rt) (NameBuckets rt) (n_ID node)).1
    else rt in
  let rt1 := modify rt0 l (set_Node node) in
  quiet rt rt1 ∧ peerByID rt1 = peerByID rt ∧ e_Node (deref rt1 l) = node.
Proof.
  intros Hok Hl rt0 rt1. pose proof (refresh_node_ok rt l node Hok Hl) as Hok1. cbv zeta in Hok1.
  destruct (ok_peer _ Hok _ _ Hl) as [Hlt Hid].
  assert (quiet rt rt0) as Hq0.
  { unfold rt0. destruct (_ <>?s _); [|by apply quiet_refl]. apply quiet_same; [by apply drop_name_ok|done..]. }
  assert (peerByID rt0 = peerByID rt) as Hp0 by (unfold rt0; by destruct (_ <>?s _)).
  split; [|split; [done|]].
  - eapply quiet_trans; [exact Hq0|]. apply (quiet_modify rt0 (n_ID node)); [done|apply Hq0|by rewrite Hp0|done].
  - unfold rt1. rewrite deref_modify; [by destruct (decide (l = l))|].
    apply (ok_peer _ (q_ok _ _ Hq0) (n_ID node)). by rewrite Hp0.
Qed.

(** [AddNode] is a quiet update that leaves the node known, then its activation. *)
Lemma AddNode_activates rt node now : table_ok rt → ignorable rt node = false →
  ∃ rt2 l, quiet rt rt2 ∧ peerByID rt2 !! n_ID node = Some l ∧ e_Node (deref rt2 l) = node ∧
    AddNode rt node now = activate rt2 l node now.
Proof.
  intros Hok Ei. unfold AddNode. rewrite Ei. apply ignorable_false in Ei as (Hne & Hself & _).
  destruct (peerByID rt !! n_ID node) as [l|] eqn:Hl.
  - destruct (refresh_node_quiet rt l node Hok Hl) as (Hq1 & Hp1 & Hd1).
    set (rt1 := modify _ l (set_Node node)) in *.
    assert (peerByID rt1 !! n_ID node = Some l) as Hl1 by (by rewrite Hp1).
    cbv zeta. set (rt2 := if _ && _ && _ then _ else rt1). exists rt2, l.
    assert (quiet rt1 rt2 ∧ peerByID rt2 = peerByID rt1 ∧ e_Node (deref rt2 l) = node) as (Hq2 & Hp2 & Hd2).
    { unfold rt2. destruct (_ && _ && _); [|split; [apply quiet_refl, Hq1|done]].
      split; [apply (quiet_plain _ (n_ID node)); [apply Hq1|done|done]|].
      split; [done|]. rewrite deref_modify by apply (ok_peer _ (q_ok _ _ Hq1) _ _ Hl1).
      by destruct (decide (l = l)). }
    split; [by eapply quiet_trans|]. split; [by rewrite Hp2|done].
  - cbn [alloc fst snd]. set (e := set_ProbationUntil (Add now peerProbationPeriod) (new_entry node)).
    set (rt2 := with_peers _ _). exists rt2, (List.length (heap rt)).
    assert (table_ok rt2) as Hok2 by (by apply (new_peer_ok rt e)).
    split; [|split; [|split]].
    + split; [done..|]. intros l Hl'. split; [done|]. unfold id_of. cbn.
      rewrite lookup_total_app_l; [done|]. destruct (ok_active _ Hok _ Hl') as [Hp _].
      by apply (ok_peer _ Hok _ _ Hp).
    + cbn. apply lookup_insert_eq.
    + unfold deref. cbn. by rewrite list_lookup_total_middle.
    + done.
Qed.

Lemma AddNode_ok rt node now : table_ok rt → table_ok (AddNode rt node now).
Proof.
  intros Hok. destruct (ignorable rt node) eqn:Ei; [by unfold AddNode; rewrite Ei|].
  destruct (AddNode_activates rt node now Hok Ei) as (rt2 & l & Hq & Hl & Hn & ->).
  by apply activate_table_ok; [apply Hq|..].
Qed.

(** Only the node's own ID can become active. *)
Lemma AddNode_active rt node now l : table_ok rt →
  l ∈ concat (Buckets (AddNode rt node now)) →
  id_of (heap (AddNode rt node now)) l = n_ID node ∨
  (l ∈ concat (Buckets rt) ∧ id_of (heap (AddNode rt node now)) l = id_of (heap rt) l).
Proof.
  intros Hok. destruct (ignorable rt node) eqn:Ei; [unfold AddNode; rewrite Ei; auto|].
  destruct (AddNode_activates rt node now Hok Ei) as (rt2 & l0 & Hq & Hl & Hn & ->).
  destruct (activate_table_ok rt2 l0 node now) as (_ & Hin & Hids); [apply Hq|done..|].
  rewrite Hin, Hids. intros [->|Hl'].
  - left. by destruct (ok_peer _ (q_ok _ _ Hq) _ _ Hl).
  - right. by apply (q_active _ _ Hq) in Hl' as [? ?].
Qed.

Lemma UpdateKnownNode_quiet `{NetIP, RFC3339, Ed25519} rt node now :
  table_ok rt → quiet rt (UpdateKnownNode rt node now).1.
Proof.
  intros Hok. unfold UpdateKnownNode.
  destruct (_ || _); [by apply quiet_refl|].
  destruct (peerByID rt !! n_ID node) as [l|] eqn:Hl; [|by apply quiet_refl].
  destruct (negb _); [by apply quiet_refl|]. cbv zeta.
  destruct (refresh_node_quiet rt l node Hok Hl) as (Hq1 & Hp1 & Hd1).
  set (rt1 := modify _ l (set_Node node)) in *.
  destruct (inIndexLocked _ _ _ && _) eqn:E; [|exact Hq1]. bool_prop. cbn [fst].
  eapply quiet_trans; [exact Hq1|]. apply quiet_same; [|done..].
  assert (l ∈ concat (Buckets rt1)) as Hact.
  { eapply (ok_in_buckets rt1); [apply Hq1| |eassumption]. by rewrite Hp1. }
  pose proof (add_name_ok rt1 l (q_ok _ _ Hq1) Hact) as Hfin. by rewrite Hd1 in Hfin.
Qed.

Lemma NoteFailureAt_quiet rt id now : table_ok rt → quiet rt (NoteFailureAt rt id now).1.
Proof.
  intros Hok. unfold NoteFailureAt. destruct (peerByID rt !! id) as [l|] eqn:Hl; [|by apply quiet_refl].
  destruct (id =?s SelfID rt); [by apply quiet_refl|]. cbv zeta.
  assert (quiet rt (modify rt l (set_LastFailure now))) as Hq by (by eapply quiet_plain).
  destruct (_ <? _); [|exact Hq]. eapply quiet_trans; [exact Hq|].
  apply (quiet_plain _ id); [apply Hq|done|done].
Qed.

Lemma BeginLivenessProbe_quiet rt now keys : table_ok rt → quiet rt (BeginLivenessProbe rt now keys).1.
Proof.
  intros Hok. unfold BeginLivenessProbe.
  destruct (foldl _ _ _) as [l|] eqn:E; [|by apply quiet_refl]. cbn [fst].
  assert (∃ id, peerByID rt !! id = Some l) as [id Hl].
  { assert (∀ ls acc, foldl (probe_select rt now) acc ls = Some l → l ∈ ls ∨ acc = Some l) as Hsel.
    { clear. induction ls as [|x ls IH]; cbn; intros acc Hf; [by right|].
      apply IH in Hf as [?|Hf]; [left; by right|]. unfold probe_select in Hf.
      repeat case_match; simplify_eq; auto; left; by left. }
    apply Hsel in E as [E|E]; [|done]. unfold range_values in E.
    apply list_elem_of_omap in E as (k & _ & Hk). eauto. }
  assert (quiet rt (modify rt l (set_LastProbe now))) as Hq by (by eapply quiet_plain).
  eapply quiet_trans; [exact Hq|]. apply (quiet_plain _ id); [apply Hq|done|done].
Qed.

Lemma SetFriend_quiet rt id b : table_ok rt → quiet rt (SetFriend rt id b).1.
Proof.
  intros Hok. unfold SetFriend. destruct (peerByID rt !! id) as [l|] eqn:Hl; [|by apply quiet_refl].
  by eapply quiet_plain.
Qed.

Lemma removePending_quiet rt id : table_ok rt → quiet rt (removePendingLocked rt id).1.
Proof.
  intros Hok. pose proof (removePending_ok rt id Hok) as Hok'.
  destruct (removePending_frame rt id) as (bs & n & E). rewrite E in *. by apply quiet_same.
Qed.

Lemma removePeer_quiet rt id : table_ok rt → quiet rt (removePeerIfUnindexedLocked rt id).
Proof.
  intros Hok. pose proof (removePeerIfUnindexed_ok rt id Hok) as Hok'.
  apply quiet_same; [done|..]; unfold removePeerIfUnindexedLocked; repeat case_match; done.
Qed.

Lemma DiscardCandidate_quiet rt id : table_ok rt → quiet rt (DiscardCandidate rt id).
Proof.
  intros Hok. unfold DiscardCandidate. pose proof (removePending_quiet rt id Hok) as Hq.
  destruct (removePendingLocked rt id) as [rt' removed]. cbn in Hq. destruct removed; [|done].
  eapply quiet_trans; [exact Hq|]. apply removePeer_quiet, Hq.
Qed.

(** Unpinning: an offline peer kept only by its pin would no longer be retained. *)
Lemma SetPinned_quiet rt id b : table_ok rt →
  (b = false → ∀ l, offline rt !! id = Some l → 0 < e_SuccessCount (deref rt l)) →
  quiet rt (SetPinned rt id b).1.
Proof.
  intros Hok Hb. unfold SetPinned. destruct (peerByID rt !! id) as [l|] eqn:Hl; [|by apply quiet_refl].
  cbv zeta. assert (quiet rt (modify rt l (set_Pinned b))) as Hq.
  { destruct (ok_peer _ Hok _ _ Hl) as [Hlt Hid].
    apply (quiet_modify rt id); [|done..]. apply (modify_ok rt id); cbn; try done.
    - apply (ok_range _ Hok _ _ Hl).
    - apply (ok_active _ Hok l).
    - intros Ho. destruct b; [by right|left; cbn; eauto]. }
  destruct (negb b); [|exact Hq]. cbn [fst]. eapply quiet_trans; [exact Hq|]. apply removePeer_quiet, Hq.
Qed.

Lemma nodeNameHash_fill node : n_NameHash node = "" →
  nodeNameHash (set_NameHash (NodeNameHash (n_Name node)) node) = nodeNameHash node.
Proof.
  intros E. unfold nodeNameHash, set_NameHash. cbn. rewrite E. cbn.
  destruct (NodeNameHash (n_Name node) =?s "") eqn:En; cbn; bool_prop; congruence.
Qed.

Lemma RecordUse_quiet rt id now rtt : table_ok rt → quiet rt (RecordUse rt id now rtt).
Proof.
  intros Hok. unfold RecordUse. destruct (peerByID rt !! id) as [l|] eqn:Hl; [|by apply quiet_refl].
  cbv zeta. set (rt1 := modify rt l (note_use now rtt)).
  assert (quiet rt rt1) as Hq1.
  { eapply quiet_plain; [done..|]. intros e. unfold note_use. repeat case_match; done. }
  set (rt2 := with_Buckets rt1 _).
  assert (quiet rt1 rt2) as Hq2.
  { split; [apply move_front_ok, Hq1|done|]. intros l' Hl'. split; [|done]. change (Buckets rt2) with
      (moveToFrontLocked (heap rt1) (Buckets rt1) id (bucketIndex rt1 id)) in Hl'.
    by rewrite (proj2 (moveToFrontLocked_ok _ _ _ id _ (ok_buckets _ (q_ok _ _ Hq1)))) in Hl'. }
  assert (quiet rt rt2) as Hq by (eapply quiet_trans; done).
  destruct (SelfNameHash rt2 <>?s ""); [|done].
  set (rt3 := if _ =?s _ then _ else rt2).
  assert (quiet rt rt3) as Hq3.
  { unfold rt3. destruct (_ =?s _) eqn:E; [|done]. bool_prop. eapply quiet_trans; [exact Hq|].
    pose proof (q_ok _ _ Hq) as Hok2. assert (peerByID rt2 !! id = Some l) as Hl2 by done.
    destruct (ok_peer _ Hok2 _ _ Hl2) as [Hlt Hid].
    apply (quiet_modify rt2 id); [|done..]. apply (modify_ok rt2 id); cbn; try done.
    - apply (ok_range _ Hok2 _ _ Hl2).
    - intros _. by apply nodeNameHash_fill.
    - apply (ok_active _ Hok2 l).
    - apply (ok_offline _ Hok2 id l). }
  eapply quiet_trans; [exact Hq3|]. apply quiet_same; [|done..]. apply move_front_names_ok, Hq3.
Qed.

Lemma note_miss_plain now e : e_Node (note_miss now e) = e_Node e ∧
  e_SuccessCount (note_miss now e) = e_SuccessCount e ∧ e_Pinned (note_miss now e) = e_Pinned e.
Proof. unfold note_miss. by destruct (_ <? _). Qed.
Lemma mark_offline_plain now e : e_Node (mark_offline now e) = e_Node e ∧
  e_SuccessCount (mark_offline now e) = e_SuccessCount e ∧ e_Pinned (mark_offline now e) = e_Pinned e.
Proof. unfold mark_offline. by destruct (IsZero _). Qed.

Lemma deref_modify_same rt l f : (l < List.length (heap rt))%nat → deref (modify rt l f) l = f (deref rt l).
Proof. intros. rewrite deref_modify by done. by destruct (decide (l = l)). Qed.

(** Taking a peer out of both indexes, as the third failed probe does. *)
Definition unindex (rt : RoutingTable) (id : string) : RoutingTable :=
  with_NameBuckets (with_Buckets rt (removeFromIndexLocked (heap rt) (Buckets rt) id).1)
    (removeFromIndexLocked (heap rt) (NameBuckets rt) id).1.

Lemma unindex_quiet rt id l : table_ok rt → id_of (heap rt) l = id →
  quiet rt (unindex rt id) ∧ l ∉ concat (Buckets (unindex rt id)).
Proof.
  intros Hok Hid. split; [|by apply drop_active_not_in].
  split; [by apply drop_active_ok|done|]. intros l'.
  cbn [unindex Buckets with_NameBuckets with_Buckets heap].
  rewrite removeFromIndex_concat by apply Hok. by intros [_ ?]%list_elem_of_filter.
Qed.

(** ... an active peer goes offline, *)
Lemma expire_active_quiet rt id l now : table_ok rt → peerByID rt !! id = Some l →
  inIndexLocked (heap rt) (NameBuckets rt) id || inIndexLocked (heap rt) (Buckets rt) id = true →
  let rt2 := modify (unindex rt id) l (mark_offline now) in
  quiet rt (removePeerIfUnindexedLocked (with_offline rt2 (<[id := l]> (offline rt2))) id).
Proof.
  intros Hok Hl Hin rt2. destruct (ok_peer _ Hok _ _ Hl) as [Hlt Hid].
  destruct (unindex_quiet rt id l Hok Hid) as [Hq1 Hout].
  assert (quiet (unindex rt id) rt2) as Hq2.
  { apply (quiet_plain _ id); [apply Hq1|done|apply mark_offline_plain]. }
  assert (l ∈ concat (Buckets rt)) as Hact.
  { apply orb_true_iff in Hin as [Hin|Hin]; [|by eapply ok_in_buckets].
    apply inIndexLocked_spec, list_elem_of_fmap in Hin as (l' & E & Hl').
    apply (ok_named _ Hok) in Hl'. destruct (ok_active _ Hok _ Hl'). by replace l with l' by congruence. }
  assert (table_ok (with_offline rt2 (<[id := l]> (offline rt2)))) as Hok3.
  { apply go_offline_ok; [apply Hq2|done|done| |].
    - intros Hp. by destruct (ok_pending _ Hok _ Hp).
    - unfold rt2. rewrite deref_modify_same by done. left. change (deref (unindex rt id) l) with (deref rt l).
      rewrite (proj1 (proj2 (mark_offline_plain now _))). apply (ok_active _ Hok _ Hact). }
  eapply quiet_trans; [exact Hq1|]. eapply quiet_trans; [exact Hq2|].
  eapply quiet_trans; [by apply (quiet_same rt2 (with_offline rt2 (<[id := l]> (offline rt2))))|].
  by apply removePeer_quiet.
Qed.

(** ... a candidate is kept offline when it is retained and forgotten otherwise. *)
Lemma expire_candidate_quiet rt id l now : table_ok rt → peerByID rt !! id = Some l →
  let rt2 := (removePendingLocked (unindex rt id) id).1 in
  quiet rt (if (0 <? e_SuccessCount (deref rt2 l)) || e_Pinned (deref rt2 l)
            then let rt3 := modify rt2 l (mark_offline now) in with_offline rt3 (<[id := l]> (offline rt3))
            else with_peers rt2 (delete id (peerByID rt2))).
Proof.
  intros Hok Hl rt2. destruct (ok_peer _ Hok _ _ Hl) as [Hlt Hid].
  destruct (unindex_quiet rt id l Hok Hid) as [Hq1 Hout].
  pose proof (removePending_quiet _ id (q_ok _ _ Hq1)) as Hq2. fold rt2 in Hq2.
  pose proof (q_ok _ _ Hq2) as Hok2.
  assert (l ∉ concat (Pending rt2)) as Hp2 by (apply removePending_not_in; [apply Hq1|done]).
  destruct (removePending_frame (unindex rt id) id) as (bs & n & E). fold rt2 in E.
  assert (peerByID rt2 !! id = Some l) as Hl2 by (by rewrite E).
  eapply quiet_trans; [exact Hq1|]. eapply quiet_trans; [exact Hq2|].
  destruct (_ || _) eqn:Er.
  - assert (retained (deref rt2 l)) as Hret.
    { apply orb_true_iff in Er as [Er|Er]; [left; by bool_prop|by right]. }
    cbv zeta. assert (quiet rt2 (modify rt2 l (mark_offline now))) as Hq3.
    { by apply (quiet_plain _ id); [..|apply mark_offline_plain]. }
    eapply quiet_trans; [exact Hq3|]. apply quiet_same; [|done..].
    apply go_offline_ok; [apply Hq3|done|by rewrite E|done|].
    rewrite deref_modify_same by apply (ok_peer _ Hok2 _ _ Hl2). unfold retained.
    destruct (mark_offline_plain now (deref rt2 l)) as (_ & -> & ->). done.
  - apply orb_false_iff in Er as [Es Ep]. bool_prop. apply quiet_same; [|done..].
    apply delete_peer_ok; [done| | |].
    + intros Hin. apply inIndexLocked_spec in Hin. apply (ok_in_buckets rt2 id l Hok2 Hl2) in Hin.
      rewrite E in Hin. done.
    + by intros Hin%(ok_in_pending rt2 id l Hok2).
    + destruct (offline rt2 !! id) as [l'|] eqn:Eo; [|done].
      destruct (ok_offline _ Hok2 _ _ Eo) as (Hp & _ & _ & Hr).
      assert (l' = l) as -> by congruence. destruct Hr as [?|?]; [lia|congruence].
Qed.

Lemma note_alive_plain now e : e_Node (note_alive now e) = e_Node e ∧
  e_SuccessCount (note_alive now e) = e_SuccessCount e ∧ e_Pinned (note_alive now e) = e_Pinned e.
Proof. unfold note_alive. by destruct (IsZero _). Qed.

Lemma fst_if {A B} (c : bool) (a b : A) (r : B) : (if c then (a, r) else (b, r)).1 = if c then a else b.
Proof. by destruct c. Qed.

Lemma retire_quiet rt id l now : table_ok rt → peerByID rt !! id = Some l →
  quiet rt (retire rt l id now).1.
Proof.
  intros Hok Hl. unfold retire, removeFromIndexLocked. cbv beta iota zeta.
  destruct (_ || inIndexLocked _ _ _) eqn:Er; cbn [fst snd].
  - exact (expire_active_quiet rt id l now Hok Hl Er).
  - destruct (_ <=? _).
    + rewrite fst_if. exact (expire_candidate_quiet rt id l now Hok Hl).
    + exact (proj1 (unindex_quiet rt id l Hok (proj2 (ok_peer _ Hok _ _ Hl)))).
Qed.

Lemma RecordLivenessResult_quiet rt id now alive : table_ok rt →
  quiet rt (RecordLivenessResult rt id now alive).1.
Proof.
  intros Hok. unfold RecordLivenessResult.
  destruct (peerByID rt !! id) as [l|] eqn:Hl; [|by apply quiet_refl]. cbv zeta.
  set (rt1 := modify (modify rt l (set_LastProbe now)) l (set_NextProbeAt (Add now livenessProbeInterval))).
  assert (quiet rt rt1) as Hq1.
  { pose proof (quiet_plain rt id l (set_LastProbe now) Hok Hl ltac:(done)) as Hq0.
    eapply quiet_trans; [exact Hq0|]. apply (quiet_plain _ id); [apply Hq0|done|done]. }
  destruct alive.
  { eapply quiet_trans; [exact Hq1|]. apply (quiet_plain rt1 id); [apply Hq1|done|apply note_alive_plain]. }
  destruct (_ && _); [exact Hq1|].
  set (rt2 := modify rt1 l (note_miss now)).
  assert (quiet rt rt2) as Hq2.
  { eapply quiet_trans; [exact Hq1|]. apply (quiet_plain rt1 id); [apply Hq1|done|apply note_miss_plain]. }
  destruct (_ <? staleFailureThreshold); [exact Hq2|].
  eapply quiet_trans; [exact Hq2|]. by apply retire_quiet; [apply Hq2|].
Qed.

(** Referring a peer that is not active, pending or offline. *)
Lemma refer_quiet rt rt' id l n : table_ok rt → peerByID rt !! id = Some l →
  l ∉ concat (Buckets rt) → l ∉ concat (Pending rt) → (offline rt !! id) = None →
  append_pending rt (bucketIndex rt id) l = Ok rt' → n <= pendingN rt + 1 →
  quiet rt (with_Pending rt' (Pending rt') n).
Proof.
  intros Hok Hl Ha Hp Ho E Hn. destruct (append_pending_ok rt rt' id l n) as (Hok' & _ & Hr); try done.
  apply quiet_same; [done|..]; rewrite Hr; done.
Qed.

(** A fresh peer: allocated, entered in the map, not indexed anywhere. *)
Lemma fresh_peer rt e : table_ok rt → (peerByID rt !! n_ID (e_Node e)) = None →
  n_ID (e_Node e) ≠ SelfID rt → n_ID (e_Node e) ≠ "" → 0 <= e_SuccessCount e →
  let l := List.length (heap rt) in
  let rt' := with_peers (with_heap rt (heap rt ++ [e])) (<[n_ID (e_Node e) := l]> (peerByID rt)) in
  quiet rt rt' ∧ deref rt' l = e ∧ l ∉ concat (Buckets rt') ∧ l ∉ concat (Pending rt') ∧
  (offline rt' !! n_ID (e_Node e)) = None.
Proof.
  intros Hok Hnew Hs Hne Hc l rt'. pose proof (new_peer_ok rt e Hok Hnew Hs Hne Hc) as Hok'.
  assert (∀ l', l' ∈ concat (Buckets rt) ∨ l' ∈ concat (Pending rt) → (l' < l)%nat) as Hlt.
  { intros l' [Hl'|Hl']; [destruct (ok_active _ Hok _ Hl') as [Hp _]|destruct (ok_pending _ Hok _ Hl') as [Hp _]];
      by apply (ok_peer _ Hok) in Hp as [? _]. }
  split; [split; [done..|]|split; [|split; [|split]]].
  - intros l' Hl'. split; [done|]. unfold id_of. cbn. by rewrite lookup_total_app_l by auto.
  - unfold deref. cbn. by rewrite list_lookup_total_middle.
  - intros Hl'. specialize (Hlt l (or_introl Hl')). lia.
  - intros Hl'. specialize (Hlt l (or_intror Hl')). lia.
  - destruct (offline rt !! n_ID (e_Node e)) as [l'|] eqn:E; [|done].
    apply (ok_offline _ Hok) in E as (E & _). congruence.
Qed.

Lemma AddLookupCandidate_quiet rt node rt' b : table_ok rt →
  AddLookupCandidate rt node = Ok (rt', b) → quiet rt rt'.
Proof.
  intros Hok. unfold AddLookupCandidate. destruct (ignorable rt node) eqn:Ei.
  { intros [= <- <-]. by apply quiet_refl. }
  apply ignorable_false in Ei as (Hne & Hself & _).
  destruct (_ || _) eqn:E; [intros [= <- <-]; by apply quiet_refl|]. bool_prop. cbn [alloc fst snd].
  destruct (fresh_peer rt (set_Transient true (new_entry node))) as (Hq & _ & Ha & Hp & Ho); try done.
  { by apply eq_None_not_Some. }
  intros Hr. res_inv. match goal with H : append_pending _ _ _ = Ok ?r |- _ => rename H into E2, r into rt2 end.
  simplify_eq. eapply quiet_trans; [exact Hq|]. eapply refer_quiet; [apply Hq| |exact Ha|exact Hp|exact Ho|exact E2|].
  - cbn. apply lookup_insert_eq.
  - unfold append_pending in E2. destruct (_ <? 0); [done|]. case_match; [|done]. injection E2 as <-. done.
Qed.

Lemma append_pending_pendingN rt idx l rt' : append_pending rt idx l = Ok rt' → pendingN rt' = pendingN rt.
Proof. unfold append_pending. destruct (_ <? 0); [done|]. case_match; [|done]. by intros [= <-]. Qed.

(** Replacing the node of a peer that is in no name bucket. *)
Lemma quiet_set_node rt node l : table_ok rt → peerByID rt !! n_ID node = Some l →
  l ∉ concat (Buckets rt) → quiet rt (modify rt l (set_Node node)).
Proof.
  intros Hok Hl Ha. apply (quiet_modify rt (n_ID node)); [|done..]. apply (modify_ok rt (n_ID node)); cbn; try done.
  - apply (ok_range _ Hok _ _ Hl).
  - intros Hin%(ok_named _ Hok). done.
  - apply (ok_offline _ Hok _ l).
Qed.

(** The end of [addCandidate]: forget the offline mark and append. *)
Lemma readmit_quiet rt rt' id l n : table_ok rt → peerByID rt !! id = Some l →
  l ∉ concat (Buckets rt) → l ∉ concat (Pending rt) →
  append_pending (with_offline rt (delete id (offline rt))) (bucketIndex rt id) l = Ok rt' →
  n <= pendingN rt' + 1 → quiet rt (with_Pending rt' (Pending rt') n).
Proof.
  intros Hok Hl Ha Hp E Hn. rewrite (append_pending_pendingN _ _ _ _ E) in Hn.
  pose proof (delete_offline_ok rt id Hok) as Hok'.
  eapply quiet_trans; [apply (quiet_same rt (with_offline rt (delete id (offline rt)))); done|].
  eapply (refer_quiet (with_offline rt (delete id (offline rt)))); [done|exact Hl|exact Ha|exact Hp| |exact E|exact Hn].
  apply lookup_delete_eq.
Qed.

Lemma readmit_known rt node l rt' f n : table_ok rt → peerByID rt !! n_ID node = Some l →
  l ∉ concat (Buckets rt) → l ∉ concat (Pending rt) → f = id ∨ f = set_Transient false →
  let rt1 := modify (modify rt l (set_Node node)) l f in
  append_pending (with_offline rt1 (delete (n_ID node) (offline rt1))) (bucketIndex rt (n_ID node)) l = Ok rt' →
  n <= pendingN rt' + 1 → quiet rt (with_Pending rt' (Pending rt') n).
Proof.
  intros Hok Hl Ha Hp Hf rt1 E Hn.
  pose proof (quiet_set_node rt node l Hok Hl Ha) as Hq1.
  assert (quiet rt rt1) as Hq2.
  { eapply quiet_trans; [exact Hq1|]. apply (quiet_plain _ (n_ID node)); [apply Hq1|done|].
    by destruct Hf as [-> | ->]. }
  eapply quiet_trans; [exact Hq2|]. by apply (readmit_quiet rt1 rt' (n_ID node) l n (q_ok _ _ Hq2)).
Qed.

Lemma modify_id rt l : modify rt l id = rt.
Proof.
  unfold modify, deref. destruct rt as [a b h]. unfold with_heap. cbn. f_equal.
  destruct (decide (l < List.length h)%nat).
  - apply list_insert_id. by apply list_lookup_lookup_total_lt.
  - apply list_insert_ge. lia.
Qed.

Lemma with_Pending_same rt : with_Pending rt (Pending rt) (pendingN rt) = rt.
Proof. by destruct rt. Qed.

Lemma AddCandidate_quiet rt node rt' : table_ok rt → AddCandidate rt node = Ok rt' → quiet rt rt'.
Proof.
  intros Hok. unfold AddCandidate. destruct (ignorable rt node) eqn:Ei.
  { intros [= <-]. by apply quiet_refl. }
  apply ignorable_false in Ei as (Hne & Hself & _).
  destruct (inIndexLocked _ (Buckets rt) _) eqn:Eb; cbn [orb]; [intros [= <-]; by apply quiet_refl|].
  destruct (inIndexLocked _ (NameBuckets rt) _) eqn:En; [intros [= <-]; by apply quiet_refl|].
  destruct (peerByID rt !! n_ID node) as [l|] eqn:Hl.
  - destruct (ok_peer _ Hok _ _ Hl) as [Hlt Hid].
    assert (l ∉ concat (Buckets rt)) as Ha.
    { intros Hin%(ok_in_buckets _ _ _ Hok Hl). congruence. }
    pose proof (removePending_quiet rt (n_ID node) Hok) as Hq.
    pose proof (removePending_not_in rt _ l Hok Hid) as Hp.
    destruct (removePending_frame rt (n_ID node)) as (bs & n & E).
    destruct (removePendingLocked rt (n_ID node)) as [rt1 removed] eqn:Er. cbn [fst] in *. subst rt1.
    destruct removed; [|destruct (_ <=? _); [intros [= <-]; exact Hq|]]; intros E2;
      (eapply quiet_trans; [exact Hq|]).
    + rewrite <- (with_Pending_same rt').
      eapply (readmit_known (with_Pending rt bs n) node l rt' id); [apply Hq|exact Hl|exact Ha|exact Hp|by left| |lia].
      rewrite modify_id. exact E2.
    + res_inv. match goal with H : append_pending _ _ _ = Ok ?r |- _ => rename H into E3, r into rt3 end.
      eapply (readmit_known (with_Pending rt bs n) node l rt3 (set_Transient false));
        [apply Hq|exact Hl|exact Ha|exact Hp|by right|exact E3|lia].
  - destruct (_ <=? _); [intros [= <-]; by apply quiet_refl|]. cbn [alloc fst snd].
    destruct (fresh_peer rt (new_entry node)) as (Hq & Hd & Ha & Hp & Ho); try done.
    set (rt1 := with_peers _ _) in *. set (l := List.length (heap rt)) in *.
    assert (peerByID rt1 !! n_ID node = Some l) as Hl1 by apply lookup_insert_eq.
    intros E2. res_inv. match goal with H : append_pending _ _ _ = Ok ?r |- _ => rename H into E2, r into rt3 end.
    pose proof (quiet_plain rt1 (n_ID node) l (set_Transient false) (q_ok _ _ Hq) Hl1 ltac:(done)) as Hq2.
    eapply quiet_trans; [exact Hq|]. eapply quiet_trans; [exact Hq2|].
    eapply (readmit_quiet (modify rt1 l (set_Transient false)) rt3 (n_ID node) l);
      [apply Hq2|exact Hl1|exact Ha|exact Hp|exact E2|lia].
Qed.

(** ** Restoring persisted peers *)
Lemma append_pending_frame rt idx l rt' : append_pending rt idx l = Ok rt' →
  ∃ bs, rt' = with_Pending rt bs (pendingN rt).
Proof. unfold append_pending. destruct (_ <? 0); [done|]. case_match; [|done]. intros [= <-]. eauto. Qed.

Lemma AddCandidate_fresh rt node rt' : table_ok rt → (peerByID rt !! n_ID node) = None →
  AddCandidate rt node = Ok rt' →
  (offline rt' !! n_ID node) = None ∧
  ∀ id, id ≠ n_ID node → (peerByID rt' !! id) = (peerByID rt !! id).
Proof.
  intros Hok Hnew. unfold AddCandidate. rewrite Hnew.
  assert ((offline rt !! n_ID node) = None) as Hoff.
  { destruct (offline rt !! n_ID node) eqn:E; [|done]. apply (ok_offline _ Hok) in E as (E & _). congruence. }
  destruct (ignorable _ _); [by intros [= <-]|]. destruct (_ || _); [by intros [= <-]|].
  destruct (_ <=? _); [by intros [= <-]|]. cbn [alloc fst snd]. intros E. res_inv.
  match goal with H : append_pending _ _ _ = Ok _ |- _ => apply append_pending_frame in H as [bs ->] end.
  cbn. split; [apply lookup_delete_eq|]. intros id Hid. by rewrite lookup_insert_ne.
Qed.

(** What a persisted observation must satisfy: the counter is a [uint32], and
    a peer stored as offline once answered or is pinned. *)
Definition persisted_ok (p : PeerObservation) : Prop :=
  0 <= o_SuccessCount p ∧ (o_OfflineSince p ≠ 0 → 0 < o_SuccessCount p ∨ o_Pinned p = true).

Lemma restore_one_quiet rt p now rt' : table_ok rt → persisted_ok p →
  (peerByID rt !! n_ID (o_Node p)) = None → restore_one rt p now = Ok rt' →
  quiet rt rt' ∧ ∀ id, id ≠ n_ID (o_Node p) → (peerByID rt' !! id) = (peerByID rt !! id).
Proof.
  intros Hok [Hcnt Hoffp] Hnew. unfold restore_one.
  destruct (restore_skips p now); [intros [= <-]; split; [by apply quiet_refl|done]|].
  intros E. apply res_bind_ok in E as (rt1 & E1 & E).
  pose proof (AddCandidate_quiet _ _ _ Hok E1) as Hq1.
  destruct (AddCandidate_fresh _ _ _ Hok Hnew E1) as [Hoff1 Hpeers].
  destruct (peerByID rt1 !! n_ID (o_Node p)) as [l|] eqn:Hl; [|by injection E as <-].
  destruct (ok_peer _ (q_ok _ _ Hq1) _ _ Hl) as [Hlt Hid].
  assert (l ∉ concat (Buckets rt1)) as Ha.
  { intros [Hin Eid]%(q_active _ _ Hq1). destruct (ok_active _ Hok _ Hin) as [Hp _].
    rewrite <- Eid, Hid in Hp. congruence. }
  set (rt2 := modify rt1 l (restore_entry p)) in *.
  assert (quiet rt1 rt2) as Hq2.
  { apply (quiet_modify rt1 (n_ID (o_Node p))); [|apply Hq1|done|done].
    apply (modify_ok rt1 (n_ID (o_Node p))); cbn; try done; [apply Hq1|]. rewrite Hoff1. done. }
  assert (quiet rt rt2) as Hq by (eapply quiet_trans; done).
  destruct (negb _) eqn:Ez; [|injection E as <-; done]. bool_prop. cbv zeta in E. injection E as <-.
  pose proof (removePending_quiet rt2 (n_ID (o_Node p)) (q_ok _ _ Hq)) as Hq3.
  assert (id_of (heap rt2) l = n_ID (o_Node p)) as Hid2.
  { rewrite id_of_deref. unfold rt2. by rewrite deref_modify_same. }
  pose proof (removePending_not_in rt2 _ l (q_ok _ _ Hq) Hid2) as Hp3.
  destruct (removePending_frame rt2 (n_ID (o_Node p))) as (bs & n & E3). rewrite E3 in *.
  split; [|done]. eapply quiet_trans; [exact Hq|]. eapply quiet_trans; [exact Hq3|].
  apply quiet_same; [|done..]. apply go_offline_ok; [apply Hq3|done|done|done|].
  change (retained (deref rt2 l)). unfold rt2, retained. rewrite deref_modify_same by done. cbn.
  apply Hoffp. intros E0. unfold IsZero in Ez. by rewrite E0 in Ez.
Qed.

Lemma restore_loop_quiet peers now : ∀ rt rt', table_ok rt → Forall persisted_ok peers →
  NoDup ((fun p => n_ID (o_Node p)) <$> peers) →
  (∀ p, p ∈ peers → (peerByID rt !! n_ID (o_Node p)) = None) →
  restore_loop rt peers now = Ok rt' → quiet rt rt'.
Proof.
  induction peers as [|p peers IH]; intros rt rt' Hok Hp Hnd Hfresh; cbn [restore_loop].
  { intros [= <-]. by apply quiet_refl. }
  rewrite fmap_cons in Hnd. apply NoDup_cons in Hnd as [Hp0 Hnd]. apply Forall_cons in Hp as [Hp1 Hp].
  intros E. apply res_bind_ok in E as (rt1 & E1 & E).
  destruct (restore_one_quiet rt p now rt1 Hok Hp1 (Hfresh p ltac:(left)) E1) as [Hq Hpeers].
  eapply quiet_trans; [exact Hq|]. apply IH; [apply Hq|done|done| |done].
  intros p' Hp'. rewrite Hpeers; [apply Hfresh; by right|].
  intros Eid. apply Hp0. apply list_elem_of_fmap. eauto.
Qed.

Lemma RestoreCandidates_quiet `{GoSort} rt peers now rt' : table_ok rt → Forall persisted_ok peers →
  NoDup ((fun p => n_ID (o_Node p)) <$> peers) →
  (∀ p, p ∈ peers → (peerByID rt !! n_ID (o_Node p)) = None) →
  RestoreCandidates rt peers now = Ok rt' → quiet rt rt'.
Proof.
  intros Hok Hp Hnd Hfresh. unfold RestoreCandidates. case_match; [|by apply restore_loop_quiet].
  set (sorted := sort_Slice _ peers).
  assert (sorted ≡ₚ peers) as Hperm by apply sort_Slice_perm.
  apply restore_loop_quiet; [done| | |].
  - apply Forall_take. by rewrite Hperm.
  - rewrite fmap_take. eapply sublist_NoDup; [|apply sublist_take]. by rewrite Hperm.
  - intros p Hin. apply Hfresh. rewrite <- Hperm. apply elem_of_take in Hin as (i & Hi & _).
    by eapply list_elem_of_lookup_2.
Qed.

(** ** Promotion, pruning, renaming, refreshing *)
Lemma promote_scan_spec h bs id : NoDup (id_of h <$> concat bs) → ∀ n,
  promote_scan h bs n id =
  match remove_pending h bs id with
  | Some bs' => (bs', n - 1, match List.find (fun l => id_of h l =?s id) (concat bs) with
                             | Some l => if id =?s "" then zero_NodeInfo else e_Node (h !!! l)
                             | None => zero_NodeInfo end)
  | None => (bs, n, zero_NodeInfo)
  end.
Proof.
  induction bs as [|b bs IH]; intros Hn n; cbn [promote_scan remove_pending concat]; [done|].
  cbn [concat] in Hn. rewrite fmap_app in Hn. apply NoDup_app in Hn as (Hb & Hd & Hbs).
  assert (∀ b', List.find (fun l => id_of h l =?s id) (b ++ b') =
    match indexOfEntry h b id with
    | Some p => Some (b !!! p)
    | None => List.find (fun l => id_of h l =?s id) b' end) as Hfind.
  { clear. induction b as [|l b IH]; intros b'; cbn; [done|]. destruct (_ =?s id); [done|].
    rewrite IH. by destruct (indexOfEntry h b id). }
  rewrite Hfind. destruct (indexOfEntry h b id) as [p|] eqn:E.
  - apply indexOfEntry_Some in E as (l & Hl & Hid). rewrite (list_lookup_total_correct _ _ _ Hl).
    fold (id_of h l). rewrite Hid. destruct (id =?s "") eqn:Ee; cbn [negb]; [|done].
    rewrite IH by done.
    assert (remove_pending h bs id = None) as ->.
    { apply remove_pending_None. apply Hd. apply list_elem_of_fmap. exists l. split; [done|].
      by eapply list_elem_of_lookup_2. }
    done.
  - rewrite IH by done. by destruct (remove_pending h bs id).
Qed.

Lemma PromoteCandidate_ok rt id now : table_ok rt → table_ok (PromoteCandidate rt id now).
Proof.
  intros Hok. unfold PromoteCandidate. rewrite promote_scan_spec by apply Hok.
  pose proof (removePending_ok rt id Hok) as Hok'. unfold removePendingLocked in Hok'.
  destruct (remove_pending _ _ _) as [bs|]; cbn [fst] in Hok'.
  - destruct (_ <>?s ""); [by apply AddNode_ok|done].
  - cbn [n_ID zero_NodeInfo String.eqb negb]. by rewrite with_Pending_same.
Qed.

Lemma PruneOffline_quiet rt now keys : table_ok rt → quiet rt (PruneOffline rt now keys).
Proof.
  unfold PruneOffline. revert rt. induction keys as [|id keys IH]; intros rt Hok; [by apply quiet_refl|].
  cbn [foldl]. destruct (offline rt !! id) as [l|] eqn:E; [|by apply IH].
  destruct (_ && _ && _ && _); [|by apply IH].
  destruct (ok_offline _ Hok _ _ E) as (Hl & Ha & Hp & _).
  pose proof (delete_offline_ok rt id Hok) as Hok1.
  assert (table_ok (with_peers (with_offline rt (delete id (offline rt))) (delete id (peerByID rt)))) as Hok2.
  { apply (delete_peer_ok (with_offline rt (delete id (offline rt)))); [done|..].
    - intros Hin%inIndexLocked_spec%(ok_in_buckets rt id l Hok Hl). done.
    - intros Hin%(ok_in_pending rt id l Hok Hl). done.
    - apply lookup_delete_eq. }
  eapply quiet_trans; [by apply (quiet_same rt _ Hok2)|]. by apply IH.
Qed.

Lemma SetSelfNameHash_quiet `{GoSort} rt hash keys : table_ok rt → quiet rt (SetSelfNameHash rt hash keys).
Proof.
  intros Hok. unfold SetSelfNameHash. set (rt0 := with_self rt hash empty_buckets).
  assert (quiet rt rt0) as Hq0.
  { apply quiet_same; [|done..].
    destruct Hok as [A B C D E F G I J L M].
    split; cbn [SelfID SelfNameHash heap Buckets NameBuckets Pending peerByID offline pendingN rt0 with_self]; try done.
    - apply index_ok_empty.
    - by intros l ?%elem_of_nil. }
  set (ls := sort_Slice _ _).
  assert (∀ l, l ∈ ls → ∃ id, peerByID rt0 !! id = Some l) as Hls.
  { intros l. unfold ls. rewrite sort_Slice_perm. intros (k & _ & Hk)%list_elem_of_omap. eauto. }
  clearbody ls. eapply quiet_trans; [exact Hq0|]. apply q_ok in Hq0. clearbody rt0. clear Hok. revert rt0 Hq0 Hls.
  induction ls as [|l ls IH]; intros rt0 Hok0 Hls; [by apply quiet_refl|]. cbn [foldl].
  destruct (inIndexLocked _ _ _) eqn:E; [|apply IH; [done|]; intros; apply Hls; by right].
  destruct (Hls l ltac:(left)) as [id Hl]. rewrite (proj2 (ok_peer _ Hok0 _ _ Hl)) in E.
  apply (ok_in_buckets _ _ _ Hok0 Hl) in E.
  set (rt1 := with_NameBuckets rt0 _). assert (table_ok rt1) as Hok1 by (by apply add_name_ok).
  eapply quiet_trans; [by apply (quiet_same rt0 rt1)|]. apply IH; [done|]. intros l' Hl'. apply Hls. by right.
Qed.

Lemma RefreshTargets_quiet rt now limit draw : table_ok rt → quiet rt (RefreshTargets rt now limit draw).2.
Proof.
  intros Hok. unfold RefreshTargets. destruct (limit <=? 0); [by apply quiet_refl|].
  assert (∀ byName t, ∃ t' a b c, (refresh_pass now limit draw byName (t, rt)) = (t', with_refresh rt a b c)) as Hpass.
  { intros byName t. unfold refresh_pass.
    assert (rt = with_refresh rt (lastIDRefresh rt) (lastNameRefresh rt) (refreshNameNext rt)) as Hid by (by destruct rt).
    repeat case_match; simplify_eq;
      first [exists t, (lastIDRefresh rt), (lastNameRefresh rt), (refreshNameNext rt); congruence|by repeat eexists]. }
  destruct (Hpass (refreshNameNext rt) []) as (t1 & a1 & b1 & c1 & ->).
  set (rt1 := with_refresh rt a1 b1 c1).
  assert (∃ t' a b c, refresh_pass now limit draw (negb (refreshNameNext rt)) (t1, rt1) = (t', with_refresh rt a b c))
    as (t2 & a2 & b2 & c2 & ->).
  { unfold refresh_pass. repeat case_match; simplify_eq; unfold rt1; by repeat eexists. }
  cbn [snd]. apply quiet_same; [|done..]. by apply with_refresh_ok, with_refresh_ok.
Qed.
End Preservation.
