(* ===== verification/RoutingProps.v ===== *)
(** * The routing table: reachable states and what its callers rely on

    The operations as a data type with their guards, the states reachable from
    a new table, the invariant of these states, and the theorems on activation,
    enumeration and the candidate limit. *)
From S2P Require Import Prelude GoBytes GoStrings GoEncoding GoTime GoSort Sha256 GoEnv Lines Identity Record Proto NodeInfo Peer Routing RoutingIndex RoutingInv RoutingOps.

Section Reachable.
Context `{UnicodeTables, NetIP, RFC3339, Ed25519, GoSort}.

Inductive op :=
| OpSetSelfNameHash (hash : string) (keys : list string)
| OpAddNode (node : NodeInfo) (now : Z)
| OpUpdateKnownNode (node : NodeInfo) (now : Z)
| OpAddCandidate (node : NodeInfo)
| OpAddLookupCandidate (node : NodeInfo)
| OpRestoreCandidates (peers : list PeerObservation) (now : Z)
| OpPromoteCandidate (nodeID : string) (now : Z)
| OpDiscardCandidate (nodeID : string)
| OpNoteFailureAt (nodeID : string) (now : Z)
| OpBeginLivenessProbe (now : Z) (keys : list string)
| OpRecordLivenessResult (nodeID : string) (now : Z) (alive : bool)
| OpRecordUse (nodeID : string) (now rtt : Z)
| OpSetPinned (nodeID : string) (pinned : bool)
| OpSetFriend (nodeID : string) (friend : bool)
| OpPruneOffline (now : Z) (keys : list string)
| OpRefreshTargets (now limit : Z) (draw : bool → Z → option Z).

Definition run_op (o : op) (rt : RoutingTable) : res RoutingTable :=
  match o with
  | OpSetSelfNameHash hash keys => Ok (SetSelfNameHash rt hash keys)
  | OpAddNode node now => Ok (AddNode rt node now)
  | OpUpdateKnownNode node now => Ok (UpdateKnownNode rt node now).1
  | OpAddCandidate node => AddCandidate rt node
  | OpAddLookupCandidate node => '(rt, _) ← AddLookupCandidate rt node; Ok rt
  | OpRestoreCandidates peers now => RestoreCandidates rt peers now
  | OpPromoteCandidate nodeID now => Ok (PromoteCandidate rt nodeID now)
  | OpDiscardCandidate nodeID => Ok (DiscardCandidate rt nodeID)
  | OpNoteFailureAt nodeID now => Ok (NoteFailureAt rt nodeID now).1
  | OpBeginLivenessProbe now keys => Ok (BeginLivenessProbe rt now keys).1
  | OpRecordLivenessResult nodeID now alive => Ok (RecordLivenessResult rt nodeID now alive).1
  | OpRecordUse nodeID now rtt => Ok (RecordUse rt nodeID now rtt)
  | OpSetPinned nodeID pinned => Ok (SetPinned rt nodeID pinned).1
  | OpSetFriend nodeID friend => Ok (SetFriend rt nodeID friend).1
  | OpPruneOffline now keys => Ok (PruneOffline rt now keys)
  | OpRefreshTargets now limit draw => Ok (RefreshTargets rt now limit draw).2
  end.

(** The conditions on the two operations that can break the invariant, which the code does
    not check: rows are restored that are distinct, of peers not known yet, and
    offline only if the peer has answered or is pinned ([Run] restores the rows of
    [PeerStore.LoadCandidates] once, into a new table); and a peer that is offline is
    unpinned only if it has answered before (no code unpins a peer). *)
Definition guard (o : op) (rt : RoutingTable) : Prop :=
  match o with
  | OpRestoreCandidates peers _ =>
      Forall persisted_ok peers ∧ NoDup ((fun p => n_ID (o_Node p)) <$> peers) ∧
      ∀ p, p ∈ peers → (peerByID rt !! n_ID (o_Node p)) = None
  | OpSetPinned nodeID false => ∀ l, offline rt !! nodeID = Some l → 0 < e_SuccessCount (deref rt l)
  | _ => True
  end.

Definition step (rt : RoutingTable) (o : op) (rt' : RoutingTable) : Prop :=
  guard o rt ∧ run_op o rt = Ok rt'.

Inductive reachable (selfID : string) : RoutingTable → Prop :=
| reach_new : reachable selfID (NewRoutingTable selfID)
| reach_step rt o rt' : reachable selfID rt → step rt o rt' → reachable selfID rt'.

(** ** The invariant *)
Definition activating (o : op) : bool :=
  match o with OpAddNode _ _ | OpPromoteCandidate _ _ => true | _ => false end.

Lemma run_op_quiet o rt rt' : table_ok rt → guard o rt → run_op o rt = Ok rt' →
  activating o = false → quiet rt rt'.
Proof.
  intros Hok Hg Hr Ha. destruct o; try discriminate Ha; cbn in Hg, Hr; try (injection Hr as <-).
  - by apply SetSelfNameHash_quiet.
  - by apply UpdateKnownNode_quiet.
  - by eapply AddCandidate_quiet.
  - res_inv. by eapply AddLookupCandidate_quiet.
  - destruct Hg as (? & ? & ?). by eapply RestoreCandidates_quiet.
  - by apply DiscardCandidate_quiet.
  - by apply NoteFailureAt_quiet.
  - by apply BeginLivenessProbe_quiet.
  - by apply RecordLivenessResult_quiet.
  - by apply RecordUse_quiet.
  - apply SetPinned_quiet; [done|]. intros ->. done.
  - by apply SetFriend_quiet.
  - by apply PruneOffline_quiet.
  - by apply RefreshTargets_quiet.
Qed.

Lemma step_ok rt o rt' : table_ok rt → step rt o rt' → table_ok rt'.
Proof.
  intros Hok [Hg Hr]. destruct (activating o) eqn:Ea; [|by eapply q_ok, run_op_quiet].
  destruct o; try discriminate Ea; injection Hr as <-; [by apply AddNode_ok|by apply PromoteCandidate_ok].
Qed.

Lemma reachable_ok selfID rt : reachable selfID rt → table_ok rt.
Proof. induction 1; [apply NewRoutingTable_ok|by eapply step_ok]. Qed.

(** C2: A routing table stays in order under the conditions of [guard].  From a new table, take
    any sequence of the sixteen operations in which [RestoreCandidates] is given
    distinct rows of peers that the table does not know yet, offline only if they have
    answered or are pinned, and an offline peer is unpinned only if it has answered; the other operations are
    not restricted.  Then each entry sits in the bucket of its coordinate and at
    most once per index, every indexed entry is the one the peer map holds under its
    ID, active, pending and offline entries are disjoint, and the table never
    holds its own ID or the empty one.  (Restoring a row of an active peer
    can break this: [restore_guard_needed].) *)
Theorem routing_table_invariant (selfID : string) (rt : RoutingTable) :
  reachable selfID rt → table_ok rt.
Proof. apply reachable_ok. Qed.

(** ** Activation *)
Definition is_active (rt : RoutingTable) (id : string) : Prop :=
  inIndexLocked (heap rt) (Buckets rt) id = true.
Definition is_pending (rt : RoutingTable) (id : string) : Prop :=
  inIndexLocked (heap rt) (Pending rt) id = true.

Lemma is_active_elem rt id : is_active rt id ↔ ∃ l, id = id_of (heap rt) l ∧ l ∈ concat (Buckets rt).
Proof. unfold is_active. by rewrite inIndexLocked_spec, list_elem_of_fmap. Qed.

Lemma find_id h id b l : List.find (fun l => id_of h l =?s id) b = Some l → id_of h l = id ∧ l ∈ b.
Proof. intros [Hin E]%find_some. bool_prop. split; [done|]. by apply list_elem_of_In. Qed.

Lemma Promote_active rt nodeID now id : table_ok rt →
  is_active (PromoteCandidate rt nodeID now) id → is_active rt id ∨ (id = nodeID ∧ is_pending rt nodeID).
Proof.
  intros Hok. unfold PromoteCandidate. rewrite promote_scan_spec by apply Hok.
  pose proof (removePending_ok rt nodeID Hok) as Hok'. unfold removePendingLocked in Hok'.
  destruct (remove_pending _ _ _) as [bs|] eqn:Er; cbn [fst] in Hok';
    [|cbn [n_ID zero_NodeInfo String.eqb negb]; rewrite with_Pending_same; auto].
  set (node := match _ with Some _ => _ | None => _ end).
  destruct (n_ID node <>?s "") eqn:En; [|auto].
  rewrite !is_active_elem. intros (l & -> & Hl).
  apply (AddNode_active _ _ _ _ Hok') in Hl as [E|[Hl E]]; [right|left; exists l; by rewrite E].
  rewrite E. unfold node in *. destruct (List.find _ _) as [l'|] eqn:Ef; [|done].
  apply find_id in Ef as [Eid Hin]. destruct (nodeID =?s ""); [done|].
  change (n_ID (e_Node (heap rt !!! l'))) with (id_of (heap rt) l'). split; [done|].
  unfold is_pending. apply inIndexLocked_spec, list_elem_of_fmap. eauto.
Qed.

(** C35: Referrals and stored peers never enter the active buckets by
    themselves.  In a reachable table, an operation within its [guard] makes an ID active that was
    not active only if it is [AddNode] for a node with that ID (an
    authenticated exchange) or [PromoteCandidate] of that pending ID. *)
Theorem only_exchanges_activate (selfID id : string) (rt rt' : RoutingTable) (o : op) :
  reachable selfID rt → step rt o rt' → is_active rt' id → ¬ is_active rt id →
  (∃ node now, o = OpAddNode node now ∧ n_ID node = id) ∨
  (∃ now, o = OpPromoteCandidate id now ∧ is_pending rt id).
Proof.
  intros Hok%reachable_ok [Hg Hr] Ha Hn. destruct (activating o) eqn:Eo.
  - destruct o as [| node now | | | | | nodeID now | | | | | | | | |]; try discriminate Eo;
      cbn in Hr; injection Hr as <-.
    + left. exists node, now. split; [done|]. apply is_active_elem in Ha as (l & -> & Hl).
      apply (AddNode_active _ _ _ _ Hok) in Hl as [E|[Hl E]]; [done|].
      destruct Hn. apply is_active_elem. by exists l.
    + right. exists now. destruct (Promote_active _ _ _ _ Hok Ha) as [?|[-> ?]]; done.
  - pose proof (run_op_quiet o rt rt' Hok Hg Hr Eo) as Hq. destruct Hn.
    apply is_active_elem in Ha as (l & -> & Hl). apply (q_active _ _ Hq) in Hl as [Hl ->].
    apply is_active_elem. by exists l.
Qed.
End Reachable.
