(* ===== verification/RoutingQuery.v ===== *)
(** * Queries of the routing table

    [Nodes] enumerates the active peers without a nil dereference; the closest
    queries return the nearest peers in order, whatever order [sort.Slice]
    produces on ties; the diversity contacts cover every network of the active
    peers; the refresh targets lie in the buckets they refresh. *)
From S2P Require Import Prelude GoBytes GoStrings GoEncoding GoTime GoSort Sha256 GoEnv Lines Identity Record Proto NodeInfo Peer Routing RoutingIndex RoutingInv RoutingOps RoutingProps.

(** ** Orders *)
(** A comparison by an integer key, then by another order. *)
Lemma keyed_swo {A} (key : A → Z) (less : A → A → bool) : StrictWeakOrder less →
  StrictWeakOrder (fun a b => if negb (key a =? key b) then key a <? key b else less a b).
Proof.
  intros [Ha Hn]. split.
  - intros x y. rewrite (Z.eqb_sym (key y)). destruct (key x =? key y); cbn [negb]; [apply Ha|].
    rewrite Z.ltb_lt, Z.ltb_ge. lia.
  - intros x y z. destruct (key x =? key y) eqn:Exy; cbn [negb].
    + bool_prop. rewrite <- Exy, (Z.eqb_sym (key z)). destruct (key x =? key z) eqn:Exz; cbn [negb]; [apply Hn|].
      intros _. bool_prop. rewrite !Z.ltb_lt. lia.
    + rewrite Z.ltb_lt. intros Hlt. destruct (key x =? key z) eqn:Exz, (key z =? key y) eqn:Ezy; cbn [negb];
        bool_prop; try lia; rewrite ?Z.ltb_lt; lia.
Qed.

(** On elements with distinct keys that the order separates, sorted is strictly sorted. *)
Lemma sorted_strict {A K} (less : A → A → bool) (key : A → K) l :
  (∀ x y, less x y = true ∨ key x = key y ∨ less y x = true) → NoDup (key <$> l) →
  StronglySorted (not_after less) l → StronglySorted (fun x y => less x y = true) l.
Proof.
  intros Htri. induction l as [|x l IH]; intros Hnd Hs; [constructor|].
  rewrite fmap_cons in Hnd. apply NoDup_cons in Hnd as [Hx Hnd]. apply StronglySorted_inv in Hs as [Hs Hf].
  constructor; [by apply IH|]. rewrite Forall_forall in Hf |- *. intros y Hy.
  destruct (Htri x y) as [?|[E|E]]; [done| |by rewrite (Hf y Hy) in E].
  destruct Hx. rewrite E. apply list_elem_of_fmap. eauto.
Qed.

Section Queries.
Context `{UnicodeTables, GoSort}.

Lemma closer_swo target byName : StrictWeakOrder (closer target byName).
Proof.
  unfold closer.
  apply (keyed_swo (fun n => xorDistance (sort_coordinate n byName) target)
           (fun a b => str_lt (n_ID a) (n_ID b))), (on_swo n_ID), str_lt_swo.
Qed.

Lemma closer_total target byName a b :
  closer target byName a b = true ∨ n_ID a = n_ID b ∨ closer target byName b a = true.
Proof.
  unfold closer. set (da := xorDistance _ target). set (db := xorDistance (sort_coordinate b _) target).
  rewrite (Z.eqb_sym db). destruct (da =? db) eqn:E; cbn [negb]; [apply str_lt_total|].
  bool_prop. rewrite !Z.ltb_lt. lia.
Qed.

Definition active_nodes (rt : RoutingTable) : list NodeInfo :=
  (fun l => e_Node (deref rt l)) <$> concat (Buckets rt).

(** ** Enumeration *)
Lemma nodes_loop_ok rt ids : ∀ last, NoDup (last :: ids) →
  Forall (fun id => is_Some (peerByID rt !! id)) ids →
  ∃ out, nodes_loop rt last ids = Ok out ∧
    Forall2 (fun id n => ∃ l, peerByID rt !! id = Some l ∧ n = e_Node (deref rt l)) ids out.
Proof.
  induction ids as [|id ids IH]; intros last Hnd Hf; cbn [nodes_loop]; [by exists []|].
  apply NoDup_cons in Hnd as [Hl Hnd]. apply Forall_cons in Hf as [[l Hid] Hf].
  rewrite (proj2 (String.eqb_neq id last)) by (intros ->; apply Hl; left).
  rewrite Hid. destruct (IH id Hnd Hf) as (out & -> & Hout). cbn. eexists. split; [done|]. constructor; eauto.
Qed.

Lemma active_ids rt : table_ok rt → n_ID <$> active_nodes rt = id_of (heap rt) <$> concat (Buckets rt).
Proof. intros _. unfold active_nodes. by rewrite <- list_fmap_compose. Qed.

(** In a reachable table [Nodes] never dereferences a nil pointer: it
    returns the active peers, each exactly once, in strictly increasing order
    of NodeID. *)
Theorem Nodes_enumerates `{NetIP, RFC3339, Ed25519} (selfID : string) (rt : RoutingTable) :
  reachable selfID rt →
  ∃ out, Nodes rt = Ok out ∧ out ≡ₚ active_nodes rt ∧
    StronglySorted (fun a b => str_lt a b = true) (n_ID <$> out).
Proof.
  intros Hok%reachable_ok. unfold Nodes. set (ids := sort_Slice str_lt _).
  assert (ids ≡ₚ id_of (heap rt) <$> concat (Buckets rt)) as Hperm by apply sort_Slice_perm.
  assert (NoDup ids) as Hnd by (rewrite Hperm; apply Hok).
  assert (∀ id, id ∈ ids → ∃ l, l ∈ concat (Buckets rt) ∧ peerByID rt !! id = Some l) as Hids.
  { intros id. rewrite Hperm. intros (l & -> & Hl)%list_elem_of_fmap. exists l. split; [done|]. by apply Hok. }
  destruct (nodes_loop_ok rt ids "") as (out & Hout & Hf).
  - apply NoDup_cons. split; [|done]. intros (l & _ & Hl)%Hids. destruct (ok_self _ Hok). congruence.
  - apply Forall_forall. intros id (l & _ & Hl)%Hids. eauto.
  - exists out. split; [done|].
    assert (out = (fun id => e_Node (deref rt (default 0%nat (peerByID rt !! id)))) <$> ids) as Eout.
    { clear -Hf. induction Hf as [|id n ids out (l & Hl & ->) Hf IH]; [done|]. rewrite fmap_cons, Hl. by rewrite IH at 1. }
    split.
    + rewrite Eout, Hperm, <- list_fmap_compose. unfold active_nodes.
      erewrite list_fmap_ext; [done|]. intros i l Hl%list_elem_of_lookup_2. cbn.
      by rewrite (proj1 (ok_active _ Hok _ Hl)).
    + assert (n_ID <$> out = ids) as ->.
      { rewrite Eout, <- list_fmap_compose. rewrite <- (list_fmap_id ids) at 2. apply list_fmap_ext.
        intros i id (l & _ & Hl)%list_elem_of_lookup_2%Hids. cbn. rewrite Hl. cbn.
        by apply (ok_peer _ Hok). }
      apply (sorted_strict _ (fun id => id)); [apply str_lt_total|by rewrite list_fmap_id|].
      apply sort_Slice_sorted, str_lt_swo.
Qed.

(** ** The closest peers *)
Lemma StronglySorted_fmap {A B} (f : A → B) (R : B → B → Prop) l :
  StronglySorted (fun a b => R (f a) (f b)) l → StronglySorted R (f <$> l).
Proof.
  induction 1 as [|x l Hs IH Hf]; [constructor|]. rewrite fmap_cons. constructor; [done|].
  rewrite Forall_fmap. done.
Qed.

Lemma StronglySorted_split {A} (R : A → A → Prop) (l1 l2 : list A) :
  StronglySorted R (l1 ++ l2) → StronglySorted R l1 ∧ ∀ x y, x ∈ l1 → y ∈ l2 → R x y.
Proof.
  induction l1 as [|a l1 IH]; cbn; intros Hs.
  - split; [constructor|]. by intros x y ?%elem_of_nil.
  - apply StronglySorted_inv in Hs as [Hs Hf]. destruct (IH Hs) as [H1 H2].
    rewrite Forall_app in Hf. destruct Hf as [Hf1 Hf2]. split; [by constructor|].
    intros x y [->|Hx]%elem_of_cons Hy; [|auto]. rewrite Forall_forall in Hf2. auto.
Qed.

(** The selection made by [sortClosestEntries] over entries with distinct IDs. *)
Lemma sortClosestEntries_spec rt all target count byName :
  0 < count → NoDup (id_of (heap rt) <$> all) →
  ∃ rest,
    sortClosestEntries rt all target count byName ++ rest ≡ₚ (fun l => e_Node (deref rt l)) <$> all ∧
    len (sortClosestEntries rt all target count byName) = Z.min count (len all) ∧
    StronglySorted (fun a b => closer target byName a b = true)
      (sortClosestEntries rt all target count byName) ∧
    ∀ x y, x ∈ sortClosestEntries rt all target count byName → y ∈ rest → closer target byName x y = true.
Proof.
  intros Hc Hnd. unfold sortClosestEntries. rewrite (proj2 (Z.leb_gt _ _)) by lia.
  set (less := fun i j => closer target byName (e_Node (deref rt i)) (e_Node (deref rt j))).
  set (sorted := sort_Slice less all). set (node := fun l => e_Node (deref rt l)).
  assert (sorted ≡ₚ all) as Hperm by apply sort_Slice_perm.
  assert (len sorted = len all) as Hlen by (unfold len; by rewrite Hperm).
  assert (StronglySorted (fun a b => closer target byName a b = true) (node <$> sorted)) as Hs.
  { apply StronglySorted_fmap. apply (sorted_strict less (id_of (heap rt))).
    - intros x y. apply closer_total.
    - by rewrite Hperm.
    - apply sort_Slice_sorted. apply (on_swo node), closer_swo. }
  set (cut := if count <? len sorted then take (Z.to_nat count) sorted else sorted).
  assert (cut ++ drop (Z.to_nat count) sorted = sorted ∧ len cut = Z.min count (len all)) as [Hcut Hl].
  { unfold cut. rewrite Hlen. unfold len in *. case_match eqn:E; bool_prop.
    - split; [apply take_drop|]. rewrite length_take. lia.
    - rewrite drop_ge by lia. rewrite app_nil_r. split; [done|]. lia. }
  exists (node <$> drop (Z.to_nat count) sorted). rewrite <- Hcut, fmap_app in Hs.
  apply StronglySorted_split in Hs as [Hs1 Hs2]. change (map node cut) with (node <$> cut). repeat split.
  - by rewrite <- fmap_app, Hcut, Hperm.
  - unfold len in *. by rewrite length_fmap.
  - done.
  - done.
Qed.

(** C12: [ClosestNodes] and [ClosestNodesByNameHash] return the closest active
    peers.  In a reachable table, for a positive count the result holds
    min(count, number of indexed peers) distinct peers of the index, in
    strictly increasing order of (XOR distance, NodeID), and no indexed peer
    left out precedes one returned, whatever [sort.Slice] does. *)
Theorem closest_nodes_nearest `{NetIP, RFC3339, Ed25519} (selfID target : string) (rt : RoutingTable)
    (count : Z) (byName : bool) :
  reachable selfID rt → 0 < count →
  let index := if byName then NameBuckets rt else Buckets rt in
  let out := if byName then ClosestNodesByNameHash rt target count else ClosestNodes rt target count in
  ∃ rest,
    out ++ rest ≡ₚ (fun l => e_Node (deref rt l)) <$> concat index ∧
    len out = Z.min count (len (concat index)) ∧
    StronglySorted (fun a b => closer target byName a b = true) out ∧
    ∀ x y, x ∈ out → y ∈ rest →
      xorDistance (sort_coordinate x byName) target <= xorDistance (sort_coordinate y byName) target.
Proof.
  intros Hok%reachable_ok Hc index out.
  destruct (sortClosestEntries_spec rt (concat index) target count byName Hc) as (rest & Hp & Hl & Hs & Hr).
  { unfold index. destruct byName; apply Hok. }
  assert (out = sortClosestEntries rt (concat index) target count byName) as ->.
  { unfold out, index, ClosestNodesByNameHash, ClosestNodes, closestFrom.
    by destruct byName; rewrite (proj2 (Z.leb_gt _ _)) by lia. }
  exists rest. repeat split; try done. intros x y Hx Hy. specialize (Hr x y Hx Hy). unfold closer in Hr.
  destruct (_ =? _) eqn:E; cbn [negb] in Hr; bool_prop; lia.
Qed.
End Queries.

(** ** Network diversity *)
Section DiversityProps.
Context `{UnicodeTables, NetIP, RFC3339, Ed25519, GoSort}.
Variable resolve : string → option string.
Abbreviation keys_of n := (peerDiversityKeys resolve (n_Addr n)).

Lemma diversity_loop_covers entries : ∀ seen e key,
  e ∈ entries → key ∈ keys_of (e_Node e) →
  key ∈ seen ∨ ∃ c, c ∈ diversity_loop resolve entries seen ∧ key ∈ keys_of c.
Proof.
  induction entries as [|x entries IH]; intros seen e key He Hk; [by apply elem_of_nil in He|].
  cbn [diversity_loop]. destruct (existsb _ _) eqn:Ex; cbn [negb].
  - apply elem_of_cons in He as [->|He].
    + right. exists (e_Node x). split; [left|done].
    + destruct (IH (list_to_set (keys_of (e_Node x)) ∪ seen) e key He Hk) as [Hin|(c & Hc & Hk')].
      * apply elem_of_union in Hin as [Hin%elem_of_list_to_set|?]; [|by left].
        right. exists (e_Node x). split; [left|done].
      * right. exists c. split; [by right|done].
  - apply elem_of_cons in He as [->|He]; [|by apply (IH _ e)]. left.
    rewrite <- not_true_iff_false, existsb_exists in Ex. destruct (decide (key ∈ seen)); [done|].
    destruct Ex. exists key. split; [by apply list_elem_of_In|]. by rewrite bool_decide_eq_false_2.
Qed.

Lemma diversity_loop_new entries : ∀ (seen : gset string) pre c post,
  diversity_loop resolve entries seen = pre ++ c :: post →
  ∃ key, key ∈ keys_of c ∧ key ∉ seen ∧ ∀ c', c' ∈ pre → key ∉ keys_of c'.
Proof.
  induction entries as [|x entries IH]; intros seen pre c post; cbn [diversity_loop]; [by destruct pre|].
  destruct (existsb _ _) eqn:Ex; cbn [negb]; [|apply IH].
  destruct pre as [|c0 pre]; cbn.
  - intros [= <- _]. apply existsb_exists in Ex as (key & Hk%list_elem_of_In & Hs).
    apply negb_true_iff, bool_decide_eq_false in Hs. exists key. split; [done|]. split; [done|].
    by intros c' ?%elem_of_nil.
  - intros [= <- E]. destruct (IH _ _ _ _ E) as (key & Hk & Hs & Hpre).
    rewrite not_elem_of_union, elem_of_list_to_set in Hs. destruct Hs as [Hs1 Hs2].
    exists key. split; [done|]. split; [done|]. intros c' [->|Hc']%elem_of_cons; auto.
Qed.

Lemma diversity_loop_sub entries : ∀ seen c, c ∈ diversity_loop resolve entries seen →
  ∃ e, e ∈ entries ∧ c = e_Node e.
Proof.
  induction entries as [|x entries IH]; intros seen c; cbn [diversity_loop]; [by intros ?%elem_of_nil|].
  destruct (negb _).
  - intros (e & ? & ?)%IH. exists e. split; [by right|done].
  - intros [->|(e & ? & ?)%IH]%elem_of_cons; [exists x; split; [left|done]|exists e; split; [by right|done]].
Qed.

(** The diversity contacts are active peers that cover every network the
    active peers are in (IPv6 /48 prefix or ASN), and each contact adds a
    network that no earlier contact has; for any iteration order of the peer
    map and any sort. *)
Theorem diversity_contacts_cover (selfID : string) (rt : RoutingTable) (keys : list string) :
  reachable selfID rt → keys ≡ₚ (map_to_list (peerByID rt)).*1 →
  let contacts := DiversityContacts resolve rt keys in
  (∀ n, n ∈ contacts → n ∈ active_nodes rt) ∧
  (∀ n key, n ∈ active_nodes rt → key ∈ keys_of n → ∃ c, c ∈ contacts ∧ key ∈ keys_of c) ∧
  (∀ pre c post, contacts = pre ++ c :: post →
     ∃ key, key ∈ keys_of c ∧ ∀ c', c' ∈ pre → key ∉ keys_of c').
Proof.
  intros Hok%reachable_ok Hkeys contacts. unfold contacts, DiversityContacts.
  set (entries := sort_Slice diversity_less _).
  assert (∀ e, e ∈ entries ↔ ∃ l, l ∈ concat (Buckets rt) ∧ e = deref rt l) as Hent.
  { intros e. unfold entries. rewrite sort_Slice_perm, list_elem_of_In, filter_In, <- list_elem_of_In.
    split.
    - intros [(l & -> & (id & _ & Hl)%list_elem_of_omap)%list_elem_of_fmap Hin].
      exists l. split; [|done]. change (n_ID (e_Node (deref rt l))) with (id_of (heap rt) l) in Hin.
      rewrite (proj2 (ok_peer _ Hok _ _ Hl)) in Hin. by apply (ok_in_buckets _ _ _ Hok Hl).
    - intros (l & Hl & ->). destruct (ok_active _ Hok _ Hl) as [Hp _]. split.
      + apply list_elem_of_fmap. exists l. split; [done|]. apply list_elem_of_omap.
        exists (id_of (heap rt) l). split; [|done]. rewrite Hkeys. apply list_elem_of_fmap.
        exists (id_of (heap rt) l, l). split; [done|]. by apply elem_of_map_to_list.
      + apply inIndexLocked_spec, list_elem_of_fmap. by exists l. }
  split; [|split].
  - intros n (e & (l & Hl & ->)%Hent & ->)%diversity_loop_sub. apply list_elem_of_fmap. by exists l.
  - intros n key (l & -> & Hl)%list_elem_of_fmap Hk.
    destruct (diversity_loop_covers entries ∅ (deref rt l) key) as [Hs|?]; [apply Hent; eauto|done| |done].
    by apply not_elem_of_empty in Hs.
  - intros pre c post (key & Hk & _ & Hpre)%diversity_loop_new. eauto.
Qed.
End DiversityProps.

(** ** Bucket refresh *)
Section Refresh.
Context `{UnicodeTables}.
Variables (now limit : Z) (draw : bool → Z → option Z).
Hypothesis draw_range : ∀ byName b r, draw byName b = Some r → 0 <= r < 2 ^ b.

(** A target: its bucket is in use and was not refreshed in the last half
    interval; the key of an ID target lies in the bucket. *)
Definition good_target (rt : RoutingTable) (t : RefreshTarget) : Prop :=
  let i := Z.to_nat (rf_Bucket t) in
  0 <= rf_Bucket t <= 255 ∧
  (if rf_NameHash t then NameBuckets rt else Buckets rt) !!! i ≠ [] ∧
  bucketRefreshInterval / 2 <=
    Sub now ((if rf_NameHash t then lastNameRefresh rt else lastIDRefresh rt) !!! i) ∧
  (rf_NameHash t = false → bucket_of (SelfID rt) (rf_Key t) = rf_Bucket t).

Lemma refresh_fold (rt : RoutingTable) (byName : bool) (r0 : list Z) js :
  r0 = (if byName then lastNameRefresh rt else lastIDRefresh rt) → NoDup js →
  Forall (fun i => (i < 256)%nat) js →
  ∀ ts r ts' r', (∀ i, i ∈ js → r !!! i = r0 !!! i) → len ts <= limit →
  Forall (good_target rt) ts →
  foldl (refresh_bucket now limit byName (if byName then SelfNameHash rt else SelfID rt)
           (if byName then NameBuckets rt else Buckets rt) draw) (ts, r) js = (ts', r') →
  len ts' <= limit ∧ Forall (good_target rt) ts'.
Proof.
  intros Hr0. induction js as [|i js IH]; intros Hnd Hlt ts r ts' r' Hr Hlen Hts; cbn [foldl].
  { by intros [= <- <-]. }
  apply NoDup_cons in Hnd as [Hi Hnd]. apply Forall_cons in Hlt as [Hi256 Hlt].
  destruct (refresh_bucket _ _ _ _ _ _ (ts, r) i) as [ts1 r1] eqn:E.
  assert ((∀ j, j ∈ js → r1 !!! j = r0 !!! j) ∧ len ts1 <= limit ∧ Forall (good_target rt) ts1)
    as (Hr1 & Hlen1 & Hts1); [|by apply IH].
  assert (∀ j, j ∈ js → r !!! j = r0 !!! j) as Hrest by (intros; apply Hr; by right).
  unfold refresh_bucket in E. destruct (negb _) eqn:E1; [by simplify_eq|].
  destruct (_ || _) eqn:E2; [by simplify_eq|]. destruct (_ <? _ / 2) eqn:E3; [by simplify_eq|].
  destruct (draw byName (Z.of_nat i)) as [x|] eqn:Ed; [|by simplify_eq].
  injection E as <- <-. bool_prop. split; [|split].
  - intros j Hj. rewrite list_lookup_total_insert_ne by (intros ->; done). auto.
  - rewrite len_app. change (len [_]) with 1. lia.
  - apply Forall_app. split; [done|]. constructor; [|constructor]. unfold good_target. cbn [rf_Bucket rf_NameHash rf_Key].
    rewrite Nat2Z.id.
    split; [lia|]. split; [intros E0; match goal with H : len _ ≠ 0 |- _ => by rewrite E0 in H end|].
    split; [rewrite <- Hr0, <- Hr by left; done|].
    intros ->. apply refresh_target_in_bucket; [lia|]. eauto.
Qed.

Lemma refresh_pass_good rt (byName : bool) ts rt1 ts' rt' :
  SelfID rt1 = SelfID rt → SelfNameHash rt1 = SelfNameHash rt → Buckets rt1 = Buckets rt →
  NameBuckets rt1 = NameBuckets rt →
  (if byName then lastNameRefresh rt1 = lastNameRefresh rt else lastIDRefresh rt1 = lastIDRefresh rt) →
  len ts <= limit → Forall (good_target rt) ts →
  refresh_pass now limit draw byName (ts, rt1) = (ts', rt') →
  len ts' <= limit ∧ Forall (good_target rt) ts' ∧
  (if byName then lastIDRefresh rt' = lastIDRefresh rt1 else lastNameRefresh rt' = lastNameRefresh rt1) ∧
  SelfID rt' = SelfID rt ∧ SelfNameHash rt' = SelfNameHash rt ∧ Buckets rt' = Buckets rt ∧
  NameBuckets rt' = NameBuckets rt.
Proof.
  intros E1 E2 E3 E4 E5 Hlen Hts. unfold refresh_pass. rewrite E1, E2, E3, E4.
  assert (NoDup (rev (seq 0 256)) ∧ Forall (fun i => (i < 256)%nat) (rev (seq 0 256))) as [Hnd Hlt].
  { split; [by apply NoDup_ListNoDup, NoDup_rev, seq_NoDup|].
    apply Forall_rev, Forall_forall. intros i Hi%elem_of_seq. lia. }
  destruct (negb _); [by intros [= <- <-]; destruct byName|]. destruct byName.
  - destruct (_ =?s ""); [by intros [= <- <-]|]. rewrite E5.
    destruct (foldl _ _ _) as [ts1 r1] eqn:Ef. intros [= <- <-].
    destruct (refresh_fold rt true _ _ eq_refl Hnd Hlt ts (lastNameRefresh rt) ts1 r1) as [? ?]; done.
  - rewrite E5. destruct (foldl _ _ _) as [ts1 r1] eqn:Ef. intros [= <- <-].
    destruct (refresh_fold rt false _ _ eq_refl Hnd Hlt ts (lastIDRefresh rt) ts1 r1) as [? ?]; done.
Qed.

(** [RefreshTargets] returns at most [limit] targets, each for a bucket
    that holds peers and was not refreshed within the last half interval, and
    the key of every ID target lies in the bucket it refreshes. *)
Theorem refresh_targets_good (rt : RoutingTable) :
  0 <= limit →
  len (RefreshTargets rt now limit draw).1 <= limit ∧
  Forall (good_target rt) (RefreshTargets rt now limit draw).1.
Proof.
  intros Hl. unfold RefreshTargets. destruct (limit <=? 0) eqn:E; [by split; [|constructor]|]. bool_prop.
  destruct (refresh_pass now limit draw (refreshNameNext rt) ([], rt)) as [ts1 rt1] eqn:E1.
  destruct (refresh_pass_good rt (refreshNameNext rt) [] rt ts1 rt1) as (L1 & G1 & R1 & S1 & S2 & S3 & S4);
    try done; [by destruct (refreshNameNext rt)|].
  destruct (refresh_pass now limit draw (negb (refreshNameNext rt)) (ts1, rt1)) as [ts2 rt2] eqn:E2.
  destruct (refresh_pass_good rt (negb (refreshNameNext rt)) ts1 rt1 ts2 rt2) as (L2 & G2 & _); try done.
  by destruct (refreshNameNext rt).
Qed.
End Refresh.
