(* ===== verification/RoutingLimit.v ===== *)
(** * The candidate limit and the liveness rule of the routing table

    [addCandidate] bounds the pending candidates through [pendingN].  Refreshing
    a pending candidate decrements the counter without incrementing it again,
    so the counter drifts below the number of candidates and the bound of 512
    does not hold.  The second part states the liveness rule: an active peer
    goes offline only after three failed probes at least five minutes apart. *)
From S2P Require Import Prelude GoBytes GoStrings GoEncoding GoTime GoSort Sha256 GoEnv Lines Identity Record Proto NodeInfo Peer Routing RoutingIndex RoutingInv RoutingOps RoutingProps.

Section Candidates.
Context `{UnicodeTables}.

Lemma append_pending_total rt id l : table_ok rt → 0 <= bucketIndex rt id →
  ∃ rt', append_pending rt (bucketIndex rt id) l = Ok rt'.
Proof.
  intros Hok Hidx. unfold append_pending. rewrite (proj2 (Z.ltb_ge _ 0)) by done.
  destruct (lookup_lt_is_Some_2 (Pending rt) (Z.to_nat (bucketIndex rt id))) as [b ->]; [|eauto].
  rewrite (ix_length _ _ _ (ok_pendings _ Hok)). unfold bucketIndex in *.
  pose proof (bucket_of_range (SelfID rt) id). lia.
Qed.

Definition not_indexed (rt : RoutingTable) (id : string) : Prop :=
  inIndexLocked (heap rt) (Buckets rt) id = false ∧ inIndexLocked (heap rt) (NameBuckets rt) id = false.

(** Refreshing a pending candidate: the list keeps its length, the counter loses one. *)
Lemma AddCandidate_refresh rt node l : table_ok rt → ignorable rt node = false →
  0 <= bucketIndex rt (n_ID node) → not_indexed rt (n_ID node) →
  peerByID rt !! n_ID node = Some l → l ∈ concat (Pending rt) →
  ∃ rt', AddCandidate rt node = Ok rt' ∧ table_ok rt' ∧ pendingN rt' = pendingN rt - 1 ∧
    len (concat (Pending rt')) = len (concat (Pending rt)) ∧ l ∈ concat (Pending rt') ∧
    peerByID rt' = peerByID rt ∧ Buckets rt' = Buckets rt ∧ NameBuckets rt' = NameBuckets rt ∧ SelfID rt' = SelfID rt.
Proof.
  intros Hok Hi Hidx [Hb Hn] Hl Hin.
  pose proof (AddCandidate_quiet rt node) as Hq. unfold AddCandidate in *. rewrite Hi, Hb, Hn, Hl in *. cbn [orb] in *.
  unfold removePendingLocked in *.
  destruct (remove_pending (heap rt) (Pending rt) (n_ID node)) as [bs|] eqn:Er.
  2: { apply remove_pending_None in Er. destruct Er. by apply (ok_in_pending _ _ _ Hok Hl). }
  pose proof (remove_pending_concat _ _ _ _ (ix_nodup _ _ _ (ok_pendings _ Hok)) Er) as (Hc & _ & _ & _).
  destruct (ok_peer _ Hok _ _ Hl) as [Hlt Hid].
  set (rt1 := with_Pending rt bs (pendingN rt - 1)) in *.
  assert (table_ok rt1) as Hok1.
  { pose proof (removePending_ok rt (n_ID node) Hok) as Hr. unfold removePendingLocked in Hr. by rewrite Er in Hr. }
  assert (l ∉ concat (Buckets rt)) as Ha.
  { intros Hact%(ok_in_buckets _ _ _ Hok Hl). congruence. }
  assert (l ∉ concat bs) as Hnp by (rewrite Hc; by intros [? _]%list_elem_of_filter).
  set (rt2 := modify rt1 l (set_Node node)) in *.
  pose proof (quiet_set_node rt1 node l Hok1 Hl Ha) as Hq2. fold rt2 in Hq2.
  set (rt3 := with_offline rt2 (delete (n_ID node) (offline rt2))) in *.
  pose proof (delete_offline_ok rt2 (n_ID node) (q_ok _ _ Hq2)) as Hok3. fold rt3 in Hok3.
  destruct (append_pending_total rt3 (n_ID node) l Hok3 Hidx) as [rt' Happ].
  destruct (append_pending_ok rt3 rt' (n_ID node) l (pendingN rt3) Hok3 Hl Ha Hnp
              ltac:(apply lookup_delete_eq) Happ ltac:(lia)) as (Hok' & Hperm & E).
  exists rt'. change (bucketIndex rt3 (n_ID node)) with (bucketIndex rt (n_ID node)) in Happ.
  split; [exact Happ|]. split; [by apply (Hq rt' Hok Happ)|].
  assert (concat (Pending rt) ≡ₚ l :: concat bs) as Hold.
  { pose proof (ix_nodup _ _ _ (ok_pendings _ Hok)) as Hnd. rewrite Hc. revert Hin Hnd Hid. clear.
    generalize (concat (Pending rt)) as b. intros b Hin Hnd Hid.
    apply list_elem_of_split in Hin as (b1 & b2 & ->).
    rewrite fmap_app, fmap_cons in Hnd.
    apply NoDup_app in Hnd as (_ & Hd & [Hl2 _]%NoDup_cons). rewrite filter_app, filter_cons_False by naive_solver.
    rewrite !drop_id_absent; [by rewrite Permutation_middle| |].
    - by rewrite <- Hid.
    - intros Hin. apply (Hd _ Hin). rewrite <- Hid. left. }
  rewrite E. cbn. change (Pending rt3) with bs in Hperm. unfold len. rewrite Hperm, Hold. split; [done|].
  split; [done|]. split; [left|done].
Qed.

(** Adding an unknown candidate below the limit. *)
Lemma AddCandidate_new rt node : table_ok rt → ignorable rt node = false →
  0 <= bucketIndex rt (n_ID node) → not_indexed rt (n_ID node) →
  (peerByID rt !! n_ID node) = None → pendingN rt < maxPendingCandidates →
  ∃ rt' l, AddCandidate rt node = Ok rt' ∧ table_ok rt' ∧
    concat (Pending rt') ≡ₚ l :: concat (Pending rt) ∧
    peerByID rt' = <[n_ID node := l]> (peerByID rt) ∧ Buckets rt' = Buckets rt ∧
    NameBuckets rt' = NameBuckets rt ∧ SelfID rt' = SelfID rt.
Proof.
  intros Hok Hi Hidx [Hb Hn] Hl Hlim.
  pose proof (ignorable_false _ _ Hi) as (Hne & Hself & _).
  destruct (fresh_peer rt (new_entry node)) as (Hq1 & Hd & Ha & Hp & Ho); try done.
  set (l := List.length (heap rt)) in *. set (rt1 := with_peers _ _) in *.
  assert (peerByID rt1 !! n_ID node = Some l) as Hl1 by apply lookup_insert_eq.
  pose proof (quiet_plain rt1 (n_ID node) l (set_Transient false) (q_ok _ _ Hq1) Hl1 ltac:(done)) as Hq2.
  set (rt2 := modify rt1 l (set_Transient false)) in *.
  set (rt3 := with_offline rt2 (delete (n_ID node) (offline rt2))).
  pose proof (delete_offline_ok rt2 (n_ID node) (q_ok _ _ Hq2)) as Hok3. fold rt3 in Hok3.
  destruct (append_pending_total rt3 (n_ID node) l Hok3 Hidx) as [rt4 Happ].
  destruct (append_pending_ok rt3 rt4 (n_ID node) l (pendingN rt3) Hok3 Hl1 Ha Hp
              ltac:(apply lookup_delete_eq) Happ ltac:(lia)) as (_ & Hperm & E).
  assert (AddCandidate rt node = Ok (with_Pending rt4 (Pending rt4) (pendingN rt4 + 1))) as Hadd.
  { transitivity (append_pending rt3 (bucketIndex rt3 (n_ID node)) l ≫=
      fun rt => Ok (with_Pending rt (Pending rt) (pendingN rt + 1))); [|by rewrite Happ].
    unfold AddCandidate. rewrite Hi, Hb, Hn, Hl. cbn [orb]. by rewrite (proj2 (Z.leb_gt _ _)) by done. }
  eexists _, l. split; [exact Hadd|]. split; [by eapply (q_ok rt), AddCandidate_quiet|].
  cbn [Pending with_Pending peerByID Buckets NameBuckets SelfID]. split; [exact Hperm|]. rewrite E. done.
Qed.

(** ** Any number of candidates *)
Definition full_id (k : Z) : string := "vx6_" +:+ hex_encode (be_bytes 32 k).
Definition referral (k : Z) : NodeInfo :=
  mkNodeInfo 1 0 (full_id k) "" "" "[2001:db8::1]:4242" "" "" "" "".
Definition owner : string := full_id (2 ^ 255).

Fixpoint add_candidates (rt : RoutingTable) (nodes : list NodeInfo) : res RoutingTable :=
  match nodes with
  | [] => Ok rt
  | node :: rest => rt ← AddCandidate rt node; add_candidates rt rest
  end.

Lemma add_candidates_app rt rt1 a b : add_candidates rt a = Ok rt1 →
  add_candidates rt (a ++ b) = add_candidates rt1 b.
Proof.
  revert rt. induction a as [|n a IH]; intros rt; cbn; [by intros [= ->]|].
  intros (rt2 & -> & E)%res_bind_ok. cbn. by apply IH.
Qed.

Lemma full_id_inj j k : 0 <= j < 2 ^ 256 → 0 <= k < 2 ^ 256 → full_id j = full_id k → j = k.
Proof.
  intros Hj Hk E. unfold full_id in E. apply str_app_inj_l, hex_encode_inj in E.
  by apply (be_bytes_inj 32).
Qed.

Lemma full_id_bucket j k : 0 <= j < 2 ^ 256 → 0 <= k < 2 ^ 256 → j ≠ k → 0 <= bucket_of (full_id j) (full_id k).
Proof.
  intros Hj Hk Hne. pose proof (bucket_of_range (full_id j) (full_id k)).
  destruct (decide (bucket_of (full_id j) (full_id k) = -1)) as [E|]; [|lia].
  apply bucket_of_neg in E. unfold full_id in E. rewrite !routingIDBytes_hex in E by apply length_be_bytes.
  apply (be_bytes_inj 32) in E; done.
Qed.

Record holds (n : Z) (rt : RoutingTable) : Prop := {
  h_ok : table_ok rt;
  h_self : SelfID rt = owner;
  h_len : len (concat (Pending rt)) = n;
  h_idle : concat (Buckets rt) = [] ∧ concat (NameBuckets rt) = [];
  h_peers id l : peerByID rt !! id = Some l → ∃ k, 0 <= k < n ∧ id = full_id k;
  h_first : 0 < n → ∃ l, peerByID rt !! full_id 0 = Some l ∧ l ∈ concat (Pending rt);
}.

Lemma holds_facts n rt k : holds n rt → 0 <= k <= 2 ^ 200 →
  ignorable rt (referral k) = false ∧ 0 <= bucketIndex rt (full_id k) ∧ not_indexed rt (full_id k).
Proof.
  intros Hh Hk. assert (2 ^ 200 < 2 ^ 255) by (by vm_compute). assert (2 ^ 255 < 2 ^ 256) by (by vm_compute).
  repeat split.
  - unfold ignorable. cbn [n_ID n_Addr referral]. rewrite (h_self _ _ Hh).
    rewrite (proj2 (String.eqb_neq (full_id k) "")) by done.
    rewrite (proj2 (String.eqb_neq (full_id k) owner)); [done|].
    intros E%full_id_inj; lia.
  - unfold bucketIndex. rewrite (h_self _ _ Hh). apply full_id_bucket; lia.
  - apply inIndexLocked_false. rewrite (proj1 (h_idle _ _ Hh)). apply not_elem_of_nil.
  - apply inIndexLocked_false. rewrite (proj2 (h_idle _ _ Hh)). apply not_elem_of_nil.
Qed.

(** Refreshing the first candidate lowers the counter as far as needed. *)
Lemma lower_counter n m rt : holds n rt → 0 < n →
  ∃ rt', add_candidates rt (repeat (referral 0) m) = Ok rt' ∧ holds n rt' ∧
    pendingN rt' = pendingN rt - Z.of_nat m.
Proof.
  revert rt. induction m as [|m IH]; intros rt Hh Hn.
  { exists rt. split; [done|]. split; [done|lia]. }
  destruct (holds_facts n rt 0 Hh) as (Hi & Hb & Hx); [lia|].
  destruct (h_first _ _ Hh Hn) as (l & Hl & Hp).
  destruct (AddCandidate_refresh rt (referral 0) l) as (rt1 & E & Hok1 & Hcnt & Hlen & Hp1 & P1 & B1 & N1 & S1);
    [apply Hh|done..|].
  assert (holds n rt1) as Hh1.
  { destruct Hh as [? ? ? [? ?] ? ?]. split; rewrite ?P1, ?B1, ?N1, ?S1, ?Hlen; try done. eauto. }
  destruct (IH rt1 Hh1 Hn) as (rt2 & E2 & Hh2 & Hc2).
  exists rt2. cbn [repeat add_candidates]. rewrite E. split; [exact E2|]. split; [done|]. lia.
Qed.

Lemma one_more n rt : holds n rt → 0 <= n <= 2 ^ 200 →
  ∃ nodes rt', add_candidates rt nodes = Ok rt' ∧ holds (n + 1) rt'.
Proof.
  intros Hh Hn.
  assert (∃ nodes rt1, add_candidates rt nodes = Ok rt1 ∧ holds n rt1 ∧ pendingN rt1 < maxPendingCandidates)
    as (nodes & rt1 & E1 & Hh1 & Hlim).
  { unfold maxPendingCandidates. destruct (decide (pendingN rt < 512)) as [?|Hge]; [by exists [], rt|].
    assert (0 < n) by (pose proof (ok_count _ (h_ok _ _ Hh)); rewrite (h_len _ _ Hh) in *; lia).
    destruct (lower_counter n (Z.to_nat (pendingN rt)) rt Hh) as (rt1 & E & Hh1 & Hc); [done|].
    eexists _, rt1. split; [exact E|]. split; [done|]. lia. }
  destruct (holds_facts n rt1 n Hh1 Hn) as (Hi & Hb & Hx).
  assert (2 ^ 200 < 2 ^ 256) by (by vm_compute).
  destruct (AddCandidate_new rt1 (referral n)) as (rt2 & l & E2 & Hok2 & Hperm & P2 & B2 & N2 & S2);
    [apply Hh1|done..| |done|].
  { cbn. destruct (peerByID rt1 !! full_id n) as [l|] eqn:El; [|done].
    destruct (h_peers _ _ Hh1 _ _ El) as (k & Hk & E). apply full_id_inj in E; lia. }
  exists (nodes ++ [referral n]), rt2. split.
  { rewrite (add_candidates_app _ _ _ _ E1). cbn. by rewrite E2. }
  destruct Hh1 as [? HS HL [? ?] HP HF]. split; rewrite ?B2, ?N2, ?S2; try done.
  - unfold len in *. rewrite Hperm. cbn [List.length]. lia.
  - rewrite P2. intros id l' [[<- <-]|[_ Hl']]%lookup_insert_Some; [exists n; split; [lia|done]|].
    destruct (HP _ _ Hl') as (k & ? & ?). exists k. split; [lia|done].
  - intros _. rewrite P2. destruct (decide (n = 0)) as [->|].
    + exists l. split; [apply lookup_insert_eq|]. rewrite Hperm. left.
    + destruct HF as (l0 & Hl0 & Hp0); [lia|]. exists l0. split; [|rewrite Hperm; by right].
      rewrite lookup_insert_ne; [done|]. intros E%full_id_inj; lia.
Qed.

(** The limit of 512 pending candidates does not hold.  By referring
    distinct nodes and repeating referrals of one of them, [AddCandidate] takes
    a new table to any number of pending candidates up to [2^200]: refreshing a
    pending candidate decrements the counter the limit is checked against and
    leaves the candidate in the list. *)
Theorem candidate_limit_defeated (n : nat) :
  Z.of_nat n <= 2 ^ 200 →
  ∃ nodes rt, add_candidates (NewRoutingTable owner) nodes = Ok rt ∧
    len (concat (Pending rt)) = Z.of_nat n.
Proof.
  intros Hn. enough (∃ nodes rt, add_candidates (NewRoutingTable owner) nodes = Ok rt ∧ holds (Z.of_nat n) rt)
    as (nodes & rt & E & Hh) by (exists nodes, rt; split; [done|apply Hh]).
  induction n as [|n IH].
  - exists [], (NewRoutingTable owner). split; [done|]. split; [apply NewRoutingTable_ok|done..| |].
    + intros id l. cbn. by rewrite lookup_empty.
    + lia.
  - destruct IH as (nodes & rt & E & Hh); [lia|]. destruct (one_more _ _ Hh) as (more & rt' & E' & Hh'); [lia|].
    exists (nodes ++ more), rt'. split; [by rewrite (add_candidates_app _ _ _ _ E)|].
    by replace (Z.of_nat (S n)) with (Z.of_nat n + 1) by lia.
Qed.
End Candidates.

(** ** The liveness rule *)
Section Liveness.
Context `{UnicodeTables}.

Lemma removePeer_deref rt id l : deref (removePeerIfUnindexedLocked rt id) l = deref rt l ∧
  (∀ l', peerByID (removePeerIfUnindexedLocked rt id) !! id = Some l' → peerByID rt !! id = Some l') ∧
  List.length (heap (removePeerIfUnindexedLocked rt id)) = List.length (heap rt).
Proof.
  assert (removePeerIfUnindexedLocked rt id = rt ∨
          removePeerIfUnindexedLocked rt id = with_peers rt (delete id (peerByID rt))) as [-> | ->].
  { unfold removePeerIfUnindexedLocked. repeat case_match; auto. }
  - done.
  - split; [done|]. split; [|done]. cbn. by intros l' [? ?]%lookup_delete_Some.
Qed.

Lemma mark_offline_counters now e : e_ProbeMisses (mark_offline now e) = e_ProbeMisses e ∧
  e_LastProbeFailure (mark_offline now e) = e_LastProbeFailure e.
Proof. unfold mark_offline. by destruct (IsZero _). Qed.

(** Retiring a peer changes neither counter and enters no other peer. *)
Lemma retire_entry rt l id now :
  (l < List.length (heap rt))%nat →
  let rt' := (retire rt l id now).1 in
  (∀ l', peerByID rt' !! id = Some l' → peerByID rt !! id = Some l') ∧
  List.length (heap rt') = List.length (heap rt) ∧
  e_ProbeMisses (deref rt' l) = e_ProbeMisses (deref rt l) ∧
  e_LastProbeFailure (deref rt' l) = e_LastProbeFailure (deref rt l).
Proof.
  intros Hlt rt'. set (rt1 := unindex rt id).
  assert (peerByID rt1 = peerByID rt ∧ heap rt1 = heap rt) as [Hp1 Hh1] by done.
  assert (deref (modify rt1 l (mark_offline now)) l = mark_offline now (deref rt l)) as Hd
    by (by rewrite deref_modify_same).
  destruct (mark_offline_counters now (deref rt l)) as [E1 E2].
  assert (rt' = (let removed := inIndexLocked (heap rt) (NameBuckets rt) id || inIndexLocked (heap rt) (Buckets rt) id in
    if removed then
      let rt2 := modify rt1 l (mark_offline now) in
      removePeerIfUnindexedLocked (with_offline rt2 (<[id := l]> (offline rt2))) id
    else if staleFailureThreshold <=? e_ProbeMisses (deref rt1 l) then
      let rt2 := (removePendingLocked rt1 id).1 in
      if (0 <? e_SuccessCount (deref rt2 l)) || e_Pinned (deref rt2 l) then
        let rt3 := modify rt2 l (mark_offline now) in with_offline rt3 (<[id := l]> (offline rt3))
      else with_peers rt2 (delete id (peerByID rt2))
    else rt1)) as ->.
  { unfold rt', retire. cbv zeta. cbn [fst snd removeFromIndexLocked].
    destruct (_ || inIndexLocked _ (Buckets rt) _); [done|]. destruct (_ <=? _); [|done]. by rewrite fst_if. }
  cbv zeta. clearbody rt1. destruct (_ || _).
  - set (rt2 := with_offline _ _). destruct (removePeer_deref rt2 id l) as (Hd2 & Hp & Hl).
    assert (deref rt2 l = mark_offline now (deref rt l)) as Hd3 by exact Hd. rewrite Hd2, Hl, Hd3.
    split; [|split; [cbn; by rewrite length_insert, Hh1|done]].
    intros l' Hl'%Hp. cbn in Hl'. by rewrite Hp1 in Hl'.
  - assert (deref rt1 l = deref rt l) as Hd1 by (unfold deref; by rewrite Hh1).
    destruct (_ <=? _); [|by rewrite Hp1, Hh1, Hd1].
    destruct (removePending_frame rt1 id) as (bs & n & ->). destruct (_ || _).
    + set (rt2 := with_offline _ _).
      assert (deref rt2 l = mark_offline now (deref rt l)) as -> by exact Hd.
      cbn. rewrite length_insert, Hh1, Hp1. done.
    + cbn. rewrite Hh1, Hp1. unfold deref in *. cbn. rewrite Hd1. split; [|done].
      by intros l' [? ?]%lookup_delete_Some.
Qed.

(** The effect of a failed probe on the counters of its entry: within the
    interval it counts for nothing, later it is one more miss. *)
Lemma failed_probe_entry rt id l now rt' b :
  (l < List.length (heap rt))%nat → peerByID rt !! id = Some l →
  RecordLivenessResult rt id now false = (rt', b) →
  let e := deref rt l in let e' := deref rt' l in
  (∀ l', peerByID rt' !! id = Some l' → l' = l) ∧ List.length (heap rt') = List.length (heap rt) ∧
  ((b = false ∧ e_ProbeMisses e' = e_ProbeMisses e ∧ e_LastProbeFailure e' = e_LastProbeFailure e) ∨
   ((e_LastProbeFailure e = 0 ∨ livenessProbeInterval <= Sub now (e_LastProbeFailure e)) ∧
    e_ProbeMisses e' <= e_ProbeMisses e + 1 ∧ e_LastProbeFailure e' = now ∧
    (b = true → 3 <= e_ProbeMisses e'))).
Proof.
  intros Hlt Hl. unfold RecordLivenessResult. rewrite Hl. cbv zeta.
  set (rt1 := modify (modify rt l (set_LastProbe now)) l (set_NextProbeAt (Add now livenessProbeInterval))).
  assert (List.length (heap rt1) = List.length (heap rt)) as Hlen1 by (unfold rt1; cbn; by rewrite !length_insert).
  assert (deref rt1 l = set_NextProbeAt (Add now livenessProbeInterval) (set_LastProbe now (deref rt l))) as Hd1.
  { unfold rt1. rewrite !deref_modify_same; [done|done|]. cbn. by rewrite length_insert. }
  rewrite !Hd1. cbn [e_LastProbeFailure set_NextProbeAt set_LastProbe].
  assert (peerByID rt1 = peerByID rt) as Hp1 by done.
  destruct (negb (IsZero _) && _) eqn:E.
  { intros [= <- <-]. split; [rewrite Hp1; congruence|]. split; [done|]. left. by rewrite Hd1. }
  assert (e_LastProbeFailure (deref rt l) = 0 ∨
          livenessProbeInterval <= Sub now (e_LastProbeFailure (deref rt l))) as Hsp.
  { apply andb_false_iff in E as [E|E]; unfold IsZero in E; bool_prop; auto. }
  set (rt2 := modify rt1 l (note_miss now)).
  assert (List.length (heap rt2) = List.length (heap rt)) as Hlen2 by (unfold rt2; cbn; by rewrite length_insert).
  assert (e_ProbeMisses (deref rt2 l) <= e_ProbeMisses (deref rt l) + 1 ∧ e_LastProbeFailure (deref rt2 l) = now)
    as [Hm Hf].
  { unfold rt2. rewrite deref_modify_same, Hd1 by lia. unfold note_miss. cbn. destruct (_ <? max_u8); cbn; lia. }
  destruct (e_ProbeMisses (deref rt2 l) <? staleFailureThreshold) eqn:E3.
  { intros [= <- <-]. split; [cbn; rewrite Hl; congruence|]. split; [done|]. right. done. }
  bool_prop. unfold staleFailureThreshold in E3. intros E4.
  destruct (retire_entry rt2 l id now) as (A & B & C & D); [lia|]. rewrite E4 in *. cbn [fst] in *.
  split; [intros l' Hl'%A; cbn in Hl'; congruence|]. split; [congruence|]. right. rewrite C, D. done.
Qed.

Definition fail_probes (rt : RoutingTable) (id : string) (ts : list Z) : RoutingTable :=
  foldl (fun rt t => (RecordLivenessResult rt id t false).1) rt ts.

Fixpoint spaced (ts : list Z) : Prop :=
  match ts with
  | t1 :: ((t2 :: _) as rest) => livenessProbeInterval <= Sub t2 t1 ∧ spaced rest
  | _ => True
  end.

Lemma spaced_snoc c t : spaced c → (c = [] ∨ livenessProbeInterval <= Sub t (default 0 (last c))) →
  spaced (c ++ [t]).
Proof.
  induction c as [|x c IH]; [done|]. destruct c as [|y c].
  - intros _ [?|?]; [done|]. by split.
  - intros [Hxy Hs] [?|Hl]; [done|]. cbn [app spaced] in *. split; [done|]. apply IH; [done|]. by right.
Qed.

(** The misses of an entry are witnessed by spaced failures. *)
Definition misses_witnessed (rt : RoutingTable) (id : string) (l : nat) (ts : list Z) : Prop :=
  (l < List.length (heap rt))%nat ∧ (∀ l', peerByID rt !! id = Some l' → l' = l) ∧
  ∃ c, c `sublist_of` ts ∧ spaced c ∧ e_ProbeMisses (deref rt l) <= len c ∧
    e_LastProbeFailure (deref rt l) = default 0 (last c).

Lemma failed_probe_witnessed rt id l ts t rt' b : Forall (fun t => t ≠ 0) ts →
  misses_witnessed rt id l ts → RecordLivenessResult rt id t false = (rt', b) →
  misses_witnessed rt' id l (ts ++ [t]) ∧
  (b = true → ∃ t1 t2, [t1; t2] `sublist_of` ts ∧ livenessProbeInterval <= Sub t2 t1 ∧
     livenessProbeInterval <= Sub t t2).
Proof.
  intros Hnz (Hlt & Hp & c & Hc & Hs & Hm & Hf) E.
  assert (c `sublist_of` ts ++ [t]) as Hc' by (by apply sublist_inserts_r).
  destruct (peerByID rt !! id) as [l'|] eqn:Hl.
  2: { unfold RecordLivenessResult in E. rewrite Hl in E. injection E as <- <-.
       split; [|done]. split; [done|]. rewrite Hl. split; [done|]. by exists c. }
  assert (l' = l) as -> by auto.
  destruct (failed_probe_entry rt id l t rt' b Hlt Hl E) as (A & B & [(-> & C & D)|(Hsp & C & D & F)]).
  - split; [|done]. split; [lia|]. split; [done|]. exists c. by rewrite C, D.
  - assert (c = [] ∨ livenessProbeInterval <= Sub t (default 0 (last c))) as Hgap.
    { destruct Hsp as [E0|?]; [left|right; by rewrite <- Hf]. destruct (last c) as [x|] eqn:El; [|by apply last_None].
      exfalso. apply last_Some in El as [c0 ->]. cbn in Hf.
      rewrite Forall_forall in Hnz. apply (Hnz x); [|congruence].
      eapply elem_of_sublist; [|exact Hc]. apply elem_of_app. right. left. }
    split.
    + split; [lia|]. split; [done|]. exists (c ++ [t]). split; [by apply sublist_app|].
      split; [by apply spaced_snoc|]. rewrite D, last_snoc, len_app. change (len [t]) with 1. split; [lia|done].
    + intros ->. specialize (F eq_refl). assert (2 <= len c) as H2 by lia. clear -H2 Hc Hs Hgap.
      destruct (last c) as [t2|] eqn:El; [|apply last_None in El as ->; by vm_compute in H2].
      apply last_Some in El as [c1 ->]. destruct (last c1) as [t1|] eqn:El1; [|apply last_None in El1 as ->; by vm_compute in H2].
      apply last_Some in El1 as [c2 ->].
      exists t1, t2. split; [|split].
      * etrans; [|exact Hc]. rewrite <- app_assoc. apply sublist_inserts_l. done.
      * clear -Hs. rewrite <- app_assoc in Hs. cbn [app] in Hs. induction c2 as [|x c2 IH]; [apply Hs|].
        apply IH. cbn [app] in Hs. destruct (c2 ++ [t1; t2]); [done|]. apply Hs.
      * destruct Hgap as [Hn|?]; [by destruct c2|done].
Qed.

(** C36: An active peer goes offline only after three spaced failures.  If a
    peer of a reachable table has no recorded miss, and after probes that
    failed at the times [ts] a probe failing at [now] takes it out of the
    active buckets, then two of the earlier failures are at least five minutes
    apart and the last one is at least five minutes before [now]. *)
Theorem offline_needs_three_spaced_misses `{NetIP, RFC3339, Ed25519, GoSort}
    (selfID id : string) (rt rt' : RoutingTable) (l : nat) (ts : list Z) (now : Z) :
  reachable selfID rt → peerByID rt !! id = Some l →
  e_ProbeMisses (deref rt l) = 0 → e_LastProbeFailure (deref rt l) = 0 →
  Forall (fun t => t ≠ 0) ts →
  RecordLivenessResult (fail_probes rt id ts) id now false = (rt', true) →
  ∃ t1 t2, [t1; t2] `sublist_of` ts ∧
    livenessProbeInterval <= Sub t2 t1 ∧ livenessProbeInterval <= Sub now t2.
Proof.
  intros Hok%reachable_ok Hl Hm Hf Hnz.
  assert (misses_witnessed rt id l []) as Hw0.
  { split; [apply (ok_peer _ Hok _ _ Hl)|]. split; [congruence|]. exists []. by rewrite Hm, Hf. }
  assert (misses_witnessed (fail_probes rt id ts) id l ts) as Hw.
  { unfold fail_probes. clear Hok Hl Hm Hf. induction ts as [|t ts IH] using rev_ind; [done|].
    apply Forall_app in Hnz as [Hnz _]. rewrite foldl_app. cbn [foldl].
    set (rt1 := foldl _ rt ts) in *. destruct (RecordLivenessResult rt1 id t false) as [rt2 b] eqn:E.
    exact (proj1 (failed_probe_witnessed rt1 id l ts t rt2 b Hnz (IH Hnz) E)). }
  intros E. exact (proj2 (failed_probe_witnessed _ id l ts now rt' true Hnz Hw E) eq_refl).
Qed.
End Liveness.
