(* ===== verification/RoutingDemo.v ===== *)
(** * Concrete runs of the routing table

    A small table built by its operations, on which the routing theorems are
    instantiated. *)
From S2P Require Import Prelude GoBytes GoStrings GoEncoding GoTime GoSort Sha256 GoEnv Lines Identity Record RecordProps Proto NodeInfo Peer Routing RoutingIndex RoutingInv RoutingOps RoutingProps RoutingQuery RoutingLimit.

(** Identifiers of full length, whose coordinates are their digits. *)
Definition id_a : string := "vx6_aaaaaaaaaaaaaaaaaaaaaaaaaaaaaaaaaaaaaaaaaaaaaaaaaaaaaaaaaaaaaaaa".
Definition id_b : string := "vx6_bbbbbbbbbbbbbbbbbbbbbbbbbbbbbbbbbbbbbbbbbbbbbbbbbbbbbbbbbbbbbbbb".
Definition id_c : string := "vx6_cccccccccccccccccccccccccccccccccccccccccccccccccccccccccccccccc".
Definition id_self : string := "vx6_0123456789abcdef0123456789abcdef0123456789abcdef0123456789abcdef".
Definition demo_node (id addr : string) : NodeInfo := mkNodeInfo 1 0 id "" "" addr "" "" "" "".
Definition node_a := demo_node id_a "[2001:db8::1]:1".
Definition node_b := demo_node id_b "[2001:db8::2]:1".
Definition node_c := demo_node id_c "[2001:db8::2]:2".
Definition t0 : Z := 1000 * Hour.

Definition self_hash : string := "5555555555555555555555555555555555555555555555555555555555555555".
Definition table0 : RoutingTable := SetSelfNameHash (NewRoutingTable id_self) self_hash [].
Definition table1 : RoutingTable := AddNode table0 node_a t0.
Definition table2 : RoutingTable := AddNode table1 node_b t0.
Definition table3 : RoutingTable :=
  match AddCandidate table2 node_c with Ok rt => rt | _ => table2 end.

Lemma table1_reachable : reachable id_self table1.
Proof.
  eapply (reach_step _ table0 (OpAddNode node_a t0)); [|by split].
  eapply (reach_step _ _ (OpSetSelfNameHash self_hash [])); [apply reach_new|by split].
Defined.
Lemma table3_reachable : reachable id_self table3.
Proof.
  eapply (reach_step _ table2 (OpAddCandidate node_c)); [|split; [exact I|vm_compute; reflexivity]].
  eapply (reach_step _ table1 (OpAddNode node_b t0)); [apply table1_reachable|by split].
Defined.

Lemma routing_table_invariant_witness : table_ok table3.
Proof. apply (routing_table_invariant id_self), table3_reachable. Defined.

Lemma only_exchanges_activate_witness :
  (∃ node now, OpPromoteCandidate id_c t0 = OpAddNode node now ∧ n_ID node = id_c) ∨
  (∃ now, OpPromoteCandidate id_c t0 = OpPromoteCandidate id_c now ∧ is_pending table3 id_c).
Proof.
  apply (only_exchanges_activate id_self id_c table3 (PromoteCandidate table3 id_c t0)
           (OpPromoteCandidate id_c t0)).
  - apply table3_reachable.
  - by split.
  - vm_compute. reflexivity.
  - vm_compute. discriminate.
Defined.

Lemma Nodes_enumerates_witness :
  ∃ out, Nodes table3 = Ok out ∧ out ≡ₚ active_nodes table3 ∧
    StronglySorted (fun a b => str_lt a b = true) (n_ID <$> out).
Proof. apply (Nodes_enumerates id_self), table3_reachable. Defined.

Lemma closest_nodes_nearest_witness :
  ∃ rest,
    ClosestNodes table3 id_b 1 ++ rest ≡ₚ (fun l => e_Node (deref table3 l)) <$> concat (Buckets table3) ∧
    len (ClosestNodes table3 id_b 1) = Z.min 1 (len (concat (Buckets table3))) ∧
    StronglySorted (fun a b => closer id_b false a b = true) (ClosestNodes table3 id_b 1) ∧
    ∀ x y, x ∈ ClosestNodes table3 id_b 1 → y ∈ rest →
      xorDistance (sort_coordinate x false) id_b <= xorDistance (sort_coordinate y false) id_b.
Proof.
  apply (closest_nodes_nearest id_self id_b table3 1 false); [apply table3_reachable|lia].
Defined.

Example closest_is_exact : n_ID <$> ClosestNodes table3 id_b 1 = [id_b].
Proof. vm_compute. reflexivity. Qed.

Lemma diversity_contacts_cover_witness :
  let contacts := DiversityContacts (fun _ => None) table3 [id_a; id_b; id_c] in
  (∀ n, n ∈ contacts → n ∈ active_nodes table3) ∧
  (∀ n key, n ∈ active_nodes table3 → key ∈ peerDiversityKeys (fun _ => None) (n_Addr n) →
     ∃ c, c ∈ contacts ∧ key ∈ peerDiversityKeys (fun _ => None) (n_Addr c)) ∧
  (∀ pre c post, contacts = pre ++ c :: post →
     ∃ key, key ∈ peerDiversityKeys (fun _ => None) (n_Addr c) ∧
       ∀ c', c' ∈ pre → key ∉ peerDiversityKeys (fun _ => None) (n_Addr c')).
Proof.
  apply (diversity_contacts_cover (fun _ => None) id_self); [apply table3_reachable|].
  apply (bool_decide_unpack _). vm_compute. exact I.
Defined.

Definition demo_draw (byName : bool) (b : Z) : option Z := if b <? 0 then None else Some 0.
Lemma refresh_targets_good_witness :
  len (RefreshTargets table3 (t0 + Hour) 4 demo_draw).1 <= 4 ∧
  Forall (good_target (t0 + Hour) table3) (RefreshTargets table3 (t0 + Hour) 4 demo_draw).1.
Proof.
  apply (refresh_targets_good (t0 + Hour) 4 demo_draw); [|lia].
  intros byName b r. unfold demo_draw. destruct (b <? 0) eqn:E; [discriminate|]. intros [= <-].
  apply Z.ltb_ge in E. split; [lia|by apply Z.pow_pos_nonneg].
Defined.

Example refresh_some : len (RefreshTargets table3 (t0 + Hour) 4 demo_draw).1 = 2.
Proof. vm_compute. reflexivity. Qed.

(** More than the 512 candidates the limit allows. *)
Lemma candidate_limit_defeated_witness :
  ∃ nodes rt, add_candidates (NewRoutingTable owner) nodes = Ok rt ∧ len (concat (Pending rt)) = 600.
Proof. apply (candidate_limit_defeated 600). vm_compute. discriminate. Defined.

(** Two referrals of the same node leave one candidate and a counter of 0. *)
Example candidate_counter_drifts :
  match add_candidates table2 [node_c; node_c] with
  | Ok rt => pendingN rt = 0 ∧ len (concat (Pending rt)) = 1
  | _ => False
  end.
Proof. vm_compute. split; reflexivity. Qed.

Definition misses : list Z := [t0 + Hour; t0 + Hour + 6 * Minute].
Definition third : Z := t0 + Hour + 12 * Minute.
Lemma offline_needs_three_spaced_misses_witness :
  ∃ t1 t2, [t1; t2] `sublist_of` misses ∧
    livenessProbeInterval <= Sub t2 t1 ∧ livenessProbeInterval <= Sub third t2.
Proof.
  apply (offline_needs_three_spaced_misses id_self id_a table1
           (RecordLivenessResult (fail_probes table1 id_a misses) id_a third false).1 0 misses third).
  - apply table1_reachable.
  - vm_compute. reflexivity.
  - vm_compute. reflexivity.
  - vm_compute. reflexivity.
  - repeat constructor; vm_compute; discriminate.
  - vm_compute. reflexivity.
Defined.

(** The guard on restoring is needed: an active peer restored as offline and
    then pruned stays in its bucket without a peer entry, and [Nodes] panics. *)
Definition stale_a : PeerObservation :=
  mkObservation node_a 0 1 t0 t0 t0 0 0 t0 0 (t0 - Hour) 3 0 0 0 false false 0 0 0.
Example restore_guard_needed :
  match RestoreCandidates table1 [stale_a] t0 with
  | Ok rt => Nodes (PruneOffline rt (t0 + 1000 * Hour) [id_a]) = Panic
  | _ => False
  end.
Proof. vm_compute. reflexivity. Qed.
