(* ===== verification/LookupProps.v ===== *)
(** * What lookups guarantee

    A lookup terminates within its limits and never asks a peer twice; what it
    reports as found is verified; what it reports as absent was looked for
    everywhere it could; replication tries each candidate once. *)
From S2P Require Import Prelude GoBytes GoStrings GoEncoding GoTime GoSort Sha256 GoEnv Lines GoNumbers Identity Record RecordProps DemoJson StrictJson Envelope Hidden HiddenProps Catalog Proto NodeInfo Value ValueProps Collector RateLimit Peer Routing RoutingIndex RoutingInv RoutingOps RoutingProps RoutingQuery RoutingLimit RoutingDemo Store StoreProps Lookup.

Definition well_keyed (m : gmap string NodeInfo) : Prop := map_Forall (fun id n => n_ID n = id) m.

Section Closest.
Context `{UnicodeTables, GoSort}.

Lemma closestUnqueried_sub known queried target limit n : well_keyed known →
  n ∈ closestUnqueried known queried target limit → known !! n_ID n = Some n ∧ n_ID n ∉ queried.
Proof.
  intros Hk Hn. unfold closestUnqueried in Hn.
  assert (Hin : n ∈ (map_to_list (filter (fun kv => kv.1 ∉ queried) known)).*2).
  { set (l := (map_to_list _).*2) in *. rewrite <- (sort_Slice_perm (nearer target) l).
    destruct (limit <? _); [|done]. by apply subseteq_take in Hn. }
  apply list_elem_of_fmap in Hin as ([id n'] & -> & Hin). apply elem_of_map_to_list, map_lookup_filter_Some in Hin as [Hid Hq].
  cbn in *. pose proof (Hk _ _ Hid) as Hn'. cbn in Hn'. by rewrite Hn'.
Qed.

Lemma closestUnqueried_NoDup known queried target limit : well_keyed known →
  NoDup (n_ID <$> closestUnqueried known queried target limit).
Proof.
  intros Hk. unfold closestUnqueried. set (l := (map_to_list _).*2).
  assert (Hl : NoDup (n_ID <$> l)).
  { assert (Hkeys : n_ID <$> l = (map_to_list (filter (fun kv => kv.1 ∉ queried) known)).*1).
    { subst l. rewrite <- list_fmap_compose. apply list_fmap_ext. intros i [id n] Hi%list_elem_of_lookup_2.
      apply elem_of_map_to_list, map_lookup_filter_Some in Hi as [Hi _]. exact (Hk _ _ Hi). }
    rewrite Hkeys. apply NoDup_fst_map_to_list. }
  assert (Hs : NoDup (n_ID <$> sort_Slice (nearer target) l)) by by rewrite sort_Slice_perm.
  destruct (limit <? _); [|done]. rewrite fmap_take.
  rewrite <- (take_drop (Z.to_nat limit) (n_ID <$> sort_Slice (nearer target) l)) in Hs. by apply NoDup_app in Hs as [? _].
Qed.

Lemma closestUnqueried_length known queried target limit : 0 <= limit →
  len (closestUnqueried known queried target limit) <= limit.
Proof.
  intros Hl. unfold closestUnqueried. destruct (Z.ltb_spec limit (len (sort_Slice (nearer target)
    (map_to_list (filter (fun kv => kv.1 ∉ queried) known)).*2))); [|done]. unfold len. rewrite length_take. lia.
Qed.

(** Nothing is left only if everything known was queried. *)
Lemma closestUnqueried_none known queried target limit : 1 <= limit →
  closestUnqueried known queried target limit = [] → ∀ id, is_Some (known !! id) → id ∈ queried.
Proof.
  intros Hl E id [n Hid]. destruct (decide (id ∈ queried)) as [|Hq]; [done|exfalso].
  unfold closestUnqueried in E. set (l := (map_to_list _).*2) in *.
  assert (Hin : n ∈ sort_Slice (nearer target) l).
  { rewrite sort_Slice_perm. apply list_elem_of_fmap. exists (id, n). split; [done|].
    by apply elem_of_map_to_list, map_lookup_filter_Some. }
  destruct (sort_Slice (nearer target) l) as [|x l']; [by inversion Hin|].
  destruct (limit <? _); [|done]. destruct (Z.to_nat limit) eqn:En; [lia|done].
Qed.

Lemma closest_left known queried target : (0 <? len (closestUnqueried known queried target 1)) = false →
  ∀ id, is_Some (known !! id) → id ∈ queried.
Proof.
  intros Hz. apply (closestUnqueried_none known queried target 1); [lia|].
  apply Z.ltb_ge in Hz. apply len_nil_inv. pose proof (len_nonneg (closestUnqueried known queried target 1)). lia.
Qed.

Lemma sortedKnown_all m target : sortedKnown m target (Z.of_nat (size m)) ≡ₚ (map_to_list m).*2.
Proof.
  unfold sortedKnown, closestUnqueried. set (l := sort_Slice _ _).
  assert (Hl : l ≡ₚ (map_to_list m).*2).
  { subst l. rewrite sort_Slice_perm. f_equiv. f_equiv.
    apply map_filter_id. intros i x _. cbn. set_solver. }
  assert (Hlen : len l = Z.of_nat (size m)).
  { unfold len. rewrite Hl, length_fmap. by rewrite length_map_to_list. }
  rewrite Hlen, !Z.ltb_irrefl, Hlen, Z.ltb_irrefl. done.
Qed.
End Closest.

(** ** The invariant of a walk *)
Section Walk.
Context `{UnicodeTables, NetIP, RFC3339, Ed25519, GoSort}.

(** Matches are verified records of the target. *)
Definition good_matches (target : string) (m : gmap string NodeInfo) : Prop :=
  map_Forall (fun id n => n_ID n = id ∧ matchesNodeLookupTarget n target = true ∧ ∃ t, VerifyNodeInfo n t = Ok tt) m.

Record walk_ok (limits : LookupLimitsT) (target : string) (w : walk) : Prop := {
  ok_known : well_keyed (w_known w);
  ok_matches : good_matches target (w_matches w);
  ok_queried : ∀ id, id ∈ w_queried w ↔ id ∈ n_ID <$> w_log w;
  ok_log : NoDup (n_ID <$> w_log w);
  ok_count : w_queries w = len (w_log w);
  ok_limit : w_queries w <= MaxPeerQueries limits;
  ok_failures : 0 <= w_failures w;
}.

Lemma learn_ok target t refs : ∀ known matches, well_keyed known →
  good_matches target matches →
  let km := fold_left (learn target t) refs (known, matches) in
  well_keyed km.1 ∧
  good_matches target km.2.
Proof.
  induction refs as [|r refs IH]; intros known matches Hk Hm; [done|]. cbn [fold_left]. unfold learn at 2 4.
  destruct (usable_ref t r) eqn:Hu; cbn [negb]; [|by apply IH].
  unfold usable_ref in Hu. bool_prop. apply IH.
  - case_bool_decide; [done|]. by apply map_Forall_insert_2.
  - destruct (matchesNodeLookupTarget r target) eqn:E; [|done]. apply map_Forall_insert_2; [|done].
    split_and!; [done..|]. exists t. by destruct (VerifyNodeInfo r t) as [[]| |].
Qed.

Lemma seed_ok rt target now seeds : ∀ known matches, well_keyed known →
  good_matches target matches →
  let km := fold_left (seed_step rt target now) seeds (known, matches) in
  well_keyed km.1 ∧
  good_matches target km.2.
Proof.
  induction seeds as [|n seeds IH]; intros known matches Hk Hm; [done|]. cbn [fold_left]. unfold seed_step at 2 4.
  destruct (bool_decide _ || is_ok (VerifyNodeInfo n now)) eqn:E; [|by apply IH]. apply IH; [by apply map_Forall_insert_2|].
  destruct (is_ok (VerifyNodeInfo n now)) eqn:Ev; cbn [andb]; [|done].
  destruct (matchesNodeLookupTarget n target) eqn:Et; [|done]. apply map_Forall_insert_2; [|done].
  split_and!; [done..|]. exists now. by destruct (VerifyNodeInfo n now) as [[]| |].
Qed.

Lemma fallback_ok known contacts : well_keyed known → well_keyed (addDiversityFallback known contacts).
Proof.
  unfold addDiversityFallback. revert known. induction contacts as [|p contacts IH]; intros known Hk; [done|]. cbn.
  apply IH. case_bool_decide; [done|]. by apply map_Forall_insert_2.
Qed.

(** What sending a batch changes. *)
Lemma send_all_spec batch : ∀ w w', send_all w batch = Ok w' →
  w_known w' = w_known w ∧ w_matches w' = w_matches w ∧ w_failures w' = w_failures w ∧ w_rounds w' = w_rounds w ∧
  w_diversity w' = w_diversity w ∧ w_log w' = w_log w ++ batch ∧ w_queries w' = w_queries w + len batch ∧
  ∀ id, id ∈ w_queried w' ↔ id ∈ w_queried w ∨ id ∈ n_ID <$> batch.
Proof.
  induction batch as [|n batch IH]; intros w w'; cbn [send_all].
  { intros [= <-]. rewrite app_nil_r. unfold len. cbn. split_and!; [done..|lia|]. set_solver. }
  intros Hb. apply res_bind_ok in Hb as (w1 & Hs & Hb). apply IH in Hb as (Ek & Em & Ef & Er & Ed & El & Eq & Hq).
  assert (Hw1 : w_known w1 = w_known w ∧ w_matches w1 = w_matches w ∧ w_failures w1 = w_failures w ∧
    w_rounds w1 = w_rounds w ∧ w_diversity w1 = w_diversity w ∧ w_log w1 = w_log w ++ [n] ∧
    w_queries w1 = w_queries w + 1 ∧ w_queried w1 = {[n_ID n]} ∪ w_queried w).
  { unfold send_query in Hs. case_bool_decide; [by injection Hs as <-|].
    apply res_bind_ok in Hs as ([rt added] & _ & [= <-]). done. }
  destruct Hw1 as (? & ? & ? & ? & ? & El1 & Eq1 & Hq1).
  split_and!; [congruence..|by rewrite El, El1, <- app_assoc|rewrite Eq, Eq1; unfold len; cbn [length]; lia|].
  intros id. rewrite Hq, Hq1. cbn. set_solver.
Qed.

Lemma receive_spec target got : ∀ w, let w' := fold_left (receive target) got w in
  w_log w' = w_log w ∧ w_queries w' = w_queries w ∧ w_queried w' = w_queried w ∧ w_rounds w' = w_rounds w ∧
  w_diversity w' = w_diversity w ∧ w_failures w <= w_failures w'.
Proof.
  induction got as [|a got IH]; intros w; cbn [fold_left]; [done|].
  destruct (IH (receive target w a)) as (E1 & E2 & E3 & E4 & E5 & E6). cbn zeta in *.
  rewrite E1, E2, E3, E4, E5. unfold receive in *. destruct (an_refs a) as [refs|e|]; cbn in *.
  - destruct (fold_left (learn target (an_time a)) refs _). by cbn in *.
  - split_and!; [done..|lia].
  - split_and!; [done..|lia].
Qed.

Lemma receive_ok limits target got : ∀ w, walk_ok limits target w → walk_ok limits target (fold_left (receive target) got w).
Proof.
  induction got as [|a got IH]; intros w Hw; [done|]. cbn [fold_left]. apply IH. destruct Hw. unfold receive.
  destruct (an_refs a) as [refs|e|]; [|by constructor; cbn; lia || done..].
  pose proof (learn_ok target (an_time a) refs (w_known w) (w_matches w)) as Hl.
  destruct (fold_left (learn target (an_time a)) refs _) as [known matches]. destruct Hl as [? ?]; [done..|]. by constructor.
Qed.

(** Every contact the walk learned of was asked, and every one answered. *)
Definition exhausted (w : walk) : Prop := (∀ id, is_Some (w_known w !! id) → id ∈ w_queried w) ∧ w_failures w = 0.

Definition outcome_of (n : nat) : LookupOutcome :=
  match n with O => LookupNotFound | S O => LookupFound | _ => LookupConflict end.

(** What the result says of the walk it reports. *)
Record reports (target : string) (w : walk) (r : NodeLookupResult) (err : option string) : Prop := {
  rep_queries : nl_QueriedNodes r = w_queries w;
  rep_rounds : nl_Rounds r = w_rounds w;
  rep_matches : nl_Matches r ≡ₚ (map_to_list (w_matches w)).*2;
  rep_complete : err = None →
    (HasPrefix target "node/name/" = false ∧ nl_Outcome r = LookupFound ∧ w_matches w ≠ ∅) ∨
    (exhausted w ∧ nl_Outcome r = outcome_of (size (w_matches w)));
  rep_incomplete : err ≠ None → nl_Outcome r = LookupIncomplete;
}.

Lemma reports_partial target w : reports target w (lookup_result target w true LookupIncomplete) (Some ErrLookupIncomplete).
Proof. constructor; try done. apply sortedKnown_all. Qed.

Lemma reports_found target w : HasPrefix target "node/name/" = false → (0 <? Z.of_nat (size (w_matches w))) = true →
  reports target w (lookup_result target w true LookupFound) None.
Proof.
  intros Ht Hm. constructor; try done; [apply sortedKnown_all|]. intros _. left. split_and!; [done..|].
  intros E. rewrite E, map_size_empty in Hm. done.
Qed.

Lemma reports_conclude target w : 0 <= w_failures w → (∀ id, is_Some (w_known w !! id) → id ∈ w_queried w) →
  reports target w (conclude target w).1 (conclude target w).2.
Proof.
  intros Hf Hq. unfold conclude.
  assert (He : (0 <? Z.of_nat (size (w_matches w))) = false → [] ≡ₚ (map_to_list (w_matches w)).*2).
  { intros Hz. bool_prop. rewrite (map_size_empty_inv (w_matches w)) by lia. by rewrite map_to_list_empty. }
  assert (Hx : (0 <? w_failures w) = false → exhausted w).
  { intros Hz. bool_prop. split; [done|lia]. }
  destruct (0 <? Z.of_nat (size (w_matches w))) eqn:Hm, (0 <? w_failures w) eqn:Hfl; cbn [fst snd];
    (constructor; [done|done|first [apply sortedKnown_all|by apply He]| |by intros ?]); try done;
    intros _; right; (split; [by apply Hx|]); cbn; bool_prop.
  - destruct (Z.ltb_spec 1 (Z.of_nat (size (w_matches w)))); destruct (size (w_matches w)) as [|[|n]]; cbn; lia || done.
  - destruct (size (w_matches w)); [done|lia].
Qed.

Lemma find_rounds_ok answers contacts limits target : 1 <= MaxConcurrent limits → ∀ fuel w w' r err,
  walk_ok limits target w → find_rounds answers contacts limits target fuel w = Ok (w', r, err) →
  walk_ok limits target w' ∧ w_rounds w' <= w_rounds w + Z.of_nat fuel ∧ reports target w' r err.
Proof.
  intros Hc.
  assert (Hfin : ∀ w w' r err fuel, walk_ok limits target w →
    (if 0 <? len (closestUnqueried (w_known w) (w_queried w) target 1)
     then Ok (w, lookup_result target w true LookupIncomplete, Some ErrLookupIncomplete)
     else Ok (w, (conclude target w).1, (conclude target w).2)) = Ok (w', r, err) →
    walk_ok limits target w' ∧ w_rounds w' <= w_rounds w + Z.of_nat fuel ∧ reports target w' r err).
  { intros w w' r err fuel Hw. destruct (0 <? len _) eqn:E; intros [= <- <- <-]; (split_and!; [done|lia|]).
    - apply reports_partial.
    - apply reports_conclude; [by destruct Hw|]. by apply (closest_left _ _ target). }
  induction fuel as [|fuel IH]; intros w w' r err Hw; cbn [find_rounds]; [by apply (Hfin w w' r err 0%nat)|].
  destruct (Z.leb_spec (MaxPeerQueries limits) (w_queries w)) as [Hl|Hl]; [by apply Hfin|].
  set (w1 := set_round w (w_rounds w + 1)). assert (Hw1 : walk_ok limits target w1) by (destruct Hw; by constructor).
  destruct (closestUnqueried _ _ _ _) as [|n batch] eqn:Eb.
  - destruct (w_diversity w1) eqn:Ed; cbn [negb andb].
    + intros [= <- <- <-]. split_and!; [done|cbn; lia|]. apply reports_conclude; [by destruct Hw1|].
      eapply closestUnqueried_none; [|exact Eb]. cbn. lia.
    + set (w2 := set_diversity w1 _).
      assert (Hw2 : walk_ok limits target w2). { destruct Hw1. constructor; try done. by apply fallback_ok. }
      destruct (0 <? len _) eqn:E2.
      * intros Hf. apply IH in Hf as (? & Hr & ?); [|done]. split_and!; [done|cbn in Hr; lia|done].
      * intros [= <- <- <-]. split_and!; [done|cbn; lia|]. apply reports_conclude; [by destruct Hw2|].
        by apply (closest_left _ _ target).
  - rewrite <- Eb. intros Hf. apply res_bind_ok in Hf as (w2 & Hs & Hf).
    set (b := closestUnqueried _ _ _ _) in *. clear n batch Eb.
    assert (Hb : len b <= MaxPeerQueries limits - w_queries w).
    { etrans; [apply closestUnqueried_length|]; cbn; lia. }
    assert (Hw2 : walk_ok limits target w2 ∧ w_rounds w2 = w_rounds w + 1).
    { apply send_all_spec in Hs as (Ek & Em & Ef & Er & _ & El & Eq & Hq). destruct Hw1. split; [|by rewrite Er].
      constructor; rewrite ?Ek, ?Em, ?Ef, ?El, ?Eq; try done.
      - intros id. rewrite Hq, fmap_app, elem_of_app, ok_queried0. done.
      - rewrite fmap_app. apply NoDup_app. split_and!; [done| |by apply closestUnqueried_NoDup].
        intros id Hid (n & -> & Hn)%list_elem_of_fmap. apply closestUnqueried_sub in Hn as [_ Hn]; [|done].
        by apply Hn, ok_queried0.
      - rewrite ok_count0, len_app. done.
      - cbn. lia. }
    destruct Hw2 as [Hw2 Hr2]. set (got := take _ _) in Hf. set (w3 := fold_left _ _ _) in Hf.
    assert (Hw3 : walk_ok limits target w3) by by apply receive_ok.
    assert (Hr3 : w_rounds w3 = w_rounds w + 1) by (subst w3; destruct (receive_spec target got w2) as (_ & _ & _ & -> & _); done).
    destruct (length got <? length b)%nat.
    { injection Hf as <- <- <-. split_and!; [done|lia|apply reports_partial]. }
    destruct (negb (HasPrefix target "node/name/") && _) eqn:Ef.
    + injection Hf as <- <- <-. apply andb_true_iff in Ef as [Ef1%negb_true_iff Ef2]. split_and!; [done|lia|by apply reports_found].
    + apply IH in Hf as (? & Hr & ?); [|done]. split_and!; [done|lia|done].
Qed.
End Walk.

(** ** A lookup runs to its end

    The only way to panic is a candidate whose coordinate is the table's own
    without being its identity. *)
Section Total.
Context `{UnicodeTables, NetIP, RFC3339, Ed25519, GoSort}.

Definition safe_id (self id : string) : Prop := id = self ∨ routingIDBytes self ≠ routingIDBytes id.

Lemma key_id_safe k id : (∃ key, id = NodeIDFromPublicKey key) → safe_id (NodeIDFromPublicKey k) id.
Proof.
  intros [key ->]. unfold safe_id. rewrite !routingIDBytes_NodeID.
  destruct (decide (Sum256 k = Sum256 key)) as [E|]; [left|by right]. unfold NodeIDFromPublicKey. by rewrite E.
Qed.

Lemma verified_key_id n t : VerifyNodeInfo n t = Ok tt → ∃ key, n_ID n = NodeIDFromPublicKey key.
Proof.
  intros Hv%VerifyNodeInfo_endpoint. unfold VerifyEndpointRecord in Hv. res_inv.
  match goal with H : VerifyEndpoint _ _ = Ok _ |- _ => apply VerifyEndpoint_inv in H as [_ []] end. by eexists.
Qed.

Lemma AddLookupCandidate_total rt node : table_ok rt → safe_id (SelfID rt) (n_ID node) →
  ∃ rt' b, AddLookupCandidate rt node = Ok (rt', b) ∧ quiet rt rt'.
Proof.
  intros Hok Hs. assert (is_ok (AddLookupCandidate rt node) = true) as He.
  { unfold AddLookupCandidate. destruct (ignorable rt node) eqn:Ei; [done|].
    apply ignorable_false in Ei as (_ & Hne & _). destruct Hs as [?|Hs]; [done|].
    destruct (_ || _); [done|]. cbn [alloc fst snd]. unfold append_pending. cbn.
    unfold bucketIndex. pose proof (bucket_of_range (SelfID rt) (n_ID node)) as Hr.
    assert (bucket_of (SelfID rt) (n_ID node) ≠ -1) by by rewrite bucket_of_neg.
    destruct (Z.ltb_spec (bucket_of (SelfID rt) (n_ID node)) 0); [lia|].
    destruct (Pending rt !! _) eqn:E; [done|]. apply lookup_ge_None in E.
    rewrite (ix_length _ _ _ (ok_pendings _ Hok)) in E. lia. }
  destruct (AddLookupCandidate rt node) as [[rt' b]| |] eqn:E; [|done..].
  exists rt', b. split; [done|]. by eapply AddLookupCandidate_quiet.
Qed.

Definition safe_known (self : string) (m : gmap string NodeInfo) : Prop :=
  map_Forall (fun id n => n_ID n = id ∧ safe_id self (n_ID n)) m.
Record walk_safe (self : string) (w : walk) : Prop := {
  ws_table : table_ok (w_rt w);
  ws_self : SelfID (w_rt w) = self;
  ws_known : safe_known self (w_known w);
}.

Lemma safe_keyed self m : safe_known self m → well_keyed m.
Proof. intros Hm id n Hn. by apply Hm in Hn as [? _]. Qed.

Lemma send_all_total self batch : ∀ w, walk_safe self w → Forall (fun n => safe_id self (n_ID n)) batch →
  ∃ w', send_all w batch = Ok w' ∧ walk_safe self w'.
Proof.
  induction batch as [|n batch IH]; intros w Hw Hb; [by exists w|]. apply Forall_cons in Hb as [Hn Hb].
  cbn [send_all]. unfold send_query. case_bool_decide; cbn [res_bind].
  - apply IH; [|done]. by destruct Hw.
  - destruct (AddLookupCandidate_total (w_rt w) n) as (rt' & b & -> & [Hq Hs _]); [by destruct Hw|by rewrite (ws_self _ _ Hw)|].
    cbn [res_bind]. apply IH; [|done]. destruct Hw as [Ht E Hk]. split; cbn; congruence || done.
Qed.

Lemma learn_safe k target t refs : ∀ km, safe_known (NodeIDFromPublicKey k) km.1 →
  safe_known (NodeIDFromPublicKey k) (fold_left (learn target t) refs km).1.
Proof.
  induction refs as [|r refs IH]; intros [known matches] Hk; [done|]. cbn [fold_left]. apply IH. unfold learn.
  destruct (usable_ref t r) eqn:Hu; cbn [negb]; [|done]. cbn [fst]. case_bool_decide; [done|].
  apply map_Forall_insert_2; [|done]. split; [done|]. unfold usable_ref in Hu. bool_prop.
  destruct (VerifyNodeInfo r t) as [[]| |] eqn:Ev; [|done..]. by eapply key_id_safe, verified_key_id.
Qed.

Lemma receive_safe k target got : ∀ w, walk_safe (NodeIDFromPublicKey k) w →
  walk_safe (NodeIDFromPublicKey k) (fold_left (receive target) got w).
Proof.
  induction got as [|a got IH]; intros w Hw; [done|]. cbn [fold_left]. apply IH. destruct Hw as [Ht Hs Hk]. unfold receive.
  destruct (an_refs a) as [refs|e|]; [|by split..].
  pose proof (learn_safe k target (an_time a) refs (w_known w, w_matches w) Hk) as Hl.
  destruct (fold_left (learn target (an_time a)) refs _) as [known matches]. by split.
Qed.

Lemma fallback_safe self known contacts : safe_known self known → Forall (fun n => safe_id self (n_ID n)) contacts →
  safe_known self (addDiversityFallback known contacts).
Proof.
  unfold addDiversityFallback. revert known. induction contacts as [|p contacts IH]; intros known Hk Hc; [done|].
  apply Forall_cons in Hc as [Hp Hc]. cbn. apply IH; [|done]. case_bool_decide; [done|]. by apply map_Forall_insert_2.
Qed.

Lemma find_rounds_total k answers contacts limits target :
  Forall (fun n => safe_id (NodeIDFromPublicKey k) (n_ID n)) contacts → ∀ fuel w,
  walk_safe (NodeIDFromPublicKey k) w →
  ∃ w' r err, find_rounds answers contacts limits target fuel w = Ok (w', r, err) ∧ walk_safe (NodeIDFromPublicKey k) w'.
Proof.
  intros Hc. induction fuel as [|fuel IH]; intros w Hw; cbn [find_rounds].
  { destruct (0 <? _); by do 3 eexists. }
  destruct (MaxPeerQueries limits <=? w_queries w). { destruct (0 <? len _); by do 3 eexists. }
  set (w1 := set_round w (w_rounds w + 1)).
  assert (Hw1 : walk_safe (NodeIDFromPublicKey k) w1) by by destruct Hw.
  destruct (closestUnqueried _ _ _ _) as [|n batch] eqn:Eb.
  - destruct (w_diversity w1); cbn [negb andb]; [by do 3 eexists|].
    assert (Hw2 : walk_safe (NodeIDFromPublicKey k) (set_diversity w1 (addDiversityFallback (w_known w1) contacts))).
    { destruct Hw1. split; [done..|]. by apply fallback_safe. }
    destruct (0 <? len _); [|by do 3 eexists]. by apply IH.
  - rewrite <- Eb. set (b := closestUnqueried _ _ _ _) in *.
    destruct (send_all_total (NodeIDFromPublicKey k) b w1) as (w2 & Hs & Hw2); [done| |].
    { apply Forall_forall. intros m [Hm _]%closestUnqueried_sub; [|by eapply safe_keyed, Hw1].
      by apply (ws_known _ _ Hw1) in Hm as [_ ?]. }
    rewrite Hs. cbv zeta. cbn [mbind res_bind].
    match goal with |- context [fold_left (receive target) ?g w2] => assert (Hw3 := receive_safe k target g w2 Hw2) end.
    case_match; [by do 3 eexists|]. case_match; [by do 3 eexists|]. by apply IH.
Qed.

Lemma seed_safe k rt target now seeds : (∀ id, is_Some (ActiveNode rt id) → ∃ key, id = NodeIDFromPublicKey key) →
  ∀ km, safe_known (NodeIDFromPublicKey k) km.1 →
  safe_known (NodeIDFromPublicKey k) (fold_left (seed_step rt target now) seeds km).1.
Proof.
  intros Ha. induction seeds as [|n seeds IH]; intros [known matches] Hk; [done|]. cbn [fold_left]. apply IH. unfold seed_step.
  destruct (_ || _) eqn:E; [|done]. apply map_Forall_insert_2; [|done]. split; [done|]. apply key_id_safe.
  apply orb_true_iff in E as [E|E]; [by apply bool_decide_eq_true in E; apply Ha|].
  destruct (VerifyNodeInfo n now) as [[]| |] eqn:Ev; [|done..]. by eapply verified_key_id.
Qed.

Lemma discard_all_ok ids : ∀ rt, table_ok rt → table_ok (fold_left DiscardCandidate ids rt).
Proof. induction ids as [|id ids IH]; intros rt Hok; [done|]. apply IH, DiscardCandidate_quiet, Hok. Qed.

(** What every node lookup returns, from the loop's invariant. *)
Lemma find_node_ok answers contacts limits rt target bootstrap now keys w r err :
  1 <= MaxConcurrent limits → 0 <= MaxRounds limits → 0 <= MaxPeerQueries limits →
  recursiveFindNodeDetailed answers contacts limits rt target bootstrap now keys = Ok (w, r, err) →
  walk_ok limits target w ∧ w_rounds w <= MaxRounds limits ∧ reports target w r err.
Proof.
  intros Hc Hr Hq. unfold recursiveFindNodeDetailed, seed_known.
  set (seeds := if bootstrap then _ else _).
  pose proof (seed_ok rt target now seeds ∅ ∅ (map_Forall_empty _) (map_Forall_empty _)) as Hs.
  destruct (fold_left (seed_step rt target now) seeds (∅, ∅)) as [known matches]. destruct Hs as [Hk Hm].
  set (w0 := mkWalk rt known matches ∅ [] 0 0 0 false []).
  assert (Hw0 : walk_ok limits target w0) by (constructor; cbn; set_solver || done || constructor).
  destruct (negb _ && _) eqn:E.
  - intros [= <- <- <-]. apply andb_true_iff in E as [Hp%negb_true_iff Hn]. split_and!; [done|cbn; lia|]. by apply reports_found.
  - intros Hf. apply res_bind_ok in Hf as ([[w1 r1] err1] & Hf & [= <- <- <-]).
    apply find_rounds_ok in Hf as ([] & Hb & []); [|done..]. cbn in Hb. split_and!; [by constructor|cbn; lia|by constructor].
Qed.

(** C3: A node lookup of a table whose peers are named by their keys always returns,
    whatever the network answers: it runs at most [MaxRounds] rounds, sends
    exactly the queries it reports, at most [MaxPeerQueries] of them and never
    two to the same peer, and leaves the routing table well formed. *)
Theorem node_lookup_terminates k answers contacts limits rt target bootstrap now keys :
  table_ok rt → SelfID rt = NodeIDFromPublicKey k →
  (∀ id, is_Some (ActiveNode rt id) → ∃ key, id = NodeIDFromPublicKey key) →
  Forall (fun c => is_Some (ActiveNode rt (n_ID c))) contacts →
  1 <= MaxConcurrent limits → 0 <= MaxRounds limits → 0 <= MaxPeerQueries limits →
  ∃ w r err, recursiveFindNodeDetailed answers contacts limits rt target bootstrap now keys = Ok (w, r, err) ∧
    nl_Rounds r <= MaxRounds limits ∧ nl_QueriedNodes r = len (w_log w) ∧ len (w_log w) <= MaxPeerQueries limits ∧
    NoDup (n_ID <$> w_log w) ∧ table_ok (w_rt w).
Proof.
  intros Hok Hself Hkeys Hcon Hc Hr Hq.
  assert (∃ w r err, recursiveFindNodeDetailed answers contacts limits rt target bootstrap now keys = Ok (w, r, err) ∧
    table_ok (w_rt w)) as (w & r & err & E & Ht).
  { unfold recursiveFindNodeDetailed, seed_known. set (seeds := if bootstrap then _ else _).
    pose proof (seed_safe k rt target now seeds Hkeys (∅, ∅) (map_Forall_empty _)) as Hs.
    destruct (fold_left (seed_step rt target now) seeds (∅, ∅)) as [known matches].
    destruct (negb _ && _); [by do 3 eexists|].
    destruct (find_rounds_total k answers contacts limits target) with (fuel := Z.to_nat (MaxRounds limits))
      (w := mkWalk rt known matches ∅ [] 0 0 0 false []) as (w & r & err & -> & [Ht _ _]); [|by split|].
    - eapply Forall_impl; [exact Hcon|]. intros c Ha. by apply key_id_safe, Hkeys.
    - cbn [mbind res_bind]. do 3 eexists. split; [done|]. by apply discard_all_ok. }
  exists w, r, err. apply find_node_ok in E as Hw; [|done..]. destruct Hw as ([] & Hb & []). split_and!; [done|lia|lia|lia|done|done].
Qed.

(** C11: What a node lookup reports: every match is a record of the target whose
    signature verified, no peer twice; without an error an ID lookup found a
    match, or every peer it learned of was asked and answered and the outcome
    says how many matches there are; with an error the outcome is
    "incomplete". *)
Theorem node_lookup_outcome answers contacts limits rt target bootstrap now keys w r err :
  1 <= MaxConcurrent limits → 0 <= MaxRounds limits → 0 <= MaxPeerQueries limits →
  recursiveFindNodeDetailed answers contacts limits rt target bootstrap now keys = Ok (w, r, err) →
  NoDup (n_ID <$> nl_Matches r) ∧
  Forall (fun n => matchesNodeLookupTarget n target = true ∧ ∃ t, VerifyNodeInfo n t = Ok tt) (nl_Matches r) ∧
  match err with
  | None =>
      (HasPrefix target "node/name/" = false ∧ nl_Outcome r = LookupFound ∧ nl_Matches r ≠ []) ∨
      ((∀ id, is_Some (w_known w !! id) → id ∈ n_ID <$> w_log w) ∧ w_failures w = 0 ∧
       nl_Outcome r = outcome_of (List.length (nl_Matches r)))
  | Some _ => nl_Outcome r = LookupIncomplete
  end.
Proof.
  intros Hc Hr Hq E. apply find_node_ok in E as ([] & _ & [_ _ Hm Hcomp Hinc]); [|done..].
  assert (Hsz : List.length (nl_Matches r) = size (w_matches w)) by (rewrite Hm, length_fmap; apply length_map_to_list).
  split_and!.
  - rewrite Hm, <- list_fmap_compose.
    replace (_ <$> _) with ((map_to_list (w_matches w)).*1); [apply NoDup_fst_map_to_list|].
    apply list_fmap_ext. intros i [id n] Hi%list_elem_of_lookup_2%elem_of_map_to_list. cbn. by apply ok_matches0 in Hi as [-> _].
  - rewrite Hm. apply Forall_fmap, Forall_forall. intros [id n] Hi%elem_of_map_to_list. by apply ok_matches0 in Hi as [_ ?].
  - destruct err as [e|]; [by apply Hinc|]. destruct (Hcomp eq_refl) as [(Hp & Ho & Hne)|([Hx Hf] & Ho)]; [left|right].
    + split_and!; [done..|]. intros En. apply (f_equal List.length) in En. rewrite Hsz in En. by apply Hne, map_size_empty_inv.
    + split_and!; [|done|by rewrite Hsz]. intros id Hid. by apply ok_queried0, Hx.
Qed.
End Total.

(** ** Concrete lookups *)
Definition lookup_key : bytes := repeat x01 32.
Definition lookup_peer : NodeInfo := demo_node (NodeIDFromPublicKey (repeat x02 32)) "[2001:db8::1]:1".
Definition lookup_table : RoutingTable := AddNode (NewRoutingTable (NodeIDFromPublicKey lookup_key)) lookup_peer t0.

Lemma lookup_table_facts : SelfID lookup_table = NodeIDFromPublicKey lookup_key ∧
  peerByID lookup_table = {[ n_ID lookup_peer := 0%nat ]}.
Proof.
  unfold lookup_table, AddNode.
  assert (ignorable (NewRoutingTable (NodeIDFromPublicKey lookup_key)) lookup_peer = false) as -> by (vm_compute; reflexivity).
  cbn [NewRoutingTable peerByID]. rewrite lookup_empty. cbn [alloc]. unfold activate.
  split; repeat case_match; reflexivity.
Qed.

Lemma active_known rt id : is_Some (ActiveNode rt id) → is_Some (peerByID rt !! id).
Proof. unfold ActiveNode. intros [n Hn]. by destruct (peerByID rt !! id). Qed.
Lemma lookup_table_active id : is_Some (ActiveNode lookup_table id) → ∃ key, id = NodeIDFromPublicKey key.
Proof.
  intros Ha%active_known. rewrite (proj2 lookup_table_facts) in Ha. apply lookup_singleton_is_Some in Ha as <-.
  exists (repeat x02 32). reflexivity.
Qed.

Lemma node_lookup_terminates_witness :
  ∃ w r err, recursiveFindNodeDetailed (fun _ batch => (fun _ => mkAnswer t0 (Err "unreachable")) <$> batch) []
      defaultLookupLimits lookup_table "node/name/alice" false t0 [] = Ok (w, r, err) ∧
    nl_Rounds r <= MaxRounds defaultLookupLimits ∧ nl_QueriedNodes r = len (w_log w) ∧
    len (w_log w) <= MaxPeerQueries defaultLookupLimits ∧ NoDup (n_ID <$> w_log w) ∧ table_ok (w_rt w).
Proof.
  apply (node_lookup_terminates lookup_key).
  - apply AddNode_ok, NewRoutingTable_ok.
  - apply lookup_table_facts.
  - exact lookup_table_active.
  - constructor.
  - done.
  - done.
  - done.
Defined.

(** An empty table: nobody to ask, and the name is not found. *)
Lemma node_lookup_outcome_witness :
  let r := mkNodeResult [] [] LookupNotFound 0 1 in
  NoDup (n_ID <$> nl_Matches r) ∧
  Forall (fun n => matchesNodeLookupTarget n "node/name/alice" = true ∧ ∃ t, VerifyNodeInfo n t = Ok tt) (nl_Matches r) ∧
  ((HasPrefix "node/name/alice" "node/name/" = false ∧ nl_Outcome r = LookupFound ∧ nl_Matches r ≠ []) ∨
   ((∀ id, is_Some ((∅ : gmap string NodeInfo) !! id) → id ∈ n_ID <$> []) ∧ 0 = 0 ∧
    nl_Outcome r = outcome_of (List.length (nl_Matches r)))).
Proof.
  apply (node_lookup_outcome (fun _ _ => []) [] defaultLookupLimits (NewRoutingTable id_self) "node/name/alice" false t0 []
    (mkWalk (NewRoutingTable id_self) ∅ ∅ ∅ [] 0 0 1 true []) _ None); [done|done|done|].
  vm_compute. reflexivity.
Defined.

(** ** Replication *)
Section Replication.
Context `{UnicodeTables, NetIP, RFC3339, Ed25519, GoSort}.
Context `{!StrictJSON EndpointRecord} `{!JSON SignedEnvelope} `{!JSON ServiceRecord}
  `{!JSON HiddenDescriptor} `{!JSON (list ServiceRecord)} `{!JSON PrivateServiceCatalog}.
Context {P : Type} `{!ValuePersistence P}.

(** The counters of a report are the sizes of its lists. *)
Record report_ok (r : ReplicationReport) : Prop := {
  ro_attempted : rp_Attempted r = len (rp_Successful r) + len (rp_Failed r);
  ro_stored : rp_StoredRemotely r = len (rp_Successful r);
}.
Definition tried (r : ReplicationReport) : list NodeInfo := rp_Successful r ++ rp_Failed r.

Lemma note_store_spec got : ∀ rt r, report_ok r →
  let r' := (fold_left note_store got (rt, r)).2 in
  report_ok r' ∧ rp_Desired r' = rp_Desired r ∧ rp_LocalStored r' = rp_LocalStored r ∧ rp_Key r' = rp_Key r ∧
  tried r' ≡ₚ tried r ++ (sa_node <$> got) ∧ rp_StoredRemotely r' <= rp_StoredRemotely r + len got.
Proof.
  induction got as [|a got IH]; intros rt r Hr; cbn zeta.
  { cbn. unfold len. cbn. rewrite app_nil_r. split_and!; [done..|lia]. }
  cbn [fold_left].
  assert (∃ rt1 r1, note_store (rt, r) a = (rt1, r1) ∧ report_ok r1 ∧ rp_Desired r1 = rp_Desired r ∧
    rp_LocalStored r1 = rp_LocalStored r ∧ rp_Key r1 = rp_Key r ∧ tried r1 ≡ₚ tried r ++ [sa_node a] ∧
    rp_StoredRemotely r1 <= rp_StoredRemotely r + 1) as (rt1 & r1 & -> & Hr1 & Ed & El & Ek & Ht & Hs).
  { destruct Hr as [Ha Hs]. unfold note_store. destruct (sa_stored a); do 2 eexists; (split; [done|]); unfold tried; cbn;
      (split_and!; [split; cbn; rewrite ?len_app; unfold len in *; cbn; lia|done..| |lia]).
    - rewrite <- !app_assoc. apply Permutation_app_head, Permutation_app_comm.
    - by rewrite app_assoc. }
  destruct (IH rt1 r1 Hr1) as (? & ? & ? & ? & Hp & ?). split_and!; [done|congruence..| |].
  - rewrite Hp, Ht, <- app_assoc. done.
  - unfold len in *. cbn [List.length]. lia.
Qed.

Lemma replicate_spec answers fuel : (∀ batch, sa_node <$> answers batch ≡ₚ batch) → ∀ candidates rt r,
  (length candidates <= fuel)%nat → report_ok r → rp_StoredRemotely r <= rp_Desired r →
  let r' := (replicate answers fuel candidates rt r).2 in
  report_ok r' ∧ rp_Desired r' = rp_Desired r ∧ rp_LocalStored r' = rp_LocalStored r ∧ rp_Key r' = rp_Key r ∧
  rp_StoredRemotely r' <= rp_Desired r ∧
  ∃ rest, tried r' ++ rest ≡ₚ tried r ++ candidates ∧ (rp_StoredRemotely r' < rp_Desired r → rest = []).
Proof.
  intros Hans. induction fuel as [|fuel IH]; intros candidates rt r Hf Hr Hd; cbn zeta; cbn [replicate].
  { destruct candidates; [|cbn in Hf; lia]. cbn. split_and!; [done..|]. by exists []. }
  destruct (len candidates =? 0) eqn:E0; cbn [orb].
  { bool_prop. apply len_nil_inv in E0 as ->. cbn. split_and!; [done..|]. by exists []. }
  destruct (Z.leb_spec (rp_Desired r) (rp_StoredRemotely r)) as [Hge|Hlt].
  { cbn. split_and!; [done..|]. exists candidates. split; [done|lia]. }
  set (n := Z.to_nat (Z.min (rp_Desired r - rp_StoredRemotely r) (len candidates))).
  assert (Hn : (1 <= n <= length candidates)%nat) by (unfold len in *; bool_prop; lia).
  pose proof (note_store_spec (answers (take n candidates)) rt r Hr) as Hs.
  destruct (fold_left note_store _ _) as [rt1 r1]. cbn zeta in Hs. cbn [snd] in Hs.
  destruct Hs as (Hr1 & Ed & El & Ek & Ht & Hst).
  assert (Hlen : len (answers (take n candidates)) = Z.of_nat n).
  { unfold len. rewrite <- (length_fmap sa_node), Hans, length_take. lia. }
  destruct (IH (drop n candidates) rt1 r1) as (? & ? & ? & ? & ? & rest & Hp & Hrest); [rewrite length_drop; lia|done|lia|].
  rewrite Ed in *. split_and!; [done|congruence..|done|]. exists rest. split; [|done].
  rewrite Hp, Ht, Hans, <- app_assoc, take_drop. done.
Qed.

Lemma storeValidated_RT s key value now : RT (storeValidated s key value now).2 = RT s.
Proof.
  unfold storeValidated, recordVersionLocked, recordConflictLocked, set_Values, set_persistence. cbv zeta.
  repeat case_match; reflexivity.
Qed.

(** C29: Publishing a value: when it succeeds, the server holds under the key the
    value it prepared (the value itself or an envelope around it), or the valid
    record of the same family that it held before and that the prepared one is not newer
    than; [LocalStored] is set in both cases.  No candidate is tried twice, the
    counters are those of the two lists, at most the desired number of remote
    copies is made, and fewer only if every candidate was tried. *)
Theorem replication_report answers s cfg high middle key value now1 now2 r s' :
  (∀ v batch, sa_node <$> answers v batch ≡ₚ batch) → 0 <= ReplicationMax cfg →
  MaintainReplicas answers s cfg high middle key value now1 now2 = (Ok tt, r, s') →
  let candidates := selectReplicationNodes (closestForTarget (RT s) key K) K in
  (∃ wrapped v, prepareStoreValue s key value now1 = Ok wrapped ∧ validateLookupValue key wrapped now2 = Ok v ∧
     (Values s' !! key = Some wrapped ∨
      ∃ cur c, Values s !! key = Some cur ∧ Values s' !! key = Some cur ∧ validateLookupValue key cur now2 = Ok c ∧
        verified_keyspace key = true ∧ vv_family v = vv_family c ∧ (vv_fingerprint v = vv_fingerprint c ∨ isNewerValue v c = false))) ∧
  rp_LocalStored r = true ∧
  rp_Attempted r = len (rp_Successful r) + len (rp_Failed r) ∧ rp_StoredRemotely r = len (rp_Successful r) ∧
  rp_Desired r = Z.min (len candidates) (adaptiveReplicationTarget cfg high middle) ∧
  rp_StoredRemotely r <= rp_Desired r ∧
  ∃ rest, rp_Successful r ++ rp_Failed r ++ rest ≡ₚ candidates ∧ (rp_StoredRemotely r < rp_Desired r → rest = []).
Proof.
  intros Hans Hmax. unfold MaintainReplicas.
  destruct (prepareStoreValue s key value now1) as [wrapped| |]; [|done..].
  pose proof (storeValidated_RT s key wrapped now2) as Hrt.
  destruct (storeValidated s key wrapped now2) as [[x| |] s1] eqn:Est; [|done..]. cbn [snd] in Hrt. rewrite Hrt.
  destruct (storeValidated_kept _ _ _ _ _ _ Est) as (v & Hv & Hkept).
  set (candidates := selectReplicationNodes _ _). set (r0 := mkReport _ _ _ _ _ _ _).
  assert (Hd : rp_Desired r0 = Z.min (len candidates) (adaptiveReplicationTarget cfg high middle)) by (subst r0; cbn [rp_Desired]; destruct (Z.ltb_spec (len candidates) (adaptiveReplicationTarget cfg high middle)); lia).
  assert (Hd0 : 0 <= rp_Desired r0).
  { rewrite Hd. pose proof (len_nonneg candidates). unfold adaptiveReplicationTarget. repeat case_match; bool_prop; lia. }
  pose proof (replicate_spec (answers wrapped) (length candidates) (Hans wrapped) candidates (RT s) r0) as Hr.
  cbn zeta in Hr. destruct (replicate _ _ _ _ r0) as [rt1 r1]. intros [= <- <-]. cbn [snd] in Hr.
  destruct Hr as ([Ha Hs] & Ed & El & _ & Hle & rest & Hp & Hrest); [lia|by split|done|].
  rewrite Ed, Hd in *. cbn zeta. split_and!; [by exists wrapped, v|done..|]. exists rest. split; [|done].
  rewrite app_assoc. exact Hp.
Qed.

Lemma admit_and_store_error s remote req now1 now2 e s' :
  admit_and_store s remote req now1 now2 = (Err e, s') → Values s' = Values s.
Proof.
  unfold admit_and_store, admitStoreValue, storeValidated, recordVersionLocked, recordConflictLocked, set_Values, set_persistence, set_storeRates.
  cbv zeta. intros E. repeat (case_match; simplify_eq/=); done.
Qed.

(** C38: A store that the peer refuses (by rate, by signature, as stale) is
    acknowledged like one it accepts: the handler drops the error, so the
    publisher's [sendStore] reports success and the refusal counts as a remote
    copy, although the peer's values are unchanged. *)
Theorem rejected_store_acknowledged `{!JSON DHTResponse} `{!StrictJSON DHTResponse} s s' remote key value now clock keys e :
  let req := store_request key value now in
  let resp := mkDHTResponse DHTWireVersion (rq_Type req) [] "" in
  rq_Action req = "store" → DHTRequest_Validate req = Ok tt → stringsHasHiddenDescriptorKey (rq_Target req) = false →
  Decode (json_Marshal resp) = Ok resp → 0 < slen (json_Marshal resp) <= 1024 * 1024 →
  admit_and_store s remote req (clock 1%nat) (clock 2%nat) = (Err e, s') →
  ∃ out, HandleDHT s remote req clock keys = (Ok out, s') ∧ sendStore key value now (Ok out) = Ok tt ∧ Values s' = Values s.
Proof.
  intros req resp Ha Hv Hh Hd Hl He. unfold HandleDHT, HandleRequest. rewrite Hv, Hh, Ha. cbn [negb]. rewrite He.
  eexists. split; [reflexivity|]. split; [|by eapply admit_and_store_error].
  unfold sendStore. cbn [mbind res_bind]. fold req. rewrite Hv. cbn [mbind res_bind].
  unfold WriteLengthPrefixed. fold resp.
  rewrite ReadHeader_WriteHeader by (unfold KindDHT; lia). cbn [mbind res_bind]. rewrite Z.eqb_refl. cbn [negb err_if mbind res_bind].
  change (be_bytes 4 (u32 (len (str_bytes (json_Marshal resp)))) ++ str_bytes (json_Marshal resp)) with (WriteLengthPrefixed [] (str_bytes (json_Marshal resp))). rewrite <- (app_nil_r (WriteLengthPrefixed [] _)).
  rewrite ReadLengthPrefixed_app by (unfold max_u32, len, slen in *; rewrite ?length_str_bytes; lia). cbn [mbind res_bind].
  rewrite bytes_str_bytes, Hd. cbn [mbind res_bind]. cbn [resp rs_Version rs_Type].
  assert (rq_Version req = DHTWireVersion) as -> by (subst req; unfold store_request; repeat case_match; done).
  by rewrite Z.eqb_refl, String.eqb_refl.
Qed.
End Replication.

#[export] Instance demo_JSON_response : JSON DHTResponse.
Proof.
  refine (demo_JSON 3 (fun r => [int_field (rs_Version r); rs_Type r; rs_Value r])
    (fun l => match l with [a; b; c] => Some (mkDHTResponse (field_int a) b [] c) | _ => None end)
    (fun r => 0 <= rs_Version r < 2 ^ 64 ∧ rs_Nodes r = []) _ _); [done|].
  intros [] [? Hn]. cbn -[int_field field_int Z.pow] in *. subst. by rewrite !field_int_field by done.
Defined.
#[export] Instance demo_StrictJSON_response : StrictJSON DHTResponse := {|
  json_lex s := if s =?s "" then [] else [Atom];
  json_DecodeKnown s := r ← json_Unmarshal s; Some (r, "");
|}.

(** Data that is no record, for a service key. *)
Definition bogus_result : res unit * Server (gmap string string) :=
  admit_and_store demo_server "[2001:db8::9]:4242" (store_request "service/alice.web" "not a record" t0) t0 t0.
Lemma rejected_store_acknowledged_witness :
  ∃ out, HandleDHT demo_server "[2001:db8::9]:4242" (store_request "service/alice.web" "not a record" t0) (fun _ => t0) []
      = (Ok out, bogus_result.2) ∧
    sendStore "service/alice.web" "not a record" t0 (Ok out) = Ok tt ∧ Values bogus_result.2 = Values demo_server.
Proof.
  apply (rejected_store_acknowledged demo_server bogus_result.2 "[2001:db8::9]:4242" "service/alice.web" "not a record" t0
    (fun _ => t0) [] (match bogus_result.1 with Err e => e | _ => "" end)).
  - vm_compute. reflexivity.
  - vm_compute. reflexivity.
  - vm_compute. reflexivity.
  - vm_compute. reflexivity.
  - vm_compute. split; [reflexivity|discriminate].
  - assert (∃ e, bogus_result.1 = Err e) as [e He] by (vm_compute; by eexists).
    rewrite He. unfold bogus_result in *. destruct (admit_and_store _ _ _ _ _) as [r s']. cbn in *. by subst.
Defined.

(** Publishing a raw value with nobody else in the table. *)
Definition lone_run :=
  MaintainReplicas (fun _ batch => (fun n => mkStoreAnswer n true t0) <$> batch) demo_server defaultAdaptiveConfig false false
    "custom/key" "value" t0 t0.
Lemma replication_report_witness :
  let candidates := selectReplicationNodes (closestForTarget (RT demo_server) "custom/key" K) K in
  let r := lone_run.1.2 in
  Values lone_run.2 !! "custom/key" = Some "value" ∧ rp_LocalStored r = true ∧
  rp_Attempted r = len (rp_Successful r) + len (rp_Failed r) ∧ rp_StoredRemotely r = len (rp_Successful r) ∧
  rp_Desired r = Z.min (len candidates) (adaptiveReplicationTarget defaultAdaptiveConfig false false) ∧
  rp_StoredRemotely r <= rp_Desired r ∧
  ∃ rest, rp_Successful r ++ rp_Failed r ++ rest ≡ₚ candidates ∧ (rp_StoredRemotely r < rp_Desired r → rest = []).
Proof.
  split; [vm_compute; reflexivity|].
  apply (replication_report (fun _ batch => (fun n => mkStoreAnswer n true t0) <$> batch) demo_server defaultAdaptiveConfig
    false false "custom/key" "value" t0 t0 lone_run.1.2 lone_run.2).
  - intros v batch. rewrite <- list_fmap_compose. by rewrite list_fmap_id.
  - done.
  - assert (lone_run.1.1 = Ok tt) as E by (vm_compute; reflexivity).
    unfold lone_run in *. destruct (MaintainReplicas _ _ _ _ _ _ _ _ _) as [[r1 r] s']. cbn in *. by subst.
Defined.
