(* ===== verification/ServerProps.v ===== *)
(** * A running DHT server

    The states a server reaches by everything that changes it: its start from an empty or a
    stored state, the requests of peers, publications ([MaintainReplicas], and
    [StoreLocal], which stores without asking), its settings, and the routing
    table, which lookups and the node change.  Writes to disk may fail at any time. *)
From S2P Require Import Prelude GoBytes GoStrings GoEncoding GoTime GoSort Sha256 GoEnv Lines GoNumbers Identity Record RecordProps DemoJson StrictJson Envelope Hidden HiddenProps Catalog Proto NodeInfo Value ValueProps Collector RateLimit Peer Routing RoutingIndex RoutingInv RoutingOps RoutingProps RoutingQuery RoutingLimit RoutingDemo Store StoreProps Lookup LookupProps.

Section Server.
Context `{UnicodeTables, NetIP, RFC3339, Ed25519, GoSort}.
Context `{!StrictJSON EndpointRecord} `{!JSON SignedEnvelope} `{!JSON ServiceRecord}
  `{!JSON HiddenDescriptor} `{!JSON (list ServiceRecord)} `{!JSON PrivateServiceCatalog}.
Context {P : Type} `{!ValuePersistence P}.
Implicit Types (s : Server P) (D : gset string).

Definition set_RT s (rt : RoutingTable) : Server P :=
  mkServer rt (Values s) (valuePersistence s) (publisher s) (lookupLimits s) (versions s) (hiddenRates s) (storeRates s).

(** The set has the keys at which [StoreLocal] kept a value that is invalid, or that could
    not be written: its caller is not told. *)
Inductive reachable : Server P → gset string → Prop :=
| reach_new selfID : reachable (NewServer selfID) ∅
| reach_load selfID p keys now s : AttachValuePersistence (NewServer selfID) p keys now = Ok s → reachable s ∅
| reach_request s D remote req clock keys : reachable s D → reachable (HandleRequest s remote req clock keys).2 D
| reach_publish s D answers cfg high middle key value now1 now2 : reachable s D →
    reachable (MaintainReplicas answers s cfg high middle key value now1 now2).2 D
| reach_local s D key value now : reachable s D →
    reachable (StoreLocal s key value now) (if local_kept s key value now then D else {[key]} ∪ D)
| reach_table s D rt : reachable s D → reachable (set_RT s rt) D
| reach_publisher s D id : reachable s D → reachable (SetPublisherIdentity s id).2 D
| reach_limits s D l : reachable s D → reachable (SetLookupLimits s l).2 D.

Lemma set_RT_inv D s rt : store_inv D s → store_inv D (set_RT s rt).
Proof. by destruct s. Qed.
Lemma MaintainReplicas_inv D answers s cfg high middle key value now1 now2 : store_inv D s →
  store_inv D (MaintainReplicas answers s cfg high middle key value now1 now2).2.
Proof.
  intros Hs. unfold MaintainReplicas. destruct (prepareStoreValue s key value now1) as [wrapped| |]; [|done..].
  pose proof (storeValidated_inv D s key wrapped now2 Hs) as Hi. destruct (storeValidated s key wrapped now2) as [[x| |] s1]; [|done..].
  cbv zeta. destruct (replicate _ _ _ _ _) as [rt report]. by apply set_RT_inv.
Qed.

Lemma reachable_inv s D : reachable s D → store_inv D s.
Proof.
  induction 1 as [id|id p keys now s Ha|s D remote req clock keys _ IH|s D answers cfg high middle key value now1 now2 _ IH|s D key value now _ IH|s D rt _ IH|s D id _ IH|s D l _ IH].
  - apply fresh_inv.
  - by eapply Attach_inv.
  - by apply HandleRequest_inv.
  - by apply MaintainReplicas_inv.
  - by apply StoreLocal_inv.
  - by apply set_RT_inv.
  - unfold SetPublisherIdentity. by destruct (Identity_Validate id), s.
  - unfold SetLookupLimits. by case_match; destruct s.
Qed.

(** C16: In every state of a server at most six previous and six conflicting versions are
    remembered per key; and except for the keys at which [StoreLocal] kept a value
    that does not validate or could not be written, the recorded current version of a
    key is that of the value stored under it, and every stored value of a verified
    keyspace other than descriptors is on disk.  The states are those reached from the start by
    requests, publications, local stores and changes of settings and routing table,
    whatever writes to disk fail. *)
Theorem store_reachable_inv s D : reachable s D → tracked D s ∧ bounded s ∧ durable D s.
Proof. apply reachable_inv. Qed.

(** C17: A restart loses nothing that is still valid: loading the disk of a
    running server into a new one gives back every stored value of a verified
    keyspace that validates at that time, with its version, and nothing that does not
    validate.  Excepted are descriptors, which are never written, and the keys at
    which [StoreLocal] kept a value that is invalid or could not be written. *)
Theorem restart_recovers s D p selfID keys now s' :
  reachable s D → valuePersistence s = Some p →
  AttachValuePersistence (NewServer selfID) (Some p) keys now = Ok s' →
  (∀ k, is_Some (saved p !! k) → k ∈ keys) →
  (∀ key raw v, key ∉ D → Values s !! key = Some raw → verified_keyspace key = true →
     HasPrefix key "hidden-desc/v1/" = false → validateLookupValue key raw now = Ok v →
     Values s' !! key = Some raw ∧ versions s' !! key = Some (mkState (storedVersionFromValidated v) [] [])) ∧
  (∀ key raw, Values s' !! key = Some raw →
     saved p !! key = Some raw ∧ is_ok (validateLookupValue key raw now) = true).
Proof.
  intros Hr Hp (p' & valid & -> & Hvalid & _)%Attach_spec Hkeys.
  destruct (load_rows now (set_persistence (NewServer selfID) (Some p')) valid) as (HV & _ & _ & Hvers). split.
  - intros key raw v HD Hraw Hk Hh Hv. destruct (reachable_inv s D Hr) as (_ & _ & Hd).
    assert (Hin : valid !! key = Some raw).
    { apply Hvalid. specialize (Hd p Hp key raw HD Hraw Hk Hh). split_and!; [apply Hkeys; by rewrite Hd|done|].
      apply keep_row_true. eauto. }
    split; [|by eapply Hvers]. rewrite HV. by apply lookup_union_Some_l.
  - intros key raw. rewrite HV, lookup_union_Some_raw. cbn. rewrite lookup_empty.
    intros [(_ & Hs & (_ & _ & v & Hv)%keep_row_true)%Hvalid|[_ ?]]; [|done]. split; [done|by rewrite Hv].
Qed.
End Server.

(** ** Witnesses *)
Lemma demo_server_reachable : reachable demo_server ∅.
Proof. apply (reach_load "vx6_self" (Some ∅) [] 0). reflexivity. Qed.
Lemma demo_after_reachable : reachable demo_after ∅.
Proof. apply reach_request, demo_server_reachable. Qed.
Lemma store_reachable_inv_witness : tracked ∅ demo_after ∧ bounded demo_after ∧ durable ∅ demo_after.
Proof. exact (store_reachable_inv demo_after ∅ demo_after_reachable). Defined.

Lemma restart_recovers_witness : Values demo_restarted !! demo_id_key = Some demo_endpoint_2.
Proof.
  refine (proj1 (proj1 (restart_recovers demo_after ∅ demo_disk "vx6_self" demo_keys demo_later demo_restarted _ _ _ _)
    demo_id_key demo_endpoint_2 demo_val_2 _ _ _ _ _)).
  - exact demo_after_reachable.
  - exact demo_after_disk.
  - apply (res_get_ok demo_server demo_restart). vm_compute. reflexivity.
  - intros k [v Hk]. apply list_elem_of_fmap. exists (k, v). split; [reflexivity|]. by apply elem_of_map_to_list.
  - apply not_elem_of_empty.
  - exact demo_after_value.
  - reflexivity.
  - reflexivity.
  - exact demo_val_2_ok.
Defined.
