(* ===== verification/Discovery.v ===== *)
(** * The discovery registry (internal/discovery/discovery.go)

    The shared registry of endpoint and public service records: its in-memory
    maps, the file it is saved to, the requests it answers and the client side of
    the protocol.  [clock n] is the [n]-th reading of the clock in an operation;
    [io] is the failure of a write with what it leaves in the file, if it fails;
    the order of a [range] over a map is an argument. *)
From S2P Require Import Prelude GoBytes GoStrings GoEncoding GoTime GoSort Sha256 GoEnv Lines Identity Record Proto.

Definition maxMessageSize : Z := 64 * 1024.
Definition localAddressHistoryTTL : Z := 30 * 24 * Hour.
Definition maxLocalAddressHistory : nat := 3.

Record addressObservation := mkAddrObs { ao_Address : string; ao_Observed : Z }.

Record Registry := mkRegistry {
  rg_path : string;
  rg_byName : gmap string EndpointRecord;
  rg_byNode : gmap string EndpointRecord;
  rg_services : gmap string ServiceRecord;
  rg_history : gmap string (list addressObservation);
  rg_file : option string;  (* what [path] holds *)
}.

Record request := mkRequest {
  q_Action : string;
  q_Record : EndpointRecord;
  q_ServiceRecord : ServiceRecord;
  q_Name : string;
  q_NodeID : string;
  q_Service : string;
}.

Record response := mkResponse {
  p_OK : bool;
  p_Error : string;
  p_Record : EndpointRecord;
  p_ServiceRecord : ServiceRecord;
  p_Records : list EndpointRecord;
  p_ServiceRecords : list ServiceRecord;
  p_LocalHistory : gmap string (list addressObservation);
}.

Definition zero_endpoint : EndpointRecord := mkEndpointRecord 0 0 "" "" "" "" "" "" "".
Definition zero_service : ServiceRecord := mkServiceRecord "" "" "" "" "" false false "" [] [] "" "" "" "".
Definition zero_response : response := mkResponse false "" zero_endpoint zero_service [] [] ∅.
Definition error_response (e : string) : response := mkResponse false e zero_endpoint zero_service [] [] ∅.

Definition set_maps (r : Registry) byName byNode history : Registry :=
  mkRegistry (rg_path r) byName byNode (rg_services r) history (rg_file r).
Definition set_services (r : Registry) services : Registry :=
  mkRegistry (rg_path r) (rg_byName r) (rg_byNode r) services (rg_history r) (rg_file r).
Definition set_history (r : Registry) history : Registry :=
  mkRegistry (rg_path r) (rg_byName r) (rg_byNode r) (rg_services r) history (rg_file r).
Definition set_file (r : Registry) file : Registry :=
  mkRegistry (rg_path r) (rg_byName r) (rg_byNode r) (rg_services r) (rg_history r) file.

(** ** Address histories *)
Section History.
Context `{NetIP}.

Definition keep_observation (now : Z) (item : addressObservation) : bool :=
  negb ((ao_Address item =?s "") || IsZero (ao_Observed item) || (localAddressHistoryTTL <? Sub now (ao_Observed item)))
  && is_ok (ValidateIPv6Address (ao_Address item)).

(** The loop over the entries of one node: [out] holds those kept so far. *)
Fixpoint clean_entries (now : Z) (entries out : list addressObservation) : list addressObservation :=
  match entries with
  | [] => out
  | item :: entries =>
      if negb (keep_observation now item) || existsb (fun o => ao_Address o =?s ao_Address item) out
      then clean_entries now entries out
      else
        let out := out ++ [item] in
        if (length out =? maxLocalAddressHistory)%nat then out else clean_entries now entries out
  end.

(** A node without entries left is not in the map. *)
Definition cleanAddressHistory (input : gmap string (list addressObservation)) (now : Z)
  : gmap string (list addressObservation) :=
  omap (fun entries => match clean_entries now entries [] with [] => None | l => Some l end) input.

Fixpoint remove_address (address : string) (history : list addressObservation) : list addressObservation :=
  match history with
  | [] => []
  | item :: history => if ao_Address item =?s address then history else item :: remove_address address history
  end.

Definition rememberAddressLocked (h : gmap string (list addressObservation)) (nodeID address : string) (now : Z)
  : gmap string (list addressObservation) :=
  if address =?s "" then h
  else
    let history := clean_entries now (default [] (h !! nodeID)) [] in
    let history := mkAddrObs address now :: remove_address address history in
    <[nodeID := take maxLocalAddressHistory history]> h.

Definition HistoricalAddresses (r : Registry) (nodeID : string) (now : Z) : list string * Registry :=
  let r := set_history r (cleanAddressHistory (rg_history r) now) in
  (ao_Address <$> default [] (rg_history r !! nodeID), r).

Definition upsertEndpointLocked (r : Registry) (rec : EndpointRecord) (now : Z) : Registry :=
  let '(byName, history) :=
    match rg_byNode r !! er_NodeID rec with
    | Some existing =>
        (if (er_NodeName existing <>?s "") && (er_NodeName existing <>?s er_NodeName rec)
            && (er_NodeID (default zero_endpoint (rg_byName r !! er_NodeName existing)) =?s er_NodeID rec)
         then delete (er_NodeName existing) (rg_byName r) else rg_byName r,
         if er_Address existing <>?s er_Address rec
         then rememberAddressLocked (rg_history r) (er_NodeID rec) (er_Address existing) now else rg_history r)
    | None => (rg_byName r, rg_history r)
    end in
  set_maps r (<[er_NodeName rec := rec]> byName) (<[er_NodeID rec := rec]> (rg_byNode r)) history.
End History.

Section Registry.
Context `{UnicodeTables, NetIP, RFC3339, Ed25519, GoSort}.
Context `{!JSON request} `{!JSON response}.

(** [sort.Strings] of the keys, and the values in that order. *)
Definition sorted_keys {A} (m : gmap string A) : list string := sort_Slice str_lt (map_to_list m).*1.
Definition sorted_values {A} (m : gmap string A) : list A := omap (fun k => m !! k) (sorted_keys m).

Definition Registry_Snapshot (r : Registry) : list EndpointRecord * list ServiceRecord :=
  (sorted_values (rg_byNode r), sorted_values (rg_services r)).

Definition saveLocked (r : Registry) (now : Z) (io : option (string * option string)) : res unit * Registry :=
  if rg_path r =?s "" then (Ok tt, r)
  else match io with
       | Some (e, remains) => (Err e, set_file r remains)
       | None =>
           let data := json_MarshalIndent (mkResponse false "" zero_endpoint zero_service (sorted_values (rg_byNode r))
                         (sorted_values (rg_services r)) (cleanAddressHistory (rg_history r) now)) in
           (Ok tt, set_file r (Some (data +:+ String "010" "")))
       end.

(** ** Loading *)
Definition load_endpoint (clock : nat → Z) (r : Registry) (x : nat * EndpointRecord) : Registry :=
  let '(i, rec) := x in
  if is_ok (VerifyEndpointRecord rec (clock (2 * i)%nat)) then upsertEndpointLocked r rec (clock (2 * i + 1)%nat) else r.
Definition load_service (clock : nat → Z) (r : Registry) (x : nat * ServiceRecord) : Registry :=
  let '(i, rec) := x in
  if is_ok (VerifyServiceRecord rec (clock i)) && negb (sr_IsPrivate rec || sr_IsHidden rec)
  then set_services r (<[ServiceLookupKey rec := rec]> (rg_services r)) else r.
Definition indexed {A} (l : list A) : list (nat * A) := imap pair l.

(** [read] is the result of [os.ReadFile], without a file [Ok None]. *)
Definition load (r : Registry) (read : res (option string)) (now : Z) (clock1 clock2 : nat → Z) : res Registry :=
  data ← read;
  match data with
  | None => Ok r
  | Some data =>
      snapshot ← of_option (json_Unmarshal (T := response) data) "decode registry";
      let r := set_history r (cleanAddressHistory (p_LocalHistory snapshot) now) in
      let r := fold_left (load_endpoint clock1) (indexed (p_Records snapshot)) r in
      Ok (fold_left (load_service clock2) (indexed (p_ServiceRecords snapshot)) r)
  end.

Definition NewRegistry (path : string) (file : option string) (read : res (option string)) (now : Z) (clock1 clock2 : nat → Z)
  : res Registry :=
  let r := mkRegistry path ∅ ∅ ∅ ∅ file in
  if path <>?s "" then load r read now clock1 clock2 else Ok r.

(** ** Requests *)
Definition issued (rec : ServiceRecord) : Z := default zero_time (time_Parse (sr_IssuedAt rec)).

(** The response, the registry and the endpoints the observer is notified of. *)
Definition reply : Type := res response * Registry * list EndpointRecord.

Definition handlePublish (r : Registry) (rec : EndpointRecord) (clock : nat → Z) (io : option (string * option string)) : reply :=
  match VerifyEndpointRecord rec (clock 0%nat) with
  | Panic => (Panic, r, [])
  | Err e => (Ok (error_response e), r, [])
  | Ok _ =>
      let stale :=
        match rg_byNode r !! er_NodeID rec with
        | Some existing => negb (EndpointRecordNewer rec existing) && (Fingerprint rec <>?s Fingerprint existing)
        | None => false
        end in
      if stale then (Ok (error_response "new record does not advance the stored record sequence"), r, [])
      else
        match saveLocked (upsertEndpointLocked r rec (clock 1%nat)) (clock 2%nat) io with
        | (Ok _, r) => (Ok (mkResponse true "" rec zero_service [] [] ∅), r, [rec])
        | (Err e, r) => (Ok (error_response e), r, [])
        | (Panic, r) => (Panic, r, [])
        end
  end.

Definition handlePublishService (r : Registry) (rec : ServiceRecord) (clock : nat → Z) (io : option (string * option string)) : reply :=
  match VerifyServiceRecord rec (clock 0%nat) with
  | Panic => (Panic, r, [])
  | Err e => (Ok (error_response e), r, [])
  | Ok _ =>
      if sr_IsPrivate rec then (Ok (error_response "private services are not published through the shared registry"), r, [])
      else if sr_IsHidden rec then (Ok (error_response "hidden services are not published through the shared registry"), r, [])
      else
        let fullName := ServiceLookupKey rec in
        let older := match rg_services r !! fullName with Some existing => After (issued existing) (issued rec) | None => false end in
        if older then (Ok (error_response "new service record is older than stored record"), r, [])
        else
          match saveLocked (set_services r (<[fullName := rec]> (rg_services r))) (clock 1%nat) io with
          | (Ok _, r) => (Ok (mkResponse true "" zero_endpoint rec [] [] ∅), r, [])
          | (Err e, r) => (Ok (error_response e), r, [])
          | (Panic, r) => (Panic, r, [])
          end
  end.

(** The search for the records of a name; [order] are the records in the order
    of the iteration. *)
Fixpoint scan_name (name : string) (order : list EndpointRecord) (found : option EndpointRecord) : res (option EndpointRecord) :=
  match order with
  | [] => Ok found
  | candidate :: order =>
      if er_NodeName candidate <>?s name then scan_name name order found
      else match found with
           | Some rec => if er_NodeID rec <>?s er_NodeID candidate then Err "node name has multiple identities; resolve by NodeID"
                         else scan_name name order (Some candidate)
           | None => scan_name name order (Some candidate)
           end
  end.

Definition resolve (r : Registry) (name nodeID : string) (now : Z) (order : list EndpointRecord) : res EndpointRecord :=
  name ← (if name <>?s "" then NormalizeNodeName name else Ok name);
  found ← (if name <>?s "" then scan_name name order None
           else if nodeID <>?s "" then Ok (rg_byNode r !! nodeID)
           else Err "resolve requires name or node_id");
  rec ← of_option found "record not found";
  match VerifyEndpointRecord rec now with
  | Ok _ => Ok rec
  | Err _ => Err "stored record invalid"
  | Panic => Panic
  end.

Definition handleResolve (r : Registry) (name nodeID : string) (now : Z) (order : list EndpointRecord) : reply :=
  (match resolve r name nodeID now order with
   | Ok rec => Ok (mkResponse true "" rec zero_service [] [] ∅)
   | Err e => Ok (error_response e)
   | Panic => Panic
   end, r, []).

Definition ResolveServiceLocal (r : Registry) (fullName : string) (now : Z) : res ServiceRecord :=
  rec ← of_option (rg_services r !! CanonicalServiceLookupKey fullName) "service record not found";
  VerifyServiceRecord rec now;; Ok rec.

Definition handleResolveService (r : Registry) (service : string) (now : Z) : reply :=
  (match rg_services r !! CanonicalServiceLookupKey service with
   | None => Ok (error_response "service record not found")
   | Some rec =>
       match VerifyServiceRecord rec now with
       | Ok _ => Ok (mkResponse true "" zero_endpoint rec [] [] ∅)
       | Err e => Ok (error_response ("stored service record invalid: " +:+ e))
       | Panic => Panic
       end
   end, r, []).

Definition handleSnapshot (r : Registry) : reply :=
  let '(records, services) := Registry_Snapshot r in
  (Ok (mkResponse true "" zero_endpoint zero_service records services ∅), r, []).

(** What [writeResponse] writes. *)
Definition writeResponse (resp : response) : bytes :=
  let resp := if p_Error resp =?s "" then
    mkResponse true (p_Error resp) (p_Record resp) (p_ServiceRecord resp) (p_Records resp) (p_ServiceRecords resp) (p_LocalHistory resp)
    else resp in
  WriteLengthPrefixed (WriteHeader [] KindDiscoveryRes) (str_bytes (json_Marshal resp)).

Definition dispatch (r : Registry) (req : request) (clock : nat → Z) (io : option (string * option string))
    (order : list EndpointRecord) : reply :=
  if q_Action req =?s "publish" then handlePublish r (q_Record req) clock io
  else if q_Action req =?s "publish_service" then handlePublishService r (q_ServiceRecord req) clock io
  else if q_Action req =?s "resolve" then handleResolve r (q_Name req) (q_NodeID req) (clock 0%nat) order
  else if q_Action req =?s "resolve_service" then handleResolveService r (q_Service req) (clock 0%nat)
  else if q_Action req =?s "snapshot" then handleSnapshot r
  else (Ok (error_response "unknown action"), r, []).

(** The bytes written to the connection, the registry and the notifications. *)
Definition HandleConn (r : Registry) (incoming : bytes) (clock : nat → Z) (io : option (string * option string))
    (order : list EndpointRecord) : res bytes * Registry * list EndpointRecord :=
  match ReadLengthPrefixed incoming maxMessageSize with
  | Err e => (Err e, r, [])
  | Panic => (Panic, r, [])
  | Ok (payload, _) =>
      match json_Unmarshal (T := request) (bytes_str payload) with
      | None => (Ok (writeResponse (error_response "decode request")), r, [])
      | Some req =>
          let '(resp, r, seen) := dispatch r req clock io order in
          (resp ≫= fun resp => Ok (writeResponse resp), r, seen)
      end
  end.

(** ** Import *)
Definition import_endpoint (clock : nat → Z) (st : Registry * bool * list EndpointRecord) (x : nat * EndpointRecord)
  : Registry * bool * list EndpointRecord :=
  let '(r, changed, updated) := st in let '(i, rec) := x in
  if negb (is_ok (VerifyEndpointRecord rec (clock (2 * i)%nat))) then st
  else
    let advances := match rg_byNode r !! er_NodeID rec with Some existing => EndpointRecordNewer rec existing | None => true end in
    if advances then (upsertEndpointLocked r rec (clock (2 * i + 1)%nat), true, updated ++ [rec]) else st.

Definition import_service (clock : nat → Z) (st : Registry * bool) (x : nat * ServiceRecord) : Registry * bool :=
  let '(r, changed) := st in let '(i, rec) := x in
  if negb (is_ok (VerifyServiceRecord rec (clock i))) || sr_IsPrivate rec || sr_IsHidden rec then st
  else
    let fullName := ServiceLookupKey rec in
    let advances := match rg_services r !! fullName with Some existing => After (issued rec) (issued existing) | None => true end in
    if advances then (set_services r (<[fullName := rec]> (rg_services r)), true) else st.

Definition Import (r : Registry) (records : list EndpointRecord) (services : list ServiceRecord)
    (clock1 clock2 : nat → Z) (now : Z) (io : option (string * option string)) : res unit * Registry * list EndpointRecord :=
  let '(r, changed, updated) := fold_left (import_endpoint clock1) (indexed records) (r, false, []) in
  let '(r, changed) := fold_left (import_service clock2) (indexed services) (r, changed) in
  if changed : bool then
    match saveLocked r now io with
    | (Ok _, r) => (Ok tt, r, updated)
    | (e, r) => (e, r, [])
    end
  else (Ok tt, r, updated).

(** ** The client: [exchange] gives the peer's answer to the bytes sent *)
Definition roundTrip (address : string) (req : request) (exchange : bytes → res bytes) : res response :=
  ValidateIPv6Address address;;
  incoming ← exchange (WriteLengthPrefixed (WriteHeader [] KindDiscoveryReq) (str_bytes (json_Marshal req)));
  '(kind, incoming) ← ReadHeader incoming;
  err_if (negb (kind =? KindDiscoveryRes)) "unexpected response kind";;
  '(reply, _) ← ReadLengthPrefixed incoming maxMessageSize;
  of_option (json_Unmarshal (T := response) (bytes_str reply)) "decode response".

Definition simple_request (action name nodeID service : string) : request :=
  mkRequest action zero_endpoint zero_service name nodeID service.

Definition Publish (address : string) (rec : EndpointRecord) (exchange : bytes → res bytes) : res EndpointRecord :=
  resp ← roundTrip address (mkRequest "publish" rec zero_service "" "" "") exchange;
  err_if (negb (p_OK resp)) (p_Error resp);; Ok (p_Record resp).
Definition PublishService (address : string) (rec : ServiceRecord) (exchange : bytes → res bytes) : res ServiceRecord :=
  resp ← roundTrip address (mkRequest "publish_service" zero_endpoint rec "" "" "") exchange;
  err_if (negb (p_OK resp)) (p_Error resp);; Ok (p_ServiceRecord resp).
Definition Discovery_Resolve (address name nodeID : string) (now : Z) (exchange : bytes → res bytes) : res EndpointRecord :=
  name ← (if name <>?s "" then NormalizeNodeName name else Ok name);
  resp ← roundTrip address (simple_request "resolve" name nodeID "") exchange;
  err_if (negb (p_OK resp)) (p_Error resp);;
  VerifyEndpointRecord (p_Record resp) now;; Ok (p_Record resp).
Definition ResolveService (address service : string) (now : Z) (exchange : bytes → res bytes) : res ServiceRecord :=
  resp ← roundTrip address (simple_request "resolve_service" "" "" (CanonicalServiceLookupKey service)) exchange;
  err_if (negb (p_OK resp)) (p_Error resp);;
  VerifyServiceRecord (p_ServiceRecord resp) now;; Ok (p_ServiceRecord resp).
Definition Discovery_Snapshot (address : string) (exchange : bytes → res bytes)
  : res (list EndpointRecord * list ServiceRecord) :=
  resp ← roundTrip address (simple_request "snapshot" "" "" "") exchange;
  err_if (negb (p_OK resp)) (p_Error resp);; Ok (p_Records resp, p_ServiceRecords resp).
End Registry.
