(* ===== verification/DiscoveryProps.v ===== *)
(** * What the discovery registry guarantees

    Every record in it was verified and is indexed under its own names, no
    record is rolled back, a snapshot brings a peer up to date, the file restores
    what still verifies, and a name resolves only while it has one owner. *)
From S2P Require Import Prelude GoBytes GoStrings GoEncoding GoTime GoSort Sha256 GoEnv Lines Identity Record RecordProps DemoJson Proto Discovery.

Section Facts.
Context `{UnicodeTables, NetIP, RFC3339, Ed25519, GoSort}.

(** ** Histories *)
Record history_ok (h : list addressObservation) : Prop := {
  ho_len : (length h <= maxLocalAddressHistory)%nat;
  ho_nodup : NoDup (ao_Address <$> h);
  ho_valid : Forall (fun o => ValidateIPv6Address (ao_Address o) = Ok tt) h;
}.

Lemma clean_entries_ok now entries : ∀ out, history_ok out → (length out < maxLocalAddressHistory)%nat →
  history_ok (clean_entries now entries out).
Proof.
  induction entries as [|item entries IH]; intros out Ho Hl; [done|]. cbn [clean_entries].
  destruct (keep_observation now item) eqn:Ek; cbn [negb orb]; [|by apply IH].
  destruct (existsb _ out) eqn:Ee; [by apply IH|].
  assert (Ho' : history_ok (out ++ [item])).
  { destruct Ho as [Hlen Hn Hv]. split.
    - rewrite length_app. cbn. lia.
    - rewrite fmap_app. apply NoDup_app. split_and!; [done| |apply NoDup_singleton].
      intros a (o & -> & Hin)%list_elem_of_fmap. intros Ha. apply list_elem_of_singleton in Ha.
      apply not_true_iff_false in Ee. apply Ee, existsb_exists. exists o. split; [by apply list_elem_of_In|].
      by apply String.eqb_eq.
    - apply Forall_app. split; [done|]. apply Forall_singleton. unfold keep_observation in Ek. bool_prop.
      by destruct (ValidateIPv6Address _) as [[]| |]. }
  rewrite length_app. cbn [length]. destruct (Nat.eqb_spec (length out + 1) maxLocalAddressHistory); [done|].
  apply IH; [done|]. rewrite length_app. cbn. lia.
Qed.

Lemma history_nil : history_ok [].
Proof. split; cbn; [unfold maxLocalAddressHistory; lia|constructor|constructor]. Qed.

Lemma clean_history_ok input now id h : cleanAddressHistory input now !! id = Some h → history_ok h.
Proof.
  unfold cleanAddressHistory. rewrite lookup_omap_Some. intros (e & He & _).
  assert (Hc : history_ok (clean_entries now e [])) by (apply clean_entries_ok; [apply history_nil|cbn; unfold maxLocalAddressHistory; lia]).
  destruct (clean_entries now e []); [done|]. by injection He as <-.
Qed.

Lemma remove_address_spec a h : NoDup (ao_Address <$> h) →
  a ∉ ao_Address <$> remove_address a h ∧ remove_address a h `sublist_of` h.
Proof.
  induction h as [|o h IH]; intros Hn; cbn; [split; [by apply not_elem_of_nil|done]|].
  cbn in Hn. apply NoDup_cons in Hn as [Ho Hn]. destruct (String.eqb_spec (ao_Address o) a) as [<-|Hne].
  - split; [done|by apply sublist_cons].
  - destruct (IH Hn) as [Ha Hs]. split; [|by apply sublist_skip]. cbn. rewrite not_elem_of_cons. auto.
Qed.

Lemma history_cons a now h : history_ok h → ValidateIPv6Address a = Ok tt →
  history_ok (take maxLocalAddressHistory (mkAddrObs a now :: remove_address a h)).
Proof.
  intros [Hl Hn Hv] Ha. destruct (remove_address_spec a h Hn) as [Hna Hs].
  assert (Hn' : NoDup (ao_Address <$> mkAddrObs a now :: remove_address a h)).
  { cbn. apply NoDup_cons. split; [done|]. eapply sublist_NoDup; [exact Hn|]. by apply (fmap_sublist ao_Address). }
  split.
  - rewrite length_take. lia.
  - rewrite fmap_take. eapply sublist_NoDup; [exact Hn'|]. apply sublist_take.
  - apply Forall_take. constructor; [done|]. apply Forall_forall. intros o Ho.
    rewrite Forall_forall in Hv. apply Hv. by eapply elem_of_sublist.
Qed.

Lemma remember_ok h id a now id' l : (∀ id h', h !! id = Some h' → history_ok h') →
  (a ≠ "" → ValidateIPv6Address a = Ok tt) → rememberAddressLocked h id a now !! id' = Some l → history_ok l.
Proof.
  intros Hh Ha. unfold rememberAddressLocked. destruct (String.eqb_spec a ""); [by apply Hh|].
  rewrite lookup_insert_Some. intros [[<- <-]|[_ ?]]; [|by eapply Hh]. apply history_cons; [|by apply Ha].
  apply clean_entries_ok; [apply history_nil|]. cbn. unfold maxLocalAddressHistory. lia.
Qed.

(** ** The invariant of a registry *)
Record registry_ok (r : Registry) : Prop := {
  ro_node id rec : rg_byNode r !! id = Some rec → er_NodeID rec = id ∧ ∃ t, VerifyEndpointRecord rec t = Ok tt;
  ro_name name rec : rg_byName r !! name = Some rec → er_NodeName rec = name ∧ rg_byNode r !! er_NodeID rec = Some rec;
  ro_service key rec : rg_services r !! key = Some rec →
    ServiceLookupKey rec = key ∧ sr_IsPrivate rec = false ∧ sr_IsHidden rec = false ∧ ∃ t, VerifyServiceRecord rec t = Ok tt;
  ro_history id h : rg_history r !! id = Some h → history_ok h;
}.

Lemma verified_endpoint_fields rec t : VerifyEndpointRecord rec t = Ok tt →
  er_NodeName rec ≠ "" ∧ ValidateIPv6Address (er_Address rec) = Ok tt.
Proof.
  unfold VerifyEndpointRecord. intros Hv. res_inv.
  match goal with H : VerifyEndpoint _ _ = Ok _ |- _ => apply VerifyEndpoint_inv in H as [_ []] end.
  split; [by eapply canonical_not_empty|done].
Qed.

Lemma upsert_ok r rec t now : registry_ok r → VerifyEndpointRecord rec t = Ok tt →
  registry_ok (upsertEndpointLocked r rec now).
Proof.
  intros [Hn Hm Hs Hh] Hv. unfold upsertEndpointLocked.
  set (x := match rg_byNode r !! er_NodeID rec with Some _ => _ | None => _ end).
  assert (Hx : (∀ name rec', x.1 !! name = Some rec' → er_NodeName rec' = name ∧ rg_byNode r !! er_NodeID rec' = Some rec' ∧
      (er_NodeID rec' = er_NodeID rec → name = er_NodeName rec)) ∧ (∀ id h, x.2 !! id = Some h → history_ok h)).
  { unfold x. destruct (rg_byNode r !! er_NodeID rec) as [old|] eqn:Eo; cbn [fst snd].
    - destruct (Hn _ _ Eo) as [Eid [t' Ht']]. apply verified_endpoint_fields in Ht' as [Hne Hip]. split.
      + intros name rec' Hl.
        assert (Hl' : rg_byName r !! name = Some rec') by (destruct (_ && _); [by apply lookup_delete_Some in Hl as [_ ?]|done]).
        destruct (Hm _ _ Hl') as [E1 E2]. split_and!; [done..|]. intros Esame.
        rewrite Esame, Eo in E2. injection E2 as ->. subst name.
        destruct (decide (er_NodeName rec' = er_NodeName rec)) as [|Hd]; [done|exfalso].
        rewrite Hl' in Hl. change (default zero_endpoint (Some rec')) with rec' in Hl. rewrite Esame, String.eqb_refl in Hl.
        rewrite !(proj2 (String.eqb_neq _ _)) in Hl by done. cbn in Hl. by rewrite lookup_delete_eq in Hl.
      + case_match; [|exact Hh]. intros id h. by apply remember_ok.
    - split; [|done]. intros name rec' Hl. destruct (Hm _ _ Hl) as [E1 E2]. split_and!; [done..|]. intros Es. congruence. }
  destruct x as [byName history]. destruct Hx as [Hx1 Hx2]. cbn [fst snd] in *.
  split; cbn [set_maps rg_byNode rg_byName rg_services rg_history]; [| |done|done].
  - intros id rec' [[<- <-]|[_ ?]]%lookup_insert_Some; [split; [done|by exists t]|by apply Hn].
  - intros name rec' [[<- <-]|[Hne Hl]]%lookup_insert_Some; [split; [done|apply lookup_insert_eq]|].
    destruct (Hx1 _ _ Hl) as (E1 & E2 & E3). split; [done|]. rewrite lookup_insert_ne; [done|]. intros E. by apply Hne, eq_sym, E3.
Qed.

Lemma upsert_byNode r rec now : rg_byNode (upsertEndpointLocked r rec now) = <[er_NodeID rec := rec]> (rg_byNode r).
Proof. unfold upsertEndpointLocked. by case_match. Qed.
Lemma upsert_services r rec now : rg_services (upsertEndpointLocked r rec now) = rg_services r.
Proof. unfold upsertEndpointLocked. by case_match. Qed.

Lemma registry_file r file : registry_ok r → registry_ok (set_file r file).
Proof. by intros []. Qed.
Lemma put_service_ok r rec t : registry_ok r → VerifyServiceRecord rec t = Ok tt → sr_IsPrivate rec = false →
  sr_IsHidden rec = false → registry_ok (set_services r (<[ServiceLookupKey rec := rec]> (rg_services r))).
Proof.
  intros [] Hv Hp Hh. split; cbn; try done.
  intros key rec' [[<- <-]|[_ ?]]%lookup_insert_Some; [split_and!; [done..|by exists t]|auto].
Qed.
Lemma clean_ok r now : registry_ok r → registry_ok (set_history r (cleanAddressHistory (rg_history r) now)).
Proof. intros []. split; try done. intros id h. apply clean_history_ok. Qed.

Lemma is_ok_unit (m : res unit) : is_ok m = true → m = Ok tt.
Proof. by destruct m as [[]| |]. Qed.

Lemma import_endpoint_ok clock st x : registry_ok st.1.1 → registry_ok (import_endpoint clock st x).1.1.
Proof.
  destruct st as [[r changed] updated], x as [i rec]. cbn. intros Hr.
  destruct (is_ok (VerifyEndpointRecord _ _)) eqn:E; cbn; [|done]. apply is_ok_unit in E.
  destruct (match rg_byNode r !! er_NodeID rec with Some _ => _ | None => _ end); [|done]. by eapply upsert_ok.
Qed.
Lemma import_service_ok clock st x : registry_ok st.1 → registry_ok (import_service clock st x).1.
Proof.
  destruct st as [r changed], x as [i rec]. cbn. intros Hr.
  destruct (negb _ || _ || _) eqn:E; [done|]. apply orb_false_iff in E as [[E Ep]%orb_false_iff Eh].
  apply negb_false_iff, is_ok_unit in E.
  destruct (match rg_services r !! ServiceLookupKey rec with Some _ => _ | None => _ end); [|done]. by eapply put_service_ok.
Qed.

Lemma fold_left_inv {A B} (P : A → Prop) (f : A → B → A) l : (∀ a b, P a → P (f a b)) → ∀ a, P a → P (fold_left f l a).
Proof. intros Hf. induction l as [|b l IH]; intros a Ha; [done|]. cbn. auto. Qed.

Context `{!JSON request} `{!JSON response}.

Lemma saveLocked_ok r now io : registry_ok r → registry_ok (saveLocked r now io).2.
Proof.
  intros Hr. unfold saveLocked. destruct (_ =?s _); [done|]. destruct io as [[e remains]|]; by apply registry_file.
Qed.
Lemma saveLocked_maps r now io :
  rg_byNode (saveLocked r now io).2 = rg_byNode r ∧ rg_services (saveLocked r now io).2 = rg_services r.
Proof. unfold saveLocked. destruct (_ =?s _); [done|]. by destruct io as [[e remains]|]. Qed.

(** ** Operations as steps *)
Inductive reg_op :=
| RPublish (rec : EndpointRecord) (clock : nat → Z) (io : option (string * option string))
| RPublishService (rec : ServiceRecord) (clock : nat → Z) (io : option (string * option string))
| RImport (records : list EndpointRecord) (services : list ServiceRecord) (clock1 clock2 : nat → Z) (now : Z)
    (io : option (string * option string))
| RHistory (nodeID : string) (now : Z)
| RConn (incoming : bytes) (clock : nat → Z) (io : option (string * option string)) (order : list EndpointRecord).

Definition reg_run (r : Registry) (o : reg_op) : Registry :=
  match o with
  | RPublish rec clock io => (handlePublish r rec clock io).1.2
  | RPublishService rec clock io => (handlePublishService r rec clock io).1.2
  | RImport records services clock1 clock2 now io => (Import r records services clock1 clock2 now io).1.2
  | RHistory nodeID now => (HistoricalAddresses r nodeID now).2
  | RConn incoming clock io order => (HandleConn r incoming clock io order).1.2
  end.

Inductive reg_reachable : Registry → Prop :=
| rr_new path file read now clock1 clock2 r : NewRegistry path file read now clock1 clock2 = Ok r → reg_reachable r
| rr_step r o : reg_reachable r → reg_reachable (reg_run r o).

Lemma handlePublish_ok r rec clock io : registry_ok r → registry_ok (handlePublish r rec clock io).1.2.
Proof.
  intros Hr. unfold handlePublish. destruct (VerifyEndpointRecord rec _) as [[]| |] eqn:Ev; [|done..].
  destruct (match rg_byNode r !! _ with Some _ => _ | None => _ end); [done|].
  pose proof (saveLocked_ok (upsertEndpointLocked r rec (clock 1%nat)) (clock 2%nat) io) as Hs.
  destruct (saveLocked _ _ _) as [[[]| |] r']; by apply Hs; eapply upsert_ok.
Qed.
Lemma handlePublishService_ok r rec clock io : registry_ok r → registry_ok (handlePublishService r rec clock io).1.2.
Proof.
  intros Hr. unfold handlePublishService. destruct (VerifyServiceRecord rec _) as [[]| |] eqn:Ev; [|done..].
  destruct (sr_IsPrivate rec) eqn:Ep; [done|]. destruct (sr_IsHidden rec) eqn:Eh; [done|].
  destruct (match rg_services r !! _ with Some _ => _ | None => _ end); [done|].
  pose proof (saveLocked_ok (set_services r (<[ServiceLookupKey rec := rec]> (rg_services r))) (clock 1%nat) io) as Hs.
  destruct (saveLocked _ _ _) as [[[]| |] r']; by apply Hs; eapply put_service_ok.
Qed.
Lemma import_ok r records services clock1 clock2 now io : registry_ok r →
  registry_ok (Import r records services clock1 clock2 now io).1.2.
Proof.
  intros Hr. unfold Import.
  pose proof (fold_left_inv (fun st => registry_ok st.1.1) (import_endpoint clock1) (indexed records)
    (import_endpoint_ok clock1) (r, false, []) Hr) as H1'.
  destruct (fold_left (import_endpoint clock1) _ _) as [[r1 c1] u1].
  pose proof (fold_left_inv (fun st => registry_ok st.1) (import_service clock2) (indexed services)
    (import_service_ok clock2) (r1, c1) H1') as H2'.
  destruct (fold_left (import_service clock2) _ _) as [r2 c2]. cbn in H2'.
  destruct c2; [|done]. pose proof (saveLocked_ok r2 now io H2') as Hs. by destruct (saveLocked r2 now io) as [[[]| |] r3].
Qed.

Lemma load_endpoint_ok clock r x : registry_ok r → registry_ok (load_endpoint clock r x).
Proof. destruct x as [i rec]. cbn. intros Hr. destruct (is_ok _) eqn:E; [|done]. apply is_ok_unit in E. by eapply upsert_ok. Qed.
Lemma load_service_ok clock r x : registry_ok r → registry_ok (load_service clock r x).
Proof.
  destruct x as [i rec]. cbn. intros Hr. destruct (_ && _) eqn:E; [|done]. apply andb_true_iff in E as [E%is_ok_unit Ep].
  apply negb_true_iff, orb_false_iff in Ep as [Ep Eh]. by eapply put_service_ok.
Qed.

Lemma NewRegistry_ok path file read now clock1 clock2 r : NewRegistry path file read now clock1 clock2 = Ok r → registry_ok r.
Proof.
  assert (H0' : registry_ok (mkRegistry path ∅ ∅ ∅ ∅ file)) by by split.
  unfold NewRegistry. destruct (path <>?s ""); [|by intros [= <-]]. unfold load. intros Hl.
  apply res_bind_ok in Hl as ([data|] & _ & Hl); [|by injection Hl as <-].
  apply res_bind_ok in Hl as (snapshot & _ & [= <-]).
  apply (fold_left_inv registry_ok); [apply load_service_ok|]. apply (fold_left_inv registry_ok); [apply load_endpoint_ok|].
  split; try done. intros id h. apply clean_history_ok.
Qed.

Lemma reg_reachable_ok r : reg_reachable r → registry_ok r.
Proof.
  induction 1 as [path file read now clock1 clock2 r Hn|r o _ IH]; [by eapply NewRegistry_ok|].
  destruct o as [rec clock io|rec clock io|records services clock1 clock2 now io|nodeID now|incoming clock io order]; cbn [reg_run].
  - by apply handlePublish_ok.
  - by apply handlePublishService_ok.
  - by apply import_ok.
  - by apply clean_ok.
  - unfold HandleConn. destruct (ReadLengthPrefixed _ _) as [[payload ?]| |]; [|done..].
    destruct (json_Unmarshal _) as [req|]; [|done]. unfold dispatch.
    destruct (q_Action req =?s "publish").
    { pose proof (handlePublish_ok r (q_Record req) clock io IH) as Hp. by destruct (handlePublish _ _ _ _) as [[? ?] ?]. }
    destruct (q_Action req =?s "publish_service").
    { pose proof (handlePublishService_ok r (q_ServiceRecord req) clock io IH) as Hp. by destruct (handlePublishService _ _ _ _) as [[? ?] ?]. }
    destruct (q_Action req =?s "resolve"); [done|]. destruct (q_Action req =?s "resolve_service"); [done|].
    by destruct (q_Action req =?s "snapshot").
Qed.

(** C10: In every registry reachable from any file by any sequence of requests and
    imports, with any failures of the disk: each endpoint is stored under its own
    identity and was verified, the name index points to the current record of its
    node, services are public, verified and under their own key, and each node
    has at most three distinct old addresses, all valid. *)
Theorem registry_invariant r : reg_reachable r → registry_ok r.
Proof. apply reg_reachable_ok. Qed.

(** ** No record is rolled back *)
Definition advances (old new : EndpointRecord) : Prop := new = old ∨ EndpointRecordNewer new old = true.
Lemma advances_trans a b c : advances a b → advances b c → advances a c.
Proof. intros [->|Hb] [->|Hc]; [by left|by right..|right]. by eapply EndpointRecordNewer_trans. Qed.

Lemma import_endpoint_advances clock st x id old : rg_byNode st.1.1 !! id = Some old →
  ∃ new, rg_byNode (import_endpoint clock st x).1.1 !! id = Some new ∧ advances old new.
Proof.
  destruct st as [[r changed] updated], x as [i rec]. cbn. intros Hl.
  destruct (negb _); [exists old; split; [done|by left]|].
  destruct (rg_byNode r !! er_NodeID rec) as [e|] eqn:Ee; [destruct (EndpointRecordNewer rec e) eqn:En|]; cbn [fst];
    [| |rewrite upsert_byNode, lookup_insert_ne by congruence; exists old; split; [done|by left]].
  - rewrite upsert_byNode. destruct (decide (er_NodeID rec = id)) as [<-|Hne].
    + rewrite lookup_insert_eq. exists rec. split; [done|]. right. congruence.
    + rewrite lookup_insert_ne by done. exists old. split; [done|by left].
  - exists old. split; [done|by left].
Qed.

Lemma import_endpoints_advance clock l : ∀ st id old, rg_byNode st.1.1 !! id = Some old →
  ∃ new, rg_byNode (fold_left (import_endpoint clock) l st).1.1 !! id = Some new ∧ advances old new.
Proof.
  induction l as [|x l IH]; intros st id old Hl; [exists old; split; [done|by left]|]. cbn [fold_left].
  destruct (import_endpoint_advances clock st x id old Hl) as (mid & Hm & Ha).
  destruct (IH _ _ _ Hm) as (new & Hn & Hb). exists new. split; [done|]. by eapply advances_trans.
Qed.

Lemma import_service_byNode clock l : ∀ st, rg_byNode (fold_left (import_service clock) l st).1 = rg_byNode st.1.
Proof.
  induction l as [|[i rec] l IH]; intros [r c]; [done|]. cbn [fold_left]. rewrite IH. cbn. by repeat case_match.
Qed.

Lemma Import_byNode r records services clock1 clock2 now io :
  rg_byNode (Import r records services clock1 clock2 now io).1.2 =
  rg_byNode (fold_left (import_endpoint clock1) (indexed records) (r, false, [])).1.1.
Proof.
  unfold Import. destruct (fold_left (import_endpoint clock1) _ _) as [[r1 c1] u1].
  pose proof (import_service_byNode clock2 (indexed services) (r1, c1)) as Hs.
  destruct (fold_left (import_service clock2) _ _) as [r2 c2]. cbn in *. destruct c2; [|done].
  pose proof (saveLocked_maps r2 now io) as [Hm _]. destruct (saveLocked r2 now io) as [[[]| |] r3]; cbn in *; congruence.
Qed.

Lemma handlePublish_advances r rec clock io id old : rg_byNode r !! id = Some old →
  ∃ new, rg_byNode (handlePublish r rec clock io).1.2 !! id = Some new ∧
    (advances old new ∨ Fingerprint new = Fingerprint old).
Proof.
  intros Hl. unfold handlePublish.
  assert (Hsame : ∃ new, rg_byNode r !! id = Some new ∧ (advances old new ∨ Fingerprint new = Fingerprint old))
    by (exists old; split; [done|left; by left]).
  destruct (VerifyEndpointRecord rec _) as [[]| |]; [|done..].
  destruct (match rg_byNode r !! er_NodeID rec with Some _ => _ | None => _ end) eqn:Es; [done|].
  pose proof (saveLocked_maps (upsertEndpointLocked r rec (clock 1%nat)) (clock 2%nat) io) as [Hm _]. rewrite upsert_byNode in Hm.
  assert (Hgoal : ∃ new, rg_byNode (saveLocked (upsertEndpointLocked r rec (clock 1%nat)) (clock 2%nat) io).2 !! id = Some new ∧
    (advances old new ∨ Fingerprint new = Fingerprint old)).
  { rewrite Hm. destruct (decide (er_NodeID rec = id)) as [<-|Hne]; [|by rewrite lookup_insert_ne].
    rewrite lookup_insert_eq. exists rec. split; [done|]. rewrite Hl in Es. apply andb_false_iff in Es as [Es|Es].
    - left. right. by apply negb_false_iff.
    - right. by apply negb_false_iff, String.eqb_eq in Es. }
  by destruct (saveLocked _ _ _) as [[[]| |] r'].
Qed.

Lemma handlePublishService_byNode r rec clock io : rg_byNode (handlePublishService r rec clock io).1.2 = rg_byNode r.
Proof.
  unfold handlePublishService. destruct (VerifyServiceRecord rec _) as [[]| |]; [|done..].
  destruct (sr_IsPrivate rec); [done|]. destruct (sr_IsHidden rec); [done|].
  destruct (match rg_services r !! _ with Some _ => _ | None => _ end); [done|].
  pose proof (saveLocked_maps (set_services r (<[ServiceLookupKey rec := rec]> (rg_services r))) (clock 1%nat) io) as [Hm _].
  destruct (saveLocked _ _ _) as [[[]| |] r']; exact Hm.
Qed.

(** C19: No request, import or disk failure removes the endpoint of a node or
    replaces it by one that is not newer, except by a record with the same
    fingerprint. *)
Theorem registry_never_rolls_back r o id old : rg_byNode r !! id = Some old →
  ∃ new, rg_byNode (reg_run r o) !! id = Some new ∧ (advances old new ∨ Fingerprint new = Fingerprint old).
Proof.
  intros Hl.
  assert (Hsame : ∃ new, rg_byNode r !! id = Some new ∧ (advances old new ∨ Fingerprint new = Fingerprint old))
    by (exists old; split; [done|left; by left]).
  destruct o as [rec clock io|rec clock io|records services clock1 clock2 now io|nodeID now|incoming clock io order]; cbn [reg_run].
  - by apply handlePublish_advances.
  - by rewrite handlePublishService_byNode.
  - rewrite Import_byNode. destruct (import_endpoints_advance clock1 (indexed records) (r, false, []) id old Hl) as (new & ? & ?).
    exists new. split; [done|by left].
  - done.
  - unfold HandleConn. destruct (ReadLengthPrefixed _ _) as [[payload ?]| |]; [|done..].
    destruct (json_Unmarshal _) as [req|]; [|done]. unfold dispatch.
    destruct (q_Action req =?s "publish").
    { pose proof (handlePublish_advances r (q_Record req) clock io id old Hl) as Hp. by destruct (handlePublish _ _ _ _) as [[? ?] ?]. }
    destruct (q_Action req =?s "publish_service").
    { pose proof (handlePublishService_byNode r (q_ServiceRecord req) clock io) as Hp.
      destruct (handlePublishService _ _ _ _) as [[? r'] ?]. cbn in *. by rewrite Hp. }
    destruct (q_Action req =?s "resolve"); [done|]. destruct (q_Action req =?s "resolve_service"); [done|].
    by destruct (q_Action req =?s "snapshot").
Qed.

(** C20: An import leaves nothing newer behind: for every imported record that
    verified, the registry ends with a record of that node that the imported one
    is not newer than; and it only holds what it held before or imported. *)
Theorem import_keeps_newest r records services clock1 clock2 now io :
  let r' := (Import r records services clock1 clock2 now io).1.2 in
  (∀ i rec, records !! i = Some rec → VerifyEndpointRecord rec (clock1 (2 * i)%nat) = Ok tt →
     ∃ new, rg_byNode r' !! er_NodeID rec = Some new ∧ EndpointRecordNewer rec new = false) ∧
  (∀ id new, rg_byNode r' !! id = Some new → rg_byNode r !! id = Some new ∨ new ∈ records).
Proof.
  cbn zeta. rewrite Import_byNode. split.
  - intros i rec Hi Hv.
    assert (Hx : (i, rec) ∈ indexed records) by (apply elem_of_lookup_imap; by exists i, rec).
    apply list_elem_of_split in Hx as (pre & post & ->). rewrite fold_left_app. cbn [fold_left].
    set (st := fold_left (import_endpoint clock1) pre (r, false, [])).
    assert (Hst : ∃ mid, rg_byNode (import_endpoint clock1 st (i, rec)).1.1 !! er_NodeID rec = Some mid ∧ EndpointRecordNewer rec mid = false).
    { destruct st as [[r1 c1] u1]. unfold import_endpoint. rewrite Hv. cbn [is_ok negb].
      assert (Hirr : EndpointRecordNewer rec rec = false).
      { unfold EndpointRecordNewer, After. rewrite Z.eqb_refl. cbn. repeat case_match; lia. }
      destruct (rg_byNode r1 !! er_NodeID rec) as [e|] eqn:Ee; [destruct (EndpointRecordNewer rec e) eqn:En|]; cbn [fst];
        rewrite ?upsert_byNode, ?lookup_insert_eq; eauto. }
    destruct Hst as (mid & Hm & Hnew).
    destruct (import_endpoints_advance clock1 post _ _ _ Hm) as (new & Hn & [->|Ha]); exists new || exists mid; (split; [done|]); [done|].
    destruct (EndpointRecordNewer rec new) eqn:E; [|done]. by rewrite (EndpointRecordNewer_trans _ _ _ E Ha) in Hnew.
  - assert (Hsub : ∀ l st, (∀ x, x ∈ l → x.2 ∈ records) →
      (∀ id new, rg_byNode st.1.1 !! id = Some new → rg_byNode r !! id = Some new ∨ new ∈ records) →
      ∀ id new, rg_byNode (fold_left (import_endpoint clock1) l st).1.1 !! id = Some new →
        rg_byNode r !! id = Some new ∨ new ∈ records).
    { induction l as [|[i rec] l IH]; intros st Hl Hst; [done|]. cbn [fold_left]. apply IH.
      { intros x Hx. apply Hl. by right. }
      assert (Hrec : rec ∈ records) by (apply (Hl (i, rec)); by left).
      destruct st as [[r1 c1] u1]. cbn in *. intros id new.
      destruct (negb _); [apply Hst|].
      destruct (match rg_byNode r1 !! er_NodeID rec with Some _ => _ | None => _ end); [|apply Hst]. cbn [fst].
      rewrite upsert_byNode, lookup_insert_Some. intros [[_ <-]|[_ ?]]; [by right|by apply Hst]. }
    apply Hsub; [|by left]. intros x (i & rec & -> & Hi)%elem_of_lookup_imap. by eapply list_elem_of_lookup_2.
Qed.

(** ** Resolving a name *)
Lemma scan_name_spec name order : ∀ found, NoDup (er_NodeID <$> order) →
  (∀ rec, found = Some rec → er_NodeName rec = name ∧ er_NodeID rec ∉ er_NodeID <$> order) →
  ∀ out, scan_name name order found = Ok out ↔
    match found with
    | Some rec => out = Some rec ∧ Forall (fun c => er_NodeName c ≠ name) order
    | None =>
        match out with
        | None => Forall (fun c => er_NodeName c ≠ name) order
        | Some rec => rec ∈ order ∧ er_NodeName rec = name ∧ ∀ c, c ∈ order → er_NodeName c = name → c = rec
        end
    end.
Proof.
  induction order as [|c order IH]; intros found Hnd Hf out; cbn [scan_name].
  { destruct found as [rec|]; [split; [intros [= <-]; by split|by intros [-> _]]|].
    split; [by intros [= <-]|]. destruct out as [rec|]; [|done]. by intros [?%elem_of_nil _]. }
  cbn in Hnd. apply NoDup_cons in Hnd as [Hc Hnd].
  destruct (String.eqb_spec (er_NodeName c) name) as [Hn|Hn]; cbn [negb].
  - destruct found as [rec|].
    + destruct (Hf rec eq_refl) as [_ Hin]. rewrite (proj2 (String.eqb_neq _ _)) by set_solver. cbn [negb].
      split; [done|]. intros [_ Ha%Forall_cons]. by destruct Ha.
    + rewrite IH; [|done|intros ? [= <-]; done]. split.
      * intros [-> Ha]. split_and!; [by left|done|]. intros c' [->|Hc']%elem_of_cons Hn'; [done|].
        rewrite Forall_forall in Ha. by apply Ha in Hc'.
      * destruct out as [rec|]; [|by intros [? _]%Forall_cons]. intros (Hin & Hrn & Hu).
        rewrite <- (Hu c) by (by left || done). split; [done|]. apply Forall_forall. intros c' Hc' Hn'.
        apply Hc. apply list_elem_of_fmap. exists c'. split; [|done].
        rewrite (Hu c') by (by right || done). by rewrite (Hu c) by (by left || done).
  - rewrite IH; [|done|intros rec Hr; destruct (Hf rec Hr); split; [done|set_solver]]. destruct found as [rec|].
    + rewrite Forall_cons. naive_solver.
    + destruct out as [rec|]; [|rewrite Forall_cons; naive_solver]. split.
      * intros (Hin & Hrn & Hu). split_and!; [by right|done|]. intros c' [->|Hc']%elem_of_cons Hn'; [done|by apply Hu].
      * intros (Hin & Hrn & Hu). apply elem_of_cons in Hin as [->|Hin]; [done|]. split_and!; [done..|].
        intros c' Hc' Hn'. apply Hu; [by right|done].
Qed.

(** C21: Resolving a name, in whatever order the map is iterated, succeeds exactly
    if the canonical name belongs to one node and that node's record still
    verifies; a name claimed by two identities never resolves. *)
Theorem resolve_name_exact r name nodeID now order rec : reg_reachable r →
  order ≡ₚ (map_to_list (rg_byNode r)).*2 → name ≠ "" →
  resolve r name nodeID now order = Ok rec ↔
  ∃ c, NormalizeNodeName name = Ok c ∧ VerifyEndpointRecord rec now = Ok tt ∧
    rg_byNode r !! er_NodeID rec = Some rec ∧ er_NodeName rec = c ∧
    ∀ id other, rg_byNode r !! id = Some other → er_NodeName other = c → other = rec.
Proof.
  intros Hr Ho Hne. pose proof (reg_reachable_ok r Hr) as Hok.
  assert (Hnd : NoDup (er_NodeID <$> order)).
  { rewrite Ho, <- list_fmap_compose. replace (_ <$> _) with ((map_to_list (rg_byNode r)).*1); [apply NoDup_fst_map_to_list|].
    apply list_fmap_ext. intros i [id x] Hi%list_elem_of_lookup_2%elem_of_map_to_list. cbn. by destruct (ro_node _ Hok _ _ Hi) as [-> _]. }
  assert (Hin : ∀ x, x ∈ order ↔ rg_byNode r !! er_NodeID x = Some x).
  { intros x. rewrite Ho, list_elem_of_fmap. split.
    - intros ([id x'] & -> & Hx%elem_of_map_to_list). cbn. by destruct (ro_node _ Hok _ _ Hx) as [-> _].
    - intros Hx. exists (er_NodeID x, x). split; [done|]. by apply elem_of_map_to_list. }
  unfold resolve. rewrite (proj2 (String.eqb_neq name "")) by done. cbn [negb].
  split.
  - intros Hs. apply res_bind_ok in Hs as (c & Hc & Hs). apply res_bind_ok in Hs as (found & Hf & Hs).
    rewrite (proj2 (String.eqb_neq c "")) in Hf by (by eapply canonical_not_empty, Normalize_canonical). cbn [negb] in Hf.
    apply res_bind_ok in Hs as (x & Hx & Hs). apply of_option_ok in Hx as ->.
    apply scan_name_spec in Hf as (H1' & H2' & H3'); [|done..].
    destruct (VerifyEndpointRecord x now) as [[]| |] eqn:Ev; [|done..]. injection Hs as ->.
    exists c. split_and!; [done|done|by apply Hin|done|]. intros id other Hl Hn. apply H3'; [|done].
    apply Hin. by destruct (ro_node _ Hok _ _ Hl) as [-> _].
  - intros (c & Hc & Hv & Hl & Hn & Hu). rewrite Hc. cbn [mbind res_bind].
    rewrite (proj2 (String.eqb_neq c "")) by (by eapply canonical_not_empty, Normalize_canonical). cbn [negb].
    assert (Hf : scan_name c order None = Ok (Some rec)).
    { apply scan_name_spec; [done..|]. split_and!; [by apply Hin|done|]. intros x Hx%Hin. by apply (Hu (er_NodeID x)). }
    rewrite Hf. cbn. by rewrite Hv.
Qed.

(** ** Saving and loading *)
Lemma sorted_values_perm {A} (m : gmap string A) : sorted_values m ≡ₚ (map_to_list m).*2.
Proof.
  unfold sorted_values, sorted_keys. rewrite (sort_Slice_perm str_lt (map_to_list m).*1).
  assert (Hl : ∀ l : list (string * A), (∀ k v, (k, v) ∈ l → m !! k = Some v) → omap (fun k => m !! k) l.*1 = l.*2).
  { induction l as [|[k v] l IH]; intros Hl; [done|]. cbn. rewrite (Hl k v) by by left. f_equal. apply IH. intros. apply Hl. by right. }
  rewrite Hl; [done|]. intros k v. apply elem_of_map_to_list.
Qed.

Lemma sorted_values_nodup {A} (key : A → string) (m : gmap string A) : (∀ k v, m !! k = Some v → key v = k) →
  NoDup (key <$> sorted_values m) ∧ ∀ v, v ∈ sorted_values m ↔ m !! key v = Some v.
Proof.
  intros Hk. split.
  - rewrite sorted_values_perm, <- list_fmap_compose. replace (_ <$> _) with ((map_to_list m).*1); [apply NoDup_fst_map_to_list|].
    apply list_fmap_ext. intros i [k v] Hi%list_elem_of_lookup_2%elem_of_map_to_list. cbn. by rewrite (Hk _ _ Hi).
  - intros v. rewrite sorted_values_perm, list_elem_of_fmap. split.
    + intros ([k v'] & -> & Hv%elem_of_map_to_list). cbn. by rewrite (Hk _ _ Hv).
    + intros Hv. exists (key v, v). split; [done|]. by apply elem_of_map_to_list.
Qed.

(** Loading records of distinct nodes: the map holds exactly those that verified. *)
Lemma load_endpoints_spec clock l : ∀ r, NoDup ((fun x => er_NodeID x.2) <$> l) →
  (∀ x, x ∈ l → (rg_byNode r !! er_NodeID x.2) = None) →
  let r' := fold_left (load_endpoint clock) l r in
  rg_history r' = rg_history r ∧ rg_services r' = rg_services r ∧
  ∀ id rec, rg_byNode r' !! id = Some rec ↔ rg_byNode r !! id = Some rec ∨
    ∃ i, (i, rec) ∈ l ∧ er_NodeID rec = id ∧ VerifyEndpointRecord rec (clock (2 * i)%nat) = Ok tt.
Proof.
  induction l as [|[i rec] l IH]; intros r Hnd Hr; cbn zeta.
  { split_and!; [done..|]. intros id rec. split; [by left|]. intros [?|(i & Hi & _)]; [done|]. by apply elem_of_nil in Hi. }
  cbn in Hnd. apply NoDup_cons in Hnd as [Hi Hnd]. cbn [fold_left].
  assert (Hfresh : (rg_byNode r !! er_NodeID rec) = None) by (apply (Hr (i, rec)); by left).
  set (r1 := load_endpoint clock r (i, rec)).
  assert (H1' : rg_history r1 = rg_history r ∧ rg_services r1 = rg_services r ∧
    rg_byNode r1 = if is_ok (VerifyEndpointRecord rec (clock (2 * i)%nat)) then <[er_NodeID rec := rec]> (rg_byNode r) else rg_byNode r).
  { unfold r1, load_endpoint. destruct (is_ok _); [|done]. rewrite upsert_byNode, upsert_services. split_and!; [|done..].
    unfold upsertEndpointLocked. by rewrite Hfresh. }
  destruct H1' as (Eh & Es & En).
  assert (Hl : ∀ x, x ∈ l → er_NodeID x.2 ≠ er_NodeID rec).
  { intros x Hx E. apply Hi. apply list_elem_of_fmap. by exists x. }
  destruct (IH r1) as (IHh & IHs & IHn); [done| |].
  { intros x Hx. rewrite En. destruct (is_ok _); [rewrite lookup_insert_ne by (apply not_eq_sym; by apply Hl)|]; apply Hr; by right. }
  split_and!; [congruence..|]. intros id rec'. rewrite IHn, En. clear IHn.
  destruct (is_ok (VerifyEndpointRecord rec _)) eqn:Ev.
  - apply is_ok_unit in Ev. rewrite lookup_insert_Some. split.
    + intros [[[<- <-]|[_ ?]]|(j & ? & ? & ?)]; [right; exists i; split_and!; [by left|done..]|by left|right; exists j; split_and!; [by right|done..]].
    + intros [Ho|(j & [[= -> ->]|Hj]%elem_of_cons & <- & Hv)]; [left; right; split; [congruence|done]|by left; left|right; by exists j].
  - split; [intros [?|(j & ? & ? & ?)]; [by left|right; exists j; split_and!; [by right|done..]]|].
    intros [?|(j & [[= -> ->]|Hj]%elem_of_cons & <- & Hv)]; [by left|by rewrite Hv in Ev|right; by exists j].
Qed.

Lemma load_services_spec clock l : ∀ r, NoDup ((fun x => ServiceLookupKey x.2) <$> l) →
  (∀ x, x ∈ l → (rg_services r !! ServiceLookupKey x.2) = None) →
  let r' := fold_left (load_service clock) l r in
  rg_history r' = rg_history r ∧ rg_byNode r' = rg_byNode r ∧
  ∀ key rec, rg_services r' !! key = Some rec ↔ rg_services r !! key = Some rec ∨
    ∃ i, (i, rec) ∈ l ∧ ServiceLookupKey rec = key ∧ VerifyServiceRecord rec (clock i) = Ok tt ∧
      sr_IsPrivate rec = false ∧ sr_IsHidden rec = false.
Proof.
  induction l as [|[i rec] l IH]; intros r Hnd Hr; cbn zeta.
  { split_and!; [done..|]. intros id rec. split; [by left|]. intros [?|(i & Hi & _)]; [done|]. by apply elem_of_nil in Hi. }
  cbn in Hnd. apply NoDup_cons in Hnd as [Hi Hnd]. cbn [fold_left].
  set (r1 := load_service clock r (i, rec)).
  set (b := is_ok (VerifyServiceRecord rec (clock i)) && negb (sr_IsPrivate rec || sr_IsHidden rec)).
  assert (H1' : rg_history r1 = rg_history r ∧ rg_byNode r1 = rg_byNode r ∧
    rg_services r1 = if b then <[ServiceLookupKey rec := rec]> (rg_services r) else rg_services r).
  { unfold r1, load_service. fold b. by destruct b. }
  destruct H1' as (Eh & Es & En).
  assert (Hb : b = true ↔ VerifyServiceRecord rec (clock i) = Ok tt ∧ sr_IsPrivate rec = false ∧ sr_IsHidden rec = false).
  { unfold b. rewrite andb_true_iff, negb_true_iff, orb_false_iff. split; [intros [?%is_ok_unit ?]; done|by intros [-> ?]]. }
  assert (Hl : ∀ x, x ∈ l → ServiceLookupKey x.2 ≠ ServiceLookupKey rec).
  { intros x Hx E. apply Hi. apply list_elem_of_fmap. by exists x. }
  assert (Hfresh : (rg_services r !! ServiceLookupKey rec) = None) by (apply (Hr (i, rec)); by left).
  destruct (IH r1) as (IHh & IHs & IHn); [done| |].
  { intros x Hx. rewrite En. destruct b; [rewrite lookup_insert_ne by (apply not_eq_sym; by apply Hl)|]; apply Hr; by right. }
  split_and!; [congruence..|]. intros key rec'. rewrite IHn, En. clear IHn.
  destruct b.
  - destruct Hb as [Hb _]. specialize (Hb eq_refl). rewrite lookup_insert_Some. split.
    + intros [[[<- <-]|[_ ?]]|(j & ? & ? & Hv)]; [right; exists i; split_and!; [by left|done|apply Hb..]|by left|right; exists j; split_and!; [by right|done|apply Hv..]].
    + intros [Ho|(j & [[= -> ->]|Hj]%elem_of_cons & <- & Hv)]; [left; right; split; [congruence|done]|by left; left|right; by exists j].
  - split; [intros [?|(j & ? & ? & Hv)]; [by left|right; exists j; split_and!; [by right|done|apply Hv..]]|].
    intros [?|(j & [[= -> ->]|Hj]%elem_of_cons & <- & Hv)]; [by left|by apply Hb in Hv|right; by exists j].
Qed.

Lemma indexed_elem {A} (l : list A) x : x ∈ l → ∃ i, (i, x) ∈ indexed l.
Proof. intros [i Hi]%list_elem_of_lookup. exists i. apply elem_of_lookup_imap. by exists i, x. Qed.
Lemma indexed_in {A} (l : list A) i x : (i, x) ∈ indexed l → x ∈ l.
Proof. intros (j & y & [= -> ->] & Hj)%elem_of_lookup_imap. by eapply list_elem_of_lookup_2. Qed.
Lemma indexed_fmap {A B} (f : A → B) (l : list A) : (fun x : nat * A => f x.2) <$> indexed l = f <$> l.
Proof.
  apply list_eq. intros i. unfold indexed. rewrite !list_lookup_fmap, list_lookup_imap. by destruct (l !! i).
Qed.

(** C22: A restart recovers the registry from the file of its last save: the loaded
    registry holds only endpoints and services that were saved, all those that
    still verify while loading, and the address histories that are still fresh. *)
Theorem registry_restart r r1 now now' clock1 clock2 : reg_reachable r → rg_path r ≠ "" →
  saveLocked r now None = (Ok tt, r1) →
  json_safe (mkResponse false "" zero_endpoint zero_service (sorted_values (rg_byNode r)) (sorted_values (rg_services r))
    (cleanAddressHistory (rg_history r) now)) →
  ∃ r', NewRegistry (rg_path r) (rg_file r1) (Ok (rg_file r1)) now' clock1 clock2 = Ok r' ∧
    (∀ id rec, rg_byNode r' !! id = Some rec → rg_byNode r !! id = Some rec) ∧
    (∀ id rec, rg_byNode r !! id = Some rec → (∀ n, VerifyEndpointRecord rec (clock1 n) = Ok tt) → rg_byNode r' !! id = Some rec) ∧
    (∀ key rec, rg_services r' !! key = Some rec → rg_services r !! key = Some rec) ∧
    (∀ key rec, rg_services r !! key = Some rec → (∀ n, VerifyServiceRecord rec (clock2 n) = Ok tt) → rg_services r' !! key = Some rec) ∧
    rg_history r' = cleanAddressHistory (cleanAddressHistory (rg_history r) now) now'.
Proof.
  intros Hr Hp Hs Hj. apply reg_reachable_ok in Hr as Hok. unfold saveLocked in Hs.
  rewrite (proj2 (String.eqb_neq _ _)) in Hs by done. injection Hs as <-.
  unfold NewRegistry, load. rewrite (proj2 (String.eqb_neq _ _)) by done. cbn [negb mbind res_bind rg_file set_file].
  rewrite json_Unmarshal_Indent by done. cbn [of_option mbind res_bind p_LocalHistory p_Records p_ServiceRecords].
  eexists. split; [reflexivity|]. set (r0 := set_history _ _).
  destruct (sorted_values_nodup er_NodeID (rg_byNode r)) as [Nn Vn]; [intros k v Hv; by destruct (ro_node _ Hok _ _ Hv)|].
  destruct (sorted_values_nodup ServiceLookupKey (rg_services r)) as [Ns Vs]; [intros k v Hv; by destruct (ro_service _ Hok _ _ Hv)|].
  destruct (load_endpoints_spec clock1 (indexed (sorted_values (rg_byNode r))) r0) as (Eh & Es & En).
  { by rewrite (indexed_fmap er_NodeID). } { done. }
  set (r1 := fold_left (load_endpoint clock1) _ _) in *.
  destruct (load_services_spec clock2 (indexed (sorted_values (rg_services r))) r1) as (Eh2 & En2 & Es2).
  { by rewrite (indexed_fmap ServiceLookupKey). } { intros x _. by rewrite Es. }
  split_and!.
  - intros id rec. rewrite En2, En. intros [Hl|(i & Hi%indexed_in%Vn & <- & _)]; [done|done].
  - intros id rec Hl Hv. rewrite En2, En. right. destruct (ro_node _ Hok _ _ Hl) as [<- _].
    destruct (indexed_elem (sorted_values (rg_byNode r)) rec) as [i Hi]; [by apply Vn|]. by exists i.
  - intros key rec. rewrite Es2, Es. intros [Hl|(i & Hi%indexed_in%Vs & <- & _)]; [done|done].
  - intros key rec Hl Hv. rewrite Es2. right. destruct (ro_service _ Hok _ _ Hl) as (<- & Hpr & Hhi & _).
    destruct (indexed_elem (sorted_values (rg_services r)) rec) as [i Hi]; [by apply Vs|]. by exists i.
  - by rewrite Eh2, Eh.
Qed.

(** A service name has no owner: a public service record of another node that
    claims the same node name and service name takes the key over, if it is not
    issued earlier than the stored one. *)
Theorem service_name_takeover r rec rec' clock :
  rg_services r !! ServiceLookupKey rec' = Some rec → sr_NodeID rec' ≠ sr_NodeID rec → issued rec <= issued rec' →
  rg_path r = "" →
  VerifyServiceRecord rec' (clock 0%nat) = Ok tt → sr_IsPrivate rec' = false → sr_IsHidden rec' = false →
  let out := handlePublishService r rec' clock None in
  out.1.1 = Ok (mkResponse true "" zero_endpoint rec' [] [] ∅) ∧ rg_services out.1.2 !! ServiceLookupKey rec' = Some rec'.
Proof.
  intros Hl Hne Hi Hp Hv Hpr Hh. unfold handlePublishService. rewrite Hv, Hpr, Hh, Hl.
  unfold After. rewrite (proj2 (Z.ltb_ge _ _) Hi). unfold saveLocked. cbn [rg_path set_services]. rewrite Hp. cbn [String.eqb].
  split; [done|]. cbn. apply lookup_insert_eq.
Qed.

(** ** Over the wire *)
Definition serve_registry (r : Registry) (clock : nat → Z) (order : list EndpointRecord) (sent : bytes) : res bytes :=
  '(kind, sent) ← ReadHeader sent;
  err_if (negb (kind =? KindDiscoveryReq)) "kind";;
  (HandleConn r sent clock None order).1.1.

Lemma serve_request r clock order req resp : json_safe req → 0 < slen (json_Marshal req) <= maxMessageSize →
  (dispatch r req clock None order).1.1 = Ok resp →
  serve_registry r clock order (WriteLengthPrefixed (WriteHeader [] KindDiscoveryReq) (str_bytes (json_Marshal req))) =
  Ok (writeResponse resp).
Proof.
  intros Hj Hl Hd. unfold serve_registry. unfold WriteLengthPrefixed.
  rewrite ReadHeader_WriteHeader by (unfold KindDiscoveryReq; lia). cbn [mbind res_bind]. rewrite Z.eqb_refl. cbn [negb err_if mbind res_bind].
  unfold HandleConn. change (be_bytes 4 (u32 (len (str_bytes (json_Marshal req)))) ++ str_bytes (json_Marshal req))
    with (WriteLengthPrefixed [] (str_bytes (json_Marshal req))). rewrite <- (app_nil_r (WriteLengthPrefixed [] _)).
  rewrite ReadLengthPrefixed_app by (unfold max_u32, len, slen, maxMessageSize in *; rewrite ?length_str_bytes; lia).
  rewrite bytes_str_bytes, json_Unmarshal_Marshal by done. destruct (dispatch r req clock None order) as [[d r'] seen].
  cbn in *. by rewrite Hd.
Qed.

(** The answer as the client reads it: at most [maxMessageSize] bytes. *)
Lemma roundTrip_reply address req exchange resp : ValidateIPv6Address address = Ok tt →
  let resp' := if p_Error resp =?s "" then
    mkResponse true (p_Error resp) (p_Record resp) (p_ServiceRecord resp) (p_Records resp) (p_ServiceRecords resp) (p_LocalHistory resp)
    else resp in
  exchange (WriteLengthPrefixed (WriteHeader [] KindDiscoveryReq) (str_bytes (json_Marshal req))) = Ok (writeResponse resp) →
  json_safe resp' → 0 < slen (json_Marshal resp') <= maxMessageSize → roundTrip address req exchange = Ok resp'.
Proof.
  intros Ha resp' He Hj Hl. unfold roundTrip. rewrite Ha. cbn [mbind res_bind]. rewrite He. cbn [mbind res_bind].
  unfold writeResponse. fold resp'. unfold WriteLengthPrefixed.
  rewrite ReadHeader_WriteHeader by (unfold KindDiscoveryRes; lia). cbn [mbind res_bind]. rewrite Z.eqb_refl. cbn [negb err_if mbind res_bind].
  change (be_bytes 4 (u32 (len (str_bytes (json_Marshal resp')))) ++ str_bytes (json_Marshal resp'))
    with (WriteLengthPrefixed [] (str_bytes (json_Marshal resp'))). rewrite <- (app_nil_r (WriteLengthPrefixed [] _)).
  rewrite ReadLengthPrefixed_app by (unfold max_u32, len, slen, maxMessageSize in *; rewrite ?length_str_bytes; lia).
  cbn [mbind res_bind]. by rewrite bytes_str_bytes, json_Unmarshal_Marshal.
Qed.

(** C23: Client and registry together: what the registry resolves is what the client
    gets, as long as it still verifies when the client checks it and the messages
    fit. *)
Theorem discovery_resolve_end_to_end r address name nodeID now clock order rec :
  let c := match NormalizeNodeName name with Ok c => c | _ => name end in
  let req := simple_request "resolve" (if name <>?s "" then c else name) nodeID "" in
  let resp := mkResponse true "" rec zero_service [] [] ∅ in
  resolve r name nodeID (clock 0%nat) order = Ok rec → VerifyEndpointRecord rec now = Ok tt →
  ValidateIPv6Address address = Ok tt →
  json_safe req → 0 < slen (json_Marshal req) <= maxMessageSize →
  json_safe resp → 0 < slen (json_Marshal resp) <= maxMessageSize →
  Discovery_Resolve address name nodeID now (serve_registry r clock order) = Ok rec.
Proof.
  intros c req resp Hr Hv Ha Hj1 Hl1 Hj2 Hl2.
  assert (∃ name', (if name <>?s "" then NormalizeNodeName name else Ok name) = Ok name' ∧
    name' = (if name <>?s "" then c else name) ∧ resolve r name' nodeID (clock 0%nat) order = Ok rec) as (name' & Hn & En & Hr').
  { unfold resolve in *. destruct (String.eqb_spec name "") as [->|Hne]; cbn [negb] in *; [by exists ""|].
    destruct (NormalizeNodeName name) as [c'| |] eqn:Ec; [|done..]. exists c'. split_and!; [done..|].
    assert (Hc : c' ≠ "") by (by eapply canonical_not_empty, Normalize_canonical).
    rewrite (proj2 (String.eqb_neq c' "")) in * by done. cbn [negb] in *.
    by rewrite (Normalize_fixpoint c') by (by eapply Normalize_canonical). }
  unfold Discovery_Resolve. rewrite Hn. cbn [mbind res_bind].
  assert (E : roundTrip address (simple_request "resolve" name' nodeID "") (serve_registry r clock order) = Ok resp).
  { apply (roundTrip_reply address _ _ resp); [done| |done|done]. rewrite En. apply serve_request; [done..|].
    unfold dispatch. cbn [q_Action req simple_request q_Name q_NodeID fst].
    unfold handleResolve. rewrite <- En, Hr'. done. }
  rewrite E. cbn. by rewrite Hv.
Qed.

(** A snapshot reaches the client exactly if its encoding fits in
    [maxMessageSize]; a larger registry can no longer be read by anyone. *)
Theorem snapshot_size_limit r address clock order :
  let req := simple_request "snapshot" "" "" "" in
  let resp := mkResponse true "" zero_endpoint zero_service (Registry_Snapshot r).1 (Registry_Snapshot r).2 ∅ in
  ValidateIPv6Address address = Ok tt → json_safe req → 0 < slen (json_Marshal req) <= maxMessageSize →
  json_safe resp → 0 < slen (json_Marshal resp) <= max_u32 →
  Discovery_Snapshot address (serve_registry r clock order) =
    if slen (json_Marshal resp) <=? maxMessageSize then Ok (Registry_Snapshot r) else Err "invalid payload size".
Proof.
  intros req resp Ha Hj1 Hl1 Hj2 Hl2. unfold Discovery_Snapshot.
  assert (Hs : serve_registry r clock order (WriteLengthPrefixed (WriteHeader [] KindDiscoveryReq) (str_bytes (json_Marshal req))) =
    Ok (writeResponse resp)) by by apply serve_request.
  destruct (Z.leb_spec (slen (json_Marshal resp)) maxMessageSize) as [Hle|Hgt].
  - pose proof (roundTrip_reply address req _ resp Ha Hs Hj2) as E. fold req. rewrite E; [reflexivity|]. split; [apply Hl2|exact Hle].
  - unfold roundTrip. rewrite Ha. cbn [mbind res_bind]. fold req. rewrite Hs. cbn [mbind res_bind].
    change (writeResponse resp) with (WriteLengthPrefixed (WriteHeader [] KindDiscoveryRes) (str_bytes (json_Marshal resp))).
    unfold WriteLengthPrefixed.
    rewrite ReadHeader_WriteHeader by (unfold KindDiscoveryRes; lia). cbn [mbind res_bind]. rewrite Z.eqb_refl. cbn [negb err_if mbind res_bind].
    unfold ReadLengthPrefixed.
    assert (Hlen : len (str_bytes (json_Marshal resp)) = slen (json_Marshal resp)) by (unfold len, slen; by rewrite length_str_bytes).
    rewrite Hlen. change 4 with (Z.of_nat 4) at 1. rewrite <- (length_be_bytes 4 (u32 (slen (json_Marshal resp)))) at 1.
    fold (len (be_bytes 4 (u32 (slen (json_Marshal resp))))). rewrite ReadFull_app. cbn [of_option mbind res_bind].
    assert (Hu : u32 (slen (json_Marshal resp)) = slen (json_Marshal resp)) by (apply Z.mod_small; unfold max_u32 in *; lia).
    rewrite Hu, be_Z_be_bytes4 by (unfold max_u32 in *; lia).
    rewrite (proj2 (Z.ltb_lt _ _)) by lia. by rewrite orb_true_r.
Qed.
End Facts.

(** ** Concrete registries *)
#[export] Instance demo_JSON_endpoints : JSON (list EndpointRecord) := list_JSON.
#[export] Instance demo_JSON_request : JSON request.
Proof.
  refine (demo_JSON 6 (fun q => [q_Action q; json_Marshal (q_Record q); json_Marshal (q_ServiceRecord q); q_Name q; q_NodeID q; q_Service q])
    (fun l => match l with
              | [a; b; c; d; e; f] => b ← json_Unmarshal b; c ← json_Unmarshal c; Some (mkRequest a b c d e f)
              | _ => None
              end) (fun q => json_safe (q_Record q)) _ _); [done|].
  intros [a b c d e f] Hb. cbn [q_Action q_Record q_ServiceRecord q_Name q_NodeID q_Service] in *.
  rewrite !json_Unmarshal_Marshal by done. done.
Defined.
#[export] Instance demo_JSON_discovery_response : JSON response.
Proof.
  refine (demo_JSON 6 (fun p => [bool_str (p_OK p); p_Error p; json_Marshal (p_Record p); json_Marshal (p_ServiceRecord p);
      json_Marshal (p_Records p); json_Marshal (p_ServiceRecords p)])
    (fun l => match l with
              | [a; b; c; d; e; f] =>
                  c ← json_Unmarshal c; d ← json_Unmarshal d; e ← json_Unmarshal e; f ← json_Unmarshal f;
                  Some (mkResponse (demo_flag a) b c d e f ∅)
              | _ => None
              end) (fun p => json_safe (p_Record p) ∧ json_safe (p_Records p) ∧ p_LocalHistory p = ∅) _ _); [done|].
  intros [a b c d e f g] (Hc & He & Hg). cbn [p_OK p_Error p_Record p_ServiceRecord p_Records p_ServiceRecords p_LocalHistory] in *.
  rewrite !json_Unmarshal_Marshal by (done || by apply Forall_forall). cbn. subst g. by destruct a.
Defined.

Definition reg_later : Z := demo_now + Minute.
Definition reg_rec : EndpointRecord := Eval vm_compute in
  res_get zero_endpoint (newEndpointRecord demo_id "alice" "[2001:db8::1]:4242" Hour demo_now 1).
Lemma reg_rec_verifies : VerifyEndpointRecord reg_rec reg_later = Ok tt.
Proof. vm_compute. reflexivity. Qed.

Lemma reg_rec_safe : json_safe reg_rec.
Proof. repeat split; (reflexivity || discriminate). Qed.
Lemma zero_endpoint_safe : json_safe zero_endpoint.
Proof. repeat split; (reflexivity || discriminate). Qed.

Definition reg_empty : Registry := mkRegistry "registry.json" ∅ ∅ ∅ ∅ None.
Lemma reg_empty_reachable : reg_reachable reg_empty.
Proof. by apply (rr_new "registry.json" None (Ok None) 0 (fun _ => 0) (fun _ => 0)). Qed.
Definition reg_publish : reg_op := RPublish reg_rec (fun _ => reg_later) None.
Definition demo_registry : Registry := reg_run reg_empty reg_publish.
Lemma demo_registry_reachable : reg_reachable demo_registry.
Proof. apply rr_step, reg_empty_reachable. Qed.
Lemma demo_registry_facts : rg_path demo_registry = "registry.json" ∧ rg_byNode demo_registry = {[ er_NodeID reg_rec := reg_rec ]} ∧
  rg_services demo_registry = ∅ ∧ rg_history demo_registry = ∅.
Proof.
  unfold demo_registry. cbn [reg_run reg_publish]. unfold handlePublish. rewrite reg_rec_verifies.
  assert ((rg_byNode reg_empty !! er_NodeID reg_rec) = None) as E by apply lookup_empty. rewrite E.
  unfold upsertEndpointLocked. rewrite E. split_and!; reflexivity.
Qed.

Lemma registry_invariant_witness : registry_ok demo_registry.
Proof. apply registry_invariant, demo_registry_reachable. Defined.

Lemma registry_never_rolls_back_witness :
  ∃ new, rg_byNode (reg_run demo_registry reg_publish) !! er_NodeID reg_rec = Some new ∧
    (advances reg_rec new ∨ Fingerprint new = Fingerprint reg_rec).
Proof.
  apply (registry_never_rolls_back demo_registry reg_publish (er_NodeID reg_rec) reg_rec).
  rewrite (proj1 (proj2 demo_registry_facts)). apply lookup_singleton_eq.
Defined.

Lemma resolve_name_exact_witness :
  resolve demo_registry "alice" "" reg_later (map_to_list (rg_byNode demo_registry)).*2 = Ok reg_rec ↔
  ∃ c, NormalizeNodeName "alice" = Ok c ∧ VerifyEndpointRecord reg_rec reg_later = Ok tt ∧
    rg_byNode demo_registry !! er_NodeID reg_rec = Some reg_rec ∧ er_NodeName reg_rec = c ∧
    ∀ id other, rg_byNode demo_registry !! id = Some other → er_NodeName other = c → other = reg_rec.
Proof.
  apply (resolve_name_exact demo_registry "alice" "" reg_later (map_to_list (rg_byNode demo_registry)).*2 reg_rec).
  - apply demo_registry_reachable.
  - reflexivity.
  - discriminate.
Defined.

(** The saved state of the example has no history and one record in range. *)
Lemma demo_sorted : sorted_values (rg_byNode demo_registry) = [reg_rec].
Proof.
  pose proof (sorted_values_perm (rg_byNode demo_registry)) as Hp. rewrite (proj1 (proj2 demo_registry_facts)) in *.
  rewrite map_to_list_singleton in Hp. cbn in Hp. by apply Permutation_singleton_r in Hp.
Qed.
Lemma registry_restart_witness :
  ∃ r', NewRegistry (rg_path demo_registry) (rg_file (saveLocked demo_registry reg_later None).2)
      (Ok (rg_file (saveLocked demo_registry reg_later None).2)) reg_later (fun _ => reg_later) (fun _ => reg_later) = Ok r' ∧
    (∀ id rec, rg_byNode r' !! id = Some rec → rg_byNode demo_registry !! id = Some rec) ∧
    (∀ id rec, rg_byNode demo_registry !! id = Some rec → (nat → VerifyEndpointRecord rec reg_later = Ok tt) → rg_byNode r' !! id = Some rec) ∧
    (∀ key rec, rg_services r' !! key = Some rec → rg_services demo_registry !! key = Some rec) ∧
    (∀ key rec, rg_services demo_registry !! key = Some rec → (nat → VerifyServiceRecord rec reg_later = Ok tt) → rg_services r' !! key = Some rec) ∧
    rg_history r' = cleanAddressHistory (cleanAddressHistory (rg_history demo_registry) reg_later) reg_later.
Proof.
  destruct demo_registry_facts as (Ep & En & Es & Eh).
  apply (registry_restart demo_registry (saveLocked demo_registry reg_later None).2 reg_later reg_later).
  - apply demo_registry_reachable.
  - rewrite Ep. discriminate.
  - unfold saveLocked. rewrite Ep. reflexivity.
  - rewrite demo_sorted, Es, Eh. split_and!; [|by apply Forall_singleton, reg_rec_safe|].
    + exact zero_endpoint_safe.
    + unfold cleanAddressHistory. apply omap_empty.
Defined.

(** Another identity that also calls itself alice. *)
Definition rogue_id : Identity := Generate (repeat x08 64).
Definition web_of (id : Identity) : ServiceRecord :=
  res_get zero_service (NewServiceRecord id "alice" "web" "[2001:db8::1]:4242" Hour demo_now).
Definition web_alice : ServiceRecord := Eval vm_compute in web_of demo_id.
Definition web_rogue : ServiceRecord := Eval vm_compute in web_of rogue_id.
Definition service_registry : Registry := mkRegistry "" ∅ ∅ {[ ServiceLookupKey web_rogue := web_alice ]} ∅ None.
Lemma service_name_takeover_witness :
  let out := handlePublishService service_registry web_rogue (fun _ => reg_later) None in
  out.1.1 = Ok (mkResponse true "" zero_endpoint web_rogue [] [] ∅) ∧
  rg_services out.1.2 !! ServiceLookupKey web_rogue = Some web_rogue.
Proof.
  apply (service_name_takeover service_registry web_alice web_rogue (fun _ => reg_later)).
  - apply lookup_singleton_eq.
  - vm_compute. discriminate.
  - vm_compute. discriminate.
  - reflexivity.
  - vm_compute. reflexivity.
  - reflexivity.
  - reflexivity.
Defined.

Lemma discovery_resolve_end_to_end_witness :
  Discovery_Resolve "[2001:db8::2]:4242" "" (er_NodeID reg_rec) reg_later (serve_registry demo_registry (fun _ => reg_later) [])
  = Ok reg_rec.
Proof.
  apply (discovery_resolve_end_to_end demo_registry "[2001:db8::2]:4242" "" (er_NodeID reg_rec) reg_later (fun _ => reg_later) [] reg_rec).
  - unfold resolve. cbn [String.eqb negb mbind res_bind]. rewrite (proj1 (proj2 demo_registry_facts)).
    rewrite lookup_singleton_eq.
    rewrite (proj2 (String.eqb_neq (er_NodeID reg_rec) "")) by (vm_compute; discriminate).
    cbn [negb of_option mbind res_bind]. by rewrite reg_rec_verifies.
  - apply reg_rec_verifies.
  - vm_compute. reflexivity.
  - exact zero_endpoint_safe.
  - vm_compute. split; [reflexivity|discriminate].
  - split_and!; [exact reg_rec_safe|constructor|reflexivity].
  - vm_compute. split; [reflexivity|discriminate].
Defined.

Lemma snapshot_size_limit_witness :
  let resp := mkResponse true "" zero_endpoint zero_service (Registry_Snapshot reg_empty).1 (Registry_Snapshot reg_empty).2 ∅ in
  Discovery_Snapshot "[2001:db8::2]:4242" (serve_registry reg_empty (fun _ => 0) []) =
    if slen (json_Marshal resp) <=? maxMessageSize then Ok (Registry_Snapshot reg_empty) else Err "invalid payload size".
Proof.
  apply (snapshot_size_limit reg_empty "[2001:db8::2]:4242" (fun _ => 0) []).
  - vm_compute. reflexivity.
  - exact zero_endpoint_safe.
  - vm_compute. split; [reflexivity|discriminate].
  - split_and!; [exact zero_endpoint_safe|constructor|reflexivity].
  - vm_compute. split; [reflexivity|discriminate].
Defined.
