(* ===== verification/PeerStore.v ===== *)
(** * The peer store (internal/dht/peer_store.go)

    The rows of the peer database and its indexes, on a bbolt database.  The
    database is an interface: buckets of rows, iterated in the order of their
    keys, updated in transactions that commit as a whole or not at all. *)
From S2P Require Import Prelude GoBytes GoStrings GoEncoding GoTime GoSort Sha256 GoEnv Lines GoNumbers Identity Record StrictJson Envelope Hidden Catalog Proto NodeInfo Peer Value RateLimit Routing Store.

Definition peerBucketName : string := "peers-v1".
Definition peerNameIndexName : string := "name-hash-v1".
Definition peerDiversityIndexName : string := "diversity-v1".
Definition peerFriendIndexName : string := "friends-v1".
Definition peerUsedIndexName : string := "used-v1".
Definition peerClosestIDIndex : string := "closest-id-v1".
Definition peerClosestNameIndex : string := "closest-name-v1".
Definition peerActiveIndexName : string := "active-v1".
Definition peerProbationIndexName : string := "probation-v1".
Definition peerInactiveIndexName : string := "inactive-v1".
Definition peerValuesBucketName : string := "values-v1".

Definition peerCategoryIndexNames : list string :=
  [peerFriendIndexName; peerUsedIndexName; peerClosestIDIndex; peerClosestNameIndex;
   peerActiveIndexName; peerProbationIndexName; peerInactiveIndexName].

(** ** The database: what the code uses of bbolt *)
Class Bolt (B : Type) := {
  bucket : B → string → gmap string string;
  Put : B → string → string → string → res B;
  Delete : B → string → string → res B;
  (** The loop that deletes at every position of a cursor. *)
  Clear : B → string → res B;
  commit : B → res B;
  Put_bucket b n k v b' : Put b n k v = Ok b' →
    ∀ n', bucket b' n' = if n' =?s n then <[k := v]> (bucket b n) else bucket b n';
  Delete_bucket b n k b' : Delete b n k = Ok b' →
    ∀ n', bucket b' n' = if n' =?s n then delete k (bucket b n) else bucket b n';
  Clear_bucket b n b' : Clear b n = Ok b' → ∀ n', bucket b' n' = if n' =?s n then ∅ else bucket b n';
  commit_bucket b b' : commit b = Ok b' → ∀ n, bucket b' n = bucket b n;
  (** A put of a non-empty key within the limits of bbolt succeeds, as do deletions. *)
  Put_ok b n k v : k ≠ "" → slen k <= 32768 → slen v <= 2 ^ 31 - 2 → is_ok (Put b n k v) = true;
  Delete_ok b n k : is_ok (Delete b n k) = true;
  Clear_ok b n : is_ok (Clear b n) = true;
}.

Fixpoint fold_res {A B} (f : B → A → res B) (l : list A) (b : B) : res B :=
  match l with
  | [] => Ok b
  | a :: l => b ← f b a; fold_res f l b
  end.

Section Store.
Context {B : Type} `{!Bolt B} `{UnicodeTables, NetIP, GoSort, !JSON PeerObservation}.
Context (resolve : string → option string).

Definition rows (db : B) (name : string) : list (string * string) :=
  omap (fun k => v ← bucket db name !! k; Some (k, v)) (insertion_sort str_lt (map_to_list (bucket db name)).*1).

Definition Update (f : B → res B) (db : B) : res unit * B :=
  match f db ≫= commit with
  | Ok db' => (Ok tt, db')
  | Err e => (Err e, db)
  | Panic => (Panic, db)
  end.

(** ** Values *)
Definition PeerStore_PutValue (db : B) (key value : string) : res B :=
  if HasPrefix key "hidden-desc/v1/" then Ok db else Put db peerValuesBucketName key value ≫= commit.
Definition PeerStore_LoadValues (db : B) : res (gmap string string) := Ok (list_to_map (rows db peerValuesBucketName)).
Definition PeerStore_DeleteValue (db : B) (key : string) : res B := Delete db peerValuesBucketName key ≫= commit.

(** ** Peers *)
Definition peerNameHash (node : NodeInfo) : string :=
  if n_NameHash node <>?s "" then n_NameHash node
  else if n_Name node <>?s "" then NodeNameHash (n_Name node) else "".

Definition peerCategories (peer : PeerObservation) (now : Z) : list string :=
  (if o_Friend peer then [peerFriendIndexName] else []) ++
  (if (3 <=? o_UseCount peer) || negb (IsZero (o_LastUsed peer)) then [peerUsedIndexName] else []) ++
  (if 0 <? o_ClosestIDRank peer then [peerClosestIDIndex] else []) ++
  (if 0 <? o_ClosestNameRank peer then [peerClosestNameIndex] else []) ++
  (if IsZero (o_OfflineSince peer) then [peerActiveIndexName] else [peerInactiveIndexName]) ++
  (if negb (IsZero (o_ProbationUntil peer)) && Before now (o_ProbationUntil peer) then [peerProbationIndexName] else []).

(** The rows that decode; a damaged row is skipped. *)
Definition loadAll (db : B) : list PeerObservation := omap (fun kv => json_Unmarshal kv.2) (rows db peerBucketName).

(** ** Retention: the closure [add] on the list selected so far *)
Definition add (limit : Z) (selected : list PeerObservation) (peer : PeerObservation) : list PeerObservation :=
  if limit <=? len selected then selected
  else if existsb (fun s => n_ID (o_Node s) =?s n_ID (o_Node peer)) selected then selected
  else selected ++ [peer].
Definition add_if (limit : Z) (p : PeerObservation → bool) (ordered selected : list PeerObservation) : list PeerObservation :=
  fold_left (fun selected peer => if p peer then add limit selected peer else selected) ordered selected.

(** The pass over active peers that cover a new prefix or ASN. *)
Definition add_covering (limit : Z) (st : list PeerObservation * list string) (peer : PeerObservation)
  : list PeerObservation * list string :=
  let '(selected, covered) := st in
  if negb (IsZero (o_OfflineSince peer)) then st
  else
    let keys := peerDiversityKeys resolve (n_Addr (o_Node peer)) in
    if existsb (fun key => negb (bool_decide (key ∈ covered))) keys
    then (add limit selected peer, keys ++ covered) else st.

Definition selectPeerRetention (peers : list PeerObservation) (limit : Z) : list PeerObservation :=
  let ordered := sort_Slice peerRetentionLess peers in
  let selected := add_if limit o_Friend ordered [] in
  let selected := add_if limit (fun p => (0 <? o_UseCount p) || negb (IsZero (o_LastUsed p))) ordered selected in
  let selected := add_if limit (fun p => (0 <? o_ClosestIDRank p) || (0 <? o_ClosestNameRank p)) ordered selected in
  let selected := (fold_left (add_covering limit) ordered (selected, [])).1 in
  let selected := add_if limit (fun p => IsZero (o_OfflineSince p)) ordered selected in
  let selected := add_if limit (fun p => negb (IsZero (o_ProbationUntil p))) ordered selected in
  let selected := add_if limit (fun p => negb (IsZero (o_OfflineSince p))) ordered selected in
  add_if limit (fun _ => true) ordered selected.

(** ** Snapshots *)
Definition with_prior (peer old : PeerObservation) : PeerObservation :=
  mkObservation (o_Node peer) (o_FailCount peer) (o_SuccessCount peer) (o_LastSeen peer)
    (if IsZero (o_FirstSeen peer) || (negb (IsZero (o_FirstSeen old)) && Before (o_FirstSeen old) (o_FirstSeen peer))
     then o_FirstSeen old else o_FirstSeen peer)
    (o_LastSuccess peer)
    (if After (o_LastUsed old) (o_LastUsed peer) then o_LastUsed old else o_LastUsed peer)
    (o_LastFailure peer) (o_LastProbe peer) (o_LastProbeFailure peer) (o_OfflineSince peer) (o_ProbeMisses peer)
    (o_ProbationUntil peer) (o_NextProbeAt peer) (o_RTTMicros peer) (o_Pinned peer)
    (o_Friend peer || o_Friend old)
    (if o_UseCount peer <? o_UseCount old then o_UseCount old else o_UseCount peer)
    (o_ClosestIDRank peer) (o_ClosestNameRank peer).

Definition merge_peer (merged : gmap string PeerObservation) (peer : PeerObservation) : gmap string PeerObservation :=
  let peer := match merged !! n_ID (o_Node peer) with Some old => with_prior peer old | None => peer end in
  <[n_ID (o_Node peer) := peer]> merged.
Definition merge_snapshot (prior peers : list PeerObservation) : gmap string PeerObservation :=
  fold_left merge_peer peers
    (fold_left (fun m (peer : PeerObservation) => <[n_ID (o_Node peer) := peer]> m) prior ∅).

(** A row that is too old, or not addressable. *)
Definition row_expired (hintTTL now : Z) (peer : PeerObservation) : bool :=
  let tooOldOffline := negb (IsZero (o_OfflineSince peer)) && (peerHistoryTTL <? Sub now (o_OfflineSince peer)) in
  let staleUnclassified := IsZero (o_OfflineSince peer) && negb (IsZero (o_LastSeen peer))
                           && (hintTTL <? Sub now (o_LastSeen peer)) in
  (n_ID (o_Node peer) =?s "") || (n_Addr (o_Node peer) =?s "")
  || (negb (o_Pinned peer) && negb (o_Friend peer) && (tooOldOffline || staleUnclassified)).

Definition drop_stale_name (keep : gset string) (db : B) (kv : string * string) : res B :=
  if bool_decide (kv.1 ∈ keep) then Ok db
  else match json_Unmarshal (T := PeerObservation) kv.2 with
       | Some old =>
           if peerNameHash (o_Node old) <>?s ""
           then Delete db peerNameIndexName (peerNameHash (o_Node old) +:+ "/" +:+ n_ID (o_Node old)) else Ok db
       | None => Ok db
       end.

(** The first peer of a prefix or ASN is its row in the diversity index. *)
Definition cover_key (id : string) (st : B * list string) (key : string) : res (B * list string) :=
  let '(db, seen) := st in
  if bool_decide (key ∈ seen) then Ok st else db ← Put db peerDiversityIndexName key id; Ok (db, key :: seen).

(** One selected peer: its row, its name, the prefixes and ASNs it is the first
    to cover, and its categories. *)
Definition write_peer (now : Z) (st : B * list string) (peer : PeerObservation) : res (B * list string) :=
  let '(db, seen) := st in
  let id := n_ID (o_Node peer) in
  let data := json_Marshal peer in
  let oldData := default "" (bucket db peerBucketName !! id) in
  let newHash := peerNameHash (o_Node peer) in
  db ← (if oldData <>?s "" then
          match json_Unmarshal (T := PeerObservation) oldData with
          | Some old =>
              let oldHash := peerNameHash (o_Node old) in
              if (oldHash <>?s "") && (oldHash <>?s newHash)
              then Delete db peerNameIndexName (oldHash +:+ "/" +:+ id) else Ok db
          | None => Ok db
          end
        else Ok db);
  db ← (if oldData <>?s data then
          db ← Put db peerBucketName id data;
          if newHash <>?s "" then Put db peerNameIndexName (newHash +:+ "/" +:+ id) id else Ok db
        else Ok db);
  '(db, seen) ← (if IsZero (o_OfflineSince peer)
                 then fold_res (cover_key id) (peerDiversityKeys resolve (n_Addr (o_Node peer))) (db, seen) else Ok (db, seen));
  db ← fold_res (fun db category => Put db category id (String "001" "")) (peerCategories peer now) db;
  Ok (db, seen).

Definition save_tx (selected : list PeerObservation) (now : Z) (db : B) : res B :=
  db ← fold_res Clear peerCategoryIndexNames db;
  db ← Clear db peerDiversityIndexName;
  let keep : gset string := list_to_set ((fun p => n_ID (o_Node p)) <$> selected) in
  let old := rows db peerBucketName in
  db ← fold_res (drop_stale_name keep) old db;
  db ← fold_res (fun db (kv : string * string) => if bool_decide (kv.1 ∈ keep) then Ok db else Delete db peerBucketName kv.1) old db;
  '(db, _) ← fold_res (write_peer now) selected (db, []);
  Ok db.

(** [iterate] is the order of the [range] over the merged map. *)
Definition SaveSnapshot (iterate : gmap string PeerObservation → list PeerObservation)
    (peers : list PeerObservation) (now : Z) (db : B) : res unit * B :=
  let merged := merge_snapshot (loadAll db) peers in
  let peers := sort_Slice peerRetentionLess (iterate merged) in
  let eligible := List.filter (fun peer => negb (row_expired peerHistoryTTL now peer)) peers in
  Update (save_tx (selectPeerRetention eligible peerCacheHotLimit) now) db.

(** ** Loading candidates *)
Definition load_rows (now : Z) (db : B) : gmap string PeerObservation :=
  fold_left (fun m peer => if row_expired peerAddressHintTTL now peer then m else <[n_ID (o_Node peer) := peer]> m) (loadAll db) ∅.
Definition index_ids (db : B) (name : string) : list string :=
  if name =?s peerDiversityIndexName then (rows db name).*2 else (rows db name).*1.
Definition load_indexes : list string :=
  [peerFriendIndexName; peerUsedIndexName; peerClosestIDIndex; peerClosestNameIndex; peerDiversityIndexName;
   peerActiveIndexName; peerProbationIndexName; peerInactiveIndexName].

(** The members of one index: those still in [byID] are taken out until the limit
    is reached; [true] if it is. *)
Fixpoint take_members (limit : Z) (members peers : list PeerObservation) (byID : gmap string PeerObservation)
  : list PeerObservation * gmap string PeerObservation * bool :=
  match members with
  | [] => (peers, byID, false)
  | peer :: members =>
      if bool_decide (is_Some (byID !! n_ID (o_Node peer))) then
        let peers := peers ++ [peer] in
        let byID := delete (n_ID (o_Node peer)) byID in
        if len peers =? limit then (peers, byID, true) else take_members limit members peers byID
      else take_members limit members peers byID
  end.
Fixpoint take_indexes (limit : Z) (indexed : list (list string)) (peers : list PeerObservation)
    (byID : gmap string PeerObservation) : list PeerObservation * gmap string PeerObservation * bool :=
  match indexed with
  | [] => (peers, byID, false)
  | ids :: indexed =>
      let members := sort_Slice peerRetentionLess (omap (fun id => byID !! id) ids) in
      let '(peers, byID, full) := take_members limit members peers byID in
      if full then (peers, byID, true) else take_indexes limit indexed peers byID
  end.

Definition LoadCandidates (iterate : gmap string PeerObservation → list PeerObservation) (now limit : Z) (db : B)
  : list PeerObservation :=
  let limit := if (limit <=? 0) || (peerCacheHotLimit <? limit) then peerCacheHotLimit else limit in
  let '(peers, byID, full) := take_indexes limit (index_ids db <$> load_indexes) [] (load_rows now db) in
  if full then peers
  else take (Z.to_nat limit) (peers ++ sort_Slice peerRetentionLess (iterate byID)).

(** ** Updates of one peer *)
Definition delete_diversity (id : string) (db : B) : res B :=
  fold_res (fun db (kv : string * string) => if kv.2 =?s id then Delete db peerDiversityIndexName kv.1 else Ok db)
    (rows db peerDiversityIndexName) db.
Definition trim_peer (db : B) (peer : PeerObservation) : res B :=
  let id := n_ID (o_Node peer) in
  db ← Delete db peerBucketName id;
  db ← (if peerNameHash (o_Node peer) <>?s "" then Delete db peerNameIndexName (peerNameHash (o_Node peer) +:+ "/" +:+ id) else Ok db);
  db ← fold_res (fun db category => Delete db category id) peerCategoryIndexNames db;
  delete_diversity id db.
Definition trimPeerRows (db : B) : res B :=
  let peers := loadAll db in
  if len peers <=? peerCacheHotLimit then Ok db
  else fold_res trim_peer (drop (Z.to_nat peerCacheHotLimit) (sort_Slice peerRetentionLess peers)) db.

Definition zero_observation : PeerObservation := mkObservation zero_NodeInfo 0 0 0 0 0 0 0 0 0 0 0 0 0 0 false false 0 0 0.
(** The stored row, a new one if there is none. *)
Definition read_row (db : B) (id : string) : res PeerObservation :=
  let raw := default "" (bucket db peerBucketName !! id) in
  if raw <>?s "" then of_option (json_Unmarshal raw) "decode peer" else Ok zero_observation.

Definition friend_row (node : NodeInfo) (friend : bool) (now : Z) (peer : PeerObservation) : PeerObservation :=
  mkObservation node (o_FailCount peer) (o_SuccessCount peer) (if IsZero (o_LastSeen peer) then now else o_LastSeen peer)
    (if IsZero (o_FirstSeen peer) then now else o_FirstSeen peer) (o_LastSuccess peer) (o_LastUsed peer) (o_LastFailure peer)
    (o_LastProbe peer) (o_LastProbeFailure peer) (o_OfflineSince peer) (o_ProbeMisses peer) (o_ProbationUntil peer)
    (o_NextProbeAt peer) (o_RTTMicros peer) (o_Pinned peer) friend (o_UseCount peer) (o_ClosestIDRank peer) (o_ClosestNameRank peer).
Definition used_row (node : NodeInfo) (now : Z) (peer : PeerObservation) : PeerObservation :=
  mkObservation node (o_FailCount peer) (o_SuccessCount peer) now
    (if IsZero (o_FirstSeen peer) then now else o_FirstSeen peer) (o_LastSuccess peer) now (o_LastFailure peer)
    (o_LastProbe peer) (o_LastProbeFailure peer) (o_OfflineSince peer) (o_ProbeMisses peer) (o_ProbationUntil peer)
    (o_NextProbeAt peer) (o_RTTMicros peer) (o_Pinned peer) (o_Friend peer)
    (if o_UseCount peer <? max_u32 then o_UseCount peer + 1 else o_UseCount peer) (o_ClosestIDRank peer) (o_ClosestNameRank peer).

Definition PeerStore_SetFriend (node : NodeInfo) (friend : bool) (now : Z) (db : B) : res unit * B :=
  if (n_ID node =?s "") || (n_Addr node =?s "") then (Err "friend record requires node ID and address", db)
  else Update (fun db =>
    peer ← read_row db (n_ID node);
    db ← Put db peerBucketName (n_ID node) (json_Marshal (friend_row node friend now peer));
    db ← (if friend then Put db peerFriendIndexName (n_ID node) (String "001" "") else Delete db peerFriendIndexName (n_ID node));
    trimPeerRows db) db.

Definition SetFriendByID (nodeID : string) (friend : bool) (db : B) : res unit * B :=
  Update (fun db =>
    let raw := default "" (bucket db peerBucketName !! nodeID) in
    err_if (raw =?s "") "peer is not in the local peer index";;
    peer ← of_option (json_Unmarshal (T := PeerObservation) raw) "decode peer";
    db ← Put db peerBucketName nodeID (json_Marshal
      (mkObservation (o_Node peer) (o_FailCount peer) (o_SuccessCount peer) (o_LastSeen peer) (o_FirstSeen peer)
        (o_LastSuccess peer) (o_LastUsed peer) (o_LastFailure peer) (o_LastProbe peer) (o_LastProbeFailure peer)
        (o_OfflineSince peer) (o_ProbeMisses peer) (o_ProbationUntil peer) (o_NextProbeAt peer) (o_RTTMicros peer)
        (o_Pinned peer) friend (o_UseCount peer) (o_ClosestIDRank peer) (o_ClosestNameRank peer)));
    if friend then Put db peerFriendIndexName nodeID (String "001" "") else Delete db peerFriendIndexName nodeID) db.

Definition PeerStore_RecordUse (node : NodeInfo) (now : Z) (db : B) : res unit * B :=
  if (n_ID node =?s "") || (n_Addr node =?s "") then (Err "service-use record requires node ID and address", db)
  else Update (fun db =>
    peer ← read_row db (n_ID node);
    db ← Put db peerBucketName (n_ID node) (json_Marshal (used_row node now peer));
    db ← Put db peerUsedIndexName (n_ID node) (String "001" "");
    trimPeerRows db) db.
End Store.
