(* ===== verification/PeerStoreProps.v ===== *)
(** * What the peer store guarantees

    The rows of a saved snapshot are exactly the peers selected for retention,
    at most 512, friends first; loading gives them back; and the store is a
    persistence for the DHT's values. *)
From S2P Require Import Prelude GoBytes GoStrings GoEncoding GoTime GoSort Sha256 GoEnv Lines GoNumbers Identity Record StrictJson Envelope Hidden Catalog Proto NodeInfo Peer Value RateLimit Routing Store PeerStore.
From S2P Require Import RecordProps DemoJson RoutingDemo.

Definition peer_id (p : PeerObservation) : string := n_ID (o_Node p).

Section Rows.
Context {B : Type} `{!Bolt B}.

Lemma rows_elem (db : B) name k v : (k, v) ∈ rows db name ↔ bucket db name !! k = Some v.
Proof.
  unfold rows. rewrite list_elem_of_omap. split.
  - intros (k' & _ & Hk). destruct (bucket db name !! k') as [v'|] eqn:E; [|done]. by injection Hk as <- <-.
  - intros E. exists k. split; [|by rewrite E]. rewrite insertion_sort_perm. apply list_elem_of_fmap. exists (k, v).
    split; [done|]. by apply elem_of_map_to_list.
Qed.

Lemma rows_keys (db : B) name : (rows db name).*1 ≡ₚ (map_to_list (bucket db name)).*1.
Proof.
  unfold rows. etrans; [|apply (insertion_sort_perm str_lt)].
  assert (Hk : ∀ k, k ∈ insertion_sort str_lt (map_to_list (bucket db name)).*1 → is_Some (bucket db name !! k)).
  { intros k. rewrite insertion_sort_perm, list_elem_of_fmap. intros ([k' v] & -> & Hv%elem_of_map_to_list). by exists v. }
  induction (insertion_sort _ _) as [|k l IH]; [done|]. cbn. destruct (Hk k) as [v Hv]; [by left|]. rewrite Hv. cbn.
  f_equiv. apply IH. intros k' Hk'. apply Hk. by right.
Qed.
Lemma rows_NoDup (db : B) name : NoDup (rows db name).*1.
Proof. rewrite rows_keys. apply NoDup_fst_map_to_list. Qed.
Lemma rows_map (db : B) name : list_to_map (rows db name) = bucket db name.
Proof.
  apply map_eq. intros k. destruct (bucket db name !! k) as [v|] eqn:E.
  - apply elem_of_list_to_map; [apply rows_NoDup|by apply rows_elem].
  - apply not_elem_of_list_to_map. rewrite rows_keys. intros ([k' v] & -> & Hv%elem_of_map_to_list)%list_elem_of_fmap. cbn in E. congruence.
Qed.

(** The store implements the persistence the DHT server relies on. *)
#[export] Program Instance PeerStore_persistence : ValuePersistence B := {|
  PutValue := PeerStore_PutValue;
  LoadValues := PeerStore_LoadValues;
  DeleteValue := PeerStore_DeleteValue;
  saved db := bucket db peerValuesBucketName;
|}.
Next Obligation.
  intros p key value p' Hk Hp. unfold PeerStore_PutValue in Hp. rewrite Hk in Hp.
  apply res_bind_ok in Hp as (b & Hp & Hc). rewrite (commit_bucket _ _ Hc), (Put_bucket _ _ _ _ _ Hp). by rewrite String.eqb_refl.
Qed.
Next Obligation. intros p r [= <-]. apply rows_map. Qed.
Next Obligation.
  intros p key p' Hp. apply res_bind_ok in Hp as (b & Hp & Hc).
  rewrite (commit_bucket _ _ Hc), (Delete_bucket _ _ _ _ Hp). by rewrite String.eqb_refl.
Qed.
End Rows.

(** ** Retention *)
Section Retention.
Context `{NetIP, GoSort}.
Context (resolve : string → option string).

Record selection (limit : Z) (peers sel : list PeerObservation) : Prop := {
  se_nodup : NoDup (peer_id <$> sel);
  se_sub : ∀ p, p ∈ sel → p ∈ peers;
  se_len : len sel <= limit;
}.

Lemma add_cases limit sel p : add limit sel p = sel ∧ (limit <= len sel ∨ peer_id p ∈ peer_id <$> sel) ∨
  add limit sel p = sel ++ [p] ∧ len sel < limit ∧ peer_id p ∉ peer_id <$> sel.
Proof.
  unfold add. destruct (Z.leb_spec limit (len sel)) as [Hl|Hl]; [left; split; [done|by left]|].
  destruct (existsb _ sel) eqn:E; [left|right].
  - split; [done|]. right. apply existsb_exists in E as (s & Hs & Es%String.eqb_eq). apply list_elem_of_fmap. exists s.
    split; [done|]. by apply list_elem_of_In.
  - split_and!; [done..|]. intros (s & Es & Hs)%list_elem_of_fmap. apply not_true_iff_false in E. apply E, existsb_exists.
    exists s. split; [by apply list_elem_of_In|]. apply String.eqb_eq. by symmetry.
Qed.

(** What a pass keeps: the earlier peers first, in a selection. *)
Definition extends limit peers (sel sel' : list PeerObservation) : Prop :=
  (∃ more, sel' = sel ++ more) ∧ (selection limit peers sel → selection limit peers sel').

Lemma extends_refl limit peers sel : extends limit peers sel sel.
Proof. split; [exists []; by rewrite app_nil_r|done]. Qed.
Lemma extends_trans limit peers a b c : extends limit peers a b → extends limit peers b c → extends limit peers a c.
Proof. intros [[m1 ->] F1] [[m2 ->] F2]. split; [exists (m1 ++ m2); by rewrite app_assoc|auto]. Qed.

Lemma add_extends limit peers sel p : p ∈ peers → extends limit peers sel (add limit sel p).
Proof.
  intros Hp. destruct (add_cases limit sel p) as [[-> _]|(-> & Hl & Hn)]; [apply extends_refl|].
  split; [by exists [p]|]. intros [Hnd Hs Hle]. split.
  - rewrite fmap_app. apply NoDup_app. split_and!; [done|set_solver|apply NoDup_singleton].
  - intros q [?|Hq]%elem_of_app; [by apply Hs|]. by apply list_elem_of_singleton in Hq as ->.
  - rewrite len_app. unfold len at 2. cbn. lia.
Qed.

Lemma add_if_extends limit peers f l : ∀ sel, (∀ p, p ∈ l → p ∈ peers) → extends limit peers sel (add_if limit f l sel).
Proof.
  induction l as [|p l IH]; intros sel Hl; [apply extends_refl|]. cbn. eapply extends_trans; [|apply IH; intros; apply Hl; by right].
  destruct (f p); [apply add_extends, Hl; by left|apply extends_refl].
Qed.

Lemma add_covering_extends limit peers l : ∀ st, (∀ p, p ∈ l → p ∈ peers) →
  extends limit peers st.1 (fold_left (add_covering resolve limit) l st).1.
Proof.
  induction l as [|p l IH]; intros [sel cov] Hl; [apply extends_refl|]. cbn [fold_left].
  eapply extends_trans; [|apply IH; intros; apply Hl; by right]. unfold add_covering.
  destruct (negb _); [apply extends_refl|]. destruct (existsb _ _); [apply add_extends, Hl; by left|apply extends_refl].
Qed.

Lemma add_if_cons limit f p l sel : add_if limit f (p :: l) sel = add_if limit f l (if f p then add limit sel p else sel).
Proof. done. Qed.

(** A pass takes every peer of its class, unless the selection is full. *)
Lemma add_if_takes limit f l : ∀ sel p, p ∈ l → f p = true → len (add_if limit f l sel) < limit →
  peer_id p ∈ peer_id <$> add_if limit f l sel.
Proof.
  induction l as [|q l IH]; intros sel p Hp Hf Hlt; [by apply elem_of_nil in Hp|]. rewrite add_if_cons in *.
  apply elem_of_cons in Hp as [->|Hp]; [|by apply IH]. rewrite Hf in *.
  destruct (add_if_extends limit l f l (add limit sel q)) as [[more Em] _]; [done|].
  rewrite Em in *. rewrite len_app in Hlt. rewrite fmap_app, elem_of_app. left.
  pose proof (len_nonneg more). destruct (add_cases limit sel q) as [[E [Hl|Hin]]|(E & _)]; rewrite E in *; [lia|done|].
  rewrite fmap_app. apply elem_of_app. right. by left.
Qed.
Lemma add_if_class limit f l : ∀ sel, Forall (fun p => f p = true) sel → Forall (fun p => f p = true) (add_if limit f l sel).
Proof.
  induction l as [|p l IH]; intros sel Hs; [done|]. cbn. apply IH. destruct (f p) eqn:E; [|done].
  destruct (add_cases limit sel p) as [[-> _]|(-> & _)]; [done|]. apply Forall_app. auto.
Qed.

(** What is kept when the peer history is trimmed: distinct known peers, at
    most the limit, all of them if they fit, and a friend is left out only in
    favour of other friends. *)
Lemma retention_spec (peers : list PeerObservation) (limit : Z) : 0 <= limit →
  let sel := selectPeerRetention resolve peers limit in
  NoDup (peer_id <$> sel) ∧ (∀ p, p ∈ sel → p ∈ peers) ∧ len sel <= limit ∧
  (len sel < limit → ∀ p, p ∈ peers → peer_id p ∈ peer_id <$> sel) ∧
  (∀ p, p ∈ peers → o_Friend p = true → peer_id p ∉ peer_id <$> sel → len sel = limit ∧ Forall (fun q => o_Friend q = true) sel).
Proof.
  intros Hl sel. unfold sel, selectPeerRetention. set (ordered := sort_Slice peerRetentionLess peers).
  assert (Ho : ∀ p, p ∈ ordered ↔ p ∈ peers) by (intros p; unfold ordered; by rewrite sort_Slice_perm).
  assert (Ho' : ∀ p, p ∈ ordered → p ∈ peers) by (intros p; apply Ho).
  set (s1 := add_if limit o_Friend ordered []). set (s7 := add_if limit (fun p => negb (IsZero (o_OfflineSince p))) ordered _).
  assert (E17 : extends limit peers s1 s7).
  { unfold s7. repeat first [apply add_if_extends, Ho'|eapply extends_trans; [|apply add_if_extends, Ho']|
      eapply extends_trans; [|apply (add_covering_extends limit peers ordered (_, []) Ho')]]. }
  set (s8 := add_if limit (fun _ => true) ordered s7).
  assert (E18 : extends limit peers s1 s8) by (eapply extends_trans; [exact E17|by apply add_if_extends]).
  assert (S1 : selection limit peers s1).
  { apply (add_if_extends limit peers o_Friend ordered []); [done|]. split; [constructor|by intros p ?%elem_of_nil|done]. }
  destruct (proj2 E18 S1) as [Hn Hs Hle]. split_and!; [done..| |].
  - intros Hlt p Hp. apply add_if_takes; [by apply Ho|done|done].
  - intros p Hp Hf Hnot. destruct (proj1 E18) as [more Em].
    assert (Hfull : limit <= len s1).
    { destruct (Z.le_gt_cases limit (len s1)) as [|Hlt]; [done|exfalso]. apply Hnot. rewrite Em, fmap_app, elem_of_app. left.
      apply add_if_takes; [by apply Ho|done|done]. }
    rewrite Em, len_app in Hle |- *. pose proof (len_nonneg more). assert (len more = 0) as ->%len_nil_inv by lia.
    rewrite app_nil_r. split; [unfold len in *; cbn in *; lia|]. by apply add_if_class.
Qed.
End Retention.

(** ** A saved snapshot *)
Section Snapshot.
Context {B : Type} `{!Bolt B} `{UnicodeTables, NetIP, GoSort, !JSON PeerObservation}.
Context (resolve : string → option string).

(** [same names db db']: only the buckets [names] differ. *)
Definition same (names : list string) (db db' : B) : Prop := ∀ n, n ∉ names → bucket db' n = bucket db n.
Lemma same_refl names db : same names db db.
Proof. done. Qed.
Lemma same_trans names a b c : same names a b → same names b c → same names a c.
Proof. intros H1' H2' n Hn. rewrite H2' by done. auto. Qed.
Lemma Put_same names db n k v db' : Put db n k v = Ok db' → n ∈ names → same names db db'.
Proof. intros Hp Hn m Hm. rewrite (Put_bucket _ _ _ _ _ Hp). destruct (String.eqb_spec m n); [by subst|done]. Qed.
Lemma Delete_same names db n k db' : Delete db n k = Ok db' → n ∈ names → same names db db'.
Proof. intros Hp Hn m Hm. rewrite (Delete_bucket _ _ _ _ Hp). destruct (String.eqb_spec m n); [by subst|done]. Qed.
Lemma fold_res_same {A} (f : B → A → res B) names l : (∀ db a db', a ∈ l → f db a = Ok db' → same names db db') →
  ∀ db db', fold_res f l db = Ok db' → same names db db'.
Proof.
  intros Hf. induction l as [|a l IH]; intros db db' E; cbn in E; [by injection E as <-|].
  apply res_bind_ok in E as (b & E1 & E2). eapply same_trans; [eapply Hf; [by left|exact E1]|].
  eapply IH; [|exact E2]. intros ? ? ? ?. apply Hf. by right.
Qed.

Definition row_of (p : PeerObservation) : string * string := (peer_id p, json_Marshal p).

(** Deleting the rows outside [keep]. *)
Lemma delete_rows_spec (keep : gset string) (l : list (string * string)) : ∀ db db',
  fold_res (fun db (kv : string * string) => if bool_decide (kv.1 ∈ keep) then Ok db else Delete db peerBucketName kv.1) l db = Ok db' →
  ∀ k v, bucket db' peerBucketName !! k = Some v ↔ bucket db peerBucketName !! k = Some v ∧ (k ∈ keep ∨ k ∉ l.*1).
Proof.
  induction l as [|[k0 v0] l IH]; intros db db' E k v; cbn in E.
  { injection E as <-. split; [|by intros [? _]]. intros Hk. split; [done|]. right. apply not_elem_of_nil. }
  apply res_bind_ok in E as (b & E1 & E2). rewrite (IH _ _ E2). clear IH E2. cbn [fmap list_fmap fst].
  pose proof (elem_of_cons l.*1 k k0) as Hc. case_bool_decide as Hk.
  - injection E1 as <-. destruct (decide (k = k0)) as [->|]; tauto.
  - rewrite (Delete_bucket _ _ _ _ E1), String.eqb_refl, lookup_delete_Some.
    destruct (decide (k = k0)) as [->|Hne]; [|by assert (k0 ≠ k) by congruence; tauto].
    split; [by intros [[? _] _]|]. intros [_ [?|Hn]]; [done|]. exfalso. apply Hn. by left.
Qed.

Hypothesis json_text : ∀ p : PeerObservation, json_Marshal p ≠ "".

Lemma cover_key_same names id st key st' : cover_key id st key = Ok st' → peerDiversityIndexName ∈ names → same names st.1 st'.1.
Proof.
  destruct st as [db seen]. cbn. case_bool_decide; [by intros [= <-]|]. intros E Hn.
  apply res_bind_ok in E as (b & Hp & [= <-]). by eapply Put_same.
Qed.
Lemma cover_keys_same names id l : ∀ st st', fold_res (cover_key id) l st = Ok st' → peerDiversityIndexName ∈ names → same names st.1 st'.1.
Proof.
  induction l as [|key l IH]; intros st st' E Hn; cbn in E; [by injection E as <-|].
  apply res_bind_ok in E as (m & E1 & E2). eapply same_trans; [by eapply cover_key_same|by eapply IH].
Qed.

Lemma peerCategories_sub p now c : c ∈ peerCategories p now → c ∈ peerCategoryIndexNames.
Proof.
  unfold peerCategories, peerCategoryIndexNames. rewrite !elem_of_app. set_unfold. intros Hc.
  repeat match goal with H : _ ∨ _ |- _ => destruct H as [H|H] end; repeat case_match; set_unfold in Hc; tauto.
Qed.

Lemma category_names n : n ∈ peerCategoryIndexNames → n ≠ peerBucketName ∧ n ≠ peerNameIndexName ∧ n ≠ peerDiversityIndexName.
Proof. revert n. apply Forall_forall. by repeat constructor. Qed.

Lemma put_categories_spec id cats : ∀ db db', fold_res (fun db category => Put db category id (String "001" "")) cats db = Ok db' →
  ∀ n k, is_Some (bucket db' n !! k) ↔ is_Some (bucket db n !! k) ∨ (n ∈ cats ∧ k = id).
Proof.
  induction cats as [|c cats IH]; intros db db' E n k; cbn in E.
  { injection E as <-. split; [by left|]. intros [?|[?%elem_of_nil _]]; done. }
  apply res_bind_ok in E as (b & E1 & E2). rewrite (IH _ _ E2), (Put_bucket _ _ _ _ _ E1). clear IH E2.
  destruct (String.eqb_spec n c) as [->|Hne]; rewrite elem_of_cons; [|naive_solver].
  destruct (decide (k = id)) as [->|Hk]; [rewrite lookup_insert_eq; naive_solver|rewrite lookup_insert_ne by done; naive_solver].
Qed.

(** One peer written: its row is set, its categories are entered, the other rows
    and categories stay. *)
Lemma write_peer_spec now db seen p db' seen' : write_peer resolve now (db, seen) p = Ok (db', seen') →
  bucket db' peerBucketName = <[peer_id p := json_Marshal p]> (bucket db peerBucketName) ∧
  (∀ n k, n ∈ peerCategoryIndexNames → is_Some (bucket db' n !! k) ↔
     is_Some (bucket db n !! k) ∨ (n ∈ peerCategories p now ∧ k = peer_id p)).
Proof.
  unfold write_peer. intros E. apply res_bind_ok in E as (b1 & E1 & E). apply res_bind_ok in E as (b2 & E2 & E).
  apply res_bind_ok in E as ([b3 s3] & E3 & E). apply res_bind_ok in E as (b4 & E4 & [= <- <-]). fold (peer_id p) in *.
  assert (S1 : same [peerNameIndexName] db b1).
  { repeat case_match; (eapply Delete_same; [eassumption|by left]) || by injection E1 as <-. }
  assert (S3 : same [peerDiversityIndexName] b2 b3).
  { case_match; [|by injection E3 as <- <-]. apply (cover_keys_same [peerDiversityIndexName]) in E3; [done|by left]. }
  assert (S2 : bucket b2 peerBucketName = <[peer_id p := json_Marshal p]> (bucket b1 peerBucketName) ∧
    same [peerBucketName; peerNameIndexName] b1 b2).
  { destruct (String.eqb_spec (default "" (bucket db peerBucketName !! peer_id p)) (json_Marshal p)) as [Ed|Ed]; cbn [negb] in E2.
    - injection E2 as <-. split; [|apply same_refl]. rewrite (S1 peerBucketName) by (intros Hx; apply list_elem_of_singleton in Hx; done).
      destruct (bucket db peerBucketName !! peer_id p) as [v|] eqn:Ev; cbn in Ed; [|by destruct (json_text p)].
      subst v. by rewrite insert_id.
    - apply res_bind_ok in E2 as (b & Ep & E2).
      assert (Hb : same [peerNameIndexName] b b2).
      { clear E1 E3 E4 S3. case_match; [eapply Put_same; [eassumption|by left]|by injection E2 as <-]. }
      rewrite (Hb peerBucketName) by (intros Hx; apply list_elem_of_singleton in Hx; done).
      split; [by rewrite (Put_bucket _ _ _ _ _ Ep), String.eqb_refl|].
      eapply same_trans; [eapply Put_same; [exact Ep|by left]|]. intros n Hn. apply Hb. set_solver. }
  destruct S2 as [Hrow S2].
  assert (S4 : same peerCategoryIndexNames b3 b4).
  { eapply fold_res_same; [|exact E4]. intros ? c ? Hc Hp. eapply Put_same; [exact Hp|by eapply peerCategories_sub]. }
  split.
  - rewrite (S4 peerBucketName), (S3 peerBucketName), Hrow, (S1 peerBucketName); [done|..];
      intros Hx; apply list_elem_of_In in Hx; cbn in Hx; repeat destruct Hx as [Hx|Hx]; done.
  - intros n k Hn. rewrite (put_categories_spec _ _ _ _ E4). fold (peer_id p).
    rewrite (S3 n), (S2 n), (S1 n); [done|..]; intros Hx; apply list_elem_of_In in Hn; apply list_elem_of_In in Hx; cbn in Hn, Hx;
      repeat destruct Hn as [<-|Hn]; repeat destruct Hx as [Hx|Hx]; done.
Qed.

(** All selected peers written. *)
Lemma write_peers_spec now sel : NoDup (peer_id <$> sel) → ∀ st st', fold_res (write_peer resolve now) sel st = Ok st' →
  (∀ k v, bucket st'.1 peerBucketName !! k = Some v ↔
     (k, v) ∈ row_of <$> sel ∨ (k ∉ peer_id <$> sel ∧ bucket st.1 peerBucketName !! k = Some v)) ∧
  (∀ n k, n ∈ peerCategoryIndexNames → is_Some (bucket st'.1 n !! k) ↔
     is_Some (bucket st.1 n !! k) ∨ ∃ p, p ∈ sel ∧ n ∈ peerCategories p now ∧ k = peer_id p).
Proof.
  induction sel as [|p sel IH]; intros Hnd st st' E; cbn in E.
  { injection E as <-. split; [intros k v|intros n k _]; set_solver. }
  apply NoDup_cons in Hnd as [Hp Hnd]. fold (fmap peer_id sel) in *.
  apply res_bind_ok in E as (m & E1 & E2). destruct (IH Hnd _ _ E2) as [HR HC]. clear IH E2.
  destruct st as [db seen], m as [b s]. destruct (write_peer_spec _ _ _ _ _ _ E1) as [WR WC]. cbn [fst] in *. split.
  - intros k v. rewrite HR, WR, lookup_insert_Some, !fmap_cons, not_elem_of_cons, elem_of_cons. unfold row_of at 2.
    assert ((k, v) = (peer_id p, json_Marshal p) ↔ peer_id p = k ∧ json_Marshal p = v) as -> by naive_solver.
    split; [naive_solver|]. intros [[[<- <-]|?]|[[? ?] ?]]; [right; naive_solver|by left|right; naive_solver].
  - intros n k Hn. rewrite HC, WC by done. split.
    + intros [[?|[? ->]]|(q & ? & ?)]; [by left|right; exists p; split; [by left|done]|right; exists q; split; [by right|done]].
    + intros [?|(q & [->|Hq]%elem_of_cons & ? & ->)]; [by left; left|left; by right|right; eauto].
Qed.

Lemma clear_all_spec names : ∀ db db', fold_res Clear names db = Ok db' →
  ∀ n, bucket db' n = if bool_decide (n ∈ names) then ∅ else bucket db n.
Proof.
  induction names as [|m names IH]; intros db db' E n; cbn in E; [by injection E as <-|].
  apply res_bind_ok in E as (b & E1 & E2). rewrite (IH _ _ E2), (Clear_bucket _ _ _ E1).
  destruct (String.eqb_spec n m) as [->|]; repeat case_bool_decide; set_solver.
Qed.

(** The transaction leaves the selected peers as the only rows, and every
    category index with exactly its members. *)
Lemma save_tx_spec sel now db db' : NoDup (peer_id <$> sel) → save_tx resolve sel now db = Ok db' →
  bucket db' peerBucketName = list_to_map (row_of <$> sel) ∧
  (∀ n k, n ∈ peerCategoryIndexNames → is_Some (bucket db' n !! k) ↔ ∃ p, p ∈ sel ∧ n ∈ peerCategories p now ∧ k = peer_id p).
Proof.
  intros Hnd E. unfold save_tx in E. apply res_bind_ok in E as (b1 & E1 & E). apply res_bind_ok in E as (b2 & E2 & E).
  apply res_bind_ok in E as (b3 & E3 & E). apply res_bind_ok in E as (b4 & E4 & E).
  apply res_bind_ok in E as ([b5 s5] & E5 & [= <-]). destruct (write_peers_spec _ _ Hnd _ _ E5) as [HR HC]. cbn [fst] in *.
  pose proof (delete_rows_spec _ _ _ _ E4) as HD.
  assert (S3 : same [peerNameIndexName] b2 b3).
  { eapply fold_res_same; [|exact E3]. intros ? [k v] ? _. unfold drop_stale_name. intros Hd.
    repeat case_match; simplify_eq; try apply same_refl; eapply Delete_same; [eassumption|by left]. }
  assert (S4 : same [peerBucketName] b3 b4).
  { eapply fold_res_same; [|exact E4]. intros ? [k v] ? _. cbn. case_bool_decide; [by intros [= <-]|].
    intros Hd. eapply Delete_same; [exact Hd|by left]. }
  split.
  - apply map_eq. intros k. apply option_eq. intros v. rewrite HR, <- elem_of_list_to_map by (by rewrite <- list_fmap_compose).
    split; [|by left]. intros [?|[Hk Hv]]; [done|exfalso]. apply HD in Hv as [Hv Hout].
    destruct Hout as [Hin|Hout]; [by apply Hk; apply elem_of_list_to_set in Hin|]. apply Hout.
    rewrite (S3 peerBucketName) in Hv by (intros Hx; apply list_elem_of_singleton in Hx; done).
    apply list_elem_of_fmap. exists (k, v). split; [done|by apply rows_elem].
  - intros n k Hn. destruct (category_names n Hn) as (N1 & N2 & _). rewrite HC by done.
    rewrite (S4 n), (S3 n), (Clear_bucket _ _ _ E2), (clear_all_spec _ _ _ E1), bool_decide_true by (by rewrite ?list_elem_of_singleton).
    assert (Hno : ∀ c : bool, ¬ is_Some ((if c then ∅ else ∅ : gmap string string) !! k)) by (intros []; rewrite lookup_empty; intros [? ?]; done).
    specialize (Hno (n =?s peerDiversityIndexName)). tauto.
Qed.

(** The order of a [range] over a map is arbitrary. *)
Context (iterate : gmap string PeerObservation → list PeerObservation).
Hypothesis iterate_perm : ∀ m, iterate m ≡ₚ (map_to_list m).*2.

(** The peers a snapshot selects. *)
Definition snapshot_selection (peers : list PeerObservation) (now : Z) (db : B) : list PeerObservation :=
  selectPeerRetention resolve
    (List.filter (fun peer => negb (row_expired peerHistoryTTL now peer))
      (sort_Slice peerRetentionLess (iterate (merge_snapshot (loadAll db) peers)))) peerCacheHotLimit.

Lemma snapshot_eligible peers now db p :
  p ∈ List.filter (fun peer => negb (row_expired peerHistoryTTL now peer))
        (sort_Slice peerRetentionLess (iterate (merge_snapshot (loadAll db) peers))) ↔
  row_expired peerHistoryTTL now p = false ∧ ∃ k, merge_snapshot (loadAll db) peers !! k = Some p.
Proof.
  rewrite list_elem_of_In, filter_In, <- list_elem_of_In, sort_Slice_perm, iterate_perm, negb_true_iff, list_elem_of_fmap.
  split.
  - intros [([k q] & -> & Hq%elem_of_map_to_list) ?]. eauto.
  - intros [? [k Hk]]. split; [|done]. exists (k, p). split; [done|by apply elem_of_map_to_list].
Qed.

Lemma SaveSnapshot_ok peers now db db' : SaveSnapshot resolve iterate peers now db = (Ok tt, db') →
  bucket db' peerBucketName = list_to_map (row_of <$> snapshot_selection peers now db) ∧
  (∀ n k, n ∈ peerCategoryIndexNames → is_Some (bucket db' n !! k) ↔
     ∃ p, p ∈ snapshot_selection peers now db ∧ n ∈ peerCategories p now ∧ k = peer_id p).
Proof.
  unfold SaveSnapshot, Update. fold (snapshot_selection peers now db). intros E.
  destruct (save_tx _ _ _ _ ≫= commit) as [d|e|] eqn:Es; simplify_eq. apply res_bind_ok in Es as (d & Es & Hc).
  destruct (retention_spec resolve (List.filter (fun peer => negb (row_expired peerHistoryTTL now peer))
    (sort_Slice peerRetentionLess (iterate (merge_snapshot (loadAll db) peers)))) peerCacheHotLimit) as (Hnd & _); [done|].
  destruct (save_tx_spec _ _ _ _ Hnd Es) as [HR HC]. split; [by rewrite (commit_bucket _ _ Hc)|].
  intros n k Hn. rewrite (commit_bucket _ _ Hc). by apply HC.
Qed.

(** What a merged observation keeps of the stored one. *)
Definition carries (p q : PeerObservation) : Prop :=
  (o_Friend p = true → o_Friend q = true) ∧ o_UseCount p <= o_UseCount q ∧ o_LastUsed p <= o_LastUsed q.
Lemma with_prior_carries peer old p : carries p old → carries p (with_prior peer old).
Proof.
  intros (F & U & L). unfold carries, with_prior, After. cbn. split_and!.
  - intros ?. by rewrite F, orb_true_r.
  - destruct (Z.ltb_spec (o_UseCount peer) (o_UseCount old)); lia.
  - destruct (Z.ltb_spec (o_LastUsed peer) (o_LastUsed old)); lia.
Qed.

(** Every row is stored under the ID of its peer. *)
Definition rows_wf (db : B) : Prop :=
  ∀ k v p, bucket db peerBucketName !! k = Some v → json_Unmarshal v = Some p → peer_id p = k.

Lemma loadAll_elem db p : p ∈ loadAll db ↔ ∃ k v, bucket db peerBucketName !! k = Some v ∧ json_Unmarshal v = Some p.
Proof.
  unfold loadAll. rewrite list_elem_of_omap. split.
  - intros ([k v] & Hk%rows_elem & Hp). eauto.
  - intros (k & v & Hk & Hp). exists (k, v). split; [by apply rows_elem|done].
Qed.
Lemma loadAll_wf db p q : rows_wf db → p ∈ loadAll db → q ∈ loadAll db → peer_id p = peer_id q → p = q.
Proof.
  intros W (k & v & Hv & Hp)%loadAll_elem (k' & v' & Hv' & Hq)%loadAll_elem E.
  pose proof (W _ _ _ Hv Hp). pose proof (W _ _ _ Hv' Hq). congruence.
Qed.

Lemma prior_lookup l p : p ∈ l → (∀ q, q ∈ l → peer_id q = peer_id p → q = p) → ∀ m : gmap string PeerObservation,
  fold_left (fun m (peer : PeerObservation) => <[n_ID (o_Node peer) := peer]> m) l m !! peer_id p = Some p.
Proof.
  intros Hp Hu m. assert (Hg : ∀ m : gmap string PeerObservation, m !! peer_id p = Some p ∨ p ∈ l →
    fold_left (fun m (peer : PeerObservation) => <[n_ID (o_Node peer) := peer]> m) l m !! peer_id p = Some p); [|by apply Hg; right].
  clear Hp m. induction l as [|q l IH]; intros m Hm; cbn [fold_left]; [by destruct Hm as [?|?%elem_of_nil]|].
  apply IH; [intros ? ?; apply Hu; by right|]. fold (peer_id q). destruct (decide (peer_id q = peer_id p)) as [E|E].
  - left. rewrite E, lookup_insert_eq. f_equal. apply Hu; [by left|done].
  - rewrite lookup_insert_ne by done. destruct Hm as [?|[->|?]%elem_of_cons]; [by left|done|by right].
Qed.

Definition addressed (q : PeerObservation) : Prop := n_Addr (o_Node q) ≠ "".

(** The merged map: its keys are the IDs of its peers, and a stored peer is
    carried by its entry. *)
Lemma merge_lookup peers p : ∀ m : gmap string PeerObservation,
  (∀ q, q ∈ peers → peer_id q = peer_id p → addressed q) →
  (∃ q, m !! peer_id p = Some q ∧ peer_id q = peer_id p ∧ carries p q ∧ addressed q) →
  ∃ q, fold_left merge_peer peers m !! peer_id p = Some q ∧ peer_id q = peer_id p ∧ carries p q ∧ addressed q.
Proof.
  induction peers as [|r peers IH]; intros m Ha Hm; [done|]. cbn [fold_left]. apply IH; [intros ? ?; apply Ha; by right|].
  destruct Hm as (q & Hq & Eq & Hc & Hd). unfold merge_peer. fold (peer_id r).
  destruct (decide (peer_id r = peer_id p)) as [E|E].
  - rewrite E, Hq. exists (with_prior r q). split_and!; [|done|by apply with_prior_carries|apply (Ha r); [by left|done]].
    change (n_ID (o_Node (with_prior r q))) with (peer_id r). rewrite E. apply lookup_insert_eq.
  - exists q. split; [|done]. rewrite lookup_insert_ne; [done|]. by case_match.
Qed.

Definition keyed (m : gmap string PeerObservation) : Prop := ∀ k q, m !! k = Some q → peer_id q = k.
Lemma insert_keyed m q : keyed m → keyed (<[peer_id q := q]> m).
Proof. intros Hm k r. rewrite lookup_insert_Some. intros [[<- <-]|[_ ?]]; [done|by apply Hm]. Qed.
Lemma fold_keyed {A} (f : gmap string PeerObservation → A → gmap string PeerObservation) l :
  (∀ m a, keyed m → keyed (f m a)) → ∀ m, keyed m → keyed (fold_left f l m).
Proof. intros Hf. induction l as [|a l IH]; intros m Hm; [done|]. cbn. by apply IH, Hf. Qed.
Lemma merge_keyed prior peers : keyed (merge_snapshot prior peers).
Proof.
  apply fold_keyed; [intros m a Hm; apply (insert_keyed m (match m !! n_ID (o_Node a) with Some old => with_prior a old | None => a end)), Hm|].
  apply fold_keyed; [intros m a Hm; by apply (insert_keyed m a)|]. intros k q. by rewrite lookup_empty.
Qed.

(** A friend in the store, with the uses recorded there, outlives a snapshot of
    a node that does not know of it: its row and its entry in the friend index
    are there afterwards, unless 512 other friends fill the store.  The snapshot
    itself is all or nothing. *)
Theorem friends_survive_snapshot peers now db p :
  rows_wf db → p ∈ loadAll db → o_Friend p = true → peer_id p ≠ "" → addressed p →
  (∀ q, q ∈ peers → peer_id q = peer_id p → addressed q) →
  match SaveSnapshot resolve iterate peers now db with
  | (Ok _, db') =>
      (∃ q, bucket db' peerBucketName !! peer_id p = Some (json_Marshal q) ∧ peer_id q = peer_id p ∧ carries p q ∧
            is_Some (bucket db' peerFriendIndexName !! peer_id p)) ∨
      (size (bucket db' peerBucketName) = 512%nat ∧ Forall (fun q => o_Friend q = true) (snapshot_selection peers now db))
  | (_, db') => db' = db
  end.
Proof.
  intros W Hp Hf Hid Ha Hq. destruct (SaveSnapshot _ _ _ _ _) as [[[]|e|] db'] eqn:E;
    [|unfold SaveSnapshot, Update in E; by case_match; simplify_eq..].
  destruct (SaveSnapshot_ok _ _ _ _ E) as [HR HC].
  destruct (retention_spec resolve (List.filter (fun peer => negb (row_expired peerHistoryTTL now peer))
    (sort_Slice peerRetentionLess (iterate (merge_snapshot (loadAll db) peers)))) peerCacheHotLimit) as (Hnd & Hsub & Hlen & _ & Hfr); [done|].
  fold (snapshot_selection peers now db) in *.
  assert (Hm : ∃ q, merge_snapshot (loadAll db) peers !! peer_id p = Some q ∧ peer_id q = peer_id p ∧ carries p q ∧ addressed q).
  { apply merge_lookup; [done|]. exists p. split_and!; [|done|by split_and!|done]. apply prior_lookup; [done|]. intros; by apply (loadAll_wf db). }
  destruct Hm as (q & Hm & Eq & Hc & Hd).
  assert (Hel : q ∈ List.filter (fun peer => negb (row_expired peerHistoryTTL now peer))
    (sort_Slice peerRetentionLess (iterate (merge_snapshot (loadAll db) peers)))).
  { apply snapshot_eligible. split; [|by eexists]. unfold row_expired. fold (peer_id q).
    rewrite Eq, (proj1 Hc Hf), andb_false_r. destruct (String.eqb_spec (peer_id p) ""), (String.eqb_spec (n_Addr (o_Node q)) ""); done. }
  destruct (decide (peer_id q ∈ peer_id <$> snapshot_selection peers now db)) as [Hin|Hout].
  - left. apply list_elem_of_fmap in Hin as (r & Er & Hr).
    assert (r = q) as ->.
    { apply Hsub, snapshot_eligible in Hr as (_ & k & Hk). pose proof (merge_keyed _ _ _ _ Hk). congruence. }
    exists q. rewrite <- Eq. split_and!; [|done..|].
    + rewrite HR. apply elem_of_list_to_map; [by rewrite <- list_fmap_compose|]. apply list_elem_of_fmap. by exists q.
    + apply HC; [by left|]. exists q. split_and!; [done| |done]. unfold peerCategories. rewrite (proj1 Hc Hf). by left.
  - right. destruct (Hfr q Hel (proj1 Hc Hf) Hout) as [Hl Hall]. split; [|done]. rewrite HR, map_size_list_to_map.
    + rewrite length_fmap. unfold len in Hl. change peerCacheHotLimit with 512 in Hl. lia.
    + by rewrite <- list_fmap_compose.
Qed.

(** ** Loading *)
Notation values m := (map_to_list m).*2.

Lemma values_delete (m : gmap string PeerObservation) k q : m !! k = Some q → values m ≡ₚ q :: values (delete k m).
Proof. intros Hq. by rewrite <- (map_to_list_delete m k q Hq). Qed.

Lemma take_members_spec limit members : ∀ peers (byID : gmap string PeerObservation) peers' byID' full,
  (∀ p, p ∈ members → is_Some (byID !! peer_id p) → byID !! peer_id p = Some p) → len peers < limit →
  take_members limit members peers byID = (peers', byID', full) →
  peers' ++ values byID' ≡ₚ peers ++ values byID ∧ (if full then len peers' = limit else len peers' < limit) ∧ byID' ⊆ byID.
Proof.
  induction members as [|p members IH]; intros peers byID peers' byID' full Hm Hl E; cbn in E; [by simplify_eq|].
  fold (peer_id p) in E. case_bool_decide as Hs.
  - pose proof (values_delete _ _ _ (Hm p ltac:(by left) Hs)) as Hv.
    assert (Hperm : (peers ++ [p]) ++ values (delete (peer_id p) byID) ≡ₚ peers ++ values byID) by (rewrite Hv; solve_Permutation).
    assert (Hlen : len (peers ++ [p]) = len peers + 1) by (by rewrite len_app).
    destruct (Z.eqb_spec (len (peers ++ [p])) limit) as [El|El].
    + simplify_eq. split_and!; [done|done|apply delete_subseteq].
    + apply IH in E as (P & F & S); [|clear IH E|lia].
      * split_and!; [by rewrite P|done|]. etrans; [exact S|apply delete_subseteq].
      * intros q Hq [r Hr]. apply lookup_delete_Some in Hr as [Hne Hr]. rewrite lookup_delete_ne by done.
        apply Hm; [by right|by exists r].
  - apply IH in E as (P & F & S); [by split_and!| |done]. intros q Hq. apply Hm. by right.
Qed.

Lemma take_indexes_spec limit indexed : ∀ peers (byID : gmap string PeerObservation) peers' byID' full,
  keyed byID → len peers < limit → take_indexes limit indexed peers byID = (peers', byID', full) →
  peers' ++ values byID' ≡ₚ peers ++ values byID ∧ (if full then len peers' = limit else len peers' < limit).
Proof.
  induction indexed as [|ids indexed IH]; intros peers byID peers' byID' full Hk Hl E; cbn in E; [by simplify_eq|].
  destruct (take_members _ _ _ _) as [[p1 m1] f1] eqn:E1.
  apply take_members_spec in E1 as (P & F & S); [|clear E|done].
  - destruct f1; [by simplify_eq|]. apply IH in E as [P' F']; [|intros k q Hq; apply Hk; by eapply lookup_weaken|done].
    split; [by rewrite P'|done].
  - intros p Hp _. rewrite sort_Slice_perm, list_elem_of_omap in Hp. destruct Hp as (id & _ & Hid).
    by rewrite (Hk _ _ Hid).
Qed.

Lemma load_rows_keyed now db : keyed (load_rows now db).
Proof.
  apply fold_keyed; [|intros k q; by rewrite lookup_empty]. intros m a Hm. destruct (row_expired _ _ _); [done|by apply (insert_keyed m a)].
Qed.

Definition load_limit (limit : Z) : Z := if (limit <=? 0) || (peerCacheHotLimit <? limit) then peerCacheHotLimit else limit.
Lemma load_limit_pos limit : 0 < load_limit limit <= 512.
Proof.
  unfold load_limit. change peerCacheHotLimit with 512. destruct (Z.leb_spec limit 0), (Z.ltb_spec 512 limit); cbn; lia.
Qed.

(** The candidates are as many of the usable rows as the limit allows, each once. *)
Lemma LoadCandidates_spec now limit db :
  ∃ rest, LoadCandidates iterate now limit db ++ rest ≡ₚ values (load_rows now db) ∧
    len (LoadCandidates iterate now limit db) = Z.min (load_limit limit) (Z.of_nat (size (load_rows now db))).
Proof.
  unfold LoadCandidates. fold (load_limit limit). pose proof (load_limit_pos limit) as Hpos.
  destruct (take_indexes _ _ _ _) as [[peers byID] full] eqn:E.
  apply take_indexes_spec in E as [P F]; [|apply load_rows_keyed|unfold len; cbn; lia]. cbn [app] in P.
  assert (Hsz : len peers + Z.of_nat (size byID) = Z.of_nat (size (load_rows now db))).
  { apply Permutation_length in P. rewrite length_app, !length_fmap, !length_map_to_list in P. unfold len. lia. }
  destruct full; [exists (values byID); split; [done|lia]|].
  set (l := peers ++ sort_Slice peerRetentionLess (iterate byID)).
  assert (Hl : l ≡ₚ values (load_rows now db)) by (unfold l; by rewrite sort_Slice_perm, iterate_perm).
  exists (drop (Z.to_nat (load_limit limit)) l). rewrite take_drop. split; [done|].
  apply Permutation_length in Hl. rewrite length_fmap, length_map_to_list in Hl.
  unfold len. rewrite length_take, Hl. lia.
Qed.

Lemma load_fold now l : ∀ m : gmap string PeerObservation,
  fold_left (fun m peer => if row_expired peerAddressHintTTL now peer then m else <[n_ID (o_Node peer) := peer]> m) l m =
  fold_left (fun m (peer : PeerObservation) => <[n_ID (o_Node peer) := peer]> m)
    (List.filter (fun p => negb (row_expired peerAddressHintTTL now p)) l) m.
Proof. induction l as [|q l IH]; intros m; [done|]. cbn. rewrite IH. by destruct (row_expired _ _ q). Qed.
Lemma prior_elem l k p : ∀ m : gmap string PeerObservation,
  fold_left (fun m (peer : PeerObservation) => <[n_ID (o_Node peer) := peer]> m) l m !! k = Some p → p ∈ l ∨ m !! k = Some p.
Proof.
  induction l as [|q l IH]; intros m; cbn [fold_left]; [by right|]. intros [?|Hp]%IH; [left; by right|].
  apply lookup_insert_Some in Hp as [[_ ->]|[_ ?]]; [left; by left|by right].
Qed.
Lemma elem_of_List_filter {A} (f : A → bool) (x : A) l : x ∈ List.filter f l ↔ x ∈ l ∧ f x = true.
Proof. by rewrite !list_elem_of_In, filter_In. Qed.

Lemma load_rows_values now db p : rows_wf db →
  p ∈ values (load_rows now db) ↔ p ∈ loadAll db ∧ row_expired peerAddressHintTTL now p = false.
Proof.
  intros W. rewrite <- negb_true_iff, <- (elem_of_List_filter (fun p => negb (row_expired peerAddressHintTTL now p))).
  unfold load_rows. rewrite load_fold, list_elem_of_fmap. split.
  - intros ([k q] & -> & [?|Hq]%elem_of_map_to_list%prior_elem); [done|by rewrite lookup_empty in Hq].
  - intros Hp. exists (peer_id p, p). split; [done|]. apply elem_of_map_to_list, prior_lookup; [done|].
    intros q Hq. apply elem_of_List_filter in Hq as [Hq _]. apply elem_of_List_filter in Hp as [Hp _]. by apply (loadAll_wf db).
Qed.

Lemma keyed_values (m : gmap string PeerObservation) : keyed m → NoDup (peer_id <$> values m).
Proof.
  intros Hm. assert (peer_id <$> values m = (map_to_list m).*1) as ->; [|apply NoDup_fst_map_to_list].
  rewrite <- list_fmap_compose. apply list_fmap_ext. intros i [k q] Hi. cbn.
  apply Hm, elem_of_map_to_list. by eapply list_elem_of_lookup_2.
Qed.

Lemma NoDup_List_filter {A} (f : A → bool) l : NoDup l → NoDup (List.filter f l).
Proof. rewrite !NoDup_ListNoDup. apply List.NoDup_filter. Qed.
Lemma filter_all {A} (f : A → bool) l : (∀ x, x ∈ l → f x = true) → List.filter f l = l.
Proof. intros Hf. induction l as [|x l IH]; [done|]. cbn. rewrite Hf by (by left). f_equal. apply IH. intros; apply Hf; by right. Qed.

(** The history after a restart: the candidates loaded from a saved snapshot
    are the peers it selected, less those whose address has expired since, and
    the rows are again stored under the IDs of their peers. *)
Theorem peer_history_restart peers now db db' :
  SaveSnapshot resolve iterate peers now db = (Ok tt, db') →
  (∀ p, p ∈ snapshot_selection peers now db → json_safe p) →
  rows_wf db' ∧ len (snapshot_selection peers now db) <= 512 ∧
  (∀ now', LoadCandidates iterate now' 0 db' ≡ₚ
     List.filter (fun p => negb (row_expired peerAddressHintTTL now' p)) (snapshot_selection peers now db)) ∧
  LoadCandidates iterate now 0 db' ≡ₚ snapshot_selection peers now db.
Proof.
  intros E Hsafe. destruct (SaveSnapshot_ok _ _ _ _ E) as [HR _].
  destruct (retention_spec resolve (List.filter (fun peer => negb (row_expired peerHistoryTTL now peer))
    (sort_Slice peerRetentionLess (iterate (merge_snapshot (loadAll db) peers)))) peerCacheHotLimit) as (Hnd & Hsub & Hlen & _); [done|].
  fold (snapshot_selection peers now db) in *. set (sel := snapshot_selection peers now db) in *.
  assert (Hrow : ∀ k v, bucket db' peerBucketName !! k = Some v ↔ ∃ p, p ∈ sel ∧ k = peer_id p ∧ v = json_Marshal p).
  { intros k v. rewrite HR, <- elem_of_list_to_map by (by rewrite <- list_fmap_compose).
    rewrite list_elem_of_fmap. unfold row_of. naive_solver. }
  assert (W : rows_wf db').
  { intros k v p (q & Hq & -> & ->)%Hrow Hp. rewrite json_Unmarshal_Marshal in Hp by auto. by simplify_eq. }
  assert (HA : ∀ p, p ∈ loadAll db' ↔ p ∈ sel).
  { intros p. rewrite loadAll_elem. split.
    - intros (k & v & (q & Hq & -> & ->)%Hrow & Hp). rewrite json_Unmarshal_Marshal in Hp by auto. by simplify_eq.
    - intros Hp. exists (peer_id p), (json_Marshal p). split; [apply Hrow; eauto|]. apply json_Unmarshal_Marshal. auto. }
  assert (HL : ∀ now', LoadCandidates iterate now' 0 db' ≡ₚ List.filter (fun p => negb (row_expired peerAddressHintTTL now' p)) sel).
  { intros now'. destruct (LoadCandidates_spec now' 0 db') as (rest & HP & Hn).
    assert (HV : values (load_rows now' db') ≡ₚ List.filter (fun p => negb (row_expired peerAddressHintTTL now' p)) sel).
    { apply NoDup_Permutation; [eapply NoDup_fmap_1, keyed_values, load_rows_keyed|by apply NoDup_List_filter, (NoDup_fmap_1 peer_id)|].
      intros p. by rewrite load_rows_values, elem_of_List_filter, HA, negb_true_iff. }
    assert (len (LoadCandidates iterate now' 0 db') = len (values (load_rows now' db'))) as Hfull.
    { unfold len at 2. rewrite Hn, length_fmap, length_map_to_list. apply Z.min_r.
      apply Permutation_length in HV. rewrite length_fmap, length_map_to_list in HV. rewrite HV.
      pose proof (filter_length_le (fun p => negb (row_expired peerAddressHintTTL now' p)) sel). unfold len in Hlen.
      change (load_limit 0) with 512. change peerCacheHotLimit with 512 in Hlen. lia. }
    rewrite <- HV, <- HP. apply Permutation_length in HP. rewrite length_app in HP. unfold len in Hfull.
    destruct rest; [by rewrite app_nil_r|cbn in HP; lia]. }
  split_and!; [done..|]. rewrite HL. apply reflexive_eq, filter_all.
  intros p Hp%Hsub. apply snapshot_eligible in Hp as [Hp _]. change peerAddressHintTTL with peerHistoryTTL. by rewrite Hp.
Qed.
End Snapshot.

(** ** A database in memory *)
#[export] Program Instance demo_Bolt : Bolt (gmap string (gmap string string)) := {|
  bucket b n := default ∅ (b !! n);
  Put b n k v := if k =?s "" then Err "key required" else Ok (<[n := <[k := v]> (default ∅ (b !! n))]> b);
  Delete b n k := Ok (<[n := delete k (default ∅ (b !! n))]> b);
  Clear b n := Ok (<[n := ∅]> b);
  commit b := Ok b;
|}.
Ltac bolt_law := intros; cbv beta in *; repeat case_match; simplify_eq;
  repeat match goal with
         | E : (_ =?s _) = true |- _ => apply String.eqb_eq in E; subst
         | E : (_ =?s _) = false |- _ => apply String.eqb_neq in E
         end; by rewrite ?lookup_insert_eq, ?lookup_insert_ne.
Next Obligation. bolt_law. Qed.
Next Obligation. bolt_law. Qed.
Next Obligation. bolt_law. Qed.
Next Obligation. by intros b b' [= <-]. Qed.
Next Obligation. intros b n k v Hk _ _. cbn. by destruct (String.eqb_spec k ""). Qed.
Next Obligation. done. Qed.
Next Obligation. done. Qed.

Definition int_fields (p : PeerObservation) : list Z :=
  [n_IdentityVersion (o_Node p); n_IdentitySequence (o_Node p); o_FailCount p; o_SuccessCount p; o_LastSeen p; o_FirstSeen p;
   o_LastSuccess p; o_LastUsed p; o_LastFailure p; o_LastProbe p; o_LastProbeFailure p; o_OfflineSince p; o_ProbeMisses p;
   o_ProbationUntil p; o_NextProbeAt p; o_RTTMicros p; o_UseCount p; o_ClosestIDRank p; o_ClosestNameRank p].
#[export] Instance demo_JSON_observation : JSON PeerObservation.
Proof.
  refine (demo_JSON 29
    (fun p => (int_field <$> int_fields p) ++ [bool_str (o_Pinned p); bool_str (o_Friend p)] ++
       (let n := o_Node p in [n_ID n; n_Name n; n_NameHash n; n_Addr n; n_PublicKey n; n_IdentityIssuedAt n; n_IdentityExpiresAt n;
          n_IdentitySignature n]))
    (fun l => match l with
              | [v; q; a; b; c; d; e; f; g; h; i; j; k; m; n; r; u; x; y; pin; fr; id; nm; nh; ad; pk; ia; ea; sg] =>
                  let z := field_int in
                  Some (mkObservation (mkNodeInfo (z v) (z q) id nm nh ad pk ia ea sg) (z a) (z b) (z c) (z d) (z e) (z f) (z g) (z h)
                    (z i) (z j) (z k) (z m) (z n) (z r) (demo_flag pin) (demo_flag fr) (z u) (z x) (z y))
              | _ => None
              end)
    (fun p => Forall (fun z => 0 <= z < 2 ^ 64) (int_fields p)) _ _); [done|].
  intros [[] ? ? ? ? ? ? ? ? ? ? ? ? ? ? [] [] ? ? ?] Hs; unfold int_fields in *; cbn -[int_field field_int Z.pow] in *;
    repeat (apply Forall_cons in Hs as [? Hs]); by rewrite !field_int_field by done.
Defined.

Definition no_asn (_ : string) : option string := None.
Definition in_order (m : gmap string PeerObservation) : list PeerObservation := (map_to_list m).*2.
Definition observed (node : NodeInfo) : PeerObservation :=
  mkObservation node 0 1 t0 t0 t0 0 0 0 0 0 0 0 0 0 false false 0 0 0.

(** Node a is made a friend from the command line; the running node knows only b. *)
Definition friend_db : gmap string (gmap string string) := (PeerStore_SetFriend node_a true t0 ∅).2.
Definition friend_peer : PeerObservation := friend_row node_a true t0 zero_observation.
Definition friend_saved : res unit * gmap string (gmap string string) :=
  SaveSnapshot no_asn in_order [observed node_b] (t0 + Hour) friend_db.

Lemma demo_json_text (p : PeerObservation) : json_Marshal p ≠ "".
Proof. cbn -[hex_encode]. by destruct (hex_encode _). Qed.

Lemma friends_survive_snapshot_witness :
  friend_saved.1 = Ok tt ∧
  match friend_saved with
  | (Ok _, db') =>
      (∃ q, bucket db' peerBucketName !! id_a = Some (json_Marshal q) ∧ peer_id q = id_a ∧ carries friend_peer q ∧
            is_Some (bucket db' peerFriendIndexName !! id_a)) ∨
      (size (bucket db' peerBucketName) = 512%nat ∧
       Forall (fun q => o_Friend q = true) (snapshot_selection no_asn in_order [observed node_b] (t0 + Hour) friend_db))
  | (_, db') => db' = friend_db
  end.
Proof.
  split; [vm_compute; reflexivity|].
  apply (friends_survive_snapshot no_asn demo_json_text in_order (fun m => Permutation_refl _) [observed node_b] (t0 + Hour) friend_db friend_peer).
  - intros k v p Hk Hp. assert (bucket friend_db peerBucketName = {[ id_a := json_Marshal friend_peer ]}) as E by (vm_compute; reflexivity).
    rewrite E in Hk. apply lookup_singleton_Some in Hk as [<- <-].
    assert (json_Unmarshal (json_Marshal friend_peer) = Some friend_peer) as E' by (vm_compute; reflexivity).
    rewrite E' in Hp. by injection Hp as <-.
  - assert (loadAll friend_db = [friend_peer]) as -> by (vm_compute; reflexivity). by left.
  - reflexivity.
  - discriminate.
  - discriminate.
  - intros q Hq Eq. apply list_elem_of_singleton in Hq as ->. discriminate.
Defined.

Lemma peer_history_restart_witness :
  rows_wf friend_saved.2 ∧ len (snapshot_selection no_asn in_order [observed node_b] (t0 + Hour) friend_db) <= 512 ∧
  (∀ now', LoadCandidates in_order now' 0 friend_saved.2 ≡ₚ
     List.filter (fun p => negb (row_expired peerAddressHintTTL now' p))
       (snapshot_selection no_asn in_order [observed node_b] (t0 + Hour) friend_db)) ∧
  LoadCandidates in_order (t0 + Hour) 0 friend_saved.2 ≡ₚ snapshot_selection no_asn in_order [observed node_b] (t0 + Hour) friend_db.
Proof.
  apply (peer_history_restart no_asn demo_json_text in_order (fun m => Permutation_refl _) [observed node_b] (t0 + Hour) friend_db friend_saved.2).
  - vm_compute. reflexivity.
  - assert (snapshot_selection no_asn in_order [observed node_b] (t0 + Hour) friend_db = [friend_peer; observed node_b]) as ->
      by (vm_compute; reflexivity).
    intros p [->| ->%list_elem_of_singleton]%elem_of_cons; repeat constructor; vm_compute; done.
Defined.
